(** * Quest file subsystem of phantasmal-world: QST container, NPC identity
      tables and the quest assembly layer

    Shallow embedding of
    - [src/core/data_formats/parsing/quest/index.ts] (parse_quest,
      write_quest_qst, get_episode, get_npc_type, npcs_to_dat_data,
      npc_type_to_dat_data, ...), and
    - the QST container code that follows it in the same file (parseQst,
      writeQst, parseHeaders, parseFiles, writeFileHeaders, writeFileChunks,
      writeFileChunk).

    JavaScript numbers that the code only stores or compares as floating
    point values are binary64 floats ([PrimFloat.float]); numbers the code
    uses as integers (type codes, roaming values, area ids, labels, opcode
    arguments, sizes) are [Z] or [nat].  An exception raised with [throw]
    is the [Throw] constructor of [result]; the logger is an explicit list
    of log entries.  The BufferCursor objects that the files given to
    writeQst refer to are kept in an explicit store: writeFileChunk
    advances them in place, and two files may refer to one object. *)

From Stdlib Require Import ZArith List Bool Lia Permutation.
From Stdlib Require Import Strings.String Strings.Ascii Strings.Byte.
From Stdlib Require Import Floats.PrimFloat Floats.SpecFloat Floats.FloatOps.
From stdpp Require Import base option list gmap strings pretty.

Local Open Scope Z_scope.

(** ** Exceptions and the logger *)

Inductive Error : Set :=
  | UnexpectedNpcType (member : string)
      (* throw new Error(`Unexpected type ${NpcType[type]}.`) *)
  | NameTooLong (name : string)
  | Name2TooLong (name name2 : string)
  | SizeMismatch (expected got : nat)
      (* `Expected a final file size of ${totalSize}, but got ${cursor.size}.` *)
  | ChunkSizeMismatch (read : Z)
      (* `Read ${n} file chunk message bytes instead of expected 1056.` *)
  | OutOfBounds (offset : Z)
  | ReduceOfEmptyArray
  | CollaboratorError (msg : string).

Inductive result (A : Type) : Type :=
  | Ok (a : A)
  | Throw (e : Error).
Arguments Ok {A} a.
Arguments Throw {A} e.

Definition rbind {A B} (r : result A) (k : A -> result B) : result B :=
  match r with
  | Ok a => k a
  | Throw e => Throw e
  end.

Notation "x <-! r ; k" := (rbind r (fun x => k))
  (at level 100, r at next level, right associativity, only parsing).

(** [Array.prototype.map] with a callback that may throw: the first
    exception, in index order, leaves the map. *)
Fixpoint map_result {A B} (f : A -> result B) (l : list A) : result (list B) :=
  match l with
  | [] => Ok []
  | a :: l' =>
      b <-! f a ;
      bs <-! map_result f l' ;
      Ok (b :: bs)
  end.

Inductive Level : Set := Debug | Warn | Err.

Record LogEntry : Set := { level : Level; message : string }.

Definition Log := list LogEntry.

(** ** Numbers *)

Module Js.
Local Open Scope float_scope.

(** [sign], biased exponent and mantissa fields of a binary32 pattern. *)
Definition two23 : Z := 0x800000.
Definition two31 : Z := 0x80000000.
Definition two32 : Z := 0x100000000.

(** [DataView.setFloat32(0, x)] followed by [getUint32(0)]: the binary32
    pattern of [x] rounded to nearest, ties to even. *)
Definition sign_bit (s : bool) : Z := if s then two31 else 0%Z.

Definition f32_bits_of_spec (f : spec_float) : Z :=
  match f with
  | S754_zero s => sign_bit s
  | S754_infinity s => (sign_bit s + 0x7F800000)%Z
  | S754_nan => 0x7FC00000%Z
  | S754_finite s m e =>
      if (Z.pos m <? two23)%Z
      then (sign_bit s + Z.pos m)%Z
      else (sign_bit s + (e + 150) * two23 + (Z.pos m - two23))%Z
  end.

Definition round_to_f32 (f : spec_float) : spec_float :=
  match f with
  | S754_finite s m e => binary_round 24 128 s m e
  | _ => f
  end.

Definition getUint32_of_setFloat32 (x : float) : Z :=
  f32_bits_of_spec (round_to_f32 (Prim2SF x)).

(** [DataView.setUint32(0, bits)] followed by [getFloat32(0)]. *)
Definition spec_of_f32_bits (bits : Z) : spec_float :=
  let s := (two31 <=? bits)%Z in
  let e := ((bits / two23) mod 256)%Z in
  let m := (bits mod two23)%Z in
  if (e =? 255)%Z then (if (m =? 0)%Z then S754_infinity s else S754_nan)
  else if (e =? 0)%Z then
    match m with
    | Z.pos p => S754_finite s p (-149)
    | _ => S754_zero s
    end
  else
    match (m + two23)%Z with
    | Z.pos p => S754_finite s p (e - 150)
    | _ => S754_zero s
    end.

Definition getFloat32_of_setUint32 (bits : Z) : float :=
  SF2Prim (spec_of_f32_bits (bits mod two32)).

(** [ToInt32] and [ToUint32] of an integer. *)
Definition to_uint32 (n : Z) : Z := (n mod two32)%Z.
Definition to_int32 (n : Z) : Z :=
  let u := to_uint32 n in if (u <? two31)%Z then u else (u - two32)%Z.

(** [Math.abs(x)], [x - y], [x > y]. *)
Definition Math_abs (x : float) : float := PrimFloat.abs x.

(** [Math.round]: nearest integer, ties towards +infinity; NaN,
    infinities and zeros are returned as they are, and a result of zero
    keeps the sign of the argument. *)
Definition Math_round (x : float) : float :=
  match Prim2SF x with
  | S754_finite s m e =>
      if (0 <=? e)%Z then x
      else
        let n := if s then Z.neg m else Z.pos m in
        let q := ((2 * n + 2 ^ (- e)) / 2 ^ (1 - e))%Z in
        match q with
        | Z0 => if s then (-0) else 0
        | _ => SF2Prim (binary_normalize 53 1024 q 0 false)
        end
  | _ => x
  end.

(** SameValueZero, the equality of [Set] and [Map] keys. *)
Definition same_value_zero (x y : float) : bool :=
  PrimFloat.eqb x y || (PrimFloat.is_nan x && PrimFloat.is_nan y).
End Js.
(** ** Entities of the DAT file and of a quest *)

Module Vec3.
Record t : Set := { x : float; y : float; z : float }.
End Vec3.

(** [DatNpc] of dat.ts, with the fields that index.ts reads and writes. *)
Module DatNpc.
Record t : Set := {
  type_id : Z;
  section_id : Z;
  position : Vec3.t;
  rotation : Vec3.t;
  scale : Vec3.t;
  npc_id : float;
  script_label : float;
  roaming : Z;
  area_id : Z;
  unknown : list (list Z)
}.
End DatNpc.

Inductive NpcType : Set :=
  | Unknown
  | FemaleFat
  | FemaleMacho
  | FemaleTall
  | MaleDwarf
  | MaleFat
  | MaleMacho
  | MaleOld
  | BlueSoldier
  | RedSoldier
  | Principal
  | Tekker
  | GuildLady
  | Scientist
  | Nurse
  | Irene
  | ItemShop
  | Nurse2
  | Hildebear
  | Hildeblue
  | RagRappy
  | AlRappy
  | Monest
  | SavageWolf
  | BarbarousWolf
  | Booma
  | Gobooma
  | Gigobooma
  | Dragon
  | GrassAssassin
  | PoisonLily
  | NarLily
  | NanoDragon
  | EvilShark
  | PalShark
  | GuilShark
  | PofuillySlime
  | PouillySlime
  | PanArms
  | DeRolLe
  | Dubchic
  | Gilchic
  | Garanz
  | SinowBeat
  | SinowGold
  | Canadine
  | Canane
  | Dubswitch
  | VolOpt
  | Delsaber
  | ChaosSorcerer
  | DarkGunner
  | ChaosBringer
  | DarkBelra
  | Dimenian
  | LaDimenian
  | SoDimenian
  | Bulclaw
  | Claw
  | DarkFalz
  | Hildebear2
  | Hildeblue2
  | RagRappy2
  | LoveRappy
  | Monest2
  | PoisonLily2
  | NarLily2
  | GrassAssassin2
  | Dimenian2
  | LaDimenian2
  | SoDimenian2
  | DarkBelra2
  | BarbaRay
  | SavageWolf2
  | BarbarousWolf2
  | PanArms2
  | Dubchic2
  | Gilchic2
  | Garanz2
  | Dubswitch2
  | Delsaber2
  | ChaosSorcerer2
  | GolDragon
  | SinowBerill
  | SinowSpigell
  | Merillia
  | Meriltas
  | Mericarol
  | Mericus
  | Merikle
  | UlGibbon
  | ZolGibbon
  | Gibbles
  | Gee
  | GiGue
  | GalGryphon
  | Deldepth
  | Delbiter
  | Dolmolm
  | Dolmdarl
  | Morfos
  | Recobox
  | Epsilon
  | SinowZoa
  | SinowZele
  | IllGill
  | DelLily
  | OlgaFlow
  | SandRappy
  | DelRappy
  | Astark
  | SatelliteLizard
  | Yowie
  | MerissaA
  | MerissaAA
  | Girtablulu
  | Zu
  | Pazuzu
  | Boota
  | ZeBoota
  | BaBoota
  | Dorphon
  | DorphonEclair
  | Goran
  | PyroGoran
  | GoranDetonator
  | SaintMilion
  | Shambertin
  | Kondrieu
  | OtherNpcType (member : string).


(** Modelled from the spec: the declaration of the enum [NpcType]
    (npc_types.ts) is not part of the sources.  Its members named in
    index.ts are the constructors above; every other member of the enum
    (the comment above get_npc_type lists Mothmant, St. Rappy, Hallo Rappy,
    Egg Rappy, Death Gunner, Bulk and Recon as not yet detected, and
    VolOptPart1 is commented out) is [OtherNpcType] with its name, which is
    what the [default:] branch of npc_type_to_dat_data receives. *)


Module QuestNpc.
Record t : Set := {
  type : NpcType;
  area_id : Z;
  section_id : Z;
  position : Vec3.t;
  rotation : Vec3.t;
  scale : Vec3.t;
  unknown : list (list Z);
  pso_type_id : Z;
  npc_id : float;
  script_label : float;
  roaming : Z
}.
End QuestNpc.

(** ** NPC identity: raw record to semantic type *)

(** A [switch] over a template string such as
    [`${type_id}, ${roaming % 3}, ${episode}`]: the components are
    integers, so two such strings are equal exactly when the tuples of
    integers are, and the first matching [case] is taken. *)
Fixpoint switch {K V : Type} (eqb : K -> K -> bool) (k : K)
    (cases : list (K * V)) : option V :=
  match cases with
  | [] => None
  | (k', v) :: cases' => if eqb k k' then Some v else switch eqb k cases'
  end.

Definition key3_eqb (a b : Z * Z * Z) : bool :=
  let '(a1, a2, a3) := a in
  let '(b1, b2, b3) := b in
  (a1 =? b1) && (a2 =? b2) && (a3 =? b3).

Definition key2_eqb (a b : Z * Z) : bool :=
  let '(a1, a2) := a in
  let '(b1, b2) := b in
  (a1 =? b1) && (a2 =? b2).

(** [Math.abs(scale.y - 1) > 0.00001] *)
Definition epsilon : float := 0x1.4f8b588e368f1p-17%float.

Definition scale_y_regular (scale_y : float) : bool :=
  PrimFloat.ltb epsilon (Js.Math_abs (PrimFloat.sub scale_y 1%float)).

Section get_npc_type.
Variables (type_id roaming area_id : Z) (regular : bool).

(* switch (`${type_id}, ${roaming % 3}, ${episode}`) *)
Definition cases_roaming_3 : list (Z * Z * Z * NpcType) :=
  [
  ((0x044, 0, 1), Booma);
  ((0x044, 1, 1), Gobooma);
  ((0x044, 2, 1), Gigobooma);
  ((0x063, 0, 1), EvilShark);
  ((0x063, 1, 1), PalShark);
  ((0x063, 2, 1), GuilShark);
  ((0x0a6, 0, 1), Dimenian);
  ((0x0a6, 0, 2), Dimenian2);
  ((0x0a6, 1, 1), LaDimenian);
  ((0x0a6, 1, 2), LaDimenian2);
  ((0x0a6, 2, 1), SoDimenian);
  ((0x0a6, 2, 2), SoDimenian2);
  ((0x0d6, 0, 2), Mericarol);
  ((0x0d6, 1, 2), Mericus);
  ((0x0d6, 2, 2), Merikle);
  ((0x115, 0, 4), Boota);
  ((0x115, 1, 4), ZeBoota);
  ((0x115, 2, 4), BaBoota);
  ((0x117, 0, 4), Goran);
  ((0x117, 1, 4), PyroGoran);
  ((0x117, 2, 4), GoranDetonator) ].

(* switch (`${type_id}, ${roaming % 2}, ${episode}`) *)
Definition cases_roaming_2 : list (Z * Z * Z * NpcType) :=
  [
  ((0x040, 0, 1), Hildebear);
  ((0x040, 0, 2), Hildebear2);
  ((0x040, 1, 1), Hildeblue);
  ((0x040, 1, 2), Hildeblue2);
  ((0x041, 0, 1), RagRappy);
  ((0x041, 0, 2), RagRappy2);
  ((0x041, 0, 4), SandRappy);
  ((0x041, 1, 1), AlRappy);
  ((0x041, 1, 2), LoveRappy);
  ((0x041, 1, 4), DelRappy);
  ((0x080, 0, 1), Dubchic);
  ((0x080, 0, 2), Dubchic2);
  ((0x080, 1, 1), Gilchic);
  ((0x080, 1, 2), Gilchic2);
  ((0x0d4, 0, 2), SinowBerill);
  ((0x0d4, 1, 2), SinowSpigell);
  ((0x0d5, 0, 2), Merillia);
  ((0x0d5, 1, 2), Meriltas);
  ((0x0d7, 0, 2), UlGibbon);
  ((0x0d7, 1, 2), ZolGibbon);
  ((0x0dd, 0, 2), Dolmolm);
  ((0x0dd, 1, 2), Dolmdarl);
  ((0x0e0, 0, 2), (if 15 <? area_id then Epsilon else SinowZoa));
  ((0x0e0, 1, 2), (if 15 <? area_id then Epsilon else SinowZele));
  ((0x112, 0, 4), MerissaA);
  ((0x112, 1, 4), MerissaAA);
  ((0x114, 0, 4), Zu);
  ((0x114, 1, 4), Pazuzu);
  ((0x116, 0, 4), Dorphon);
  ((0x116, 1, 4), DorphonEclair);
  ((0x119, 0, 4), (if regular then SaintMilion else Kondrieu));
  ((0x119, 1, 4), (if regular then Shambertin else Kondrieu)) ].

(* switch (`${type_id}, ${episode}`) *)
Definition cases_episode : list (Z * Z * NpcType) :=
  [
  ((0x042, 1), Monest);
  ((0x042, 2), Monest2);
  ((0x043, 1), (if regular then SavageWolf else BarbarousWolf));
  ((0x043, 2), (if regular then SavageWolf2 else BarbarousWolf2));
  ((0x060, 1), GrassAssassin);
  ((0x060, 2), GrassAssassin2);
  ((0x061, 1), (if 15 <? area_id then DelLily else (if regular then PoisonLily else NarLily)));
  ((0x061, 2), (if 15 <? area_id then DelLily else (if regular then PoisonLily2 else NarLily2)));
  ((0x062, 1), NanoDragon);
  ((0x064, 1), (if regular then PofuillySlime else PouillySlime));
  ((0x065, 1), PanArms);
  ((0x065, 2), PanArms2);
  ((0x081, 1), Garanz);
  ((0x081, 2), Garanz2);
  ((0x082, 1), (if regular then SinowBeat else SinowGold));
  ((0x083, 1), Canadine);
  ((0x084, 1), Canane);
  ((0x085, 1), Dubswitch);
  ((0x085, 2), Dubswitch2);
  ((0x0a0, 1), Delsaber);
  ((0x0a0, 2), Delsaber2);
  ((0x0a1, 1), ChaosSorcerer);
  ((0x0a1, 2), ChaosSorcerer2);
  ((0x0a2, 1), DarkGunner);
  ((0x0a4, 1), ChaosBringer);
  ((0x0a5, 1), DarkBelra);
  ((0x0a5, 2), DarkBelra2);
  ((0x0a7, 1), Bulclaw);
  ((0x0a8, 1), Claw);
  ((0x0c0, 1), Dragon);
  ((0x0c0, 2), GalGryphon);
  ((0x0c1, 1), DeRolLe);
  ((0x0c5, 1), VolOpt);
  ((0x0c8, 1), DarkFalz);
  ((0x0ca, 2), OlgaFlow);
  ((0x0cb, 2), BarbaRay);
  ((0x0cc, 2), GolDragon);
  ((0x0d8, 2), Gibbles);
  ((0x0d9, 2), Gee);
  ((0x0da, 2), GiGue);
  ((0x0db, 2), Deldepth);
  ((0x0dc, 2), Delbiter);
  ((0x0de, 2), Morfos);
  ((0x0df, 2), Recobox);
  ((0x0e1, 2), IllGill);
  ((0x110, 4), Astark);
  ((0x111, 4), (if regular then SatelliteLizard else Yowie));
  ((0x113, 4), Girtablulu) ].

(* switch (type_id) *)
Definition cases_type_id : list (Z * NpcType) :=
  [
  (0x004, FemaleFat);
  (0x005, FemaleMacho);
  (0x007, FemaleTall);
  (0x00a, MaleDwarf);
  (0x00b, MaleFat);
  (0x00c, MaleMacho);
  (0x00d, MaleOld);
  (0x019, BlueSoldier);
  (0x01a, RedSoldier);
  (0x01b, Principal);
  (0x01c, Tekker);
  (0x01d, GuildLady);
  (0x01e, Scientist);
  (0x01f, Nurse);
  (0x020, Irene);
  (0x0f1, ItemShop);
  (0x0fe, Nurse2) ].

End get_npc_type.

Definition get_npc_type (episode : Z) (npc : DatNpc.t) : NpcType :=
  let type_id := DatNpc.type_id npc in
  let scale := DatNpc.scale npc in
  let roaming := DatNpc.roaming npc in
  let area_id := DatNpc.area_id npc in
  let regular := scale_y_regular (Vec3.y scale) in
  match switch key3_eqb (type_id, Z.rem roaming 3, episode) cases_roaming_3 with
  | Some t => t
  | None =>
  match switch key3_eqb (type_id, Z.rem roaming 2, episode)
          (cases_roaming_2 area_id regular) with
  | Some t => t
  | None =>
  match switch key2_eqb (type_id, episode) (cases_episode area_id regular) with
  | Some t => t
  | None =>
  match switch Z.eqb type_id cases_type_id with
  | Some t => t
  | None => Unknown
  end end end end.

Definition parse_npc_data (episode : Z) (npcs : list DatNpc.t) : list QuestNpc.t :=
  map (fun npc_data =>
    {| QuestNpc.type := get_npc_type episode npc_data;
       QuestNpc.area_id := DatNpc.area_id npc_data;
       QuestNpc.section_id := DatNpc.section_id npc_data;
       QuestNpc.position := DatNpc.position npc_data;
       QuestNpc.rotation := DatNpc.rotation npc_data;
       QuestNpc.scale := DatNpc.scale npc_data;
       QuestNpc.unknown := DatNpc.unknown npc_data;
       QuestNpc.pso_type_id := DatNpc.type_id npc_data;
       QuestNpc.npc_id := DatNpc.npc_id npc_data;
       QuestNpc.script_label := Js.Math_round (DatNpc.script_label npc_data);
       QuestNpc.roaming := DatNpc.roaming npc_data |}) npcs.

(** ** NPC identity: semantic type to raw record *)

Record NpcTypeData : Set := {
  td_type_id : Z;
  td_roaming : Z;
  td_regular : bool
}.

Definition npc_type_to_dat_data (type : NpcType) : result (option NpcTypeData) :=
  match type with
  | OtherNpcType member => Throw (UnexpectedNpcType member)
  | Unknown => Ok None
  | FemaleFat => Ok (Some {| td_type_id := 0x004; td_roaming := 0; td_regular := true |})
  | FemaleMacho => Ok (Some {| td_type_id := 0x005; td_roaming := 0; td_regular := true |})
  | FemaleTall => Ok (Some {| td_type_id := 0x007; td_roaming := 0; td_regular := true |})
  | MaleDwarf => Ok (Some {| td_type_id := 0x00a; td_roaming := 0; td_regular := true |})
  | MaleFat => Ok (Some {| td_type_id := 0x00b; td_roaming := 0; td_regular := true |})
  | MaleMacho => Ok (Some {| td_type_id := 0x00c; td_roaming := 0; td_regular := true |})
  | MaleOld => Ok (Some {| td_type_id := 0x00d; td_roaming := 0; td_regular := true |})
  | BlueSoldier => Ok (Some {| td_type_id := 0x019; td_roaming := 0; td_regular := true |})
  | RedSoldier => Ok (Some {| td_type_id := 0x01a; td_roaming := 0; td_regular := true |})
  | Principal => Ok (Some {| td_type_id := 0x01b; td_roaming := 0; td_regular := true |})
  | Tekker => Ok (Some {| td_type_id := 0x01c; td_roaming := 0; td_regular := true |})
  | GuildLady => Ok (Some {| td_type_id := 0x01d; td_roaming := 0; td_regular := true |})
  | Scientist => Ok (Some {| td_type_id := 0x01e; td_roaming := 0; td_regular := true |})
  | Nurse => Ok (Some {| td_type_id := 0x01f; td_roaming := 0; td_regular := true |})
  | Irene => Ok (Some {| td_type_id := 0x020; td_roaming := 0; td_regular := true |})
  | ItemShop => Ok (Some {| td_type_id := 0x0f1; td_roaming := 0; td_regular := true |})
  | Nurse2 => Ok (Some {| td_type_id := 0x0fe; td_roaming := 0; td_regular := true |})
  | Hildebear => Ok (Some {| td_type_id := 0x040; td_roaming := 0; td_regular := true |})
  | Hildeblue => Ok (Some {| td_type_id := 0x040; td_roaming := 1; td_regular := true |})
  | RagRappy => Ok (Some {| td_type_id := 0x041; td_roaming := 0; td_regular := true |})
  | AlRappy => Ok (Some {| td_type_id := 0x041; td_roaming := 1; td_regular := true |})
  | Monest => Ok (Some {| td_type_id := 0x042; td_roaming := 0; td_regular := true |})
  | SavageWolf => Ok (Some {| td_type_id := 0x043; td_roaming := 0; td_regular := true |})
  | BarbarousWolf => Ok (Some {| td_type_id := 0x043; td_roaming := 0; td_regular := false |})
  | Booma => Ok (Some {| td_type_id := 0x044; td_roaming := 0; td_regular := true |})
  | Gobooma => Ok (Some {| td_type_id := 0x044; td_roaming := 1; td_regular := true |})
  | Gigobooma => Ok (Some {| td_type_id := 0x044; td_roaming := 2; td_regular := true |})
  | Dragon => Ok (Some {| td_type_id := 0x0c0; td_roaming := 0; td_regular := true |})
  | GrassAssassin => Ok (Some {| td_type_id := 0x060; td_roaming := 0; td_regular := true |})
  | PoisonLily => Ok (Some {| td_type_id := 0x061; td_roaming := 0; td_regular := true |})
  | NarLily => Ok (Some {| td_type_id := 0x061; td_roaming := 1; td_regular := true |})
  | NanoDragon => Ok (Some {| td_type_id := 0x062; td_roaming := 0; td_regular := true |})
  | EvilShark => Ok (Some {| td_type_id := 0x063; td_roaming := 0; td_regular := true |})
  | PalShark => Ok (Some {| td_type_id := 0x063; td_roaming := 1; td_regular := true |})
  | GuilShark => Ok (Some {| td_type_id := 0x063; td_roaming := 2; td_regular := true |})
  | PofuillySlime => Ok (Some {| td_type_id := 0x064; td_roaming := 0; td_regular := true |})
  | PouillySlime => Ok (Some {| td_type_id := 0x064; td_roaming := 0; td_regular := false |})
  | PanArms => Ok (Some {| td_type_id := 0x065; td_roaming := 0; td_regular := true |})
  | DeRolLe => Ok (Some {| td_type_id := 0x0c1; td_roaming := 0; td_regular := true |})
  | Dubchic => Ok (Some {| td_type_id := 0x080; td_roaming := 0; td_regular := true |})
  | Gilchic => Ok (Some {| td_type_id := 0x080; td_roaming := 1; td_regular := true |})
  | Garanz => Ok (Some {| td_type_id := 0x081; td_roaming := 0; td_regular := true |})
  | SinowBeat => Ok (Some {| td_type_id := 0x082; td_roaming := 0; td_regular := true |})
  | SinowGold => Ok (Some {| td_type_id := 0x082; td_roaming := 0; td_regular := false |})
  | Canadine => Ok (Some {| td_type_id := 0x083; td_roaming := 0; td_regular := true |})
  | Canane => Ok (Some {| td_type_id := 0x084; td_roaming := 0; td_regular := true |})
  | Dubswitch => Ok (Some {| td_type_id := 0x085; td_roaming := 0; td_regular := true |})
  | VolOpt => Ok (Some {| td_type_id := 0x0c5; td_roaming := 0; td_regular := true |})
  | Delsaber => Ok (Some {| td_type_id := 0x0a0; td_roaming := 0; td_regular := true |})
  | ChaosSorcerer => Ok (Some {| td_type_id := 0x0a1; td_roaming := 0; td_regular := true |})
  | DarkGunner => Ok (Some {| td_type_id := 0x0a2; td_roaming := 0; td_regular := true |})
  | ChaosBringer => Ok (Some {| td_type_id := 0x0a4; td_roaming := 0; td_regular := true |})
  | DarkBelra => Ok (Some {| td_type_id := 0x0a5; td_roaming := 0; td_regular := true |})
  | Dimenian => Ok (Some {| td_type_id := 0x0a6; td_roaming := 0; td_regular := true |})
  | LaDimenian => Ok (Some {| td_type_id := 0x0a6; td_roaming := 1; td_regular := true |})
  | SoDimenian => Ok (Some {| td_type_id := 0x0a6; td_roaming := 2; td_regular := true |})
  | Bulclaw => Ok (Some {| td_type_id := 0x0a7; td_roaming := 0; td_regular := true |})
  | Claw => Ok (Some {| td_type_id := 0x0a8; td_roaming := 0; td_regular := true |})
  | DarkFalz => Ok (Some {| td_type_id := 0x0c8; td_roaming := 0; td_regular := true |})
  | Hildebear2 => Ok (Some {| td_type_id := 0x040; td_roaming := 0; td_regular := true |})
  | Hildeblue2 => Ok (Some {| td_type_id := 0x040; td_roaming := 1; td_regular := true |})
  | RagRappy2 => Ok (Some {| td_type_id := 0x041; td_roaming := 0; td_regular := true |})
  | LoveRappy => Ok (Some {| td_type_id := 0x041; td_roaming := 1; td_regular := true |})
  | Monest2 => Ok (Some {| td_type_id := 0x042; td_roaming := 0; td_regular := true |})
  | PoisonLily2 => Ok (Some {| td_type_id := 0x061; td_roaming := 0; td_regular := true |})
  | NarLily2 => Ok (Some {| td_type_id := 0x061; td_roaming := 1; td_regular := true |})
  | GrassAssassin2 => Ok (Some {| td_type_id := 0x060; td_roaming := 0; td_regular := true |})
  | Dimenian2 => Ok (Some {| td_type_id := 0x0a6; td_roaming := 0; td_regular := true |})
  | LaDimenian2 => Ok (Some {| td_type_id := 0x0a6; td_roaming := 1; td_regular := true |})
  | SoDimenian2 => Ok (Some {| td_type_id := 0x0a6; td_roaming := 2; td_regular := true |})
  | DarkBelra2 => Ok (Some {| td_type_id := 0x0a5; td_roaming := 0; td_regular := true |})
  | BarbaRay => Ok (Some {| td_type_id := 0x0cb; td_roaming := 0; td_regular := true |})
  | SavageWolf2 => Ok (Some {| td_type_id := 0x043; td_roaming := 0; td_regular := true |})
  | BarbarousWolf2 => Ok (Some {| td_type_id := 0x043; td_roaming := 0; td_regular := false |})
  | PanArms2 => Ok (Some {| td_type_id := 0x065; td_roaming := 0; td_regular := true |})
  | Dubchic2 => Ok (Some {| td_type_id := 0x080; td_roaming := 0; td_regular := true |})
  | Gilchic2 => Ok (Some {| td_type_id := 0x080; td_roaming := 1; td_regular := true |})
  | Garanz2 => Ok (Some {| td_type_id := 0x081; td_roaming := 0; td_regular := true |})
  | Dubswitch2 => Ok (Some {| td_type_id := 0x085; td_roaming := 0; td_regular := true |})
  | Delsaber2 => Ok (Some {| td_type_id := 0x0a0; td_roaming := 0; td_regular := true |})
  | ChaosSorcerer2 => Ok (Some {| td_type_id := 0x0a1; td_roaming := 0; td_regular := true |})
  | GolDragon => Ok (Some {| td_type_id := 0x0cc; td_roaming := 0; td_regular := true |})
  | SinowBerill => Ok (Some {| td_type_id := 0x0d4; td_roaming := 0; td_regular := true |})
  | SinowSpigell => Ok (Some {| td_type_id := 0x0d4; td_roaming := 1; td_regular := true |})
  | Merillia => Ok (Some {| td_type_id := 0x0d5; td_roaming := 0; td_regular := true |})
  | Meriltas => Ok (Some {| td_type_id := 0x0d5; td_roaming := 1; td_regular := true |})
  | Mericarol => Ok (Some {| td_type_id := 0x0d6; td_roaming := 0; td_regular := true |})
  | Mericus => Ok (Some {| td_type_id := 0x0d6; td_roaming := 1; td_regular := true |})
  | Merikle => Ok (Some {| td_type_id := 0x0d6; td_roaming := 2; td_regular := true |})
  | UlGibbon => Ok (Some {| td_type_id := 0x0d7; td_roaming := 0; td_regular := true |})
  | ZolGibbon => Ok (Some {| td_type_id := 0x0d7; td_roaming := 1; td_regular := true |})
  | Gibbles => Ok (Some {| td_type_id := 0x0d8; td_roaming := 0; td_regular := true |})
  | Gee => Ok (Some {| td_type_id := 0x0d9; td_roaming := 0; td_regular := true |})
  | GiGue => Ok (Some {| td_type_id := 0x0da; td_roaming := 0; td_regular := true |})
  | GalGryphon => Ok (Some {| td_type_id := 0x0c0; td_roaming := 0; td_regular := true |})
  | Deldepth => Ok (Some {| td_type_id := 0x0db; td_roaming := 0; td_regular := true |})
  | Delbiter => Ok (Some {| td_type_id := 0x0dc; td_roaming := 0; td_regular := true |})
  | Dolmolm => Ok (Some {| td_type_id := 0x0dd; td_roaming := 0; td_regular := true |})
  | Dolmdarl => Ok (Some {| td_type_id := 0x0dd; td_roaming := 1; td_regular := true |})
  | Morfos => Ok (Some {| td_type_id := 0x0de; td_roaming := 0; td_regular := true |})
  | Recobox => Ok (Some {| td_type_id := 0x0df; td_roaming := 0; td_regular := true |})
  | Epsilon => Ok (Some {| td_type_id := 0x0e0; td_roaming := 0; td_regular := true |})
  | SinowZoa => Ok (Some {| td_type_id := 0x0e0; td_roaming := 0; td_regular := true |})
  | SinowZele => Ok (Some {| td_type_id := 0x0e0; td_roaming := 1; td_regular := true |})
  | IllGill => Ok (Some {| td_type_id := 0x0e1; td_roaming := 0; td_regular := true |})
  | DelLily => Ok (Some {| td_type_id := 0x061; td_roaming := 0; td_regular := true |})
  | OlgaFlow => Ok (Some {| td_type_id := 0x0ca; td_roaming := 0; td_regular := true |})
  | SandRappy => Ok (Some {| td_type_id := 0x041; td_roaming := 0; td_regular := true |})
  | DelRappy => Ok (Some {| td_type_id := 0x041; td_roaming := 1; td_regular := true |})
  | Astark => Ok (Some {| td_type_id := 0x110; td_roaming := 0; td_regular := true |})
  | SatelliteLizard => Ok (Some {| td_type_id := 0x111; td_roaming := 0; td_regular := true |})
  | Yowie => Ok (Some {| td_type_id := 0x111; td_roaming := 0; td_regular := false |})
  | MerissaA => Ok (Some {| td_type_id := 0x112; td_roaming := 0; td_regular := true |})
  | MerissaAA => Ok (Some {| td_type_id := 0x112; td_roaming := 1; td_regular := true |})
  | Girtablulu => Ok (Some {| td_type_id := 0x113; td_roaming := 0; td_regular := true |})
  | Zu => Ok (Some {| td_type_id := 0x114; td_roaming := 0; td_regular := true |})
  | Pazuzu => Ok (Some {| td_type_id := 0x114; td_roaming := 1; td_regular := true |})
  | Boota => Ok (Some {| td_type_id := 0x115; td_roaming := 0; td_regular := true |})
  | ZeBoota => Ok (Some {| td_type_id := 0x115; td_roaming := 1; td_regular := true |})
  | BaBoota => Ok (Some {| td_type_id := 0x115; td_roaming := 2; td_regular := true |})
  | Dorphon => Ok (Some {| td_type_id := 0x116; td_roaming := 0; td_regular := true |})
  | DorphonEclair => Ok (Some {| td_type_id := 0x116; td_roaming := 1; td_regular := true |})
  | Goran => Ok (Some {| td_type_id := 0x117; td_roaming := 0; td_regular := true |})
  | PyroGoran => Ok (Some {| td_type_id := 0x117; td_roaming := 1; td_regular := true |})
  | GoranDetonator => Ok (Some {| td_type_id := 0x117; td_roaming := 2; td_regular := true |})
  | SaintMilion => Ok (Some {| td_type_id := 0x119; td_roaming := 0; td_regular := true |})
  | Shambertin => Ok (Some {| td_type_id := 0x119; td_roaming := 1; td_regular := true |})
  | Kondrieu => Ok (Some {| td_type_id := 0x119; td_roaming := 0; td_regular := false |})
  end.


(** [dv.setFloat32(0, npc.scale.y);
     dv.setUint32(0, (dv.getUint32(0) & ~0x800000) | (regular ? 0 : 0x800000));
     dv.getFloat32(0)]: the bitwise operators work on [ToInt32] of their
    operands and [setUint32] stores [ToUint32] of the result. *)
Definition set_regular_bit (scale_y : float) (regular : bool) : float :=
  let bits := Js.getUint32_of_setFloat32 scale_y in
  let cleared := Z.land (Js.to_int32 bits) (Js.to_int32 (Z.lnot 0x800000)) in
  let flagged := Z.lor cleared (if regular then 0 else 0x800000) in
  Js.getFloat32_of_setUint32 (Js.to_uint32 flagged).

Definition npc_to_dat_data (npc : QuestNpc.t) : result DatNpc.t :=
  type_data' <-! npc_type_to_dat_data (QuestNpc.type npc) ;
  let type_data :=
    match type_data' with
    | Some td => td
    | None => {| td_type_id := QuestNpc.pso_type_id npc;
                 td_roaming := QuestNpc.roaming npc;
                 td_regular := true |}
    end in
  let scale_y := set_regular_bit (Vec3.y (QuestNpc.scale npc)) (td_regular type_data) in
  let scale := {| Vec3.x := Vec3.x (QuestNpc.scale npc);
       Vec3.y := scale_y;
       Vec3.z := Vec3.z (QuestNpc.scale npc) |} in
  Ok {| DatNpc.type_id := td_type_id type_data;
        DatNpc.section_id := QuestNpc.section_id npc;
        DatNpc.position := QuestNpc.position npc;
        DatNpc.rotation := QuestNpc.rotation npc;
        DatNpc.scale := scale;
        DatNpc.npc_id := QuestNpc.npc_id npc;
        DatNpc.script_label := QuestNpc.script_label npc;
        DatNpc.roaming := td_roaming type_data;
        DatNpc.area_id := QuestNpc.area_id npc;
        DatNpc.unknown := QuestNpc.unknown npc |}.

Definition npcs_to_dat_data (npcs : list QuestNpc.t) : result (list DatNpc.t) :=
  map_result npc_to_dat_data npcs.

(** ** Strings *)

Module Str.
Local Open Scope nat_scope.

Definition to_lower_char (c : ascii) : ascii :=
  let n := nat_of_ascii c in
  if (65 <=? n) && (n <=? 90) then ascii_of_nat (n + 32) else c.

(** [String.prototype.toLowerCase] on a string of single-byte characters. *)
Fixpoint toLowerCase (s : string) : string :=
  match s with
  | EmptyString => EmptyString
  | String c s' => String (to_lower_char c) (toLowerCase s')
  end.

(** White space and line terminators among the single-byte characters. *)
Definition is_white (c : ascii) : bool :=
  let n := nat_of_ascii c in
  (n =? 9) || (n =? 10) || (n =? 11) || (n =? 12) || (n =? 13)
  || (n =? 32) || (n =? 160).

Fixpoint trim_start (s : string) : string :=
  match s with
  | EmptyString => EmptyString
  | String c s' => if is_white c then trim_start s' else s
  end.

(** Drops trailing white space; the bool tells whether the rest is all white. *)
Fixpoint trim_end (s : string) : string :=
  match s with
  | EmptyString => EmptyString
  | String c s' =>
      match trim_end s' with
      | EmptyString => if is_white c then EmptyString else String c EmptyString
      | t => String c t
      end
  end.

Definition trim (s : string) : string := trim_end (trim_start s).

Definition endsWith (s suffix : string) : bool :=
  let n := String.length s in
  let k := String.length suffix in
  (k <=? n) && String.eqb (String.substring (n - k) k s) suffix.

(** [lastIndexOf] of a one-character string; [-1] when it does not occur. *)
Fixpoint lastIndexOf_from (c : ascii) (s : string) (i : Z) (found : Z) : Z :=
  match s with
  | EmptyString => found
  | String c' s' =>
      lastIndexOf_from c s' (i + 1)%Z (if Ascii.eqb c c' then i else found)
  end.

Definition lastIndexOf (s : string) (c : ascii) : Z :=
  lastIndexOf_from c s 0%Z (-1)%Z.

(** [s.slice(0, n)] for [0 <= n]. *)
Definition slice0 (s : string) (n : Z) : string :=
  String.substring 0 (Z.to_nat n) s.
End Str.

(** ** Objects *)

(** Modelled from the spec: the enum [ObjectType] (object_types.ts) is not
    part of the sources.  The members index.ts names are constructors, any
    other member is [OtherObjectType]. *)
Inductive ObjectType : Set :=
  | ScriptCollision
  | ForestConsole
  | TalkLinkToSupport
  | RicoMessagePod
  | OtherObjectType (member : Z).

Definition ObjectType_eqb (a b : ObjectType) : bool :=
  match a, b with
  | ScriptCollision, ScriptCollision
  | ForestConsole, ForestConsole
  | TalkLinkToSupport, TalkLinkToSupport
  | RicoMessagePod, RicoMessagePod => true
  | OtherObjectType m, OtherObjectType n => (m =? n)
  | _, _ => false
  end.

Module DatObject.
Record t : Set := {
  type_id : Z;
  id : Z;
  group_id : Z;
  section_id : Z;
  position : Vec3.t;
  rotation : Vec3.t;
  properties : list float;
  area_id : Z;
  unknown : list (list Z)
}.
End DatObject.

(** A JavaScript [Map<string, number>]: keys in insertion order; [set] of
    a key that is present replaces its value in place. *)
Module JsMap.
Definition t : Set := list (string * float).

Fixpoint set (m : t) (k : string) (v : float) : t :=
  match m with
  | [] => [(k, v)]
  | (k', v') :: m' =>
      if String.eqb k' k then (k', v) :: m' else (k', v') :: set m' k v
  end.

Fixpoint get (m : t) (k : string) : option float :=
  match m with
  | [] => None
  | (k', v') :: m' => if String.eqb k' k then Some v' else get m' k
  end.

(** [new Map(entries)] *)
Definition of_entries (entries : list (string * float)) : t :=
  fold_left (fun m kv => set m (fst kv) (snd kv)) entries [].

(** [[...m.values()]] *)
Definition values (m : t) : list float := map snd m.
End JsMap.

Module QuestObject.
Record t : Set := {
  type : ObjectType;
  id : Z;
  group_id : Z;
  area_id : Z;
  section_id : Z;
  position : Vec3.t;
  rotation : Vec3.t;
  properties : JsMap.t;
  unknown : list (list Z)
}.
End QuestObject.

(** Key of the property at [index] of an object of type [type]. *)
Definition property_key (type : ObjectType) (index : nat) : string :=
  if (Nat.eqb index 3) &&
     (ObjectType_eqb type ScriptCollision
      || ObjectType_eqb type ForestConsole
      || ObjectType_eqb type TalkLinkToSupport)
  then "script_label"
  else if (Nat.eqb index 4) && ObjectType_eqb type RicoMessagePod
  then "script_label"
  else if (Nat.eqb index 5) && ObjectType_eqb type RicoMessagePod
  then "script_label_2"
  else ("property_" +:+ pretty index).

(** ** Bytecode *)

(** Modelled from the spec: opcodes.ts and instructions.ts are not part of
    the sources.  An opcode is one of the two that index.ts names or any
    other entry of the opcode table, given by its code; an argument is a
    numeric value with its byte width; a segment is an instruction segment,
    a data segment or a string segment, each with the labels that point at
    it. *)
Inductive Opcode : Set :=
  | SET_EPISODE
  | BB_MAP_DESIGNATE
  | OtherOpcode (code : Z).

Definition Opcode_eqb (a b : Opcode) : bool :=
  match a, b with
  | SET_EPISODE, SET_EPISODE => true
  | BB_MAP_DESIGNATE, BB_MAP_DESIGNATE => true
  | OtherOpcode m, OtherOpcode n => (m =? n)
  | _, _ => false
  end.

Module Arg.
Record t : Set := { value : Z; size : Z }.
End Arg.

Module Instruction.
Record t : Set := { opcode : Opcode; args : list Arg.t }.
End Instruction.

Inductive Segment : Set :=
  | InstructionSegment (labels : list Z) (instructions : list Instruction.t)
  | DataSegment (labels : list Z) (data : list byte)
  | StringSegment (labels : list Z) (value : string).

Module Episode.
(** [enum Episode { I = 1, II = 2, IV = 4 }] *)
Inductive t : Set := I | II | IV.

Definition number (e : t) : Z :=
  match e with
  | I => 1
  | II => 2
  | IV => 4
  end.
End Episode.

(** [args[i].value]; reading [value] of a missing argument is a TypeError. *)
Definition arg_value (inst : Instruction.t) (i : nat) : result Z :=
  match nth_error (Instruction.args inst) i with
  | Some a => Ok (Arg.value a)
  | None => Throw (CollaboratorError "TypeError: Cannot read property 'value' of undefined")
  end.

(** Defaults to episode I. *)
Definition get_episode (func_0_instructions : list Instruction.t)
    : result (Episode.t * Log) :=
  match List.find (fun instruction => Opcode_eqb (Instruction.opcode instruction) SET_EPISODE)
          func_0_instructions with
  | Some set_episode =>
      v <-! arg_value set_episode 0 ;
      Ok (if v =? 1 then Episode.II
          else if v =? 2 then Episode.IV
          else Episode.I, [])
  | None =>
      Ok (Episode.I,
          [{| level := Debug;
              message := "Function 0 has no set_episode instruction." |}])
  end.

Fixpoint extract_map_designations_loop (insts : list Instruction.t)
    (map_designations : gmap Z Z) : result (gmap Z Z) :=
  match insts with
  | [] => Ok map_designations
  | inst :: insts' =>
      if Opcode_eqb (Instruction.opcode inst) BB_MAP_DESIGNATE then
        k <-! arg_value inst 0 ;
        v <-! arg_value inst 2 ;
        extract_map_designations_loop insts' (<[k:=v]> map_designations)
      else extract_map_designations_loop insts' map_designations
  end.

Definition extract_map_designations (func_0_instructions : list Instruction.t)
    : result (gmap Z Z) :=
  extract_map_designations_loop func_0_instructions ∅.

(** A JavaScript [Set<number>], in insertion order. *)
Definition set_add (s : list float) (v : float) : list float :=
  if existsb (Js.same_value_zero v) s then s else s ++ [v].

Definition extract_script_entry_points (objects : list QuestObject.t)
    (npcs : list DatNpc.t) : list float :=
  let entry_points := [0%float] in
  let entry_points :=
    fold_left (fun eps obj =>
      let eps :=
        match JsMap.get (QuestObject.properties obj) "script_label" with
        | Some entry_point => set_add eps entry_point
        | None => eps
        end in
      match JsMap.get (QuestObject.properties obj) "script_label_2" with
      | Some entry_point_2 => set_add eps entry_point_2
      | None => eps
      end) objects entry_points in
  fold_left (fun eps npc => set_add eps (Js.Math_round (DatNpc.script_label npc)))
    npcs entry_points.

(** ** DAT and BIN files, and the quest *)

(** Modelled from the spec: [DatUnknown] (dat.ts) is not part of the
    sources; it is the opaque byte span of a DAT entry that is preserved
    verbatim. *)
Record DatUnknown : Set := { span : list byte }.

Module DatFile.
Record t : Set := {
  objs : list DatObject.t;
  npcs : list DatNpc.t;
  unknowns : list DatUnknown
}.
End DatFile.

Module BinFile.
Record t : Set := {
  quest_id : Z;
  language : Z;
  quest_name : string;
  short_description : string;
  long_description : string;
  object_code : list Segment;
  shop_items : list Z
}.
End BinFile.

Module Quest.
Record t : Set := {
  id : Z;
  language : Z;
  name : string;
  short_description : string;
  long_description : string;
  episode : Episode.t;
  objects : list QuestObject.t;
  npcs : list QuestNpc.t;
  dat_unknowns : list DatUnknown;
  object_code : list Segment;
  shop_items : list Z;
  map_designations : gmap Z Z
}.
End Quest.

(** [segment.type === SegmentType.Instructions && segment.labels.includes(0)] *)
Definition is_label_0_segment (segment : Segment) : bool :=
  match segment with
  | InstructionSegment labels _ => existsb (Z.eqb 0) labels
  | _ => false
  end.

Definition segment_instructions (segment : Segment) : list Instruction.t :=
  match segment with
  | InstructionSegment _ instructions => instructions
  | _ => []
  end.

(** Lines 96 to 118 of parse_quest: episode and map designations from the
    object code. *)
Definition extract_episode_and_map_designations (object_code : list Segment)
    : result (Episode.t * gmap Z Z * Log) :=
  match object_code with
  | _ :: _ =>
      match List.find is_label_0_segment object_code with
      | Some label_0_segment =>
          r <-! get_episode (segment_instructions label_0_segment) ;
          let '(episode, log) := r in
          map_designations <-!
            extract_map_designations (segment_instructions label_0_segment) ;
          Ok (episode, map_designations, log)
      | None =>
          Ok (Episode.I, ∅,
              [{| level := Warn; message := "No instruction for label 0 found." |}])
      end
  | [] =>
      Ok (Episode.I, ∅,
          [{| level := Warn; message := "File contains no instruction labels." |}])
  end.

(** The quest assembly layer hands buffers from one collaborator to the
    next and never reads a byte of them itself, so the types of the archive
    buffer and of the payload buffers are parameters of this layer, next to
    the collaborators: the QST codec, the PRS codec, the DAT and BIN codecs
    and the object type table, none of which is part of the sources. *)
Module QstContainedFile.
Record t (Payload : Type) : Type := {
  name : string;
  id : option Z;
  data : Payload
}.
Arguments name {Payload} _.
Arguments id {Payload} _.
Arguments data {Payload} _.
End QstContainedFile.

Record Collaborators (Archive Payload : Type) : Type := {
  parse_qst : Archive -> option (list (QstContainedFile.t Payload));
  write_qst : list (QstContainedFile.t Payload) -> result Archive;
  prs_decompress : Payload -> Payload;
  prs_compress : Payload -> Payload;
  parse_dat : Payload -> DatFile.t;
  write_dat : DatFile.t -> Payload;
  parse_bin : Payload -> list float -> bool -> result BinFile.t;
  write_bin : BinFile.t -> Payload;
  pso_id_to_object_type : Z -> ObjectType;
  (* object_data(type).pso_id! *)
  object_data_pso_id : ObjectType -> Z
}.
Arguments parse_qst {Archive Payload} _.
Arguments write_qst {Archive Payload} _.
Arguments prs_decompress {Archive Payload} _.
Arguments prs_compress {Archive Payload} _.
Arguments parse_dat {Archive Payload} _.
Arguments write_dat {Archive Payload} _.
Arguments parse_bin {Archive Payload} _.
Arguments write_bin {Archive Payload} _.
Arguments pso_id_to_object_type {Archive Payload} _.
Arguments object_data_pso_id {Archive Payload} _.

Section QuestLayer.
Context {Archive Payload : Type} (C : Collaborators Archive Payload).

Definition parse_obj_data (objs : list DatObject.t) : list QuestObject.t :=
  map (fun obj_data =>
    let type := pso_id_to_object_type C (DatObject.type_id obj_data) in
    {| QuestObject.type := type;
       QuestObject.id := DatObject.id obj_data;
       QuestObject.group_id := DatObject.group_id obj_data;
       QuestObject.area_id := DatObject.area_id obj_data;
       QuestObject.section_id := DatObject.section_id obj_data;
       QuestObject.position := DatObject.position obj_data;
       QuestObject.rotation := DatObject.rotation obj_data;
       QuestObject.properties :=
         JsMap.of_entries
           (imap (fun index value => (property_key type index, value))
              (DatObject.properties obj_data));
       QuestObject.unknown := DatObject.unknown obj_data |}) objs.

Definition objects_to_dat_data (objects : list QuestObject.t) : list DatObject.t :=
  map (fun object =>
    {| DatObject.type_id := object_data_pso_id C (QuestObject.type object);
       DatObject.id := QuestObject.id object;
       DatObject.group_id := QuestObject.group_id object;
       DatObject.section_id := QuestObject.section_id object;
       DatObject.position := QuestObject.position object;
       DatObject.rotation := QuestObject.rotation object;
       DatObject.properties := JsMap.values (QuestObject.properties object);
       DatObject.area_id := QuestObject.area_id object;
       DatObject.unknown := QuestObject.unknown object |}) objects.

(** The loop over [qst.files]: the last file whose trimmed, lower-cased
    name ends in ".dat" (".bin") is kept. *)
Definition find_dat_and_bin (files : list (QstContainedFile.t Payload))
    : option (QstContainedFile.t Payload) * option (QstContainedFile.t Payload) :=
  fold_left (fun '(dat_file, bin_file) file =>
    let file_name := Str.toLowerCase (Str.trim (QstContainedFile.name file)) in
    if Str.endsWith file_name ".dat" then (Some file, bin_file)
    else if Str.endsWith file_name ".bin" then (dat_file, Some file)
    else (dat_file, bin_file)) files (None, None).

Definition parse_quest (cursor : Archive) (lenient : bool)
    : result (option Quest.t * Log) :=
  match parse_qst C cursor with
  | None => Ok (None, [])
  | Some files =>
      match find_dat_and_bin files with
      | (None, _) =>
          Ok (None, [{| level := Err; message := "File contains no DAT file." |}])
      | (Some _, None) =>
          Ok (None, [{| level := Err; message := "File contains no BIN file." |}])
      | (Some dat_file, Some bin_file) =>
          let dat_decompressed := prs_decompress C (QstContainedFile.data dat_file) in
          let dat := parse_dat C dat_decompressed in
          let objects := parse_obj_data (DatFile.objs dat) in
          let bin_decompressed := prs_decompress C (QstContainedFile.data bin_file) in
          bin <-! parse_bin C bin_decompressed
                    (extract_script_entry_points objects (DatFile.npcs dat)) lenient ;
          r <-! extract_episode_and_map_designations (BinFile.object_code bin) ;
          let '(episode, map_designations, log) := r in
          Ok (Some {| Quest.id := BinFile.quest_id bin;
                      Quest.language := BinFile.language bin;
                      Quest.name := BinFile.quest_name bin;
                      Quest.short_description := BinFile.short_description bin;
                      Quest.long_description := BinFile.long_description bin;
                      Quest.episode := episode;
                      Quest.objects := objects;
                      Quest.npcs :=
                        parse_npc_data (Episode.number episode) (DatFile.npcs dat);
                      Quest.dat_unknowns := DatFile.unknowns dat;
                      Quest.object_code := BinFile.object_code bin;
                      Quest.shop_items := BinFile.shop_items bin;
                      Quest.map_designations := map_designations |},
              log)
      end
  end.

Definition base_file_name (file_name : string) : string :=
  let ext_start := Str.lastIndexOf file_name "." in
  if ext_start =? -1 then Str.slice0 file_name 11
  else Str.slice0 file_name (Z.min 11 ext_start).

(** The [dat], [bin] and [files] that write_quest_qst builds. *)
Definition quest_dat_file (quest : Quest.t) : result DatFile.t :=
  let objs := objects_to_dat_data (Quest.objects quest) in
  npcs <-! npcs_to_dat_data (Quest.npcs quest) ;
  Ok {| DatFile.objs := objs;
        DatFile.npcs := npcs;
        DatFile.unknowns := Quest.dat_unknowns quest |}.

Definition quest_bin_file (quest : Quest.t) : BinFile.t :=
  {| BinFile.quest_id := Quest.id quest;
     BinFile.language := Quest.language quest;
     BinFile.quest_name := Quest.name quest;
     BinFile.short_description := Quest.short_description quest;
     BinFile.long_description := Quest.long_description quest;
     BinFile.object_code := Quest.object_code quest;
     BinFile.shop_items := Quest.shop_items quest |}.

Definition qst_files (quest : Quest.t) (file_name : string) (dat : Payload)
    (bin : Payload) : list (QstContainedFile.t Payload) :=
  let base_file_name := base_file_name file_name in
  [ {| QstContainedFile.name := base_file_name +:+ ".dat";
       QstContainedFile.id := Some (Quest.id quest);
       QstContainedFile.data := prs_compress C dat |};
    {| QstContainedFile.name := base_file_name +:+ ".bin";
       QstContainedFile.id := Some (Quest.id quest);
       QstContainedFile.data := prs_compress C bin |} ].

Definition write_quest_qst (quest : Quest.t) (file_name : string)
    : result Archive :=
  dat_file <-! quest_dat_file quest ;
  let dat := write_dat C dat_file in
  let bin := write_bin C (quest_bin_file quest) in
  write_qst C (qst_files quest file_name dat bin).
End QuestLayer.

(** ** The byte cursor of the QST code *)

Definition Z_of_byte (b : byte) : Z := Z.of_N (Byte.to_N b).

(** [DataView.setUint8] stores its argument modulo 256. *)
Definition byte_of_Z (v : Z) : byte :=
  match Byte.of_N (Z.to_N (v mod 256)) with
  | Some b => b
  | None => "000"%byte
  end.

Definition le_bytes (n : nat) (v : Z) : list byte :=
  map (fun i => byte_of_Z (v / 256 ^ Z.of_nat i)) (seq 0 n).

Definition le_value (bs : list byte) : Z :=
  foldr (fun b acc => Z_of_byte b + 256 * acc) 0 bs.

Fixpoint until_nul (bs : list byte) : list byte :=
  match bs with
  | [] => []
  | b :: bs' => if Byte.eqb b "000"%byte then [] else b :: until_nul bs'
  end.

(** [data] laid over [bytes] from index [p] on; the bytes grow, filled
    with [zero], to hold it. *)
Definition overlay {A : Type} (zero : A) (p : nat) (data bytes : list A) : list A :=
  list_inserts p data (resize (Nat.max (p + length data) (length bytes)) zero bytes).

(** Modelled from the spec: BufferCursor.ts is not part of the sources.
    The cursor is the bytes up to its size, a position and the byte order;
    the operations do what their names and their uses in the QST code say:
    reads and seeks outside the bytes throw, writes at the position grow
    the size as needed, a grown size is filled with zero bytes, and
    [take] cuts a new cursor out of the bytes. *)
Module BufferCursor.
Local Open Scope nat_scope.

Record t : Set := {
  buffer : list byte;
  position : nat;
  little_endian : bool
}.

Definition size (c : t) : nat := length (buffer c).
Definition bytes_left (c : t) : nat := size c - position c.

(** [new BufferCursor(capacity, little_endian)] *)
Definition create (little_endian : bool) : t :=
  {| buffer := []; position := 0; little_endian := little_endian |}.

(** [new BufferCursor(array_buffer, little_endian)] *)
Definition of_bytes (bs : list byte) (little_endian : bool) : t :=
  {| buffer := bs; position := 0; little_endian := little_endian |}.

Definition with_position (c : t) (p : nat) : t :=
  {| buffer := buffer c; position := p; little_endian := little_endian c |}.

Definition with_buffer (c : t) (bs : list byte) : t :=
  {| buffer := bs; position := position c; little_endian := little_endian c |}.

Definition seek_start (c : t) (offset : Z) : result t :=
  if ((offset <? 0) || (Z.of_nat (size c) <? offset))%Z
  then Throw (OutOfBounds offset)
  else Ok (with_position c (Z.to_nat offset)).

Definition seek (c : t) (offset : Z) : result t :=
  seek_start c (Z.of_nat (position c) + offset)%Z.

(** [cursor.size = n] *)
Definition set_size (c : t) (n : nat) : t :=
  with_buffer c (resize n "000"%byte (buffer c)).

Definition read (c : t) (n : nat) : result (list byte * t) :=
  if position c + n <=? size c
  then Ok (take n (drop (position c) (buffer c)), with_position c (position c + n))
  else Throw (OutOfBounds (Z.of_nat (position c + n))).

Definition order (c : t) (bs : list byte) : list byte :=
  if little_endian c then bs else rev bs.

Definition u (n : nat) (c : t) : result (Z * t) :=
  r <-! read c n ;
  Ok (le_value (order c (fst r)), snd r).

Definition u8 : t -> result (Z * t) := u 1.
Definition u16 : t -> result (Z * t) := u 2.
Definition u32 : t -> result (Z * t) := u 4.

(** [string_ascii(max_byte_length, true, true)]: the characters up to
    the first zero byte, the position moved past all [max_byte_length]
    bytes. *)
Definition string_ascii (c : t) (max_byte_length : nat) : result (string * t) :=
  r <-! read c max_byte_length ;
  Ok (string_of_list_byte (until_nul (fst r)), snd r).

Definition take (c : t) (n : nat) : result (t * t) :=
  r <-! read c n ;
  Ok (of_bytes (fst r) (little_endian c), snd r).

(** Writes [bs] at the position: the size grows to hold them. *)
Definition write_bytes (c : t) (bs : list byte) : t :=
  let p := position c in
  {| buffer := overlay "000"%byte p bs (buffer c);
     position := p + length bs;
     little_endian := little_endian c |}.

Definition write_u8 (c : t) (v : Z) : t := write_bytes c [byte_of_Z v].
Definition write_u16 (c : t) (v : Z) : t := write_bytes c (order c (le_bytes 2 v)).
Definition write_u32 (c : t) (v : Z) : t := write_bytes c (order c (le_bytes 4 v)).
Definition write_u8_array (c : t) (vs : list Z) : t := write_bytes c (map byte_of_Z vs).

(** [write_cursor(other)]: all bytes of [other]. *)
Definition write_cursor (c : t) (other : t) : t := write_bytes c (buffer other).

(** [write_string_ascii(str, byte_length)]: the first [byte_length]
    characters, then zero bytes up to [byte_length]. *)
Definition write_string_ascii (c : t) (str : string) (byte_length : nat) : t :=
  write_bytes c (resize byte_length "000"%byte (list_byte_of_string str)).
End BufferCursor.

(** ** The QST container *)

Module Qst.
Definition warn (msg : string) : LogEntry := {| level := Warn; message := msg |}.

Module QstContainedFile.
Record t : Type := {
  name : string;
  name2 : option string;
  questNo : option Z;
  expectedSize : option Z;
  data : BufferCursor.t;
  chunkNos : gset Z
}.
End QstContainedFile.
Abbreviation File := QstContainedFile.t.

Module QstHeader.
Record t : Set := {
  questNo : Z;
  fileName : string;
  fileName2 : string;
  size : Z
}.
End QstHeader.

(** A [Map<string, QstContainedFile>]: the files in insertion order. *)
Definition FileMap : Type := list (string * File).

Fixpoint files_get (files : FileMap) (k : string) : option File :=
  match files with
  | [] => None
  | (k', f) :: files' => if String.eqb k' k then Some f else files_get files' k
  end.

Fixpoint files_set (files : FileMap) (k : string) (f : File) : FileMap :=
  match files with
  | [] => [(k, f)]
  | (k', f') :: files' =>
      if String.eqb k' k then (k', f) :: files' else (k', f') :: files_set files' k f
  end.

Definition parse_header (cursor : BufferCursor.t) : result (QstHeader.t * BufferCursor.t) :=
  cursor <-! BufferCursor.seek cursor 4 ;
  r <-! BufferCursor.u16 cursor ;
  let '(questNo, cursor) := r in
  cursor <-! BufferCursor.seek cursor 38 ;
  r <-! BufferCursor.string_ascii cursor 16 ;
  let '(fileName, cursor) := r in
  r <-! BufferCursor.u32 cursor ;
  let '(size, cursor) := r in
  r <-! BufferCursor.string_ascii cursor 24 ;
  let '(fileName2, cursor) := r in
  Ok ({| QstHeader.questNo := questNo;
         QstHeader.fileName := fileName;
         QstHeader.fileName2 := fileName2;
         QstHeader.size := size |}, cursor).

(** [for (let i = 0; i < 2; ++i)] *)
Definition parseHeaders (cursor : BufferCursor.t)
    : result (list QstHeader.t * BufferCursor.t) :=
  r <-! parse_header cursor ;
  let '(header_0, cursor) := r in
  r <-! parse_header cursor ;
  let '(header_1, cursor) := r in
  Ok ([header_0; header_1], cursor).

Definition already_encountered (chunkNo : Z) (fileName : string) : string :=
  "File chunk number " +:+ pretty chunkNo +:+ " of file " +:+ fileName
    +:+ " was already encountered, overwriting previous chunk.".

Definition size_too_large (size : Z) : string :=
  "Data segment size of " +:+ pretty size
    +:+ " is larger than expected maximum size, reading just 1024 bytes.".

(** One pass through the body of [while (cursor.bytes_left >= 1056)]. *)
Definition parse_chunk (cursor : BufferCursor.t) (expectedSizes : gmap string Z)
    (files : FileMap) (log : Log) : result (BufferCursor.t * FileMap * Log) :=
  let startPosition := BufferCursor.position cursor in
  (* Read meta data. *)
  cursor <-! BufferCursor.seek cursor 4 ;
  r <-! BufferCursor.u8 cursor ;
  let '(chunkNo, cursor) := r in
  cursor <-! BufferCursor.seek cursor 3 ;
  r <-! BufferCursor.string_ascii cursor 16 ;
  let '(fileName, cursor) := r in
  let file :=
    match files_get files fileName with
    | Some file => file
    | None =>
        {| QstContainedFile.name := fileName;
           QstContainedFile.name2 := None;
           QstContainedFile.questNo := None;
           QstContainedFile.expectedSize := expectedSizes !! fileName;
           QstContainedFile.data := BufferCursor.create true;
           QstContainedFile.chunkNos := ∅ |}
    end in
  let '(chunkNos, log) :=
    if decide (chunkNo ∈ QstContainedFile.chunkNos file)
    then (QstContainedFile.chunkNos file,
          log ++ [warn (already_encountered chunkNo fileName)])
    else (QstContainedFile.chunkNos file ∪ {[chunkNo]}, log) in
  (* Read file data. *)
  cursor <-! BufferCursor.seek cursor 1024 ;
  r <-! BufferCursor.u32 cursor ;
  let '(size, cursor) := r in
  cursor <-! BufferCursor.seek cursor (-1028) ;
  let '(size, log) :=
    if (1024 <? size)%Z then (1024%Z, log ++ [warn (size_too_large size)])
    else (size, log) in
  r <-! BufferCursor.take cursor (Z.to_nat size) ;
  let '(data, cursor) := r in
  let chunkPosition := (chunkNo * 1024)%Z in
  let file_data :=
    BufferCursor.set_size (QstContainedFile.data file)
      (Z.to_nat (Z.max (chunkPosition + size)
                   (Z.of_nat (BufferCursor.size (QstContainedFile.data file))))) in
  file_data <-! BufferCursor.seek_start file_data chunkPosition ;
  let file_data := BufferCursor.write_cursor file_data data in
  (* Skip the padding and the trailer. *)
  cursor <-! BufferCursor.seek cursor (1032 - Z.of_nat (BufferCursor.size data)) ;
  if negb (BufferCursor.position cursor =? startPosition + 1056)%nat
  then Throw (ChunkSizeMismatch (Z.of_nat (BufferCursor.position cursor) - Z.of_nat startPosition))
  else
    Ok (cursor,
        files_set files fileName
          {| QstContainedFile.name := QstContainedFile.name file;
             QstContainedFile.name2 := QstContainedFile.name2 file;
             QstContainedFile.questNo := QstContainedFile.questNo file;
             QstContainedFile.expectedSize := QstContainedFile.expectedSize file;
             QstContainedFile.data := file_data;
             QstContainedFile.chunkNos := chunkNos |},
        log).

(** [while (cursor.bytes_left >= 1056) { ... }]; every pass moves the
    cursor by 1056 bytes, so [iterations] passes are enough when
    [bytes_left < 1056 * iterations]. *)
Fixpoint parse_chunks (iterations : nat) (cursor : BufferCursor.t)
    (expectedSizes : gmap string Z) (files : FileMap) (log : Log)
    : result (BufferCursor.t * FileMap * Log) :=
  if (BufferCursor.bytes_left cursor <? 1056)%nat then Ok (cursor, files, log)
  else
    match iterations with
    | O => Throw (CollaboratorError "loop bound reached")
    | S iterations' =>
        r <-! parse_chunk cursor expectedSizes files log ;
        let '(cursor, files, log) := r in
        parse_chunks iterations' cursor expectedSizes files log
    end.

Definition bytes_left_message (n : nat) : string := pretty n +:+ " Bytes left in file.".

Definition wrong_size (name : string) (actual : nat) (expected : Z) : string :=
  "File " +:+ name +:+ " has an actual size of " +:+ pretty actual
    +:+ " instead of the expected size " +:+ pretty expected +:+ ".".

Definition missing_chunk (name : string) (chunkNo : Z) : string :=
  "File " +:+ name +:+ " is missing chunk " +:+ pretty chunkNo +:+ ".".

(** [Math.ceil(actualSize / 1024)] *)
Definition chunk_count (actualSize : Z) : Z := (actualSize + 1023) / 1024.

(** The body of [for (const file of files.values())]. *)
Definition check_file (file : File) : File * Log :=
  (* Clean up file properties. *)
  let data := BufferCursor.with_position (QstContainedFile.data file) 0 in
  (* Check whether the expected size was correct. *)
  let log_size :=
    match QstContainedFile.expectedSize file with
    | Some expectedSize =>
        if (Z.of_nat (BufferCursor.size data) =? expectedSize)%Z then []
        else [warn (wrong_size (QstContainedFile.name file) (BufferCursor.size data)
                      expectedSize)]
    | None => []
    end in
  (* Detect missing file chunks. *)
  let actualSize :=
    Z.max (Z.of_nat (BufferCursor.size data))
      (default 0%Z (QstContainedFile.expectedSize file)) in
  let log_missing :=
    omap (fun chunkNo =>
            if decide (chunkNo ∈ QstContainedFile.chunkNos file) then None
            else Some (warn (missing_chunk (QstContainedFile.name file) chunkNo)))
      (seqZ 0 (chunk_count actualSize)) in
  ({| QstContainedFile.name := QstContainedFile.name file;
      QstContainedFile.name2 := QstContainedFile.name2 file;
      QstContainedFile.questNo := QstContainedFile.questNo file;
      QstContainedFile.expectedSize := QstContainedFile.expectedSize file;
      QstContainedFile.data := data;
      QstContainedFile.chunkNos := QstContainedFile.chunkNos file |},
   log_size ++ log_missing).

Fixpoint check_files (files : list File) : list File * Log :=
  match files with
  | [] => ([], [])
  | file :: files' =>
      let '(file, log) := check_file file in
      let '(files', log') := check_files files' in
      (file :: files', log ++ log')
  end.

Definition parseFiles (cursor : BufferCursor.t) (expectedSizes : gmap string Z)
    : result (list File * BufferCursor.t * Log) :=
  r <-! parse_chunks (S (BufferCursor.bytes_left cursor / 1056)) cursor expectedSizes [] [] ;
  let '(cursor, files, log) := r in
  let log :=
    if (BufferCursor.bytes_left cursor =? 0)%nat then log
    else log ++ [warn (bytes_left_message (BufferCursor.bytes_left cursor))] in
  let '(files, log') := check_files (map snd files) in
  Ok (files, cursor, log ++ log').

Module ParseQstResult.
Record t : Type := { version : string; files : list File }.
End ParseQstResult.

Definition detect_version (versionA versionB : Z) : string :=
  if (versionA =? 0x44)%Z then "Dreamcast/GameCube"
  else if (versionA =? 0x58)%Z then
    (if (versionB =? 0x44)%Z then "Blue Burst" else "PC")
  else if (versionA =? 0xA6)%Z then "Dreamcast download"
  else "PC".

(** Low level parsing function for .qst files.
    Can only read the Blue Burst format. *)
Definition parseQst (cursor : BufferCursor.t)
    : result (option ParseQstResult.t * Log) :=
  (* Detect version. *)
  r <-! BufferCursor.u8 cursor ;
  let '(versionA, cursor) := r in
  cursor <-! BufferCursor.seek cursor 1 ;
  r <-! BufferCursor.u8 cursor ;
  let '(versionB, cursor) := r in
  let version := detect_version versionA versionB in
  if String.eqb version "Blue Burst" then
    (* Read headers and contained files. *)
    cursor <-! BufferCursor.seek_start cursor 0 ;
    r <-! parseHeaders cursor ;
    let '(headers, cursor) := r in
    let expectedSizes : gmap string Z :=
      fold_left (fun m h => <[QstHeader.fileName h := QstHeader.size h]> m) headers ∅ in
    r <-! parseFiles cursor expectedSizes ;
    let '(files, cursor, log) := r in
    let files :=
      map (fun file : File =>
             match List.find (fun h => String.eqb (QstHeader.fileName h)
                                         (QstContainedFile.name file)) headers with
             | Some header =>
                 {| QstContainedFile.name := QstContainedFile.name file;
                    QstContainedFile.name2 := Some (QstHeader.fileName2 header);
                    QstContainedFile.questNo := Some (QstHeader.questNo header);
                    QstContainedFile.expectedSize := QstContainedFile.expectedSize file;
                    QstContainedFile.data := QstContainedFile.data file;
                    QstContainedFile.chunkNos := QstContainedFile.chunkNos file |}
             | None => file
             end) files in
    Ok (Some {| ParseQstResult.version := version; ParseQstResult.files := files |}, log)
  else
    Ok (None,
        [{| level := Err; message := "Can't parse " +:+ version +:+ " QST files." |}]).

(** The [data] of a file that is to be written is a BufferCursor object:
    writeFileChunk advances it as it takes bytes from it, and two entries
    of the array [files] may hold the same object.  The objects are kept
    in a store, and a file holds a reference into the store. *)
Definition Ref : Set := nat.
Definition Heap : Type := Ref -> BufferCursor.t.

(** The store in which the object at [ref] has come into the state
    [object]. *)
Definition heap_set (heap : Heap) (ref : Ref) (object : BufferCursor.t) : Heap :=
  fun ref' => if Nat.eqb ref' ref then object else heap ref'.

Module SimpleQstContainedFile.
Record t : Set := {
  name : string;
  name2 : option string;
  questNo : option Z;
  data : Ref
}.
End SimpleQstContainedFile.
Abbreviation SimpleFile := SimpleQstContainedFile.t.

(** [name.slice(0, dotPos) + '_j' + name.slice(dotPos)], or [name + '_j']
    when the name has no dot. *)
Definition default_name2 (name : string) : string :=
  let dotPos := Str.lastIndexOf name "." in
  if (dotPos =? -1)%Z then name +:+ "_j"
  else String.substring 0 (Z.to_nat dotPos) name +:+ "_j"
       +:+ String.substring (Z.to_nat dotPos) (String.length name - Z.to_nat dotPos) name.

Definition write_file_header (heap : Heap) (cursor : BufferCursor.t) (file : SimpleFile)
    : result BufferCursor.t :=
  let name := SimpleQstContainedFile.name file in
  if (16 <? String.length name)%nat then Throw (NameTooLong name)
  else
    let cursor := BufferCursor.write_u16 cursor 88 in (* Header size. *)
    let cursor := BufferCursor.write_u16 cursor 0x44 in (* Magic number. *)
    let cursor :=
      BufferCursor.write_u16 cursor (default 0%Z (SimpleQstContainedFile.questNo file)) in
    let cursor := Nat.iter 38 (fun cursor => BufferCursor.write_u8 cursor 0) cursor in
    let cursor := BufferCursor.write_string_ascii cursor name 16 in
    let cursor :=
      BufferCursor.write_u32 cursor
        (Z.of_nat (BufferCursor.size (heap (SimpleQstContainedFile.data file)))) in
    let fileName2 :=
      match SimpleQstContainedFile.name2 file with
      | None => default_name2 name
      | Some name2 => name2
      end in
    if (24 <? String.length fileName2)%nat then Throw (Name2TooLong name fileName2)
    else Ok (BufferCursor.write_string_ascii cursor fileName2 24).

Fixpoint writeFileHeaders (heap : Heap) (cursor : BufferCursor.t) (files : list SimpleFile)
    : result BufferCursor.t :=
  match files with
  | [] => Ok cursor
  | file :: files' =>
      cursor <-! write_file_header heap cursor file ;
      writeFileHeaders heap cursor files'
  end.

(** Returns the output cursor, the data cursor after [take] and whether
    there are bytes left to write in data.  [cursor] and [data] are the
    states of two objects: writeQst makes the output cursor itself, so it
    is none of the data cursors. *)
Definition writeFileChunk (cursor : BufferCursor.t) (data : BufferCursor.t)
    (chunkNo : Z) (name : string) : result (BufferCursor.t * BufferCursor.t * bool) :=
  let cursor := BufferCursor.write_u8_array cursor [28; 4; 19; 0] in
  let cursor := BufferCursor.write_u8 cursor chunkNo in
  let cursor := BufferCursor.write_u8_array cursor [0; 0; 0] in
  let cursor := BufferCursor.write_string_ascii cursor name 16 in
  let size := Nat.min 1024 (BufferCursor.bytes_left data) in
  r <-! BufferCursor.take data size ;
  let '(taken, data) := r in
  let cursor := BufferCursor.write_cursor cursor taken in
  (* Padding. *)
  let cursor := Nat.iter (1024 - size) (fun cursor => BufferCursor.write_u8 cursor 0) cursor in
  let cursor := BufferCursor.write_u32 cursor (Z.of_nat size) in
  let cursor := BufferCursor.write_u32 cursor 0 in
  Ok (cursor, data, negb (BufferCursor.bytes_left data =? 0)%nat).

(** An entry of the arrays [files] and [chunkNos] of writeFileChunks: the
    data cursor the file refers to, the next chunk number and the name. *)
Record ChunkSource : Set := {
  source_data : Ref;
  source_chunkNo : Z;
  source_name : string
}.

(** [let i = 0; while (i < files.length) { ... }]: one chunk of every
    file that is still in the array; the call of writeFileChunk leaves
    the data cursor of the file advanced in the store, and a file whose
    data cursor has no bytes left after the call is spliced out. *)
Fixpoint write_round (heap : Heap) (cursor : BufferCursor.t) (sources : list ChunkSource)
    : result (BufferCursor.t * Heap * list ChunkSource) :=
  match sources with
  | [] => Ok (cursor, heap, [])
  | source :: sources' =>
      r <-! writeFileChunk cursor (heap (source_data source)) (source_chunkNo source)
              (source_name source) ;
      let '(cursor, data, more) := r in
      let heap := heap_set heap (source_data source) data in
      r <-! write_round heap cursor sources' ;
      let '(cursor, heap, sources') := r in
      Ok (cursor, heap,
          if more
          then {| source_data := source_data source;
                  source_chunkNo := source_chunkNo source + 1;
                  source_name := source_name source |} :: sources'
          else sources')
  end.

(** [while (files.length) { ... }]; a round takes bytes from every data
    cursor whose file stays, so [rounds] rounds are enough when every
    data cursor has fewer than [rounds] bytes left. *)
Fixpoint write_rounds (rounds : nat) (heap : Heap) (cursor : BufferCursor.t)
    (sources : list ChunkSource) : result (BufferCursor.t * Heap) :=
  match sources with
  | [] => Ok (cursor, heap)
  | _ :: _ =>
      match rounds with
      | O => Throw (CollaboratorError "loop bound reached")
      | S rounds' =>
          r <-! write_round heap cursor sources ;
          let '(cursor, heap, sources) := r in
          write_rounds rounds' heap cursor sources
      end
  end.

Definition writeFileChunks (heap : Heap) (cursor : BufferCursor.t) (files : list SimpleFile)
    : result (BufferCursor.t * Heap) :=
  let sources :=
    map (fun file => {| source_data := SimpleQstContainedFile.data file;
                        source_chunkNo := 0;
                        source_name := SimpleQstContainedFile.name file |}) files in
  write_rounds
    (S (list_max (map (fun file =>
                         BufferCursor.bytes_left (heap (SimpleQstContainedFile.data file)))
                    files)))
    heap cursor sources.

(** [88 + Math.ceil(f.data.size / 1024) * 1056] *)
Definition predicted_size (heap : Heap) (file : SimpleFile) : nat :=
  (88 + ((BufferCursor.size (heap (SimpleQstContainedFile.data file)) + 1023) / 1024)
        * 1056)%nat.

(** Always writes in Blue Burst format.  Returns the archive and the
    store, in which the data cursors of the files are advanced. *)
Definition writeQst (heap : Heap) (files : list SimpleFile)
    : result (BufferCursor.t * Heap) :=
  match map (predicted_size heap) files with
  | [] => Throw ReduceOfEmptyArray
  | size_0 :: sizes =>
      let totalSize := fold_left Nat.add sizes size_0 in
      let cursor := BufferCursor.create true in
      cursor <-! writeFileHeaders heap cursor files ;
      r <-! writeFileChunks heap cursor files ;
      let '(cursor, heap) := r in
      if negb (BufferCursor.size cursor =? totalSize)%nat
      then Throw (SizeMismatch totalSize (BufferCursor.size cursor))
      else
        cursor <-! BufferCursor.seek_start cursor 0 ;
        Ok (cursor, heap)
  end.
End Qst.

(** The raw type codes whose case in get_npc_type is decided by [regular]
    alone: 0x043 in Episodes I and II, 0x064 and 0x082 in Episode I,
    0x111 in Episode IV, and 0x119 in Episode IV (for the roaming values
    the file format can hold, which are not negative). *)
Definition decided_by_scale_alone (type_id roaming episode : Z) : bool :=
  existsb (key2_eqb (type_id, episode))
    [(0x043, 1); (0x043, 2); (0x064, 1); (0x082, 1); (0x111, 4)]
  || ((type_id =? 0x119) && (episode =? 4) && (0 <=? roaming)).

(** ** Statements about the episode default *)

(** The object code has no instruction segment labeled 0, or its first
    such segment has no SET_EPISODE instruction. *)
Definition lacks_set_episode (object_code : list Segment) : Prop :=
  match List.find is_label_0_segment object_code with
  | None => True
  | Some segment =>
      Forall (fun inst => Instruction.opcode inst <> SET_EPISODE)
        (segment_instructions segment)
  end.

(** Every BB_MAP_DESIGNATE instruction of the label-0 segment has the
    arguments that extract_map_designations reads. *)
Definition designations_well_formed (object_code : list Segment) : Prop :=
  match List.find is_label_0_segment object_code with
  | None => True
  | Some segment =>
      Forall (fun inst => Instruction.opcode inst = BB_MAP_DESIGNATE ->
                          (3 <= length (Instruction.args inst))%nat)
        (segment_instructions segment)
  end.

(** The level at which the default is logged. *)
Definition default_level (object_code : list Segment) : Level :=
  match List.find is_label_0_segment object_code with
  | None => Warn
  | Some _ => Debug
  end.

(** ** Chunk records and header records as values *)

(** The fields that parseFiles reads from one 1056-byte chunk record and
    what one pass of its loop does with them, as a function of the record. *)
Module Chunk.
Definition chunkNo (record : list byte) : Z := le_value (take 1 (drop 4 record)).

Definition fileName (record : list byte) : string :=
  string_of_list_byte (until_nul (take 16 (drop 8 record))).

Definition declared_size (little_endian : bool) (record : list byte) : Z :=
  le_value (if little_endian then take 4 (drop 1048 record)
            else rev (take 4 (drop 1048 record))).

Definition size (little_endian : bool) (record : list byte) : Z :=
  if 1024 <? declared_size little_endian record then 1024
  else declared_size little_endian record.

Definition payload (little_endian : bool) (record : list byte) : list byte :=
  take (Z.to_nat (size little_endian record)) (drop 24 record).

(** File name and chunk index: what decides where the payload goes. *)
Definition key (record : list byte) : string * Z := (fileName record, chunkNo record).

Definition new_file (expectedSizes : gmap string Z) (fileName : string) : Qst.File :=
  {| Qst.QstContainedFile.name := fileName;
     Qst.QstContainedFile.name2 := None;
     Qst.QstContainedFile.questNo := None;
     Qst.QstContainedFile.expectedSize := expectedSizes !! fileName;
     Qst.QstContainedFile.data := BufferCursor.create true;
     Qst.QstContainedFile.chunkNos := ∅ |}.

(** The file data after the payload is written at [chunkNo * 1024]. *)
Definition write_payload (data : BufferCursor.t) (chunkNo : Z) (payload : list byte)
    : BufferCursor.t :=
  let chunkPosition := chunkNo * 1024 in
  BufferCursor.write_bytes
    (BufferCursor.with_position
       (BufferCursor.set_size data
          (Z.to_nat (Z.max (chunkPosition + Z.of_nat (length payload))
                       (Z.of_nat (BufferCursor.size data)))))
       (Z.to_nat chunkPosition))
    payload.

(** What one pass does to the file the record belongs to. *)
Definition update (little_endian : bool) (record : list byte) (file : Qst.File)
    : Qst.File :=
  {| Qst.QstContainedFile.name := Qst.QstContainedFile.name file;
     Qst.QstContainedFile.name2 := Qst.QstContainedFile.name2 file;
     Qst.QstContainedFile.questNo := Qst.QstContainedFile.questNo file;
     Qst.QstContainedFile.expectedSize := Qst.QstContainedFile.expectedSize file;
     Qst.QstContainedFile.data :=
       write_payload (Qst.QstContainedFile.data file) (chunkNo record)
         (payload little_endian record);
     Qst.QstContainedFile.chunkNos :=
       if bool_decide (chunkNo record ∈ Qst.QstContainedFile.chunkNos file)
       then Qst.QstContainedFile.chunkNos file
       else Qst.QstContainedFile.chunkNos file ∪ {[chunkNo record]} |}.

Definition file_of (expectedSizes : gmap string Z) (files : Qst.FileMap)
    (record : list byte) : Qst.File :=
  default (new_file expectedSizes (fileName record))
    (Qst.files_get files (fileName record)).

Definition store_files (little_endian : bool) (expectedSizes : gmap string Z)
    (files : Qst.FileMap) (record : list byte) : Qst.FileMap :=
  Qst.files_set files (fileName record)
    (update little_endian record (file_of expectedSizes files record)).

Definition warnings (little_endian : bool) (expectedSizes : gmap string Z)
    (files : Qst.FileMap) (record : list byte) : Log :=
  (if bool_decide (chunkNo record
                   ∈ Qst.QstContainedFile.chunkNos (file_of expectedSizes files record))
   then [Qst.warn (Qst.already_encountered (chunkNo record) (fileName record))]
   else [])
  ++ (if 1024 <? declared_size little_endian record
      then [Qst.warn (Qst.size_too_large (declared_size little_endian record))]
      else []).

Definition store (little_endian : bool) (expectedSizes : gmap string Z)
    (state : Qst.FileMap * Log) (record : list byte) : Qst.FileMap * Log :=
  (store_files little_endian expectedSizes (fst state) record,
   snd state ++ warnings little_endian expectedSizes (fst state) record).

(** What of a file the order of the chunks cannot be seen in: all but
    the position of its data cursor. *)
Definition contents (file : Qst.File)
    : string * option string * option Z * option Z * list byte * gset Z :=
  (Qst.QstContainedFile.name file,
   Qst.QstContainedFile.name2 file,
   Qst.QstContainedFile.questNo file,
   Qst.QstContainedFile.expectedSize file,
   BufferCursor.buffer (Qst.QstContainedFile.data file),
   Qst.QstContainedFile.chunkNos file).

Definition same_contents (files files' : Qst.FileMap) : Prop :=
  forall name : string,
    option_map contents (Qst.files_get files name)
    = option_map contents (Qst.files_get files' name).

(** The cursor that stands [offset] bytes into [record], which lies
    between [before] and [after]. *)
Definition inside (before record after : list byte) (little_endian : bool)
    (offset : nat) : BufferCursor.t :=
  {| BufferCursor.buffer := before ++ record ++ after;
     BufferCursor.position := (length before + offset)%nat;
     BufferCursor.little_endian := little_endian |}.

(** The payload bytes of the file called [name], if there is one. *)
Definition payload_of (files : list Qst.File) (name : string) : option (list byte) :=
  option_map (fun file => BufferCursor.buffer (Qst.QstContainedFile.data file))
    (List.find (fun file => String.eqb (Qst.QstContainedFile.name file) name) files).

(** The cursor parseFiles is given: it stands behind [before] (the
    headers), in front of the chunk records; [after] is what is left
    behind the last whole record. *)
Definition stream (before : list byte) (records : list (list byte))
    (after : list byte) (little_endian : bool) : BufferCursor.t :=
  inside before (concat records) after little_endian 0.

(** The payload that parseFiles reconstructs for the file [name]. *)
Definition decoded_payload (cursor : BufferCursor.t) (expectedSizes : gmap string Z)
    (name : string) : option (list byte) :=
  match Qst.parseFiles cursor expectedSizes with
  | Ok (files, _, _) => payload_of files name
  | Throw _ => None
  end.

(** Every entry of the map of files is filed under the name of its file. *)
Definition keyed (files : Qst.FileMap) : Prop :=
  Forall (fun entry => Qst.QstContainedFile.name (snd entry) = fst entry) files.
End Chunk.


(** The fields of an 88-byte header record, by their offsets, and the
    record that writeFileHeaders writes for a file. *)
Module Header.
Definition ordered (little_endian : bool) (bytes : list byte) : list byte :=
  if little_endian then bytes else rev bytes.

Definition decode (little_endian : bool) (record : list byte) : Qst.QstHeader.t :=
  {| Qst.QstHeader.questNo := le_value (ordered little_endian (take 2 (drop 4 record)));
     Qst.QstHeader.fileName := string_of_list_byte (until_nul (take 16 (drop 44 record)));
     Qst.QstHeader.fileName2 := string_of_list_byte (until_nul (take 24 (drop 64 record)));
     Qst.QstHeader.size := le_value (ordered little_endian (take 4 (drop 60 record))) |}.

Definition fileName2 (file : Qst.SimpleFile) : string :=
  match Qst.SimpleQstContainedFile.name2 file with
  | None => Qst.default_name2 (Qst.SimpleQstContainedFile.name file)
  | Some name2 => name2
  end.

Definition record_of (heap : Qst.Heap) (file : Qst.SimpleFile) : list byte :=
  le_bytes 2 88 ++ le_bytes 2 0x44
  ++ le_bytes 2 (default 0 (Qst.SimpleQstContainedFile.questNo file))
  ++ repeat "000"%byte 38
  ++ resize 16 "000"%byte (list_byte_of_string (Qst.SimpleQstContainedFile.name file))
  ++ le_bytes 4 (Z.of_nat (BufferCursor.size (heap (Qst.SimpleQstContainedFile.data file))))
  ++ resize 24 "000"%byte (list_byte_of_string (fileName2 file)).

(** The number of chunks writeFileChunks writes for a file: one for every
    1024 bytes left in its data, and one for a file with no bytes left. *)
Definition chunks_written (data : BufferCursor.t) : nat :=
  if (BufferCursor.bytes_left data =? 0)%nat then 1%nat
  else ((BufferCursor.bytes_left data + 1023) / 1024)%nat.

(** The data cursor is at its start and the names fit their fields. *)
Definition writable (heap : Qst.Heap) (file : Qst.SimpleFile) : Prop :=
  (String.length (Qst.SimpleQstContainedFile.name file) <= 16)%nat
  /\ (String.length (fileName2 file) <= 24)%nat
  /\ BufferCursor.position (heap (Qst.SimpleQstContainedFile.data file)) = 0%nat.

(** The cursor after [bytes] were written at its end. *)
Definition appended (cursor : BufferCursor.t) (bytes : list byte) : BufferCursor.t :=
  {| BufferCursor.buffer := BufferCursor.buffer cursor ++ bytes;
     BufferCursor.position := length (BufferCursor.buffer cursor ++ bytes);
     BufferCursor.little_endian := BufferCursor.little_endian cursor |}.
End Header.

(** ** Statements about the round trip of a quest *)

(** The type code that npc_type_to_dat_data gives for [type] is [type_id]. *)
Definition entry_encodes (type_id : Z) (type : NpcType) : bool :=
  match npc_type_to_dat_data type with
  | Ok (Some type_data) => td_type_id type_data =? type_id
  | _ => false
  end.

(** What a round trip keeps of an NPC: everything but its type, its
    vertical scale and its roaming value; the script label is rounded
    once more. *)
Definition npc_kept (npc npc' : QuestNpc.t) : Prop :=
  QuestNpc.area_id npc' = QuestNpc.area_id npc
  /\ QuestNpc.section_id npc' = QuestNpc.section_id npc
  /\ QuestNpc.position npc' = QuestNpc.position npc
  /\ QuestNpc.rotation npc' = QuestNpc.rotation npc
  /\ Vec3.x (QuestNpc.scale npc') = Vec3.x (QuestNpc.scale npc)
  /\ Vec3.z (QuestNpc.scale npc') = Vec3.z (QuestNpc.scale npc)
  /\ QuestNpc.unknown npc' = QuestNpc.unknown npc
  /\ QuestNpc.pso_type_id npc' = QuestNpc.pso_type_id npc
  /\ QuestNpc.npc_id npc' = QuestNpc.npc_id npc
  /\ QuestNpc.script_label npc' = Js.Math_round (QuestNpc.script_label npc).

(** The 32-bit pattern [pattern'] has [flag] as its bit 23, and its
    other bits are those of [pattern]. *)
Definition bit_23_set_to (flag : bool) (pattern pattern' : Z) : Prop :=
  0 <= pattern' < 2 ^ 32
  /\ Z.testbit pattern' 23 = flag
  /\ forall i : Z, 0 <= i < 32 -> i <> 23 -> Z.testbit pattern' i = Z.testbit pattern i.

(** What a round trip rewrites of an NPC.  With the entry (type code,
    roaming value, regular flag) of the table of npc_type_to_dat_data for
    the type of the NPC, or, for an NPC of type Unknown, with its own
    pso_type_id and roaming value and the flag true: the roaming value is
    that of the entry, and the vertical scale is the binary32 number
    whose pattern is that of the NPC's scale.y with bit 23 cleared when
    the flag is true and set when it is false. *)
Definition npc_rewritten (npc npc' : QuestNpc.t) : Prop :=
  exists type_data : NpcTypeData,
    (npc_type_to_dat_data (QuestNpc.type npc) = Ok (Some type_data)
     \/ QuestNpc.type npc = Unknown
        /\ type_data = {| td_type_id := QuestNpc.pso_type_id npc;
                          td_roaming := QuestNpc.roaming npc;
                          td_regular := true |})
    /\ QuestNpc.roaming npc' = td_roaming type_data
    /\ exists pattern' : Z,
         bit_23_set_to (negb (td_regular type_data))
           (Js.getUint32_of_setFloat32 (Vec3.y (QuestNpc.scale npc))) pattern'
         /\ Vec3.y (QuestNpc.scale npc') = Js.getFloat32_of_setUint32 pattern'.

(** The collaborators lose nothing of what write_quest_qst hands them for
    [quest]: the archive gives its files back, and the DAT and BIN
    payloads, compressed and decompressed, are parsed back to the files
    they were written from (the BIN file with the entry points of the
    DAT file's entities). *)
Definition transports {Archive Payload : Type} (C : Collaborators Archive Payload)
    (quest : Quest.t) (file_name : string) (lenient : bool) : Prop :=
  forall dat_file : DatFile.t,
    quest_dat_file C quest = Ok dat_file ->
    let dat := write_dat C dat_file in
    let bin := write_bin C (quest_bin_file quest) in
    (exists archive,
       write_qst C (qst_files C quest file_name dat bin) = Ok archive
       /\ parse_qst C archive = Some (qst_files C quest file_name dat bin))
    /\ parse_dat C (prs_decompress C (prs_compress C dat)) = dat_file
    /\ parse_bin C (prs_decompress C (prs_compress C bin))
         (extract_script_entry_points (parse_obj_data C (DatFile.objs dat_file))
            (DatFile.npcs dat_file))
         lenient
       = Ok (quest_bin_file quest).

(** The object type table gives every object of the quest its type back. *)
Definition object_types_kept {Archive Payload : Type} (C : Collaborators Archive Payload)
    (quest : Quest.t) : Prop :=
  Forall (fun object =>
            pso_id_to_object_type C (object_data_pso_id C (QuestObject.type object))
            = QuestObject.type object)
    (Quest.objects quest).

(** ** Concrete records and collaborators used by the examples below *)

Module Examples.
Local Open Scope float_scope.

Definition origin : Vec3.t := {| Vec3.x := 0; Vec3.y := 0; Vec3.z := 0 |}.

(** An NPC record with the given type code, roaming value, area and
    vertical scale. *)
Definition dat_npc (type_id roaming area_id : Z) (scale_y : float) : DatNpc.t :=
  {| DatNpc.type_id := type_id;
     DatNpc.section_id := 1;
     DatNpc.position := origin;
     DatNpc.rotation := origin;
     DatNpc.scale := {| Vec3.x := 1; Vec3.y := scale_y; Vec3.z := 1 |};
     DatNpc.npc_id := 0;
     DatNpc.script_label := 0;
     DatNpc.roaming := roaming;
     DatNpc.area_id := area_id;
     DatNpc.unknown := [] |}.

Definition quest_npc (type : NpcType) (pso_type_id roaming : Z) : QuestNpc.t :=
  {| QuestNpc.type := type;
     QuestNpc.area_id := 1;
     QuestNpc.section_id := 1;
     QuestNpc.position := origin;
     QuestNpc.rotation := origin;
     QuestNpc.scale := {| Vec3.x := 1; Vec3.y := 1; Vec3.z := 1 |};
     QuestNpc.unknown := [];
     QuestNpc.pso_type_id := pso_type_id;
     QuestNpc.npc_id := 0;
     QuestNpc.script_label := 0;
     QuestNpc.roaming := roaming |}.

Definition gobooma_record : DatNpc.t := dat_npc 0x044 4 1 1.

(** Collaborators that lose nothing: a payload is the DAT or BIN file it
    was written from, an archive is the list of its files, compression
    is the identity, and the object type table is a bijection. *)
Inductive Payload : Type :=
  | DatPayload (dat : DatFile.t)
  | BinPayload (bin : BinFile.t).

Definition Archive : Type := list (QstContainedFile.t Payload).

Definition empty_dat : DatFile.t :=
  {| DatFile.objs := []; DatFile.npcs := []; DatFile.unknowns := [] |}.

Definition transparent : Collaborators Archive Payload :=
  {| parse_qst := fun archive => Some archive;
     write_qst := fun files => Ok files;
     prs_decompress := fun payload => payload;
     prs_compress := fun payload => payload;
     parse_dat := fun payload =>
       match payload with DatPayload dat => dat | BinPayload _ => empty_dat end;
     write_dat := DatPayload;
     parse_bin := fun payload _ _ =>
       match payload with
       | BinPayload bin => Ok bin
       | DatPayload _ => Throw (CollaboratorError "not a BIN file")
       end;
     write_bin := BinPayload;
     pso_id_to_object_type := fun id =>
       if id =? 1 then ScriptCollision
       else if id =? 2 then ForestConsole
       else if id =? 3 then TalkLinkToSupport
       else if id =? 4 then RicoMessagePod
       else OtherObjectType id;
     object_data_pso_id := fun type =>
       match type with
       | ScriptCollision => 1
       | ForestConsole => 2
       | TalkLinkToSupport => 3
       | RicoMessagePod => 4
       | OtherObjectType id => id
       end |}%Z.

Definition quest_of (npcs : list QuestNpc.t) (object_code : list Segment) : Quest.t :=
  {| Quest.id := 58;
     Quest.language := 0;
     Quest.name := "Example";
     Quest.short_description := "";
     Quest.long_description := "";
     Quest.episode := Episode.I;
     Quest.objects := [];
     Quest.npcs := npcs;
     Quest.dat_unknowns := [];
     Quest.object_code := object_code;
     Quest.shop_items := [];
     Quest.map_designations := ∅ |}.

(** A quest archive whose function 0 is a single [ret]-like instruction:
    there is a segment labeled 0, and it has no SET_EPISODE. *)
Definition ret : Instruction.t :=
  {| Instruction.opcode := OtherOpcode 1; Instruction.args := [] |}.

Definition bin_without_set_episode : BinFile.t :=
  {| BinFile.quest_id := 58;
     BinFile.language := 0;
     BinFile.quest_name := "Example";
     BinFile.short_description := "";
     BinFile.long_description := "";
     BinFile.object_code := [InstructionSegment [0%Z] [ret]];
     BinFile.shop_items := [] |}.

Definition archive_of (dat : DatFile.t) (bin : BinFile.t) : Archive :=
  [ {| QstContainedFile.name := "quest.dat";
       QstContainedFile.id := Some 58%Z;
       QstContainedFile.data := DatPayload dat |};
    {| QstContainedFile.name := "quest.bin";
       QstContainedFile.id := Some 58%Z;
       QstContainedFile.data := BinPayload bin |} ].

(** A TalkLinkToSupport object (type code 3 of [transparent]) with six
    property slots. *)
Definition support_object : DatObject.t :=
  {| DatObject.type_id := 3;
     DatObject.id := 7;
     DatObject.group_id := 0;
     DatObject.section_id := 1;
     DatObject.position := origin;
     DatObject.rotation := origin;
     DatObject.properties := [1; 2; 3; 150; 5; 6]%float;
     DatObject.area_id := 1;
     DatObject.unknown := [] |}.

(** A DAT file with a Booma, a record with roaming value 4 that decodes
    to Gobooma, and a lily record (type code 0x061) with scale.y = 1,
    which decodes to NarLily, all in an Episode I quest. *)
Definition dat_with_npcs : DatFile.t :=
  {| DatFile.objs := [support_object];
     DatFile.npcs := [dat_npc 0x044 0 1 1; dat_npc 0x044 4 1 1; dat_npc 0x061 0 1 1];
     DatFile.unknowns := [{| span := ["001"; "002"; "003"]%byte |}] |}.

Definition archive_with_npcs : Archive :=
  archive_of dat_with_npcs bin_without_set_episode.

Definition archive_without_set_episode : Archive :=
  archive_of empty_dat bin_without_set_episode.

(** A 1056-byte chunk record, as writeFileChunk writes it. *)
Definition chunk_record (chunkNo : Z) (name : string) (payload : list byte) : list byte :=
  match Qst.writeFileChunk (BufferCursor.create true) (BufferCursor.of_bytes payload true)
          chunkNo name with
  | Ok (cursor, _, _) => BufferCursor.buffer cursor
  | Throw _ => []
  end.

(** Two chunks with index 0 of the same file, with different payloads. *)
Definition first_chunk_a : list byte := chunk_record 0 "quest.dat" ["a"%byte].
Definition first_chunk_b : list byte := chunk_record 0 "quest.dat" ["b"%byte].

(** The chunks 0, 1, 3 and 4 of a file of five chunks. *)
Definition four_of_five : list (list byte) :=
  [ chunk_record 0 "quest.dat" (repeat "0"%byte 1024);
    chunk_record 1 "quest.dat" (repeat "1"%byte 1024);
    chunk_record 3 "quest.dat" (repeat "3"%byte 1024);
    chunk_record 4 "quest.dat" (repeat "4"%byte 100) ].

(** The chunks 0, 1, 3 and 4 of a file of five full chunks (5120 bytes). *)
Definition four_of_five_full : list (list byte) :=
  [ chunk_record 0 "quest.dat" (repeat "0"%byte 1024);
    chunk_record 1 "quest.dat" (repeat "1"%byte 1024);
    chunk_record 3 "quest.dat" (repeat "3"%byte 1024);
    chunk_record 4 "quest.dat" (repeat "4"%byte 1024) ].

(** A store of data cursors: the cursor at [ref] stands at the start of
    the payload at index [ref] of [payloads]. *)
Definition objects (payloads : list (list byte)) : Qst.Heap :=
  fun ref => BufferCursor.of_bytes (nth ref payloads []) true.

(** A file to be written into an archive, with the data cursor at [data]. *)
Definition simple_file (name : string) (data : Qst.Ref) : Qst.SimpleFile :=
  {| Qst.SimpleQstContainedFile.name := name;
     Qst.SimpleQstContainedFile.name2 := None;
     Qst.SimpleQstContainedFile.questNo := Some 58%Z;
     Qst.SimpleQstContainedFile.data := data |}.

(** An 88-byte record that holds the name "quest.dat" at offset 42. *)
Definition header_with_name_at_42 : list byte :=
  repeat "000"%byte 42
  ++ resize 16 "000"%byte (list_byte_of_string "quest.dat")
  ++ repeat "000"%byte 30.
End Examples.

(** ** Statements about NPC records that are decoded and encoded again *)

(** What encoding keeps of the record an NPC was decoded from: everything
    but the vertical scale and the roaming value; the script label is
    rounded. *)
Definition record_kept (npc npc' : DatNpc.t) : Prop :=
  DatNpc.type_id npc' = DatNpc.type_id npc
  /\ DatNpc.section_id npc' = DatNpc.section_id npc
  /\ DatNpc.position npc' = DatNpc.position npc
  /\ DatNpc.rotation npc' = DatNpc.rotation npc
  /\ Vec3.x (DatNpc.scale npc') = Vec3.x (DatNpc.scale npc)
  /\ Vec3.z (DatNpc.scale npc') = Vec3.z (DatNpc.scale npc)
  /\ DatNpc.npc_id npc' = DatNpc.npc_id npc
  /\ DatNpc.script_label npc' = Js.Math_round (DatNpc.script_label npc)
  /\ DatNpc.area_id npc' = DatNpc.area_id npc
  /\ DatNpc.unknown npc' = DatNpc.unknown npc.

(** The regular flag that npcs_to_dat_data encodes for an NPC of type
    [type]. *)
Definition encoded_regular (type : NpcType) : bool :=
  match npc_type_to_dat_data type with
  | Ok (Some type_data) => td_regular type_data
  | _ => true
  end.

(** A record with the type code and the roaming value that are encoded
    for an NPC type, in an area on the side of area 15 that [far] tells,
    with a vertical scale that get_npc_type reads as [regular]. *)
Definition encoded_record (type_data : NpcTypeData) (far : bool) : DatNpc.t :=
  Examples.dat_npc (td_type_id type_data) (td_roaming type_data)
    (if far then 16 else 0)
    (if td_regular type_data then 0.5%float else 1%float).

(** The type is NarLily or NarLily2, or it is decoded again from the
    record that is encoded for it. *)
Definition stays (episode : Z) (far : bool) (type : NpcType) : Prop :=
  type = NarLily \/ type = NarLily2
  \/ exists type_data,
       npc_type_to_dat_data type = Ok (Some type_data)
       /\ get_npc_type episode (encoded_record type_data far) = type.

(** ** Statements about the object code *)

(** The instruction does not designate a map for [area_id]. *)
Definition designates_other (area_id : Z) (inst : Instruction.t) : Prop :=
  Instruction.opcode inst = BB_MAP_DESIGNATE -> arg_value inst 0 <> Ok area_id.

(** No value occurs twice in [s], by the equality of [Set]. *)
Definition no_duplicates (s : list float) : Prop :=
  forall (i j : nat) (x y : float),
    (i < j)%nat -> s !! i = Some x -> s !! j = Some y ->
    Js.same_value_zero y x = false.

(** [s.has(v)] *)
Definition set_has (s : list float) (v : float) : bool :=
  existsb (Js.same_value_zero v) s.

(** What the loops of extract_script_entry_points do with one object and
    with one NPC. *)
Definition add_object_entry_points (entry_points : list float) (obj : QuestObject.t)
    : list float :=
  let entry_points :=
    match JsMap.get (QuestObject.properties obj) "script_label" with
    | Some entry_point => set_add entry_points entry_point
    | None => entry_points
    end in
  match JsMap.get (QuestObject.properties obj) "script_label_2" with
  | Some entry_point_2 => set_add entry_points entry_point_2
  | None => entry_points
  end.

Definition add_npc_entry_point (entry_points : list float) (npc : DatNpc.t)
    : list float :=
  set_add entry_points (Js.Math_round (DatNpc.script_label npc)).

(** ** Statements about the files of a quest archive *)

(** The trimmed, lower-cased name of the file ends in [extension]. *)
Definition has_extension {Payload : Type} (extension : string)
    (file : QstContainedFile.t Payload) : bool :=
  Str.endsWith (Str.toLowerCase (Str.trim (QstContainedFile.name file))) extension.

(** [c] does not occur in [s]. *)
Fixpoint without_char (c : ascii) (s : string) : bool :=
  match s with
  | EmptyString => true
  | String c' s' => negb (Ascii.eqb c c') && without_char c s'
  end.

(** The collaborators [C], with a QST codec that finds [files] in every
    archive. *)
Definition with_files {Archive Payload : Type} (C : Collaborators Archive Payload)
    (files : list (QstContainedFile.t Payload)) : Collaborators Archive Payload :=
  {| parse_qst := fun _ => Some files;
     write_qst := write_qst C;
     prs_decompress := prs_decompress C;
     prs_compress := prs_compress C;
     parse_dat := parse_dat C;
     write_dat := write_dat C;
     parse_bin := parse_bin C;
     write_bin := write_bin C;
     pso_id_to_object_type := pso_id_to_object_type C;
     object_data_pso_id := object_data_pso_id C |}.

(** ** Statements about the QST container *)

(** The names of the file fit the fields of a header record. *)
Definition names_fit (file : Qst.SimpleFile) : Prop :=
  (String.length (Qst.SimpleQstContainedFile.name file) <= 16)%nat
  /\ (String.length (Header.fileName2 file) <= 24)%nat.

(** ** Chunk records as values, and the files of an archive that is
       written and parsed again *)

(** The 1056-byte record that writeFileChunk writes: a 24-byte header
    with the chunk number and the file name, the 1024-byte data segment
    and an 8-byte trailer with the size of the payload. *)
Definition chunk_bytes (chunkNo : Z) (name : string) (payload : list byte) : list byte :=
  map byte_of_Z [28; 4; 19; 0] ++ [byte_of_Z chunkNo] ++ map byte_of_Z [0; 0; 0]
  ++ resize 16 "000"%byte (list_byte_of_string name)
  ++ payload ++ repeat "000"%byte (1024 - length payload)
  ++ le_bytes 4 (Z.of_nat (length payload)) ++ le_bytes 4 0.

(** [count] chunk records of a file, one after the other, from chunk
    number [chunkNo] on, for the bytes that are left of its payload. *)
Fixpoint chunks_from (count : nat) (chunkNo : Z) (name : string) (bytes : list byte)
    : list (list byte) :=
  match count with
  | O => []
  | S count' =>
      chunk_bytes chunkNo name (take 1024 bytes)
      :: chunks_from count' (chunkNo + 1) name (drop 1024 bytes)
  end.

(** An entry of the arrays of writeFileChunks with the state of the data
    cursor it refers to. *)
Record SourceState : Set := {
  state_data : BufferCursor.t;
  state_chunkNo : Z;
  state_name : string
}.

Definition state_of (heap : Qst.Heap) (source : Qst.ChunkSource) : SourceState :=
  {| state_data := heap (Qst.source_data source);
     state_chunkNo := Qst.source_chunkNo source;
     state_name := Qst.source_name source |}.

(** The bytes that are left in the data of a file that is being written. *)
Definition source_bytes (source : SourceState) : list byte :=
  drop (BufferCursor.position (state_data source))
    (BufferCursor.buffer (state_data source)).

(** The chunk that the next round writes for a file, the file in the
    round after that, and all chunks that are still to be written for it. *)
Definition first_chunk (source : SourceState) : list byte :=
  chunk_bytes (state_chunkNo source) (state_name source)
    (take 1024 (source_bytes source)).

Definition next_source (source : SourceState) : SourceState :=
  {| state_data :=
       BufferCursor.with_position (state_data source)
         (BufferCursor.position (state_data source)
          + Nat.min 1024 (BufferCursor.bytes_left (state_data source)));
     state_chunkNo := state_chunkNo source + 1;
     state_name := state_name source |}.

Definition later_sources (sources : list SourceState) : list SourceState :=
  omap (fun source =>
          if (1024 <? BufferCursor.bytes_left (state_data source))%nat
          then Some (next_source source) else None) sources.

Definition source_chunks (source : SourceState) : list (list byte) :=
  chunks_from (Header.chunks_written (state_data source))
    (state_chunkNo source) (state_name source) (source_bytes source).

(** The entry of the arrays of writeFileChunks that a file starts with. *)
Definition source_of (heap : Qst.Heap) (file : Qst.SimpleFile) : SourceState :=
  {| state_data := heap (Qst.SimpleQstContainedFile.data file);
     state_chunkNo := 0;
     state_name := Qst.SimpleQstContainedFile.name file |}.

(** No zero byte among the characters of [s]. *)
Definition without_nul (s : string) : Prop :=
  Forall (fun b => b <> "000"%byte) (list_byte_of_string s).

(** A file that comes back from an archive: its names fit the header
    fields and hold no zero byte, its quest number fits 16 bits, its data
    cursor stands at the start, and its payload is not empty and has at
    most 256 chunks. *)
Definition portable (heap : Qst.Heap) (file : Qst.SimpleFile) : Prop :=
  Header.writable heap file
  /\ without_nul (Qst.SimpleQstContainedFile.name file)
  /\ without_nul (Header.fileName2 file)
  /\ 0 <= default 0 (Qst.SimpleQstContainedFile.questNo file) < 65536
  /\ (0 < BufferCursor.size (heap (Qst.SimpleQstContainedFile.data file))
       <= 256 * 1024)%nat.

(** The file that parseQst gives back for [file]. *)
Definition parsed (heap : Qst.Heap) (file : Qst.SimpleFile) : Qst.File :=
  {| Qst.QstContainedFile.name := Qst.SimpleQstContainedFile.name file;
     Qst.QstContainedFile.name2 := Some (Header.fileName2 file);
     Qst.QstContainedFile.questNo :=
       Some (default 0 (Qst.SimpleQstContainedFile.questNo file));
     Qst.QstContainedFile.expectedSize :=
       Some (Z.of_nat (BufferCursor.size (heap (Qst.SimpleQstContainedFile.data file))));
     Qst.QstContainedFile.data :=
       BufferCursor.of_bytes
         (BufferCursor.buffer (heap (Qst.SimpleQstContainedFile.data file))) true;
     Qst.QstContainedFile.chunkNos :=
       list_to_set
         (seqZ 0 (Qst.chunk_count
                    (Z.of_nat (BufferCursor.size
                                 (heap (Qst.SimpleQstContainedFile.data file)))))) |}.

(** The file that parseFiles assembles from the chunks of [file], before
    parseQst adds what the header says. *)
Definition assembled (heap : Qst.Heap) (file : Qst.SimpleFile) : Qst.File :=
  {| Qst.QstContainedFile.name := Qst.SimpleQstContainedFile.name file;
     Qst.QstContainedFile.name2 := None;
     Qst.QstContainedFile.questNo := None;
     Qst.QstContainedFile.expectedSize :=
       Some (Z.of_nat (BufferCursor.size (heap (Qst.SimpleQstContainedFile.data file))));
     Qst.QstContainedFile.data :=
       BufferCursor.of_bytes
         (BufferCursor.buffer (heap (Qst.SimpleQstContainedFile.data file))) true;
     Qst.QstContainedFile.chunkNos :=
       list_to_set
         (seqZ 0 (Qst.chunk_count
                    (Z.of_nat (BufferCursor.size
                                 (heap (Qst.SimpleQstContainedFile.data file)))))) |}.

(** The names of [names] in the order in which they occur first. *)
Fixpoint first_occurrences (names : list string) : list string :=
  match names with
  | [] => []
  | name :: names' =>
      name :: filter (fun name' => name' <> name) (first_occurrences names')
  end.

(** * Properties *)

(** ** NPC identity *)

Lemma switch_In {K V : Type} (eqb : K -> K -> bool) (k : K) (cases : list (K * V)) (v : V) :
  switch eqb k cases = Some v -> exists k', eqb k k' = true /\ In (k', v) cases.
Proof.
  induction cases as [|[k' v'] cases IH]; simpl; [discriminate|].
  destruct (eqb k k') eqn:E.
  - intros [= <-]. exists k'. auto.
  - intros H. destruct (IH H) as (k'' & ? & ?). exists k''. auto.
Qed.

Lemma key3_eqb_eq (a b : Z * Z * Z) : key3_eqb a b = true <-> a = b.
Proof.
  destruct a as [[a1 a2] a3], b as [[b1 b2] b3]. unfold key3_eqb.
  rewrite !andb_true_iff, !Z.eqb_eq. split.
  - intros [[-> ->] ->]. reflexivity.
  - intros [= -> -> ->]. auto.
Qed.

Lemma key2_eqb_eq (a b : Z * Z) : key2_eqb a b = true <-> a = b.
Proof.
  destruct a as [a1 a2], b as [b1 b2]. unfold key2_eqb.
  rewrite andb_true_iff, !Z.eqb_eq. split.
  - intros [-> ->]. reflexivity.
  - intros [= -> ->]. auto.
Qed.

(** C2: a record with raw type code 0x044 and a roaming value congruent to
    1 modulo 3 decodes, in Episode I, to Gobooma; Gobooma encodes to raw
    type code 0x044, roaming value 1 and regular flag true. *)
Theorem gobooma_identity (npc : DatNpc.t) :
  DatNpc.type_id npc = 0x044 ->
  0 <= DatNpc.roaming npc ->
  DatNpc.roaming npc mod 3 = 1 ->
  get_npc_type (Episode.number Episode.I) npc = Gobooma
  /\ npc_type_to_dat_data Gobooma
     = Ok (Some {| td_type_id := 0x044; td_roaming := 1; td_regular := true |}).
Proof.
  intros Htype Hpos Hmod. split; [|reflexivity].
  unfold get_npc_type.
  rewrite Htype, Z.rem_mod_nonneg, Hmod by lia.
  reflexivity.
Qed.

Lemma gobooma_identity_witness :
  get_npc_type (Episode.number Episode.I) Examples.gobooma_record = Gobooma
  /\ npc_type_to_dat_data Gobooma
     = Ok (Some {| td_type_id := 0x044; td_roaming := 1; td_regular := true |}).
Proof.
  apply gobooma_identity; [reflexivity | vm_compute; discriminate | reflexivity].
Defined.

Lemma rem_2_cases (n : Z) : 0 <= n -> Z.rem n 2 = 0 \/ Z.rem n 2 = 1.
Proof. intros H. rewrite Z.rem_mod_nonneg by lia. pose proof (Z.mod_pos_bound n 2). lia. Qed.

(** C3, as the code has it: for a raw type code that is disambiguated by
    the vertical scale alone, |scale.y - 1| > 0.00001 (in binary64
    arithmetic) selects the variant that npc_type_to_dat_data encodes
    with regular = true (SavageWolf for 0x043 and PofuillySlime for 0x064
    in Episode I), and every other scale.y, that is |scale.y - 1| <=
    0.00001 or a scale.y that is not a number, selects the variant
    encoded with regular = false (BarbarousWolf, PouillySlime). *)
Theorem scale_selects_variant (episode : Z) (npc : DatNpc.t) :
  decided_by_scale_alone (DatNpc.type_id npc) (DatNpc.roaming npc) episode = true ->
  let far :=
    PrimFloat.ltb 0.00001%float
      (PrimFloat.abs (PrimFloat.sub (Vec3.y (DatNpc.scale npc)) 1%float)) in
  (exists td,
     npc_type_to_dat_data (get_npc_type episode npc) = Ok (Some td)
     /\ td_type_id td = DatNpc.type_id npc
     /\ td_regular td = far)
  /\ (DatNpc.type_id npc = 0x043 -> episode = 1 ->
      get_npc_type episode npc = if far then SavageWolf else BarbarousWolf)
  /\ (DatNpc.type_id npc = 0x064 -> episode = 1 ->
      get_npc_type episode npc = if far then PofuillySlime else PouillySlime).
Proof.
  intros H far.
  change far with (scale_y_regular (Vec3.y (DatNpc.scale npc))). clear far.
  set (regular := scale_y_regular (Vec3.y (DatNpc.scale npc))).
  unfold get_npc_type. fold regular.
  destruct npc as [type_id ? ? ? scale ? ? roaming area_id ?]; simpl in *.
  unfold decided_by_scale_alone in H.
  apply orb_true_iff in H as [H|H].
  - apply existsb_exists in H as (k & Hin & Hk).
    apply key2_eqb_eq in Hk. subst k. simpl in Hin.
    repeat destruct Hin as [Hin|Hin]; try contradiction;
      injection Hin as <- <-; destruct regular; cbn;
      (split; [eexists; split; [reflexivity|split; reflexivity]|]);
      split; intros; try reflexivity; discriminate.
  - apply andb_true_iff in H as [H Hr]. apply andb_true_iff in H as [Ht He].
    apply Z.eqb_eq in Ht, He. apply Z.leb_le in Hr. subst.
    destruct (rem_2_cases roaming Hr) as [E|E]; rewrite E;
      destruct regular; cbn;
      (split; [eexists; split; [reflexivity|split; reflexivity]|]);
      split; intros; discriminate.
Qed.

Lemma scale_selects_variant_witness :
  get_npc_type 1 (Examples.dat_npc 0x043 0 1 1%float) = BarbarousWolf
  /\ get_npc_type 1 (Examples.dat_npc 0x043 0 1 2%float) = SavageWolf
  /\ get_npc_type 1 (Examples.dat_npc 0x064 0 1 1%float) = PouillySlime
  /\ get_npc_type 1 (Examples.dat_npc 0x064 0 1 0.5%float) = PofuillySlime.
Proof.
  split; [|split; [|split]].
  - exact (proj1 (proj2 (scale_selects_variant 1 (Examples.dat_npc 0x043 0 1 1%float)
                           eq_refl)) eq_refl eq_refl).
  - exact (proj1 (proj2 (scale_selects_variant 1 (Examples.dat_npc 0x043 0 1 2%float)
                           eq_refl)) eq_refl eq_refl).
  - exact (proj2 (proj2 (scale_selects_variant 1 (Examples.dat_npc 0x064 0 1 1%float)
                           eq_refl)) eq_refl eq_refl).
  - exact (proj2 (proj2 (scale_selects_variant 1 (Examples.dat_npc 0x064 0 1 0.5%float)
                           eq_refl)) eq_refl eq_refl).
Defined.

(** C3, as the spec states it, fails in both directions: a wolf record
    (raw type code 0x043, Episode I) with scale.y = 2, hence
    |scale.y - 1| > 0.00001, decodes to SavageWolf, the variant encoded
    with regular = true, and the wolf record with scale.y = 1, hence
    |scale.y - 1| <= 0.00001, decodes to BarbarousWolf, the variant
    encoded with regular = false. *)
Lemma scale_marks_alternate_counterexample :
  ~ (forall (episode : Z) (npc : DatNpc.t) (td : NpcTypeData),
       decided_by_scale_alone (DatNpc.type_id npc) (DatNpc.roaming npc) episode = true ->
       npc_type_to_dat_data (get_npc_type episode npc) = Ok (Some td) ->
       let distance :=
         PrimFloat.abs (PrimFloat.sub (Vec3.y (DatNpc.scale npc)) 1%float) in
       (PrimFloat.ltb 0.00001%float distance = true -> td_regular td = false)
       /\ (PrimFloat.leb distance 0.00001%float = true -> td_regular td = true))
  /\ PrimFloat.ltb 0.00001%float (PrimFloat.abs (PrimFloat.sub 2%float 1%float)) = true
  /\ get_npc_type 1 (Examples.dat_npc 0x043 0 1 2%float) = SavageWolf
  /\ npc_type_to_dat_data SavageWolf
     = Ok (Some {| td_type_id := 0x043; td_roaming := 0; td_regular := true |})
  /\ PrimFloat.leb (PrimFloat.abs (PrimFloat.sub 1%float 1%float)) 0.00001%float = true
  /\ get_npc_type 1 (Examples.dat_npc 0x043 0 1 1%float) = BarbarousWolf
  /\ npc_type_to_dat_data BarbarousWolf
     = Ok (Some {| td_type_id := 0x043; td_roaming := 0; td_regular := false |}).
Proof.
  split; [|repeat split; reflexivity].
  intros H.
  destruct (H 1 (Examples.dat_npc 0x043 0 1 2%float)
              {| td_type_id := 0x043; td_roaming := 0; td_regular := true |}
              eq_refl eq_refl) as (Hfar & _).
  specialize (Hfar eq_refl). discriminate Hfar.
Qed.

(** ** Encoding NPCs *)

Lemma map_result_app {A B : Type} (f : A -> result B) (l1 l2 : list A) (r1 r2 : list B) :
  map_result f l1 = Ok r1 -> map_result f l2 = Ok r2 ->
  map_result f (l1 ++ l2) = Ok (r1 ++ r2).
Proof.
  revert r1. induction l1 as [|a l1 IH]; simpl; intros r1 H1 H2.
  - injection H1 as <-. exact H2.
  - destruct (f a) as [b|]; simpl in *; [|discriminate].
    destruct (map_result f l1) as [bs|]; simpl in *; [|discriminate].
    injection H1 as <-. rewrite (IH bs eq_refl H2). reflexivity.
Qed.

Lemma map_result_throw {A B : Type} (f : A -> result B) (l : list A) (a : A) :
  In a l -> (exists e, f a = Throw e) ->
  exists a' e', In a' l /\ f a' = Throw e' /\ map_result f l = Throw e'.
Proof.
  induction l as [|a0 l IH]; simpl; [contradiction|].
  intros Hin Hthrow. destruct (f a0) as [b|e0] eqn:E0; simpl.
  - destruct Hin as [->|Hin].
    + destruct Hthrow as [e He]. congruence.
    + destruct (IH Hin Hthrow) as (a' & e' & Ha' & Hf & Hm).
      exists a', e'. rewrite Hm. auto.
  - exists a0, e0. auto.
Qed.

Lemma npc_to_dat_data_throw (npc : QuestNpc.t) (e : Error) :
  npc_to_dat_data npc = Throw e ->
  exists member, QuestNpc.type npc = OtherNpcType member /\ e = UnexpectedNpcType member.
Proof.
  unfold npc_to_dat_data. destruct (QuestNpc.type npc); simpl; try discriminate.
  intros [= <-]. eauto.
Qed.

(** C5, as the code has it: when a quest holds an NPC whose type has no
    triple in npc_type_to_dat_data and is not Unknown (a member of the
    enum that falls to the [default:] branch), npcs_to_dat_data raises
    and so does write_quest_qst: no archive is produced.  The error names
    a member that is the type of an NPC of the quest. *)
Theorem unmapped_npc_type_is_fatal {Archive Payload : Type}
    (C : Collaborators Archive Payload) (quest : Quest.t) (file_name : string)
    (npc : QuestNpc.t) :
  In npc (Quest.npcs quest) ->
  (forall type_data : NpcTypeData,
     npc_type_to_dat_data (QuestNpc.type npc) <> Ok (Some type_data)) ->
  QuestNpc.type npc <> Unknown ->
  exists (npc' : QuestNpc.t) (member : string),
    In npc' (Quest.npcs quest)
    /\ QuestNpc.type npc' = OtherNpcType member
    /\ npcs_to_dat_data (Quest.npcs quest) = Throw (UnexpectedNpcType member)
    /\ write_quest_qst C quest file_name = Throw (UnexpectedNpcType member).
Proof.
  intros Hin Hunmapped Hknown.
  assert (exists e, npc_to_dat_data npc = Throw e) as Hthrow.
  { unfold npc_to_dat_data.
    destruct (npc_type_to_dat_data (QuestNpc.type npc)) as [[type_data|]|e] eqn:E.
    - destruct (Hunmapped type_data eq_refl).
    - exfalso. apply Hknown.
      destruct (QuestNpc.type npc); try discriminate E; reflexivity.
    - exists e. reflexivity. }
  destruct (map_result_throw npc_to_dat_data (Quest.npcs quest) npc Hin Hthrow)
    as (npc' & e' & Hin' & Hf & Hm).
  destruct (npc_to_dat_data_throw _ _ Hf) as (member & Htype & ->).
  exists npc', member. split; [exact Hin'|]. split; [exact Htype|]. split; [exact Hm|].
  unfold write_quest_qst, quest_dat_file. unfold npcs_to_dat_data in *.
  rewrite Hm. reflexivity.
Qed.

Lemma unmapped_npc_type_is_fatal_witness :
  let quest := Examples.quest_of
                 [Examples.quest_npc Booma 0x044 0;
                  Examples.quest_npc (OtherNpcType "Mothmant") 0x042 0] [] in
  npcs_to_dat_data (Quest.npcs quest) = Throw (UnexpectedNpcType "Mothmant")
  /\ write_quest_qst Examples.transparent quest "quest.qst"
     = Throw (UnexpectedNpcType "Mothmant").
Proof.
  intros quest.
  destruct (unmapped_npc_type_is_fatal Examples.transparent quest "quest.qst"
              (Examples.quest_npc (OtherNpcType "Mothmant") 0x042 0))
    as (npc' & member & Hin & Htype & Hnpcs & Hwrite).
  - simpl. right. left. reflexivity.
  - intros type_data H. discriminate H.
  - discriminate.
  - assert (member = "Mothmant") as ->; [|split; assumption].
    destruct Hin as [<-|[<-|[]]]; [discriminate Htype|].
    injection Htype as <-. reflexivity.
Defined.

(** C5, as the spec states it, fails: the type Unknown has no triple in
    npc_type_to_dat_data either, and a quest with an NPC of that type is
    encoded without an error, from the NPC's own raw type code and
    roaming value. *)
Lemma unmapped_unknown_counterexample :
  (forall type_data : NpcTypeData,
     npc_type_to_dat_data Unknown <> Ok (Some type_data))
  /\ exists (dat_npc : DatNpc.t) (archive : Examples.Archive),
       npcs_to_dat_data
         (Quest.npcs (Examples.quest_of [Examples.quest_npc Unknown 0x0f0 5] []))
       = Ok [dat_npc]
       /\ DatNpc.type_id dat_npc = 0x0f0
       /\ DatNpc.roaming dat_npc = 5
       /\ write_quest_qst Examples.transparent
            (Examples.quest_of [Examples.quest_npc Unknown 0x0f0 5] []) "quest.qst"
          = Ok archive.
Proof.
  split; [intros type_data H; discriminate H|].
  eexists _, _. split; [reflexivity|]. split; [reflexivity|]. split; reflexivity.
Qed.

(** The record that npcs_to_dat_data writes for an NPC of type Unknown. *)
Lemma npc_to_dat_data_unknown (npc : QuestNpc.t) :
  QuestNpc.type npc = Unknown ->
  exists dat_npc,
    npc_to_dat_data npc = Ok dat_npc
    /\ DatNpc.type_id dat_npc = QuestNpc.pso_type_id npc
    /\ DatNpc.roaming dat_npc = QuestNpc.roaming npc
    /\ Vec3.y (DatNpc.scale dat_npc)
       = set_regular_bit (Vec3.y (QuestNpc.scale npc)) true.
Proof.
  intros H. unfold npc_to_dat_data. rewrite H. simpl.
  eexists. split; [reflexivity|]. simpl. auto.
Qed.

(** C10: an NPC of type Unknown does not make encoding fail:
    npc_type_to_dat_data returns no mapping for it, and npcs_to_dat_data
    writes its preserved pso_type_id and roaming with the regular flag
    true, wherever the NPC stands among NPCs that encode. *)
Theorem unknown_npc_passes_through (before after : list QuestNpc.t) (npc : QuestNpc.t)
    (dat_before dat_after : list DatNpc.t) :
  QuestNpc.type npc = Unknown ->
  npcs_to_dat_data before = Ok dat_before ->
  npcs_to_dat_data after = Ok dat_after ->
  npc_type_to_dat_data (QuestNpc.type npc) = Ok None
  /\ exists dat_npc,
       npcs_to_dat_data (before ++ npc :: after) = Ok (dat_before ++ dat_npc :: dat_after)
       /\ DatNpc.type_id dat_npc = QuestNpc.pso_type_id npc
       /\ DatNpc.roaming dat_npc = QuestNpc.roaming npc
       /\ Vec3.y (DatNpc.scale dat_npc)
          = set_regular_bit (Vec3.y (QuestNpc.scale npc)) true.
Proof.
  intros Htype Hbefore Hafter. split; [rewrite Htype; reflexivity|].
  destruct (npc_to_dat_data_unknown npc Htype) as (dat_npc & Hnpc & Hfields).
  exists dat_npc. split; [|exact Hfields].
  unfold npcs_to_dat_data in *.
  apply map_result_app; [exact Hbefore|].
  simpl. rewrite Hnpc, Hafter. reflexivity.
Qed.

Lemma unknown_npc_passes_through_witness :
  let npc := Examples.quest_npc Unknown 0x0f0 5 in
  npc_type_to_dat_data (QuestNpc.type npc) = Ok None
  /\ exists dat_npc,
       npcs_to_dat_data ([Examples.quest_npc Booma 0x044 0] ++ npc :: [])
       = Ok ([Examples.dat_npc 0x044 0 1 0.5%float] ++ dat_npc :: [])
       /\ DatNpc.type_id dat_npc = QuestNpc.pso_type_id npc
       /\ DatNpc.roaming dat_npc = QuestNpc.roaming npc
       /\ Vec3.y (DatNpc.scale dat_npc)
          = set_regular_bit (Vec3.y (QuestNpc.scale npc)) true.
Proof.
  apply (unknown_npc_passes_through [Examples.quest_npc Booma 0x044 0] []
           (Examples.quest_npc Unknown 0x0f0 5)
           [Examples.dat_npc 0x044 0 1 0.5%float] []).
  - reflexivity.
  - vm_compute. reflexivity.
  - reflexivity.
Defined.

(** ** The episode of a quest *)

Lemma find_none_forall {A : Type} (p : A -> bool) (l : list A) :
  List.find p l = None <-> Forall (fun a => p a = false) l.
Proof.
  induction l as [|a l IH]; simpl.
  - split; auto.
  - destruct (p a) eqn:E; split.
    + discriminate.
    + intros H. inversion H; subst. congruence.
    + intros H. constructor; [exact E | apply IH, H].
    + intros H. inversion H; subst. apply IH. assumption.
Qed.

Lemma Opcode_eqb_eq (a b : Opcode) : Opcode_eqb a b = true <-> a = b.
Proof.
  destruct a, b; simpl; split; try discriminate; try reflexivity.
  - intros H. apply Z.eqb_eq in H. congruence.
  - intros [= ->]. apply Z.eqb_refl.
Qed.

Lemma get_episode_default (insts : list Instruction.t) :
  Forall (fun inst => Instruction.opcode inst <> SET_EPISODE) insts ->
  get_episode insts
  = Ok (Episode.I,
        [{| level := Debug; message := "Function 0 has no set_episode instruction." |}]).
Proof.
  intros H. unfold get_episode.
  replace (List.find _ insts) with (@None Instruction.t); [reflexivity|].
  symmetry. apply find_none_forall.
  eapply Forall_impl; [exact H|]. simpl. intros inst Hne.
  destruct (Opcode_eqb (Instruction.opcode inst) SET_EPISODE) eqn:E; [|reflexivity].
  apply Opcode_eqb_eq in E. contradiction.
Qed.

Lemma extract_map_designations_loop_ok (insts : list Instruction.t) (m : gmap Z Z) :
  Forall (fun inst => Instruction.opcode inst = BB_MAP_DESIGNATE ->
                      (3 <= length (Instruction.args inst))%nat) insts ->
  exists m', extract_map_designations_loop insts m = Ok m'.
Proof.
  revert m. induction insts as [|inst insts IH]; intros m H; simpl.
  - eauto.
  - inversion H as [|? ? Hinst Hrest]; subst.
    destruct (Opcode_eqb (Instruction.opcode inst) BB_MAP_DESIGNATE) eqn:E.
    + apply Opcode_eqb_eq in E. specialize (Hinst E).
      unfold arg_value.
      destruct (Instruction.args inst) as [|a0 [|a1 [|a2 rest]]]; simpl in *; try lia.
      apply IH, Hrest.
    + apply IH, Hrest.
Qed.

(** C4, as the code has it: when the decoded BIN has no instruction
    segment labeled 0, or its label-0 segment has no SET_EPISODE
    instruction, parse_quest succeeds with episode I and logs the default
    once: as a warning when the segment is absent, at debug level (not as
    a warning) when only the instruction is absent. *)
Theorem episode_default {Archive Payload : Type} (C : Collaborators Archive Payload)
    (cursor : Archive) (lenient : bool)
    (files : list (QstContainedFile.t Payload))
    (dat_file bin_file : QstContainedFile.t Payload) (bin : BinFile.t) :
  parse_qst C cursor = Some files ->
  find_dat_and_bin files = (Some dat_file, Some bin_file) ->
  (let dat := parse_dat C (prs_decompress C (QstContainedFile.data dat_file)) in
   parse_bin C (prs_decompress C (QstContainedFile.data bin_file))
     (extract_script_entry_points (parse_obj_data C (DatFile.objs dat)) (DatFile.npcs dat))
     lenient = Ok bin) ->
  lacks_set_episode (BinFile.object_code bin) ->
  designations_well_formed (BinFile.object_code bin) ->
  exists quest log,
    parse_quest C cursor lenient = Ok (Some quest, log)
    /\ Quest.episode quest = Episode.I
    /\ map level log = [default_level (BinFile.object_code bin)].
Proof.
  intros Hqst Hfind Hbin Hlacks Hwf.
  unfold parse_quest. rewrite Hqst, Hfind. simpl in Hbin. rewrite Hbin. simpl.
  unfold lacks_set_episode, designations_well_formed, default_level in *.
  unfold extract_episode_and_map_designations.
  destruct (BinFile.object_code bin) as [|segment_0 object_code] eqn:Ecode.
  - simpl. eauto.
  - destruct (List.find is_label_0_segment (segment_0 :: object_code)) as [segment|].
    + rewrite (get_episode_default _ Hlacks). simpl.
      destruct (extract_map_designations_loop_ok (segment_instructions segment) ∅ Hwf)
        as [m Hm].
      unfold extract_map_designations. rewrite Hm. simpl. eauto.
    + simpl. eauto.
Qed.

Lemma episode_default_witness :
  exists quest log,
    parse_quest Examples.transparent Examples.archive_without_set_episode false
    = Ok (Some quest, log)
    /\ Quest.episode quest = Episode.I
    /\ map level log
       = [default_level (BinFile.object_code Examples.bin_without_set_episode)].
Proof.
  apply (episode_default Examples.transparent Examples.archive_without_set_episode false
           Examples.archive_without_set_episode
           {| QstContainedFile.name := "quest.dat";
              QstContainedFile.id := Some 58;
              QstContainedFile.data := Examples.DatPayload Examples.empty_dat |}
           {| QstContainedFile.name := "quest.bin";
              QstContainedFile.id := Some 58;
              QstContainedFile.data := Examples.BinPayload Examples.bin_without_set_episode |}
           Examples.bin_without_set_episode).
  - reflexivity.
  - reflexivity.
  - reflexivity.
  - simpl. repeat constructor. discriminate.
  - simpl. repeat constructor. discriminate.
Defined.

(** C4, as the spec states it, fails: a label-0 segment without
    SET_EPISODE makes parse_quest log at debug level; no warning is
    emitted. *)
Lemma episode_default_warning_counterexample :
  ~ (forall (cursor : Examples.Archive) (quest : Quest.t) (log : Log),
       parse_quest Examples.transparent cursor false = Ok (Some quest, log) ->
       lacks_set_episode (Quest.object_code quest) ->
       Quest.episode quest = Episode.I
       /\ Exists (fun entry => level entry = Warn) log).
Proof.
  intros H.
  destruct (H Examples.archive_without_set_episode _ _ eq_refl) as [_ Hwarn].
  - simpl. repeat constructor. discriminate.
  - inversion Hwarn as [? ? Hlevel|? ? Hrest]; [discriminate Hlevel | inversion Hrest].
Qed.

(** ** Writing into a buffer *)

Section overlay.
Context {A : Type} (zero : A).
Implicit Types (b d : list A) (p i : nat).
Local Open Scope nat_scope.

Lemma length_overlay p d b :
  length (overlay zero p d b) = Nat.max (p + length d) (length b).
Proof. unfold overlay. rewrite length_inserts, length_resize. reflexivity. Qed.

Lemma lookup_overlay p d b i :
  overlay zero p d b !! i =
    if decide (p <= i < p + length d) then d !! (i - p)
    else if decide (i < length b) then b !! i
    else if decide (i < p) then Some zero
    else None.
Proof.
  unfold overlay. destruct (decide (p <= i < p + length d)).
  - rewrite list_lookup_inserts; [reflexivity|lia|rewrite length_resize; lia].
  - assert (i < p \/ p + length d <= i) as [H|H] by lia.
    + rewrite list_lookup_inserts_lt by lia.
      destruct (decide (i < length b)).
      * rewrite lookup_resize by lia. reflexivity.
      * rewrite lookup_resize_new by lia. rewrite decide_True by lia. reflexivity.
    + rewrite list_lookup_inserts_ge by lia.
      destruct (decide (i < length b)).
      * rewrite lookup_resize by lia. reflexivity.
      * rewrite decide_False by lia. apply lookup_resize_old. lia.
Qed.

(** Two writes that do not overlap can be made in either order. *)
Lemma overlay_commute p1 d1 p2 d2 b :
  p1 + length d1 <= p2 \/ p2 + length d2 <= p1 ->
  overlay zero p1 d1 (overlay zero p2 d2 b) = overlay zero p2 d2 (overlay zero p1 d1 b).
Proof.
  intros H. apply list_eq. intros i.
  rewrite !lookup_overlay, !length_overlay.
  repeat (case_decide; try lia); try reflexivity.
Qed.

(** Growing the buffer first, as [cursor.size = n] does, changes nothing. *)
Lemma overlay_resize p d b n :
  length b <= n <= Nat.max (p + length d) (length b) ->
  overlay zero p d (resize n zero b) = overlay zero p d b.
Proof.
  intros H. apply list_eq. intros i.
  rewrite !lookup_overlay, length_resize.
  repeat (case_decide; try lia); try reflexivity.
  - apply lookup_resize; lia.
  - apply lookup_resize_new; lia.
Qed.

(** A write at the end of the buffer appends. *)
Lemma overlay_end d b : overlay zero (length b) d b = b ++ d.
Proof.
  apply list_eq. intros i. rewrite lookup_overlay.
  destruct (decide (length b <= i < length b + length d));
    [rewrite lookup_app_r by lia; reflexivity|].
  destruct (decide (i < length b)); [rewrite lookup_app_l by lia; reflexivity|].
  symmetry. apply lookup_ge_None. rewrite length_app. lia.
Qed.
End overlay.

(** ** The byte cursor *)

Section cursor_inside.
Variables (before record after : list byte) (little_endian : bool).
Local Open Scope nat_scope.

Let at_offset := Chunk.inside before record after little_endian.

Lemma read_inside (offset n : nat) :
  offset + n <= length record ->
  BufferCursor.read (at_offset offset) n
  = Ok (take n (drop offset record), at_offset (offset + n)).
Proof.
  intros H. unfold BufferCursor.read, BufferCursor.size, at_offset, Chunk.inside. simpl.
  rewrite !length_app.
  destruct (Nat.leb_spec (length before + offset + n)
              (length before + (length record + length after))); [|lia].
  f_equal. f_equal.
  - rewrite drop_app_add. rewrite drop_app_le by lia.
    rewrite take_app_le; [reflexivity|]. rewrite length_drop. lia.
  - unfold BufferCursor.with_position. simpl. f_equal. lia.
Qed.

Lemma seek_inside (offset : nat) (delta : Z) (offset' : nat) :
  (Z.of_nat offset + delta = Z.of_nat offset')%Z ->
  offset' <= length record ->
  BufferCursor.seek (at_offset offset) delta = Ok (at_offset offset').
Proof.
  intros Heq Hle.
  unfold BufferCursor.seek, BufferCursor.seek_start, BufferCursor.size, at_offset,
    Chunk.inside. simpl.
  rewrite !length_app.
  destruct (Z.ltb_spec (Z.of_nat (length before + offset) + delta) 0); [lia|].
  destruct (Z.ltb_spec
              (Z.of_nat (length before + (length record + length after)))
              (Z.of_nat (length before + offset) + delta)); [lia|].
  simpl. unfold BufferCursor.with_position. simpl. do 2 f_equal. lia.
Qed.

Lemma u_inside (offset n : nat) :
  offset + n <= length record ->
  BufferCursor.u n (at_offset offset)
  = Ok (le_value (if little_endian then take n (drop offset record)
                  else rev (take n (drop offset record))),
        at_offset (offset + n)).
Proof.
  intros H. unfold BufferCursor.u. rewrite read_inside by exact H. reflexivity.
Qed.

Lemma string_ascii_inside (offset n : nat) :
  offset + n <= length record ->
  BufferCursor.string_ascii (at_offset offset) n
  = Ok (string_of_list_byte (until_nul (take n (drop offset record))),
        at_offset (offset + n)).
Proof.
  intros H. unfold BufferCursor.string_ascii. rewrite read_inside by exact H. reflexivity.
Qed.

Lemma take_inside (offset n : nat) :
  offset + n <= length record ->
  BufferCursor.take (at_offset offset) n
  = Ok (BufferCursor.of_bytes (take n (drop offset record)) little_endian,
        at_offset (offset + n)).
Proof.
  intros H. unfold BufferCursor.take. rewrite read_inside by exact H. reflexivity.
Qed.
End cursor_inside.

Lemma rev_short {A : Type} (l : list A) : (length l <= 1)%nat -> rev l = l.
Proof. destruct l as [|a [|b l]]; simpl; intros; try reflexivity; lia. Qed.

Lemma Z_of_byte_range (b : byte) : 0 <= Z_of_byte b < 256.
Proof.
  unfold Z_of_byte. pose proof (Byte.to_N_bounded b) as H.
  lia.
Qed.

Lemma le_value_nonneg (bs : list byte) : 0 <= le_value bs.
Proof.
  induction bs as [|b bs IH]; simpl; [lia|].
  pose proof (Z_of_byte_range b). lia.
Qed.

(** ** One pass of the chunk loop *)

Lemma chunk_size_range (little_endian : bool) (record : list byte) :
  0 <= Chunk.size little_endian record <= 1024.
Proof.
  unfold Chunk.size.
  pose proof (le_value_nonneg
                (if little_endian then take 4 (drop 1048 record)
                 else rev (take 4 (drop 1048 record)))) as H.
  fold (Chunk.declared_size little_endian record) in H.
  destruct (Z.ltb_spec 1024 (Chunk.declared_size little_endian record)); lia.
Qed.

Lemma chunk_payload_length (little_endian : bool) (record : list byte) :
  length record = 1056%nat ->
  length (Chunk.payload little_endian record)
  = Z.to_nat (Chunk.size little_endian record).
Proof.
  intros H. unfold Chunk.payload.
  pose proof (chunk_size_range little_endian record).
  rewrite length_take, length_drop. lia.
Qed.

Lemma chunkNo_nonneg (record : list byte) : 0 <= Chunk.chunkNo record.
Proof. apply le_value_nonneg. Qed.

Lemma seek_start_set_size (c : BufferCursor.t) (n : nat) (p : Z) :
  0 <= p -> p <= Z.of_nat n ->
  BufferCursor.seek_start (BufferCursor.set_size c n) p
  = Ok (BufferCursor.with_position (BufferCursor.set_size c n) (Z.to_nat p)).
Proof.
  intros H0 Hn. unfold BufferCursor.seek_start, BufferCursor.size, BufferCursor.set_size.
  simpl. rewrite length_resize.
  destruct (Z.ltb_spec p 0); [lia|]. destruct (Z.ltb_spec (Z.of_nat n) p); [lia|].
  reflexivity.
Qed.

Lemma parse_chunk_inside (before record after : list byte) (little_endian : bool)
    (expectedSizes : gmap string Z) (files : Qst.FileMap) (log : Log) :
  length record = 1056%nat ->
  Qst.parse_chunk (Chunk.inside before record after little_endian 0) expectedSizes files log
  = Ok (Chunk.inside before record after little_endian 1056,
        fst (Chunk.store little_endian expectedSizes (files, log) record),
        snd (Chunk.store little_endian expectedSizes (files, log) record)).
Proof.
  intros Hlen. unfold Qst.parse_chunk.
  pose proof (chunk_size_range little_endian record) as Hsize.
  pose proof (chunk_payload_length little_endian record Hlen) as Hpayload.
  pose proof (chunkNo_nonneg record) as HchunkNo.
  rewrite (seek_inside _ _ _ _ 0 4 4) by lia. cbn [rbind].
  unfold BufferCursor.u8. rewrite u_inside by lia. cbn [rbind]. cbv beta iota zeta.
  rewrite (seek_inside _ _ _ _ (4 + 1) 3 8) by lia. cbn [rbind].
  rewrite string_ascii_inside by lia. cbn [rbind]. cbv beta iota zeta.
  rewrite (seek_inside _ _ _ _ (8 + 16) 1024 1048) by lia. cbn [rbind].
  unfold BufferCursor.u32. rewrite u_inside by lia. cbn [rbind]. cbv beta iota zeta.
  rewrite (seek_inside _ _ _ _ (1048 + 4) (-1028) 24) by lia. cbn [rbind].
  replace (if little_endian then take 1 (drop 4 record) else rev (take 1 (drop 4 record)))
    with (take 1 (drop 4 record))
    by (destruct little_endian; [reflexivity|]; rewrite rev_short; [reflexivity|];
        rewrite length_take; lia).
  fold (Chunk.chunkNo record). fold (Chunk.fileName record).
  fold (Chunk.declared_size little_endian record).
  fold (Chunk.new_file expectedSizes (Chunk.fileName record)).
  unfold Chunk.store, Chunk.store_files, Chunk.warnings, Chunk.update. cbn [fst snd].
  replace (match Qst.files_get files (Chunk.fileName record) with
           | Some file => file
           | None => Chunk.new_file expectedSizes (Chunk.fileName record)
           end)
    with (Chunk.file_of expectedSizes files record)
    by (unfold Chunk.file_of;
        destruct (Qst.files_get files (Chunk.fileName record)); reflexivity).
  set (file := Chunk.file_of _ _ _).
  set (seen_warning := [Qst.warn (Qst.already_encountered _ _)]).
  set (size_warning := [Qst.warn (Qst.size_too_large _)]).
  replace (if decide (Chunk.chunkNo record ∈ Qst.QstContainedFile.chunkNos file)
           then (Qst.QstContainedFile.chunkNos file, log ++ seen_warning)
           else (Qst.QstContainedFile.chunkNos file ∪ {[Chunk.chunkNo record]}, log))
    with (if bool_decide (Chunk.chunkNo record ∈ Qst.QstContainedFile.chunkNos file)
          then Qst.QstContainedFile.chunkNos file
          else Qst.QstContainedFile.chunkNos file ∪ {[Chunk.chunkNo record]},
          log ++ (if bool_decide (Chunk.chunkNo record ∈ Qst.QstContainedFile.chunkNos file)
                  then seen_warning else []))
    by (rewrite decide_bool_decide;
        destruct (bool_decide (Chunk.chunkNo record ∈ Qst.QstContainedFile.chunkNos file));
        [reflexivity | rewrite app_nil_r; reflexivity]).
  cbv beta iota zeta.
  set (log' := log ++ _).
  replace (if 1024 <? Chunk.declared_size little_endian record
           then (1024, log' ++ size_warning)
           else (Chunk.declared_size little_endian record, log'))
    with (Chunk.size little_endian record,
          log' ++ (if 1024 <? Chunk.declared_size little_endian record
                   then size_warning else []))
    by (unfold Chunk.size; destruct (1024 <? Chunk.declared_size little_endian record);
        [reflexivity | rewrite app_nil_r; reflexivity]).
  cbv beta iota zeta.
  rewrite take_inside by lia. cbn [rbind]. cbv beta iota zeta.
  fold (Chunk.payload little_endian record).
  rewrite seek_start_set_size by lia. cbn [rbind].
  replace (BufferCursor.size
             (BufferCursor.of_bytes (Chunk.payload little_endian record) little_endian))
    with (Z.to_nat (Chunk.size little_endian record)) by (symmetry; exact Hpayload).
  rewrite (seek_inside _ _ _ _ _ _ 1056) by lia. cbn [rbind].
  unfold Chunk.inside at 1 2. cbn [BufferCursor.position].
  replace (length before + 1056 =? length before + 0 + 1056)%nat with true
    by (symmetry; apply Nat.eqb_eq; lia).
  cbn [negb].
  unfold Chunk.write_payload, BufferCursor.write_cursor, BufferCursor.of_bytes.
  cbn [BufferCursor.buffer]. rewrite Hpayload, Z2Nat.id by lia.
  subst log'. rewrite <- app_assoc. reflexivity.
Qed.

(** ** The files after a sequence of chunk records *)

Lemma files_get_set (files : Qst.FileMap) (k k' : string) (f : Qst.File) :
  Qst.files_get (Qst.files_set files k f) k'
  = if String.eqb k k' then Some f else Qst.files_get files k'.
Proof.
  induction files as [|[k0 f0] files IH]; simpl.
  - reflexivity.
  - destruct (String.eqb_spec k0 k) as [->|Hne]; simpl.
    + destruct (String.eqb_spec k k'); reflexivity.
    + rewrite IH. destruct (String.eqb_spec k0 k') as [->|]; [|reflexivity].
      destruct (String.eqb_spec k k'); [congruence|reflexivity].
Qed.

Lemma buffer_write_payload (data : BufferCursor.t) (chunkNo : Z) (payload : list byte) :
  0 <= chunkNo ->
  BufferCursor.buffer (Chunk.write_payload data chunkNo payload)
  = overlay "000"%byte (Z.to_nat (chunkNo * 1024)) payload (BufferCursor.buffer data).
Proof.
  intros H. unfold Chunk.write_payload, BufferCursor.write_bytes, BufferCursor.set_size,
    BufferCursor.size. simpl.
  apply overlay_resize. lia.
Qed.

Lemma chunkNos_update (chunkNo : Z) (chunkNos : gset Z) :
  (if bool_decide (chunkNo ∈ chunkNos) then chunkNos else chunkNos ∪ {[chunkNo]})
  = chunkNos ∪ {[chunkNo]}.
Proof. case_bool_decide; set_solver. Qed.

Lemma contents_update (little_endian : bool) (record : list byte) (file : Qst.File) :
  Chunk.contents (Chunk.update little_endian record file)
  = (Qst.QstContainedFile.name file,
     Qst.QstContainedFile.name2 file,
     Qst.QstContainedFile.questNo file,
     Qst.QstContainedFile.expectedSize file,
     overlay "000"%byte (Z.to_nat (Chunk.chunkNo record * 1024))
       (Chunk.payload little_endian record)
       (BufferCursor.buffer (Qst.QstContainedFile.data file)),
     Qst.QstContainedFile.chunkNos file ∪ {[Chunk.chunkNo record]}).
Proof.
  unfold Chunk.contents, Chunk.update.
  cbn [Qst.QstContainedFile.name Qst.QstContainedFile.name2 Qst.QstContainedFile.questNo
       Qst.QstContainedFile.expectedSize Qst.QstContainedFile.data
       Qst.QstContainedFile.chunkNos].
  rewrite buffer_write_payload by apply chunkNo_nonneg.
  rewrite chunkNos_update. reflexivity.
Qed.

Lemma contents_update_same (little_endian : bool) (record : list byte) (f1 f2 : Qst.File) :
  Chunk.contents f1 = Chunk.contents f2 ->
  Chunk.contents (Chunk.update little_endian record f1)
  = Chunk.contents (Chunk.update little_endian record f2).
Proof.
  intros H. rewrite !contents_update. unfold Chunk.contents in H.
  injection H as -> -> -> -> -> ->. reflexivity.
Qed.

Lemma payload_length_le (little_endian : bool) (record : list byte) :
  (length (Chunk.payload little_endian record) <= 1024)%nat.
Proof.
  unfold Chunk.payload. pose proof (chunk_size_range little_endian record).
  rewrite length_take. lia.
Qed.

Lemma contents_update_commute (little_endian : bool) (r1 r2 : list byte) (file : Qst.File) :
  Chunk.chunkNo r1 <> Chunk.chunkNo r2 ->
  Chunk.contents (Chunk.update little_endian r1 (Chunk.update little_endian r2 file))
  = Chunk.contents (Chunk.update little_endian r2 (Chunk.update little_endian r1 file)).
Proof.
  intros Hne.
  rewrite !contents_update. unfold Chunk.update.
  cbn [Qst.QstContainedFile.name Qst.QstContainedFile.name2 Qst.QstContainedFile.questNo
       Qst.QstContainedFile.expectedSize Qst.QstContainedFile.data
       Qst.QstContainedFile.chunkNos].
  rewrite !buffer_write_payload by apply chunkNo_nonneg.
  rewrite !chunkNos_update.
  f_equal; [f_equal|].
  - apply overlay_commute.
    pose proof (payload_length_le little_endian r1).
    pose proof (payload_length_le little_endian r2).
    pose proof (chunkNo_nonneg r1). pose proof (chunkNo_nonneg r2). lia.
  - set_solver.
Qed.

Lemma same_contents_refl (files : Qst.FileMap) : Chunk.same_contents files files.
Proof. intros name. reflexivity. Qed.

Lemma same_contents_trans (m1 m2 m3 : Qst.FileMap) :
  Chunk.same_contents m1 m2 -> Chunk.same_contents m2 m3 -> Chunk.same_contents m1 m3.
Proof. intros H12 H23 name. rewrite H12. apply H23. Qed.

Lemma contents_file_of (expectedSizes : gmap string Z) (m1 m2 : Qst.FileMap)
    (record : list byte) :
  Chunk.same_contents m1 m2 ->
  Chunk.contents (Chunk.file_of expectedSizes m1 record)
  = Chunk.contents (Chunk.file_of expectedSizes m2 record).
Proof.
  intros H. specialize (H (Chunk.fileName record)). unfold Chunk.file_of.
  destruct (Qst.files_get m1 (Chunk.fileName record)),
           (Qst.files_get m2 (Chunk.fileName record)); simpl in *; congruence.
Qed.

Lemma store_files_same (little_endian : bool) (expectedSizes : gmap string Z)
    (m1 m2 : Qst.FileMap) (record : list byte) :
  Chunk.same_contents m1 m2 ->
  Chunk.same_contents (Chunk.store_files little_endian expectedSizes m1 record)
    (Chunk.store_files little_endian expectedSizes m2 record).
Proof.
  intros H name. unfold Chunk.store_files. rewrite !files_get_set.
  destruct (String.eqb (Chunk.fileName record) name); [|apply H].
  simpl. f_equal. apply contents_update_same, contents_file_of, H.
Qed.

Lemma file_of_store_other (little_endian : bool) (expectedSizes : gmap string Z)
    (files : Qst.FileMap) (r1 r2 : list byte) :
  Chunk.fileName r1 <> Chunk.fileName r2 ->
  Chunk.file_of expectedSizes (Chunk.store_files little_endian expectedSizes files r1) r2
  = Chunk.file_of expectedSizes files r2.
Proof.
  intros Hne. unfold Chunk.file_of, Chunk.store_files. rewrite files_get_set.
  destruct (String.eqb_spec (Chunk.fileName r1) (Chunk.fileName r2)); [contradiction|].
  reflexivity.
Qed.

Lemma file_of_store_same (little_endian : bool) (expectedSizes : gmap string Z)
    (files : Qst.FileMap) (r1 r2 : list byte) :
  Chunk.fileName r1 = Chunk.fileName r2 ->
  Chunk.file_of expectedSizes (Chunk.store_files little_endian expectedSizes files r1) r2
  = Chunk.update little_endian r1 (Chunk.file_of expectedSizes files r1).
Proof.
  intros Heq. unfold Chunk.file_of at 1. unfold Chunk.store_files.
  rewrite files_get_set, <- Heq, String.eqb_refl. reflexivity.
Qed.

(** Two records with different keys can be stored in either order. *)
Lemma store_files_commute (little_endian : bool) (expectedSizes : gmap string Z)
    (files : Qst.FileMap) (r1 r2 : list byte) :
  Chunk.key r1 <> Chunk.key r2 ->
  Chunk.same_contents
    (Chunk.store_files little_endian expectedSizes
       (Chunk.store_files little_endian expectedSizes files r1) r2)
    (Chunk.store_files little_endian expectedSizes
       (Chunk.store_files little_endian expectedSizes files r2) r1).
Proof.
  intros Hkey name.
  unfold Chunk.store_files at 1 3. rewrite !files_get_set.
  destruct (String.eqb_spec (Chunk.fileName r1) (Chunk.fileName r2)) as [Hn|Hn].
  - assert (Chunk.chunkNo r1 <> Chunk.chunkNo r2) as Hno.
    { intros Hno. apply Hkey. unfold Chunk.key. congruence. }
    rewrite (file_of_store_same _ _ _ r1 r2 Hn).
    rewrite (file_of_store_same _ _ _ r2 r1 (eq_sym Hn)).
    rewrite <- Hn.
    destruct (String.eqb (Chunk.fileName r1) name) eqn:E.
    + simpl. f_equal.
      replace (Chunk.file_of expectedSizes files r2)
        with (Chunk.file_of expectedSizes files r1)
        by (unfold Chunk.file_of; rewrite Hn; reflexivity).
      symmetry. apply contents_update_commute. exact Hno.
    + unfold Chunk.store_files. rewrite !files_get_set, <- Hn, E. reflexivity.
  - rewrite (file_of_store_other _ _ _ r1 r2 Hn).
    rewrite (file_of_store_other _ _ _ r2 r1) by congruence.
    unfold Chunk.store_files. rewrite !files_get_set.
    destruct (String.eqb_spec (Chunk.fileName r2) name) as [E2|E2];
      destruct (String.eqb_spec (Chunk.fileName r1) name) as [E1|E1];
      try reflexivity.
    congruence.
Qed.

Lemma fold_store_files_same (little_endian : bool) (expectedSizes : gmap string Z)
    (records : list (list byte)) (m1 m2 : Qst.FileMap) :
  Chunk.same_contents m1 m2 ->
  Chunk.same_contents
    (fold_left (Chunk.store_files little_endian expectedSizes) records m1)
    (fold_left (Chunk.store_files little_endian expectedSizes) records m2).
Proof.
  revert m1 m2. induction records as [|r records IH]; intros m1 m2 H; simpl.
  - exact H.
  - apply IH, store_files_same, H.
Qed.

(** The contents of the files do not depend on the order of the records,
    as long as no two records have the same file name and chunk index. *)
Lemma fold_store_files_permutation (little_endian : bool) (expectedSizes : gmap string Z)
    (records records' : list (list byte)) :
  Permutation records records' ->
  List.NoDup (map Chunk.key records) ->
  forall m1 m2 : Qst.FileMap,
    Chunk.same_contents m1 m2 ->
    Chunk.same_contents
      (fold_left (Chunk.store_files little_endian expectedSizes) records m1)
      (fold_left (Chunk.store_files little_endian expectedSizes) records' m2).
Proof.
  induction 1 as [|r l l' Hperm IH|r1 r2 l|l l' l'' H1 IH1 H2 IH2]; intros Hnodup m1 m2 Hm.
  - exact Hm.
  - simpl. inversion Hnodup; subst. apply IH; [assumption|].
    apply store_files_same, Hm.
  - simpl. inversion Hnodup as [|? ? Hnotin Hnodup']; subst.
    eapply same_contents_trans.
    + apply fold_store_files_same, store_files_commute.
      intros Heq. apply Hnotin. simpl. left. symmetry. exact Heq.
    + apply fold_store_files_same, store_files_same, store_files_same, Hm.
  - eapply same_contents_trans.
    + apply (IH1 Hnodup m1 m2 Hm).
    + apply IH2; [|apply same_contents_refl].
      eapply Permutation_NoDup; [|exact Hnodup].
      apply Permutation_map. exact H1.
Qed.

(** ** parseFiles on a stream of chunk records *)

Lemma fold_store_fst (little_endian : bool) (expectedSizes : gmap string Z)
    (records : list (list byte)) (state : Qst.FileMap * Log) :
  fst (fold_left (Chunk.store little_endian expectedSizes) records state)
  = fold_left (Chunk.store_files little_endian expectedSizes) records (fst state).
Proof.
  revert state. induction records as [|r records IH]; intros state; simpl.
  - reflexivity.
  - rewrite IH. reflexivity.
Qed.

Lemma inside_next (before record rest : list byte) (little_endian : bool) (n : nat) :
  length record = n ->
  Chunk.inside before record rest little_endian n
  = Chunk.inside (before ++ record) [] rest little_endian 0.
Proof.
  intros <-. unfold Chunk.inside. f_equal.
  - simpl. rewrite <- app_assoc. reflexivity.
  - rewrite length_app. lia.
Qed.

(** The loop stores the records one after the other and stops behind the
    last of them. *)
Lemma parse_chunks_records (little_endian : bool) (expectedSizes : gmap string Z)
    (records : list (list byte)) (after : list byte) :
  Forall (fun record => length record = 1056%nat) records ->
  (length after < 1056)%nat ->
  forall (iterations : nat) (before : list byte) (files : Qst.FileMap) (log : Log),
    (length records <= iterations)%nat ->
    exists cursor,
      Qst.parse_chunks iterations (Chunk.stream before records after little_endian)
        expectedSizes files log
      = Ok (cursor,
            fst (fold_left (Chunk.store little_endian expectedSizes) records (files, log)),
            snd (fold_left (Chunk.store little_endian expectedSizes) records (files, log)))
      /\ BufferCursor.bytes_left cursor = length after.
Proof.
  intros Hrecords Hafter.
  induction Hrecords as [|record records Hlen Hrecords IH];
    intros iterations before files log Hiter.
  - exists (Chunk.stream before [] after little_endian).
    assert (BufferCursor.bytes_left (Chunk.stream before [] after little_endian)
            = length after) as Hleft.
    { unfold BufferCursor.bytes_left, BufferCursor.size, Chunk.stream, Chunk.inside.
      simpl. rewrite length_app. lia. }
    split; [|exact Hleft].
    destruct iterations; simpl; rewrite Hleft;
      destruct (Nat.ltb_spec (length after) 1056); try lia; reflexivity.
  - destruct iterations as [|iterations]; [simpl in Hiter; lia|].
    assert (Chunk.stream before (record :: records) after little_endian
            = Chunk.inside before record (concat records ++ after) little_endian 0) as Hcur.
    { unfold Chunk.stream, Chunk.inside. simpl. rewrite <- app_assoc. reflexivity. }
    rewrite Hcur. cbn [Qst.parse_chunks].
    assert (BufferCursor.bytes_left
              (Chunk.inside before record (concat records ++ after) little_endian 0)
            >= 1056)%nat as Hleft.
    { unfold BufferCursor.bytes_left, BufferCursor.size, Chunk.inside. simpl.
      rewrite !length_app. lia. }
    destruct (Nat.ltb_spec
                (BufferCursor.bytes_left
                   (Chunk.inside before record (concat records ++ after) little_endian 0))
                1056); [lia|].
    rewrite parse_chunk_inside by exact Hlen. cbn [rbind].
    rewrite (inside_next _ _ _ _ 1056%nat Hlen).
    destruct (IH iterations (before ++ record)
                (fst (Chunk.store little_endian expectedSizes (files, log) record))
                (snd (Chunk.store little_endian expectedSizes (files, log) record)))
      as (cursor & Hrun & Hend); [simpl in Hiter; lia|].
    exists cursor. split; [|exact Hend].
    unfold Chunk.stream in Hrun.
    replace (Chunk.inside (before ++ record) [] (concat records ++ after) little_endian 0)
      with (Chunk.inside (before ++ record) (concat records) after little_endian 0)
      by (unfold Chunk.inside; simpl; reflexivity).
    rewrite Hrun. cbn [fold_left]. rewrite <- surjective_pairing. reflexivity.
Qed.

Lemma stream_bytes_left (before : list byte) (records : list (list byte))
    (after : list byte) (little_endian : bool) :
  Forall (fun record => length record = 1056%nat) records ->
  BufferCursor.bytes_left (Chunk.stream before records after little_endian)
  = (length records * 1056 + length after)%nat.
Proof.
  intros H. unfold BufferCursor.bytes_left, BufferCursor.size, Chunk.stream, Chunk.inside.
  cbn [BufferCursor.buffer BufferCursor.position]. rewrite !length_app.
  assert (length (concat records) = length records * 1056)%nat as ->.
  { induction H as [|r rs Hr _ IH]; [reflexivity|].
    cbn [concat]. rewrite length_app, IH, Hr. cbn [length]. lia. }
  lia.
Qed.

(** parseFiles never fails on a stream of records: it stores them in
    order and then checks every file. *)
Lemma parseFiles_stream (little_endian : bool) (expectedSizes : gmap string Z)
    (before : list byte) (records : list (list byte)) (after : list byte) :
  Forall (fun record => length record = 1056%nat) records ->
  (length after < 1056)%nat ->
  let stored := fold_left (Chunk.store little_endian expectedSizes) records ([], []) in
  exists cursor,
    Qst.parseFiles (Chunk.stream before records after little_endian) expectedSizes
    = Ok (fst (Qst.check_files (map snd (fst stored))),
          cursor,
          (snd stored
           ++ (if (length after =? 0)%nat then []
               else [Qst.warn (Qst.bytes_left_message (length after))]))
          ++ snd (Qst.check_files (map snd (fst stored)))).
Proof.
  intros Hrecords Hafter stored. subst stored. unfold Qst.parseFiles.
  destruct (parse_chunks_records little_endian expectedSizes records after Hrecords Hafter
              (S (BufferCursor.bytes_left (Chunk.stream before records after little_endian)
                  / 1056))
              before [] []) as (cursor & Hrun & Hend).
  { rewrite stream_bytes_left by exact Hrecords.
    assert (length records
            <= (length records * 1056 + length after) / 1056)%nat; [|lia].
    apply Nat.div_le_lower_bound; lia. }
  rewrite Hrun. cbn [rbind]. cbv beta iota zeta. rewrite Hend.
  exists cursor.
  destruct (Qst.check_files _) as [files log'].
  cbn [fst snd]. destruct (length after =? 0)%nat.
  - rewrite app_nil_r. reflexivity.
  - reflexivity.
Qed.

(** ** Reconstruction does not depend on the order of the chunks *)

Lemma check_file_contents (file : Qst.File) :
  Qst.QstContainedFile.name (fst (Qst.check_file file)) = Qst.QstContainedFile.name file
  /\ BufferCursor.buffer (Qst.QstContainedFile.data (fst (Qst.check_file file)))
     = BufferCursor.buffer (Qst.QstContainedFile.data file)
  /\ Qst.QstContainedFile.chunkNos (fst (Qst.check_file file))
     = Qst.QstContainedFile.chunkNos file
  /\ Qst.QstContainedFile.expectedSize (fst (Qst.check_file file))
     = Qst.QstContainedFile.expectedSize file.
Proof. unfold Qst.check_file. simpl. auto. Qed.

Lemma check_files_cons (file : Qst.File) (files : list Qst.File) :
  Qst.check_files (file :: files)
  = (fst (Qst.check_file file) :: fst (Qst.check_files files),
     snd (Qst.check_file file) ++ snd (Qst.check_files files)).
Proof.
  cbn [Qst.check_files].
  destruct (Qst.check_file file), (Qst.check_files files). reflexivity.
Qed.

Lemma payload_of_check_files (files : list Qst.File) (name : string) :
  Chunk.payload_of (fst (Qst.check_files files)) name = Chunk.payload_of files name.
Proof.
  unfold Chunk.payload_of. induction files as [|file files IH].
  - reflexivity.
  - rewrite check_files_cons. cbn [fst List.find].
    destruct (check_file_contents file) as (Hname & Hbuffer & _).
    rewrite Hname.
    destruct (String.eqb (Qst.QstContainedFile.name file) name).
    + cbn [option_map]. rewrite Hbuffer. reflexivity.
    + exact IH.
Qed.

Lemma keyed_get (files : Qst.FileMap) (k : string) (f : Qst.File) :
  Chunk.keyed files -> Qst.files_get files k = Some f -> Qst.QstContainedFile.name f = k.
Proof.
  unfold Chunk.keyed. induction 1 as [|[k0 f0] files Hk _ IH]; simpl; [discriminate|].
  destruct (String.eqb_spec k0 k) as [->|].
  - intros [= <-]. exact Hk.
  - exact IH.
Qed.

Lemma keyed_set (files : Qst.FileMap) (k : string) (f : Qst.File) :
  Chunk.keyed files -> Qst.QstContainedFile.name f = k -> Chunk.keyed (Qst.files_set files k f).
Proof.
  unfold Chunk.keyed. intros H Hf. induction H as [|[k0 f0] files Hk Ht IH]; simpl.
  - repeat constructor. exact Hf.
  - destruct (String.eqb_spec k0 k) as [->|]; constructor; auto.
Qed.

Lemma file_of_name (expectedSizes : gmap string Z) (files : Qst.FileMap)
    (record : list byte) :
  Chunk.keyed files ->
  Qst.QstContainedFile.name (Chunk.file_of expectedSizes files record)
  = Chunk.fileName record.
Proof.
  intros H. unfold Chunk.file_of.
  destruct (Qst.files_get files (Chunk.fileName record)) as [f|] eqn:E; simpl.
  - apply (keyed_get files _ f H E).
  - reflexivity.
Qed.

Lemma keyed_fold (little_endian : bool) (expectedSizes : gmap string Z)
    (records : list (list byte)) (files : Qst.FileMap) :
  Chunk.keyed files ->
  Chunk.keyed (fold_left (Chunk.store_files little_endian expectedSizes) records files).
Proof.
  revert files. induction records as [|r records IH]; intros files H; simpl.
  - exact H.
  - apply IH. unfold Chunk.store_files. apply keyed_set; [exact H|].
    apply file_of_name, H.
Qed.

Lemma payload_of_keyed (files : Qst.FileMap) (name : string) :
  Chunk.keyed files ->
  Chunk.payload_of (map snd files) name
  = option_map (fun file => BufferCursor.buffer (Qst.QstContainedFile.data file))
      (Qst.files_get files name).
Proof.
  unfold Chunk.keyed, Chunk.payload_of.
  induction 1 as [|[k0 f0] files Hk _ IH]; simpl; [reflexivity|].
  simpl in Hk. rewrite Hk. destruct (String.eqb k0 name); [reflexivity|exact IH].
Qed.

Lemma same_contents_buffer (m1 m2 : Qst.FileMap) (name : string) :
  Chunk.same_contents m1 m2 ->
  option_map (fun file => BufferCursor.buffer (Qst.QstContainedFile.data file))
    (Qst.files_get m1 name)
  = option_map (fun file => BufferCursor.buffer (Qst.QstContainedFile.data file))
      (Qst.files_get m2 name).
Proof.
  intros H. specialize (H name).
  destruct (Qst.files_get m1 name), (Qst.files_get m2 name); simpl in *;
    try discriminate; [|reflexivity].
  unfold Chunk.contents in H. injection H as _ _ _ _ Hb _. rewrite Hb. reflexivity.
Qed.

(** The payload parseFiles returns for a file is the data stored for it. *)
Lemma decoded_payload_stream (little_endian : bool) (expectedSizes : gmap string Z)
    (before : list byte) (records : list (list byte)) (after : list byte) (name : string) :
  Forall (fun record => length record = 1056%nat) records ->
  (length after < 1056)%nat ->
  Chunk.decoded_payload (Chunk.stream before records after little_endian) expectedSizes name
  = option_map (fun file => BufferCursor.buffer (Qst.QstContainedFile.data file))
      (Qst.files_get
         (fold_left (Chunk.store_files little_endian expectedSizes) records []) name).
Proof.
  intros Hrecords Hafter. unfold Chunk.decoded_payload.
  destruct (parseFiles_stream little_endian expectedSizes before records after
              Hrecords Hafter) as (cursor & ->).
  rewrite payload_of_check_files, fold_store_fst. cbn [fst].
  apply payload_of_keyed, keyed_fold. constructor.
Qed.

Lemma overlay_read {A : Type} (zero : A) (p : nat) (d b : list A) :
  take (length d) (drop p (overlay zero p d b)) = d.
Proof.
  apply list_eq. intros i.
  destruct (decide (i < length d)%nat).
  - rewrite lookup_take_lt, lookup_drop, lookup_overlay by lia.
    rewrite decide_True by lia. f_equal. lia.
  - rewrite lookup_take_ge by lia. symmetry. apply lookup_ge_None. lia.
Qed.

(** C6, as the code has it: for a sequence of 1056-byte chunk records in
    which no two records have the same file name and chunk index, and for
    every permutation of it, parseFiles succeeds on both and reconstructs
    the same payload bytes for every file name; the payload of every
    record lies at offset chunk index * 1024 of its file. *)
Theorem chunk_order_independence (little_endian : bool) (expectedSizes : gmap string Z)
    (before after : list byte) (records records' : list (list byte)) :
  Forall (fun record => length record = 1056%nat) records ->
  (length after < 1056)%nat ->
  Permutation records records' ->
  List.NoDup (map Chunk.key records) ->
  let cursor := Chunk.stream before records after little_endian in
  let cursor' := Chunk.stream before records' after little_endian in
  (exists result, Qst.parseFiles cursor expectedSizes = Ok result)
  /\ (exists result', Qst.parseFiles cursor' expectedSizes = Ok result')
  /\ (forall name : string,
        Chunk.decoded_payload cursor expectedSizes name
        = Chunk.decoded_payload cursor' expectedSizes name)
  /\ (forall record : list byte,
        In record records ->
        exists bytes,
          Chunk.decoded_payload cursor' expectedSizes (Chunk.fileName record) = Some bytes
          /\ take (length (Chunk.payload little_endian record))
               (drop (Z.to_nat (Chunk.chunkNo record * 1024)) bytes)
             = Chunk.payload little_endian record).
Proof.
  intros Hrecords Hafter Hperm Hnodup cursor cursor'.
  assert (Forall (fun record => length record = 1056%nat) records') as Hrecords'.
  { eapply Permutation_Forall; [|exact Hrecords]. exact Hperm. }
  assert (forall name : string,
            Chunk.decoded_payload cursor expectedSizes name
            = Chunk.decoded_payload cursor' expectedSizes name) as Hsame.
  { intros name. subst cursor cursor'.
    rewrite !decoded_payload_stream by assumption.
    apply same_contents_buffer.
    apply fold_store_files_permutation; [exact Hperm|exact Hnodup|].
    apply same_contents_refl. }
  split; [|split; [|split]].
  - destruct (parseFiles_stream little_endian expectedSizes before records after
                Hrecords Hafter) as (c & H). eexists. exact H.
  - destruct (parseFiles_stream little_endian expectedSizes before records' after
                Hrecords' Hafter) as (c & H). eexists. exact H.
  - exact Hsame.
  - intros record Hin. rewrite <- Hsame.
    destruct (in_split _ _ Hin) as (l1 & l2 & ->).
    assert (Permutation (l1 ++ record :: l2) ((l1 ++ l2) ++ [record])) as Hlast.
    { etransitivity; [symmetry; apply Permutation_middle|apply Permutation_cons_append]. }
    subst cursor. rewrite decoded_payload_stream by assumption.
    rewrite (same_contents_buffer _ _ _
               (fold_store_files_permutation little_endian expectedSizes _ _ Hlast Hnodup
                  [] [] (same_contents_refl []))).
    rewrite fold_left_app. cbn [fold_left]. unfold Chunk.store_files at 1.
    rewrite files_get_set, String.eqb_refl. cbn [option_map].
    eexists. split; [reflexivity|].
    unfold Chunk.update. cbn [Qst.QstContainedFile.data].
    rewrite buffer_write_payload by apply chunkNo_nonneg.
    apply overlay_read.
Qed.

Lemma chunk_order_independence_witness :
  let records := Examples.four_of_five in
  let records' := rev Examples.four_of_five in
  let cursor := Chunk.stream [] records [] true in
  let cursor' := Chunk.stream [] records' [] true in
  (exists result, Qst.parseFiles cursor ∅ = Ok result)
  /\ (exists result', Qst.parseFiles cursor' ∅ = Ok result')
  /\ (forall name : string,
        Chunk.decoded_payload cursor ∅ name = Chunk.decoded_payload cursor' ∅ name)
  /\ (forall record : list byte,
        In record records ->
        exists bytes,
          Chunk.decoded_payload cursor' ∅ (Chunk.fileName record) = Some bytes
          /\ take (length (Chunk.payload true record))
               (drop (Z.to_nat (Chunk.chunkNo record * 1024)) bytes)
             = Chunk.payload true record).
Proof.
  apply (chunk_order_independence true ∅ [] [] Examples.four_of_five
           (rev Examples.four_of_five)).
  - repeat (constructor; [vm_compute; reflexivity|]). constructor.
  - simpl. lia.
  - apply Permutation_rev.
  - assert (map Chunk.key Examples.four_of_five
            = [("quest.dat", 0); ("quest.dat", 1); ("quest.dat", 3); ("quest.dat", 4)]) as ->
      by (vm_compute; reflexivity).
    repeat constructor; simpl; intros H;
      repeat (destruct H as [H|H]; [discriminate H|]); exact H.
Defined.

(** C6, as the spec states it, fails: two records with the same file name
    and chunk index but different payloads are reconstructed differently
    in the two orders, the later record overwriting the earlier one. *)
Lemma chunk_order_counterexample :
  ~ (forall (records records' : list (list byte)) (name : string),
       Forall (fun record => length record = 1056%nat) records ->
       Permutation records records' ->
       Chunk.decoded_payload (Chunk.stream [] records [] true) ∅ name
       = Chunk.decoded_payload (Chunk.stream [] records' [] true) ∅ name).
Proof.
  intros H.
  specialize (H [Examples.first_chunk_a; Examples.first_chunk_b]
                [Examples.first_chunk_b; Examples.first_chunk_a] "quest.dat").
  assert (Chunk.decoded_payload
            (Chunk.stream [] [Examples.first_chunk_a; Examples.first_chunk_b] [] true)
            ∅ "quest.dat" = Some ["b"%byte]) as Hab by (vm_compute; reflexivity).
  assert (Chunk.decoded_payload
            (Chunk.stream [] [Examples.first_chunk_b; Examples.first_chunk_a] [] true)
            ∅ "quest.dat" = Some ["a"%byte]) as Hba by (vm_compute; reflexivity).
  rewrite Hab, Hba in H.
  discriminate H.
  - repeat (constructor; [vm_compute; reflexivity|]). constructor.
  - apply perm_swap.
Qed.

(** ** Missing chunks *)

Lemma check_file_missing (file : Qst.File) (chunkNo : Z) :
  0 <= chunkNo
    < Qst.chunk_count
        (Z.max (Z.of_nat (BufferCursor.size (Qst.QstContainedFile.data file)))
           (default 0 (Qst.QstContainedFile.expectedSize file))) ->
  chunkNo ∉ Qst.QstContainedFile.chunkNos file ->
  In (Qst.warn (Qst.missing_chunk (Qst.QstContainedFile.name file) chunkNo))
    (snd (Qst.check_file file)).
Proof.
  intros Hrange Hnotin. unfold Qst.check_file. cbn [snd].
  apply in_or_app. right. apply list_elem_of_In, list_elem_of_omap.
  exists chunkNo. split.
  - apply elem_of_seqZ. unfold BufferCursor.size, BufferCursor.with_position in *.
    cbn [BufferCursor.buffer]. lia.
  - rewrite decide_False by exact Hnotin. reflexivity.
Qed.

(** Every missing chunk of every file that check_files is given is in
    its log. *)
Lemma check_files_missing (files : list Qst.File) (file : Qst.File) (chunkNo : Z) :
  In file files ->
  0 <= chunkNo
    < Qst.chunk_count
        (Z.max (Z.of_nat (BufferCursor.size (Qst.QstContainedFile.data file)))
           (default 0 (Qst.QstContainedFile.expectedSize file))) ->
  chunkNo ∉ Qst.QstContainedFile.chunkNos file ->
  In (Qst.warn (Qst.missing_chunk (Qst.QstContainedFile.name file) chunkNo))
    (snd (Qst.check_files files)).
Proof.
  intros Hin Hrange Hnotin. induction files as [|file0 files IH]; [contradiction|].
  rewrite check_files_cons. cbn [snd]. apply in_or_app.
  destruct Hin as [->|Hin].
  - left. apply check_file_missing; assumption.
  - right. apply IH, Hin.
Qed.

(** The files check_files returns are the files it is given, with the
    data cursor moved to the start. *)
Lemma check_files_In (files : list Qst.File) (file' : Qst.File) :
  In file' (fst (Qst.check_files files)) ->
  exists file, In file files /\ file' = fst (Qst.check_file file).
Proof.
  induction files as [|file0 files IH]; [contradiction|].
  rewrite check_files_cons. cbn [fst]. intros [<-|Hin].
  - exists file0. split; [left|]; reflexivity.
  - destruct (IH Hin) as (file & Hfile & ->). exists file. split; [right; exact Hfile|reflexivity].
Qed.

Lemma files_get_In (files : Qst.FileMap) (k : string) (f : Qst.File) :
  Qst.files_get files k = Some f -> In f (map snd files).
Proof.
  induction files as [|[k0 f0] files IH]; simpl; [discriminate|].
  destruct (String.eqb k0 k).
  - intros [= ->]. left. reflexivity.
  - intros H. right. apply IH, H.
Qed.

Lemma update_size (little_endian : bool) (record : list byte) (file : Qst.File) :
  (BufferCursor.size (Qst.QstContainedFile.data (Chunk.update little_endian record file))
   = Nat.max (Z.to_nat (Chunk.chunkNo record * 1024)
              + length (Chunk.payload little_endian record))
       (BufferCursor.size (Qst.QstContainedFile.data file)))%nat.
Proof.
  unfold BufferCursor.size, Chunk.update. cbn [Qst.QstContainedFile.data].
  rewrite buffer_write_payload by apply chunkNo_nonneg.
  apply length_overlay.
Qed.

(** After a sequence of records, the file of every record reaches at
    least to the start of that record's chunk. *)
Lemma stored_reach (little_endian : bool) (expectedSizes : gmap string Z)
    (records : list (list byte)) (record : list byte) :
  In record records ->
  exists file,
    Qst.files_get (fold_left (Chunk.store_files little_endian expectedSizes) records [])
      (Chunk.fileName record) = Some file
    /\ Chunk.chunkNo record * 1024
       <= Z.of_nat (BufferCursor.size (Qst.QstContainedFile.data file)).
Proof.
  induction records as [|r records IH] using rev_ind; [contradiction|].
  intros Hin. rewrite fold_left_app. cbn [fold_left].
  set (files := fold_left (Chunk.store_files little_endian expectedSizes) records []) in *.
  unfold Chunk.store_files. rewrite files_get_set.
  pose proof (chunkNo_nonneg r) as Hr. pose proof (chunkNo_nonneg record) as Hrecord.
  apply in_app_or in Hin as [Hin|[<-|[]]].
  - destruct (IH Hin) as (file & Hget & Hreach).
    destruct (String.eqb_spec (Chunk.fileName r) (Chunk.fileName record)) as [E|E].
    + eexists. split; [reflexivity|]. rewrite update_size.
      unfold Chunk.file_of. rewrite E, Hget. simpl default. lia.
    + exists file. split; assumption.
  - rewrite String.eqb_refl. eexists. split; [reflexivity|].
    rewrite update_size. lia.
Qed.

(** The chunk indices recorded for a file are those of its records. *)
Lemma stored_chunkNos (little_endian : bool) (expectedSizes : gmap string Z)
    (records : list (list byte)) (name : string) (file : Qst.File) (chunkNo : Z) :
  Qst.files_get (fold_left (Chunk.store_files little_endian expectedSizes) records [])
    name = Some file ->
  chunkNo ∈ Qst.QstContainedFile.chunkNos file ->
  exists record, In record records /\ Chunk.key record = (name, chunkNo).
Proof.
  revert file. induction records as [|r records IH] using rev_ind; intros file.
  - discriminate.
  - rewrite fold_left_app. cbn [fold_left].
    set (files := fold_left (Chunk.store_files little_endian expectedSizes) records []) in *.
    unfold Chunk.store_files. rewrite files_get_set.
    destruct (String.eqb_spec (Chunk.fileName r) name) as [E|E].
    + intros [= <-]. unfold Chunk.update. cbn [Qst.QstContainedFile.chunkNos].
      rewrite chunkNos_update. intros Hin.
      apply elem_of_union in Hin as [Hin|Hin].
      * unfold Chunk.file_of in Hin.
        destruct (Qst.files_get files (Chunk.fileName r)) as [f|] eqn:Hget.
        -- rewrite E in Hget. destruct (IH f Hget Hin) as (record & Hrec & Hkey).
           exists record. split; [apply in_or_app; left; exact Hrec|exact Hkey].
        -- simpl in Hin. set_solver.
      * apply elem_of_singleton in Hin. exists r. split.
        -- apply in_or_app. right. left. reflexivity.
        -- unfold Chunk.key. congruence.
    + intros Hget Hin. destruct (IH file Hget Hin) as (record & Hrec & Hkey).
      exists record. split; [apply in_or_app; left; exact Hrec|exact Hkey].
Qed.

Lemma chunk_count_range (actualSize chunkNo : Z) :
  chunkNo * 1024 < actualSize <-> chunkNo < Qst.chunk_count actualSize.
Proof.
  unfold Qst.chunk_count. split; intros H.
  - assert (chunkNo + 1 <= (actualSize + 1023) / 1024)
      by (apply Z.div_le_lower_bound; lia).
    lia.
  - pose proof (Z.mul_div_le (actualSize + 1023) 1024 ltac:(lia)). lia.
Qed.

(** C7: after the chunk records of a stream are consumed, parseFiles
    succeeds, and for every file and every chunk index k with 0 <= k and
    k * 1024 < max(assembled size, expected size), that is k below the
    ceiling of that size divided by 1024, that is not in the file's
    observed set, the log holds the warning "File <name> is missing chunk
    <k>.".  In particular, when a file has no chunk with index k (2, say)
    but has a chunk with a larger index, chunk k is reported missing. *)
Theorem missing_chunks_are_reported (little_endian : bool) (expectedSizes : gmap string Z)
    (before after : list byte) (records : list (list byte)) :
  Forall (fun record => length record = 1056%nat) records ->
  (length after < 1056)%nat ->
  exists files cursor log,
    Qst.parseFiles (Chunk.stream before records after little_endian) expectedSizes
    = Ok (files, cursor, log)
    /\ (forall (file : Qst.File) (chunkNo : Z),
          In file files ->
          0 <= chunkNo ->
          chunkNo * 1024
          < Z.max (Z.of_nat (BufferCursor.size (Qst.QstContainedFile.data file)))
              (default 0 (Qst.QstContainedFile.expectedSize file)) ->
          chunkNo ∉ Qst.QstContainedFile.chunkNos file ->
          In {| level := Warn;
                message := "File " +:+ Qst.QstContainedFile.name file
                           +:+ " is missing chunk " +:+ pretty chunkNo +:+ "." |} log)
    /\ (forall (name : string) (chunkNo : Z),
          0 <= chunkNo ->
          Forall (fun record => Chunk.key record <> (name, chunkNo)) records ->
          Exists (fun record => Chunk.fileName record = name
                                /\ chunkNo < Chunk.chunkNo record) records ->
          In {| level := Warn;
                message := "File " +:+ name +:+ " is missing chunk " +:+ pretty chunkNo
                           +:+ "." |} log).
Proof.
  intros Hrecords Hafter.
  destruct (parseFiles_stream little_endian expectedSizes before records after
              Hrecords Hafter) as (cursor & Hparse).
  rewrite fold_store_fst in Hparse. cbn [fst] in Hparse.
  set (files := fold_left (Chunk.store_files little_endian expectedSizes) records [])
    in *.
  eexists _, cursor, _. split; [exact Hparse|]. split.
  - intros file' chunkNo Hin Hpos Hrange Hnotin. apply in_or_app. right.
    destruct (check_files_In _ _ Hin) as (file & Hfile & ->).
    destruct (check_file_contents file) as (Hname & Hbuffer & HchunkNos & Hexpected).
    rewrite Hname. rewrite HchunkNos in Hnotin.
    apply (check_files_missing _ file chunkNo Hfile); [|exact Hnotin].
    split; [exact Hpos|]. apply chunk_count_range.
    unfold BufferCursor.size in *. rewrite Hbuffer, Hexpected in Hrange. exact Hrange.
  - intros name chunkNo Hpos Hnone Hlater. apply in_or_app. right.
    apply List.Exists_exists in Hlater as (record & Hin & <- & Hlt).
    destruct (stored_reach little_endian expectedSizes records record Hin)
      as (file & Hget & Hreach). fold files in Hget.
    assert (Chunk.keyed files) as Hkeyed by (apply keyed_fold; constructor).
    rewrite <- (keyed_get files _ file Hkeyed Hget).
    apply (check_files_missing _ file chunkNo).
    + apply (files_get_In files _ file Hget).
    + split; [exact Hpos|]. apply chunk_count_range. lia.
    + intros Hseen.
      destruct (stored_chunkNos little_endian expectedSizes records _ file chunkNo
                  Hget Hseen) as (r & Hr & Hkey).
      rewrite List.Forall_forall in Hnone. exact (Hnone r Hr Hkey).
Qed.

Lemma missing_chunks_are_reported_witness :
  exists files cursor,
    Qst.parseFiles (Chunk.stream [] Examples.four_of_five_full [] true) ∅
    = Ok (files, cursor,
          [{| level := Warn; message := "File quest.dat is missing chunk 2." |}]).
Proof.
  destruct (missing_chunks_are_reported true ∅ [] [] Examples.four_of_five_full)
    as (files & cursor & log & Hparse & _ & Hmissing).
  - repeat (constructor; [vm_compute; reflexivity|]). constructor.
  - simpl. lia.
  - exists files, cursor.
    assert (In {| level := Warn; message := "File quest.dat is missing chunk 2." |} log)
      as Hin.
    { assert (map Chunk.key Examples.four_of_five_full
              = [("quest.dat", 0); ("quest.dat", 1); ("quest.dat", 3); ("quest.dat", 4)])
        as Hkeys by (vm_compute; reflexivity).
      apply (Hmissing "quest.dat" 2); [lia| |].
      + apply List.Forall_forall. intros record Hin Hkey.
        apply (in_map Chunk.key) in Hin. rewrite Hkeys, Hkey in Hin.
        simpl in Hin. repeat (destruct Hin as [Hin|Hin]; [discriminate Hin|]). exact Hin.
      + apply List.Exists_exists.
        exists (Examples.chunk_record 4 "quest.dat" (repeat "4"%byte 1024)). split.
        * simpl. auto.
        * split; vm_compute; reflexivity. }
    assert (length log = 1%nat) as Hlength.
    { assert (match Qst.parseFiles (Chunk.stream [] Examples.four_of_five_full [] true) ∅ with
              | Ok (_, _, log) => length log
              | Throw _ => 0%nat
              end = 1%nat) as Hcount by (vm_compute; reflexivity).
      rewrite Hparse in Hcount. exact Hcount. }
    rewrite Hparse. destruct log as [|entry [|? ?]]; try discriminate Hlength.
    destruct Hin as [->|[]]. reflexivity.
Defined.

(** ** The layout of a header record *)

Lemma parse_header_inside (before record after : list byte) (little_endian : bool) :
  length record = 88%nat ->
  Qst.parse_header (Chunk.inside before record after little_endian 0)
  = Ok (Header.decode little_endian record,
        Chunk.inside before record after little_endian 88).
Proof.
  intros Hlen. unfold Qst.parse_header.
  rewrite (seek_inside _ _ _ _ 0 4 4) by lia. cbn [rbind].
  unfold BufferCursor.u16. rewrite u_inside by lia. cbn [rbind]. cbv beta iota zeta.
  rewrite (seek_inside _ _ _ _ (4 + 2) 38 44) by lia. cbn [rbind].
  rewrite string_ascii_inside by lia. cbn [rbind]. cbv beta iota zeta.
  unfold BufferCursor.u32. rewrite u_inside by lia. cbn [rbind]. cbv beta iota zeta.
  rewrite string_ascii_inside by lia. cbn [rbind]. cbv beta iota zeta.
  reflexivity.
Qed.

Lemma parseHeaders_inside (before header_0 header_1 after : list byte)
    (little_endian : bool) :
  length header_0 = 88%nat ->
  length header_1 = 88%nat ->
  Qst.parseHeaders (Chunk.inside before (header_0 ++ header_1) after little_endian 0)
  = Ok ([Header.decode little_endian header_0; Header.decode little_endian header_1],
        Chunk.inside before (header_0 ++ header_1) after little_endian 176).
Proof.
  intros H0 H1. unfold Qst.parseHeaders.
  replace (Chunk.inside before (header_0 ++ header_1) after little_endian 0)
    with (Chunk.inside before header_0 (header_1 ++ after) little_endian 0)
    by (unfold Chunk.inside; rewrite <- (app_assoc header_0); reflexivity).
  rewrite parse_header_inside by exact H0. cbn [rbind]. cbv beta iota zeta.
  rewrite (inside_next _ _ _ _ 88%nat H0).
  replace (Chunk.inside (before ++ header_0) [] (header_1 ++ after) little_endian 0)
    with (Chunk.inside (before ++ header_0) header_1 after little_endian 0)
    by reflexivity.
  rewrite parse_header_inside by exact H1. cbn [rbind]. cbv beta iota zeta.
  do 2 f_equal. unfold Chunk.inside. f_equal.
  - rewrite <- !app_assoc. reflexivity.
  - rewrite length_app. lia.
Qed.

Lemma write_bytes_appended (cursor : BufferCursor.t) (bytes : list byte) :
  BufferCursor.position cursor = BufferCursor.size cursor ->
  BufferCursor.write_bytes cursor bytes = Header.appended cursor bytes.
Proof.
  intros H. unfold BufferCursor.write_bytes, Header.appended, BufferCursor.size in *.
  rewrite H, overlay_end, length_app. reflexivity.
Qed.

Lemma appended_at_end (cursor : BufferCursor.t) (bytes : list byte) :
  BufferCursor.position (Header.appended cursor bytes)
  = BufferCursor.size (Header.appended cursor bytes).
Proof. reflexivity. Qed.

Lemma appended_appended (cursor : BufferCursor.t) (b1 b2 : list byte) :
  Header.appended (Header.appended cursor b1) b2 = Header.appended cursor (b1 ++ b2).
Proof. unfold Header.appended. simpl. rewrite <- app_assoc. reflexivity. Qed.

Lemma appended_nil (cursor : BufferCursor.t) :
  BufferCursor.position cursor = BufferCursor.size cursor ->
  Header.appended cursor [] = cursor.
Proof.
  destruct cursor as [buffer position le]. unfold Header.appended, BufferCursor.size.
  simpl. intros ->. rewrite app_nil_r. reflexivity.
Qed.

Lemma write_zeros_appended (n : nat) (cursor : BufferCursor.t) :
  BufferCursor.position cursor = BufferCursor.size cursor ->
  Nat.iter n (fun cursor => BufferCursor.write_u8 cursor 0) cursor
  = Header.appended cursor (repeat "000"%byte n).
Proof.
  intros H. induction n as [|n IH].
  - simpl. symmetry. apply appended_nil, H.
  - change (Nat.iter (S n) ?f ?c) with (f (Nat.iter n f c)).
    rewrite IH. unfold BufferCursor.write_u8.
    rewrite write_bytes_appended by apply appended_at_end.
    rewrite appended_appended. f_equal.
    change [byte_of_Z 0] with (repeat "000"%byte 1).
    rewrite <- repeat_app. f_equal. lia.
Qed.

Lemma write_file_header_appended (heap : Qst.Heap) (cursor : BufferCursor.t)
    (file : Qst.SimpleFile) :
  BufferCursor.position cursor = BufferCursor.size cursor ->
  BufferCursor.little_endian cursor = true ->
  (String.length (Qst.SimpleQstContainedFile.name file) <= 16)%nat ->
  (String.length (Header.fileName2 file) <= 24)%nat ->
  Qst.write_file_header heap cursor file = Ok (Header.appended cursor (Header.record_of heap file)).
Proof.
  intros Hend Hle Hname Hname2. unfold Qst.write_file_header.
  destruct (Nat.ltb_spec 16 (String.length (Qst.SimpleQstContainedFile.name file))); [lia|].
  fold (Header.fileName2 file).
  destruct (Nat.ltb_spec 24 (String.length (Header.fileName2 file))); [lia|].
  f_equal.
  unfold BufferCursor.write_u16, BufferCursor.write_u32, BufferCursor.write_string_ascii.
  rewrite (write_bytes_appended cursor) by exact Hend.
  rewrite (write_bytes_appended (Header.appended _ _)) by apply appended_at_end.
  rewrite (write_bytes_appended (Header.appended _ _)) by apply appended_at_end.
  rewrite write_zeros_appended by apply appended_at_end.
  rewrite (write_bytes_appended (Header.appended _ _)) by apply appended_at_end.
  rewrite (write_bytes_appended (Header.appended _ _)) by apply appended_at_end.
  rewrite (write_bytes_appended (Header.appended _ _)) by apply appended_at_end.
  rewrite !appended_appended.
  unfold BufferCursor.order. cbn [Header.appended BufferCursor.little_endian].
  rewrite Hle. unfold Header.record_of. rewrite <- ?app_assoc. reflexivity.
Qed.

Lemma take_drop_middle {A : Type} (l l1 l2 l3 : list A) (n k : nat) :
  l = l1 ++ l2 ++ l3 -> length l1 = n -> length l2 = k -> take k (drop n l) = l2.
Proof.
  intros -> <- <-. rewrite drop_app_length, take_app_length. reflexivity.
Qed.

(** C9, as the code has it: an 88-byte header record stores quest_no as 2
    bytes at offset 4 and the 16-byte name at offset 44 (after 38 zero
    bytes that follow quest_no), followed by the 4-byte size at offset 60
    and the 24-byte secondary name at offset 64; parseHeaders reads two
    such records by these offsets and writeFileHeaders writes them. *)
Theorem header_layout (heap : Qst.Heap) (file : Qst.SimpleFile) (cursor : BufferCursor.t)
    (before header_0 header_1 after : list byte) (little_endian : bool) :
  BufferCursor.position cursor = BufferCursor.size cursor ->
  BufferCursor.little_endian cursor = true ->
  (String.length (Qst.SimpleQstContainedFile.name file) <= 16)%nat ->
  (String.length (Header.fileName2 file) <= 24)%nat ->
  length header_0 = 88%nat ->
  length header_1 = 88%nat ->
  let record := Header.record_of heap file in
  Qst.write_file_header heap cursor file = Ok (Header.appended cursor record)
  /\ length record = 88%nat
  /\ take 2 (drop 4 record)
     = le_bytes 2 (default 0 (Qst.SimpleQstContainedFile.questNo file))
  /\ take 16 (drop 44 record)
     = resize 16 "000"%byte (list_byte_of_string (Qst.SimpleQstContainedFile.name file))
  /\ take 4 (drop 60 record)
     = le_bytes 4 (Z.of_nat (BufferCursor.size (heap (Qst.SimpleQstContainedFile.data file))))
  /\ take 24 (drop 64 record)
     = resize 24 "000"%byte (list_byte_of_string (Header.fileName2 file))
  /\ Qst.parseHeaders (Chunk.inside before (header_0 ++ header_1) after little_endian 0)
     = Ok ([Header.decode little_endian header_0; Header.decode little_endian header_1],
           Chunk.inside before (header_0 ++ header_1) after little_endian 176).
Proof.
  intros Hend Hle Hname Hname2 H0 H1 record.
  split; [apply write_file_header_appended; assumption|].
  assert (forall n v, length (le_bytes n v) = n) as Hlen
    by (intros; unfold le_bytes; rewrite length_map, length_seq; reflexivity).
  subst record. unfold Header.record_of.
  split; [|split; [|split; [|split; [|split]]]].
  - rewrite !length_app, !Hlen, !length_resize, repeat_length. reflexivity.
  - eapply (take_drop_middle _ (le_bytes 2 88 ++ le_bytes 2 68));
      [rewrite <- ?app_assoc; reflexivity|rewrite length_app, !Hlen; reflexivity|apply Hlen].
  - eapply (take_drop_middle _
              (le_bytes 2 88 ++ le_bytes 2 68
               ++ le_bytes 2 (default 0 (Qst.SimpleQstContainedFile.questNo file))
               ++ repeat "000"%byte 38));
      [rewrite <- ?app_assoc; reflexivity
      |rewrite !length_app, !Hlen, repeat_length; reflexivity
      |apply length_resize].
  - eapply (take_drop_middle _
              (le_bytes 2 88 ++ le_bytes 2 68
               ++ le_bytes 2 (default 0 (Qst.SimpleQstContainedFile.questNo file))
               ++ repeat "000"%byte 38
               ++ resize 16 "000"%byte
                    (list_byte_of_string (Qst.SimpleQstContainedFile.name file))));
      [rewrite <- ?app_assoc; reflexivity
      |rewrite !length_app, !Hlen, repeat_length, length_resize; reflexivity
      |apply Hlen].
  - eapply (take_drop_middle _
              (le_bytes 2 88 ++ le_bytes 2 68
               ++ le_bytes 2 (default 0 (Qst.SimpleQstContainedFile.questNo file))
               ++ repeat "000"%byte 38
               ++ resize 16 "000"%byte
                    (list_byte_of_string (Qst.SimpleQstContainedFile.name file))
               ++ le_bytes 4
                    (Z.of_nat (BufferCursor.size (heap (Qst.SimpleQstContainedFile.data file)))))
              _ []);
      [rewrite <- ?app_assoc, app_nil_r; reflexivity
      |rewrite !length_app, !Hlen, repeat_length, length_resize; reflexivity
      |apply length_resize].
  - apply parseHeaders_inside; assumption.
Qed.

Lemma header_layout_witness :
  let heap := Examples.objects [["a"; "b"]%byte] in
  let file := Examples.simple_file "quest.dat" 0%nat in
  let record := Header.record_of heap file in
  Qst.write_file_header heap (BufferCursor.create true) file
  = Ok (Header.appended (BufferCursor.create true) record)
  /\ take 16 (drop 44 record) = resize 16 "000"%byte (list_byte_of_string "quest.dat")
  /\ Qst.parseHeaders (Chunk.inside [] (record ++ record) [] true 0)
     = Ok ([Header.decode true record; Header.decode true record],
           Chunk.inside [] (record ++ record) [] true 176).
Proof.
  intros heap file record.
  destruct (header_layout heap file (BufferCursor.create true) [] record record [] true)
    as (Hwrite & _ & _ & Hname & _ & _ & Hparse);
    try reflexivity; try (vm_compute; lia).
  split; [exact Hwrite|]. split; [exact Hname|exact Hparse].
Defined.

(** C9, as the spec states it, fails on both paths: the header that
    writeFileHeaders writes for "quest.dat" does not hold the name at
    offset 42, and parseHeaders does not find a name that is stored at
    offset 42. *)
Lemma header_name_offset_counterexample :
  ~ (forall (heap : Qst.Heap) (file : Qst.SimpleFile) (cursor : BufferCursor.t),
       Qst.write_file_header heap (BufferCursor.create true) file = Ok cursor ->
       take 16 (drop 42 (BufferCursor.buffer cursor))
       = resize 16 "000"%byte
           (list_byte_of_string (Qst.SimpleQstContainedFile.name file)))
  /\ ~ (forall (record after : list byte) (header : Qst.QstHeader.t)
               (cursor : BufferCursor.t),
          length record = 88%nat ->
          Qst.parse_header (BufferCursor.of_bytes (record ++ after) true)
          = Ok (header, cursor) ->
          Qst.QstHeader.fileName header
          = string_of_list_byte (until_nul (take 16 (drop 42 record)))).
Proof.
  split.
  - intros H.
    specialize (H (Examples.objects [[]]) (Examples.simple_file "quest.dat" 0%nat) _ eq_refl).
    vm_compute in H. discriminate H.
  - intros H.
    specialize (H Examples.header_with_name_at_42 [] _ _ eq_refl eq_refl).
    vm_compute in H. discriminate H.
Qed.
(** ** The size of a written archive *)

(** C8 at a file with an empty payload: the predicted total is 88 bytes,
    writeFileChunks still writes one 1056-byte chunk for the file, and
    writeQst raises the size mismatch instead of returning the archive. *)
Theorem writeQst_empty_payload :
  let heap := Examples.objects [[]] in
  let file := Examples.simple_file "quest.dat" 0%nat in
  Qst.predicted_size heap file = 88%nat
  /\ (exists cursor,
        Qst.writeFileHeaders heap (BufferCursor.create true) [file] = Ok cursor
        /\ BufferCursor.size cursor = 88%nat
        /\ exists cursor' heap',
             Qst.writeFileChunks heap cursor [file] = Ok (cursor', heap')
             /\ BufferCursor.size cursor' = 1144%nat)
  /\ Qst.writeQst heap [file] = Throw (SizeMismatch 88 1144).
Proof.
  split; [reflexivity|]. split.
  - eexists. split; [vm_compute; reflexivity|]. split; [vm_compute; reflexivity|].
    eexists _, _. split; vm_compute; reflexivity.
  - vm_compute. reflexivity.
Qed.

(** *** The bytes that are written *)

Lemma length_le_bytes (n : nat) (v : Z) : length (le_bytes n v) = n.
Proof. unfold le_bytes. rewrite length_map, length_seq. reflexivity. Qed.

Lemma length_order (cursor : BufferCursor.t) (bytes : list byte) :
  length (BufferCursor.order cursor bytes) = length bytes.
Proof. unfold BufferCursor.order. destruct (BufferCursor.little_endian cursor);
  [reflexivity|apply length_rev]. Qed.

Lemma size_appended (cursor : BufferCursor.t) (bytes : list byte) :
  BufferCursor.size (Header.appended cursor bytes)
  = (BufferCursor.size cursor + length bytes)%nat.
Proof. unfold BufferCursor.size, Header.appended. simpl. apply length_app. Qed.

(** writeFileHeaders appends the header records of the files whose
    names fit. *)
Lemma writeFileHeaders_appended (heap : Qst.Heap) (files : list Qst.SimpleFile)
    (cursor : BufferCursor.t) :
  BufferCursor.position cursor = BufferCursor.size cursor ->
  BufferCursor.little_endian cursor = true ->
  Forall names_fit files ->
  Qst.writeFileHeaders heap cursor files
  = Ok (Header.appended cursor (concat (map (Header.record_of heap) files))).
Proof.
  intros Hend Hle Hfiles. revert cursor Hend Hle.
  induction Hfiles as [|file files (Hname & Hname2) Hfiles IH]; intros cursor Hend Hle.
  - cbn [Qst.writeFileHeaders map concat]. rewrite appended_nil by exact Hend. reflexivity.
  - cbn [Qst.writeFileHeaders map concat].
    rewrite write_file_header_appended by assumption. cbn [rbind].
    rewrite IH by (apply appended_at_end || exact Hle).
    rewrite appended_appended. reflexivity.
Qed.

Lemma fold_left_add (sizes : list nat) (size_0 : nat) :
  fold_left Nat.add sizes size_0 = (size_0 + list_sum sizes)%nat.
Proof.
  revert size_0. induction sizes as [|n sizes IH]; intros size_0; simpl; [lia|].
  rewrite IH. lia.
Qed.


(** ** Objects and their properties *)

Lemma property_key_inj (type : ObjectType) (i j : nat) :
  property_key type i = property_key type j -> i = j.
Proof.
  unfold property_key.
  destruct type; simpl;
    destruct (Nat.eqb_spec i 3), (Nat.eqb_spec i 4), (Nat.eqb_spec i 5),
             (Nat.eqb_spec j 3), (Nat.eqb_spec j 4), (Nat.eqb_spec j 5);
    simpl; intros H; try lia; try discriminate H;
    injection H as H; exact (pretty_nat_inj i j H).
Qed.

Lemma jsmap_get_None (m : JsMap.t) (k : string) :
  ~ In k (map fst m) -> JsMap.get m k = None.
Proof.
  induction m as [|[k' v'] m IH]; simpl; [reflexivity|].
  intros H. destruct (String.eqb_spec k' k) as [->|]; [exfalso; auto|].
  apply IH. auto.
Qed.

Lemma jsmap_set_fresh (m : JsMap.t) (k : string) (v : float) :
  ~ In k (map fst m) -> JsMap.set m k v = m ++ [(k, v)].
Proof.
  induction m as [|[k' v'] m IH]; simpl; [reflexivity|].
  intros H. destruct (String.eqb_spec k' k) as [->|]; [exfalso; auto|].
  rewrite IH by auto. reflexivity.
Qed.

Lemma jsmap_fold_distinct (entries : list (string * float)) (m : JsMap.t) :
  List.NoDup (map fst (m ++ entries)) ->
  fold_left (fun m kv => JsMap.set m (fst kv) (snd kv)) entries m = m ++ entries.
Proof.
  revert m. induction entries as [|[k v] entries IH]; intros m H; simpl.
  - rewrite app_nil_r. reflexivity.
  - rewrite jsmap_set_fresh.
    + rewrite IH; rewrite <- app_assoc; [reflexivity|exact H].
    + rewrite map_app in H. simpl in H. apply NoDup_remove_2 in H.
      intros Hin. apply H. apply in_or_app. left. exact Hin.
Qed.

Lemma jsmap_of_entries_distinct (entries : list (string * float)) :
  List.NoDup (map fst entries) -> JsMap.of_entries entries = entries.
Proof. intros H. unfold JsMap.of_entries. apply (jsmap_fold_distinct entries []), H. Qed.

Lemma properties_round_trip (type : ObjectType) (properties : list float) :
  JsMap.values
    (JsMap.of_entries (imap (fun index value => (property_key type index, value)) properties))
  = properties.
Proof.
  rewrite jsmap_of_entries_distinct.
  - unfold JsMap.values. change (map snd ?l) with (snd <$> l).
    rewrite fmap_imap. rewrite (imap_ext _ (const id)) by reflexivity.
    rewrite imap_const. apply list_fmap_id.
  - change (map fst ?l) with (fst <$> l).
    rewrite fmap_imap.
    rewrite (imap_ext _ (fun index _ => property_key type index)) by reflexivity.
    rewrite imap_seq_0.
    apply NoDup_ListNoDup, NoDup_fmap_2; [|apply NoDup_seq].
    intros i j. apply property_key_inj.
Qed.

(** Objects that parse_obj_data produced come back from
    objects_to_dat_data and parse_obj_data unchanged, when the object
    type table gives their types back. *)
Lemma objects_round_trip {Archive Payload : Type} (C : Collaborators Archive Payload)
    (objs : list DatObject.t) :
  Forall (fun object =>
            pso_id_to_object_type C (object_data_pso_id C (QuestObject.type object))
            = QuestObject.type object)
    (parse_obj_data C objs) ->
  parse_obj_data C (objects_to_dat_data C (parse_obj_data C objs)) = parse_obj_data C objs.
Proof.
  induction objs as [|obj objs IH]; [reflexivity|].
  intros H. inversion H as [|? ? Hobj Hobjs]; subst.
  change (parse_obj_data C (obj :: objs))
    with (parse_obj_data C [obj] ++ parse_obj_data C objs).
  unfold objects_to_dat_data, parse_obj_data in *.
  rewrite map_app, map_app, IH by exact Hobjs.
  f_equal. simpl in *. rewrite Hobj, properties_round_trip. reflexivity.
Qed.

(** ** Decoded NPC types encode *)

Lemma cases_roaming_3_encode :
  forallb (fun entry => entry_encodes (fst (fst (fst entry))) (snd entry)) cases_roaming_3
  = true.
Proof. vm_compute. reflexivity. Qed.

Lemma cases_roaming_2_encode (area_id : Z) (regular : bool) :
  forallb (fun entry => entry_encodes (fst (fst (fst entry))) (snd entry))
    (cases_roaming_2 area_id regular)
  = true.
Proof.
  unfold cases_roaming_2. destruct regular, (15 <? area_id); vm_compute; reflexivity.
Qed.

Lemma cases_episode_encode (area_id : Z) (regular : bool) :
  forallb (fun entry => entry_encodes (fst (fst entry)) (snd entry))
    (cases_episode area_id regular)
  = true.
Proof.
  unfold cases_episode. destruct regular, (15 <? area_id); vm_compute; reflexivity.
Qed.

Lemma cases_type_id_encode :
  forallb (fun entry => entry_encodes (fst entry) (snd entry)) cases_type_id = true.
Proof. vm_compute. reflexivity. Qed.

(** Every type that get_npc_type returns is Unknown or has a case in
    npc_type_to_dat_data, with the type code of the record it came from. *)
Lemma get_npc_type_encodes (episode : Z) (npc : DatNpc.t) :
  get_npc_type episode npc = Unknown
  \/ entry_encodes (DatNpc.type_id npc) (get_npc_type episode npc) = true.
Proof.
  unfold get_npc_type.
  destruct (switch key3_eqb _ cases_roaming_3) as [t|] eqn:E3.
  { right. apply switch_In in E3 as (k & Hk & Hin). apply key3_eqb_eq in Hk. subst k.
    pose proof cases_roaming_3_encode as H. rewrite forallb_forall in H.
    apply (H _ Hin). }
  destruct (switch key3_eqb _ (cases_roaming_2 _ _)) as [t|] eqn:E2.
  { right. apply switch_In in E2 as (k & Hk & Hin). apply key3_eqb_eq in Hk. subst k.
    pose proof (cases_roaming_2_encode (DatNpc.area_id npc)
                  (scale_y_regular (Vec3.y (DatNpc.scale npc)))) as H.
    rewrite forallb_forall in H. apply (H _ Hin). }
  destruct (switch key2_eqb _ (cases_episode _ _)) as [t|] eqn:E1.
  { right. apply switch_In in E1 as (k & Hk & Hin). apply key2_eqb_eq in Hk. subst k.
    pose proof (cases_episode_encode (DatNpc.area_id npc)
                  (scale_y_regular (Vec3.y (DatNpc.scale npc)))) as H.
    rewrite forallb_forall in H. apply (H _ Hin). }
  destruct (switch Z.eqb _ cases_type_id) as [t|] eqn:E0.
  { right. apply switch_In in E0 as (k & Hk & Hin). apply Z.eqb_eq in Hk. subst k.
    pose proof cases_type_id_encode as H. rewrite forallb_forall in H.
    apply (H _ Hin). }
  left. reflexivity.
Qed.

(** An NPC that parse_npc_data produced encodes, to a record with the
    type code it was decoded from. *)
Lemma parsed_npc_encodes (episode : Z) (npc_data : DatNpc.t) :
  exists dat_npc,
    npc_to_dat_data
      {| QuestNpc.type := get_npc_type episode npc_data;
         QuestNpc.area_id := DatNpc.area_id npc_data;
         QuestNpc.section_id := DatNpc.section_id npc_data;
         QuestNpc.position := DatNpc.position npc_data;
         QuestNpc.rotation := DatNpc.rotation npc_data;
         QuestNpc.scale := DatNpc.scale npc_data;
         QuestNpc.unknown := DatNpc.unknown npc_data;
         QuestNpc.pso_type_id := DatNpc.type_id npc_data;
         QuestNpc.npc_id := DatNpc.npc_id npc_data;
         QuestNpc.script_label := Js.Math_round (DatNpc.script_label npc_data);
         QuestNpc.roaming := DatNpc.roaming npc_data |}
    = Ok dat_npc
    /\ DatNpc.type_id dat_npc = DatNpc.type_id npc_data
    /\ DatNpc.section_id dat_npc = DatNpc.section_id npc_data
    /\ DatNpc.position dat_npc = DatNpc.position npc_data
    /\ DatNpc.rotation dat_npc = DatNpc.rotation npc_data
    /\ Vec3.x (DatNpc.scale dat_npc) = Vec3.x (DatNpc.scale npc_data)
    /\ Vec3.z (DatNpc.scale dat_npc) = Vec3.z (DatNpc.scale npc_data)
    /\ DatNpc.npc_id dat_npc = DatNpc.npc_id npc_data
    /\ DatNpc.script_label dat_npc = Js.Math_round (DatNpc.script_label npc_data)
    /\ DatNpc.area_id dat_npc = DatNpc.area_id npc_data
    /\ DatNpc.unknown dat_npc = DatNpc.unknown npc_data.
Proof.
  unfold npc_to_dat_data. cbn [QuestNpc.type].
  destruct (get_npc_type_encodes episode npc_data) as [->|H].
  - cbn [npc_type_to_dat_data rbind]. eexists. split; [reflexivity|].
    simpl. repeat split.
  - unfold entry_encodes in H.
    destruct (npc_type_to_dat_data (get_npc_type episode npc_data)) as [[td|]|];
      try discriminate H.
    apply Z.eqb_eq in H. cbn [rbind]. eexists. split; [reflexivity|].
    simpl. repeat split. exact H.
Qed.

(** *** The vertical scale and the roaming value that are written *)

Lemma testbit_to_uint32 (n i : Z) :
  0 <= i < 32 -> Z.testbit (Js.to_uint32 n) i = Z.testbit n i.
Proof.
  intros Hi. unfold Js.to_uint32. change Js.two32 with (2 ^ 32).
  apply Z.mod_pow2_bits_low. lia.
Qed.

Lemma testbit_to_int32 (n i : Z) :
  0 <= i < 32 -> Z.testbit (Js.to_int32 n) i = Z.testbit n i.
Proof.
  intros Hi. unfold Js.to_int32.
  destruct (Js.to_uint32 n <? Js.two31); [apply testbit_to_uint32, Hi|].
  rewrite <- (testbit_to_uint32 (Js.to_uint32 n - Js.two32)) by exact Hi.
  rewrite <- (testbit_to_uint32 n i) by exact Hi.
  f_equal. unfold Js.to_uint32. change Js.two32 with (2 ^ 32).
  rewrite <- (Z.mod_add _ 1) by lia.
  replace (n mod 2 ^ 32 - 2 ^ 32 + 1 * 2 ^ 32) with (n mod 2 ^ 32) by lia.
  apply Z.mod_mod. lia.
Qed.

(** set_regular_bit replaces bit 23 of the binary32 pattern of the scale
    by the negation of the regular flag and leaves the other bits. *)
Lemma set_regular_bit_pattern (scale_y : float) (regular : bool) :
  exists pattern' : Z,
    bit_23_set_to (negb regular) (Js.getUint32_of_setFloat32 scale_y) pattern'
    /\ set_regular_bit scale_y regular = Js.getFloat32_of_setUint32 pattern'.
Proof.
  unfold set_regular_bit.
  set (pattern := Js.getUint32_of_setFloat32 scale_y).
  eexists. split; [|reflexivity].
  assert (forall i, 0 <= i < 32 ->
            Z.testbit
              (Js.to_uint32
                 (Z.lor (Z.land (Js.to_int32 pattern) (Js.to_int32 (Z.lnot 0x800000)))
                    (if regular then 0 else 0x800000))) i
            = if i =? 23 then negb regular else Z.testbit pattern i) as Hbits.
  { intros i Hi. rewrite testbit_to_uint32, Z.lor_spec, Z.land_spec by exact Hi.
    rewrite !testbit_to_int32 by exact Hi. rewrite Z.lnot_spec by lia.
    change 0x800000 with (2 ^ 23). rewrite Z.pow2_bits_eqb by lia.
    assert (Z.testbit (if regular then 0 else 2 ^ 23) i = negb regular && (23 =? i))
      as ->.
    { destruct regular; [apply Z.bits_0|]. rewrite Z.pow2_bits_eqb by lia. reflexivity. }
    rewrite (Z.eqb_sym 23 i).
    destruct (i =? 23), regular, (Z.testbit pattern i); reflexivity. }
  split; [|split].
  - unfold Js.to_uint32. change Js.two32 with (2 ^ 32). apply Z.mod_pos_bound. lia.
  - rewrite Hbits by lia. reflexivity.
  - intros i Hi Hne. rewrite Hbits by exact Hi.
    destruct (Z.eqb_spec i 23); [contradiction|reflexivity].
Qed.

(** The roaming value and the vertical scale of the record that
    npc_to_dat_data writes. *)
Lemma npc_to_dat_data_rewrites (npc : QuestNpc.t) (dat_npc : DatNpc.t) :
  npc_to_dat_data npc = Ok dat_npc ->
  exists type_data : NpcTypeData,
    (npc_type_to_dat_data (QuestNpc.type npc) = Ok (Some type_data)
     \/ QuestNpc.type npc = Unknown
        /\ type_data = {| td_type_id := QuestNpc.pso_type_id npc;
                          td_roaming := QuestNpc.roaming npc;
                          td_regular := true |})
    /\ DatNpc.roaming dat_npc = td_roaming type_data
    /\ Vec3.y (DatNpc.scale dat_npc)
       = set_regular_bit (Vec3.y (QuestNpc.scale npc)) (td_regular type_data).
Proof.
  unfold npc_to_dat_data.
  destruct (npc_type_to_dat_data (QuestNpc.type npc)) as [[type_data|]|] eqn:E;
    cbn [rbind]; [| |discriminate].
  - intros [= <-]. exists type_data. cbn. auto.
  - intros [= <-]. eexists. split; [right; split; [|reflexivity]|cbn; auto].
    destruct (QuestNpc.type npc); try discriminate E; reflexivity.
Qed.

Lemma npcs_round_trip (episode : Z) (npcs : list DatNpc.t) :
  exists dat_npcs,
    npcs_to_dat_data (parse_npc_data episode npcs) = Ok dat_npcs
    /\ Forall2 npc_kept (parse_npc_data episode npcs) (parse_npc_data episode dat_npcs)
    /\ Forall2 npc_rewritten (parse_npc_data episode npcs)
         (parse_npc_data episode dat_npcs).
Proof.
  unfold npcs_to_dat_data. induction npcs as [|npc npcs IH].
  - exists []. split; [reflexivity|]. split; constructor.
  - destruct IH as (dat_npcs & Hrest & Hkept & Hrewritten).
    destruct (parsed_npc_encodes episode npc)
      as (dat_npc & Hnpc & Ht & Hs & Hp & Hr & Hx & Hz & Hi & Hl & Ha & Hu).
    exists (dat_npc :: dat_npcs). split; [|split].
    + cbn [parse_npc_data map map_result]. rewrite Hnpc. cbn [rbind].
      unfold parse_npc_data in Hrest. rewrite Hrest. reflexivity.
    + cbn [parse_npc_data map]. constructor; [|exact Hkept].
      unfold npc_kept. simpl. rewrite Ht, Hs, Hp, Hr, Hx, Hz, Hi, Hl, Ha, Hu.
      repeat split.
    + cbn [parse_npc_data map]. constructor; [|exact Hrewritten].
      destruct (npc_to_dat_data_rewrites _ _ Hnpc)
        as (type_data & Hentry & Hroaming & Hscale).
      exists type_data. split; [exact Hentry|].
      cbn [QuestNpc.roaming QuestNpc.scale]. split; [exact Hroaming|].
      rewrite Hscale. cbn [QuestNpc.scale]. apply set_regular_bit_pattern.
Qed.

(** ** The names of the files of a written quest *)

Lemma trim_end_app (s suffix : string) :
  suffix <> EmptyString -> Str.trim_end suffix = suffix ->
  Str.trim_end (s +:+ suffix) = s +:+ suffix.
Proof.
  intros Hne Hsuffix. induction s as [|c s IH]; [exact Hsuffix|].
  change (String c s +:+ suffix) with (String c (s +:+ suffix)).
  cbn [Str.trim_end]. rewrite IH. destruct (s +:+ suffix) eqn:E; [|reflexivity].
  destruct s; simpl in E; [contradiction|discriminate].
Qed.

Lemma trim_start_app (s suffix : string) :
  Str.trim_start suffix = suffix ->
  exists s', Str.trim_start (s +:+ suffix) = s' +:+ suffix.
Proof.
  intros Hsuffix. induction s as [|c s IH]; simpl.
  - exists EmptyString. exact Hsuffix.
  - destruct (Str.is_white c); [exact IH|].
    exists (String c s). reflexivity.
Qed.

Lemma toLowerCase_app (s t : string) :
  Str.toLowerCase (s +:+ t) = Str.toLowerCase s +:+ Str.toLowerCase t.
Proof. induction s as [|c s IH]; simpl; [reflexivity|]. rewrite IH. reflexivity. Qed.

Lemma substring_all (s : string) : String.substring 0 (String.length s) s = s.
Proof. induction s as [|c s IH]; simpl; [reflexivity|]. rewrite IH. reflexivity. Qed.

Lemma substring_suffix (s t : string) :
  String.substring (String.length s) (String.length t) (s +:+ t) = t.
Proof. induction s as [|c s IH]; simpl; [apply substring_all|exact IH]. Qed.

Lemma length_append (s t : string) :
  String.length (s +:+ t) = (String.length s + String.length t)%nat.
Proof. induction s as [|c s IH]; simpl; [reflexivity|]. rewrite IH. reflexivity. Qed.

Lemma endsWith_app (s suffix suffix' : string) :
  String.length suffix = String.length suffix' ->
  Str.endsWith (s +:+ suffix) suffix' = String.eqb suffix suffix'.
Proof.
  intros Hlen. unfold Str.endsWith. rewrite length_append, <- Hlen.
  replace (String.length s + String.length suffix - String.length suffix)%nat
    with (String.length s) by lia.
  rewrite substring_suffix.
  destruct (Nat.leb_spec (String.length suffix) (String.length s + String.length suffix));
    [reflexivity|lia].
Qed.

(** The trimmed, lower-cased name of a written file ends in the extension
    it was given. *)
Lemma written_name_endsWith (base extension extension' : string) :
  extension <> EmptyString ->
  Str.trim_end extension = extension ->
  Str.trim_start extension = extension ->
  Str.toLowerCase extension = extension ->
  String.length extension = String.length extension' ->
  Str.endsWith (Str.toLowerCase (Str.trim (base +:+ extension))) extension'
  = String.eqb extension extension'.
Proof.
  intros Hne Hend Hstart Hlower Hlen. unfold Str.trim.
  destruct (trim_start_app base extension Hstart) as (base' & ->).
  rewrite trim_end_app by assumption.
  rewrite toLowerCase_app, Hlower. apply endsWith_app, Hlen.
Qed.

Lemma find_written_files {Payload : Type} (base : string) (id : option Z)
    (dat bin : Payload) :
  let dat_file := {| QstContainedFile.name := base +:+ ".dat";
                     QstContainedFile.id := id;
                     QstContainedFile.data := dat |} in
  let bin_file := {| QstContainedFile.name := base +:+ ".bin";
                     QstContainedFile.id := id;
                     QstContainedFile.data := bin |} in
  find_dat_and_bin [dat_file; bin_file] = (Some dat_file, Some bin_file).
Proof.
  intros dat_file bin_file. unfold find_dat_and_bin, dat_file, bin_file.
  cbn [fold_left QstContainedFile.name].
  rewrite (written_name_endsWith base ".dat" ".dat") by (reflexivity || discriminate).
  replace (String.eqb ".dat" ".dat") with true by reflexivity.
  cbv beta iota. cbn [QstContainedFile.name].
  rewrite (written_name_endsWith base ".bin" ".dat") by (reflexivity || discriminate).
  replace (String.eqb ".bin" ".dat") with false by reflexivity. cbv beta iota.
  rewrite (written_name_endsWith base ".bin" ".bin") by (reflexivity || discriminate).
  reflexivity.
Qed.

(** ** The round trip of a quest *)

Lemma parse_quest_inv {Archive Payload : Type} (C : Collaborators Archive Payload)
    (cursor : Archive) (lenient : bool) (quest : Quest.t) (log : Log) :
  parse_quest C cursor lenient = Ok (Some quest, log) ->
  exists dat : DatFile.t,
    Quest.objects quest = parse_obj_data C (DatFile.objs dat)
    /\ Quest.npcs quest
       = parse_npc_data (Episode.number (Quest.episode quest)) (DatFile.npcs dat)
    /\ Quest.dat_unknowns quest = DatFile.unknowns dat
    /\ extract_episode_and_map_designations (Quest.object_code quest)
       = Ok (Quest.episode quest, Quest.map_designations quest, log).
Proof.
  unfold parse_quest. destruct (parse_qst C cursor) as [files|]; [|discriminate].
  destruct (find_dat_and_bin files) as [[dat_file|] [bin_file|]]; try discriminate.
  destruct (parse_bin C _ _ lenient) as [bin|]; [|discriminate]. cbn [rbind].
  destruct (extract_episode_and_map_designations (BinFile.object_code bin))
    as [[[episode map_designations] log']|] eqn:E; [|discriminate].
  cbn [rbind]. intros [= <- <-].
  exists (parse_dat C (prs_decompress C (QstContainedFile.data dat_file))).
  cbn [Quest.objects Quest.npcs Quest.dat_unknowns Quest.object_code Quest.episode
       Quest.map_designations].
  auto.
Qed.

(** C1, as the code has it: when the collaborators lose nothing, a quest
    that parse_quest produced is written by write_quest_qst and parsed
    again to a quest with the same objects, unknown DAT records, bytecode
    segments, episode and map designations (and header fields); its NPCs
    correspond one to one and keep every field except type, scale.y and
    roaming, the script label being rounded once more.  The roaming value
    that comes back is that of the table entry of the NPC's type (the
    NPC's own for the type Unknown), and the scale.y that comes back is
    the binary32 number whose pattern is that of the NPC's scale.y with
    bit 23 cleared when the regular flag of the entry is true and set
    when it is false. *)
Theorem quest_round_trip {Archive Payload : Type} (C : Collaborators Archive Payload)
    (cursor : Archive) (lenient lenient' : bool) (quest : Quest.t) (log : Log)
    (file_name : string) :
  parse_quest C cursor lenient = Ok (Some quest, log) ->
  object_types_kept C quest ->
  transports C quest file_name lenient' ->
  exists archive quest',
    write_quest_qst C quest file_name = Ok archive
    /\ parse_quest C archive lenient' = Ok (Some quest', log)
    /\ Quest.objects quest' = Quest.objects quest
    /\ Quest.dat_unknowns quest' = Quest.dat_unknowns quest
    /\ Quest.object_code quest' = Quest.object_code quest
    /\ Quest.episode quest' = Quest.episode quest
    /\ Quest.map_designations quest' = Quest.map_designations quest
    /\ Quest.id quest' = Quest.id quest
    /\ Quest.language quest' = Quest.language quest
    /\ Quest.name quest' = Quest.name quest
    /\ Quest.short_description quest' = Quest.short_description quest
    /\ Quest.long_description quest' = Quest.long_description quest
    /\ Quest.shop_items quest' = Quest.shop_items quest
    /\ Forall2 npc_kept (Quest.npcs quest) (Quest.npcs quest')
    /\ Forall2 npc_rewritten (Quest.npcs quest) (Quest.npcs quest').
Proof.
  intros Hparse Htypes Htransports.
  destruct (parse_quest_inv C cursor lenient quest log Hparse)
    as (dat & Hobjects & Hnpcs & Hunknowns & Hepisode).
  destruct (npcs_round_trip (Episode.number (Quest.episode quest)) (DatFile.npcs dat))
    as (dat_npcs & Hencode & Hkept & Hrewritten).
  rewrite <- Hnpcs in Hencode, Hkept, Hrewritten.
  set (dat_file := {| DatFile.objs := objects_to_dat_data C (Quest.objects quest);
                      DatFile.npcs := dat_npcs;
                      DatFile.unknowns := Quest.dat_unknowns quest |}).
  assert (quest_dat_file C quest = Ok dat_file) as Hdat_file
    by (unfold quest_dat_file; rewrite Hencode; reflexivity).
  destruct (Htransports dat_file Hdat_file) as ((archive & Hwrite & Hread) & Hdat & Hbin).
  exists archive.
  assert (parse_obj_data C (DatFile.objs dat_file) = Quest.objects quest) as Hobjects'.
  { subst dat_file. cbn [DatFile.objs]. rewrite Hobjects.
    apply objects_round_trip. unfold object_types_kept in Htypes.
    rewrite Hobjects in Htypes. exact Htypes. }
  eexists. split.
  { unfold write_quest_qst. rewrite Hdat_file. cbn [rbind]. exact Hwrite. }
  split.
  { unfold parse_quest. rewrite Hread. unfold qst_files.
    rewrite find_written_files. cbn [QstContainedFile.data].
    rewrite Hdat, Hbin. cbn [rbind].
    unfold quest_bin_file at 1. cbn [BinFile.object_code].
    rewrite Hepisode. cbn [rbind]. reflexivity. }
  cbn [Quest.objects Quest.npcs Quest.dat_unknowns Quest.object_code Quest.episode
       Quest.map_designations Quest.id Quest.language Quest.name
       Quest.short_description Quest.long_description Quest.shop_items
       quest_bin_file BinFile.quest_id BinFile.language BinFile.quest_name
       BinFile.short_description BinFile.long_description BinFile.object_code
       BinFile.shop_items].
  rewrite Hobjects'.
  subst dat_file. cbn [DatFile.npcs DatFile.unknowns].
  repeat (split; [reflexivity|]).
  split; [exact Hkept|exact Hrewritten].
Qed.

Lemma quest_round_trip_witness :
  exists quest log archive quest',
    parse_quest Examples.transparent Examples.archive_with_npcs false = Ok (Some quest, log)
    /\ write_quest_qst Examples.transparent quest "quest.qst" = Ok archive
    /\ parse_quest Examples.transparent archive false = Ok (Some quest', log)
    /\ Quest.objects quest' = Quest.objects quest
    /\ Quest.dat_unknowns quest' = Quest.dat_unknowns quest
    /\ Quest.object_code quest' = Quest.object_code quest
    /\ Quest.episode quest' = Quest.episode quest
    /\ Quest.map_designations quest' = Quest.map_designations quest
    /\ Forall2 npc_kept (Quest.npcs quest) (Quest.npcs quest')
    /\ Forall2 npc_rewritten (Quest.npcs quest) (Quest.npcs quest').
Proof.
  eexists _, _.
  assert (parse_quest Examples.transparent Examples.archive_with_npcs false
          = Ok (Some _, _)) as Hparse by reflexivity.
  destruct (quest_round_trip Examples.transparent Examples.archive_with_npcs false false
              _ _ "quest.qst" Hparse)
    as (archive & quest' & Hwrite & Hread & Ho & Hu & Hc & He & Hm & _ & _ & _ & _ & _ & _
        & Hkept & Hrewritten).
  - unfold object_types_kept. simpl. repeat constructor.
  - intros dat_file Hdat_file. injection Hdat_file as <-.
    split; [eexists; split; reflexivity|]. split; reflexivity.
  - exists archive, quest'. repeat (split; [eassumption|]). exact Hrewritten.
Defined.

(** C1, as the spec states it, fails: with collaborators that lose
    nothing, the quest decoded from an archive with a Booma, a Gobooma
    with roaming value 4 and a lily with scale.y = 1 comes back from the
    round trip with other NPCs: the vertical scales are 0.5 instead of 1,
    the roaming value 4 is 1, and the NarLily is a PoisonLily. *)
Lemma quest_round_trip_counterexample :
  exists quest log archive quest' log',
    parse_quest Examples.transparent Examples.archive_with_npcs false = Ok (Some quest, log)
    /\ write_quest_qst Examples.transparent quest "quest.qst" = Ok archive
    /\ parse_quest Examples.transparent archive false = Ok (Some quest', log')
    /\ Quest.npcs quest' <> Quest.npcs quest
    /\ map QuestNpc.type (Quest.npcs quest) = [Booma; Gobooma; NarLily]
    /\ map QuestNpc.type (Quest.npcs quest') = [Booma; Gobooma; PoisonLily]
    /\ map QuestNpc.roaming (Quest.npcs quest) = [0; 4; 0]
    /\ map QuestNpc.roaming (Quest.npcs quest') = [0; 1; 1]
    /\ map (fun npc => Vec3.y (QuestNpc.scale npc)) (Quest.npcs quest) = [1; 1; 1]%float
    /\ map (fun npc => Vec3.y (QuestNpc.scale npc)) (Quest.npcs quest')
       = [0.5; 0.5; 0.5]%float.
Proof.
  eexists _, _, _, _, _.
  split; [reflexivity|]. split; [reflexivity|]. split; [reflexivity|].
  split.
  - intros H. apply (f_equal (map QuestNpc.type)) in H. vm_compute in H. discriminate H.
  - repeat split; vm_compute; reflexivity.
Qed.

(** ** Decoded NPCs are encodable *)

(** Every NPC list that parse_npc_data produces is encoded by
    npcs_to_dat_data without an exception: get_npc_type returns no type
    that npc_type_to_dat_data has no case for.  The records come back one
    for one with the type code they were decoded from and with their
    section, position, rotation, scale.x, scale.z, npc id, area and
    unknown data; the script label is rounded. *)
Theorem decoded_npcs_encode (episode : Z) (npcs : list DatNpc.t) :
  exists dat_npcs,
    npcs_to_dat_data (parse_npc_data episode npcs) = Ok dat_npcs
    /\ Forall2 record_kept npcs dat_npcs.
Proof.
  unfold npcs_to_dat_data. induction npcs as [|npc npcs IH].
  - exists []. split; [reflexivity|constructor].
  - destruct IH as (dat_npcs & Hrest & Hkept).
    destruct (parsed_npc_encodes episode npc) as (dat_npc & Hnpc & Hfields).
    exists (dat_npc :: dat_npcs). split.
    + cbn [parse_npc_data map map_result]. rewrite Hnpc. cbn [rbind].
      unfold parse_npc_data in Hrest. rewrite Hrest. reflexivity.
    + constructor; [exact Hfields|exact Hkept].
Qed.

(** ** The type of an NPC that is encoded and decoded again *)

(** get_npc_type reads the type code, the roaming value modulo 3 and
    modulo 2, the side of area 15 and the outcome of the scale test, and
    nothing else of a record. *)
Lemma get_npc_type_keys (episode : Z) (npc npc' : DatNpc.t) :
  DatNpc.type_id npc = DatNpc.type_id npc' ->
  DatNpc.roaming npc = DatNpc.roaming npc' ->
  (15 <? DatNpc.area_id npc) = (15 <? DatNpc.area_id npc') ->
  scale_y_regular (Vec3.y (DatNpc.scale npc))
  = scale_y_regular (Vec3.y (DatNpc.scale npc')) ->
  get_npc_type episode npc = get_npc_type episode npc'.
Proof.
  intros Htype Hroaming Harea Hscale. unfold get_npc_type.
  rewrite Htype, Hroaming, Hscale.
  replace (cases_roaming_2 (DatNpc.area_id npc)) with (cases_roaming_2 (DatNpc.area_id npc'))
    by (unfold cases_roaming_2; rewrite Harea; reflexivity).
  replace (cases_episode (DatNpc.area_id npc)) with (cases_episode (DatNpc.area_id npc'))
    by (unfold cases_episode; rewrite Harea; reflexivity).
  reflexivity.
Qed.

Lemma switch_keys {K V : Type} (eqb : K -> K -> bool) (k : K) (cases cases' : list (K * V)) :
  map fst cases = map fst cases' ->
  switch eqb k cases = None -> switch eqb k cases' = None.
Proof.
  revert cases'. induction cases as [|[k1 v1] cases IH]; intros [|[k2 v2] cases'];
    simpl; try discriminate; [reflexivity|].
  intros [= <- Hkeys]. destruct (eqb k k1); [discriminate|]. apply IH, Hkeys.
Qed.

Ltac solve_stays :=
  first [ left; reflexivity
        | right; left; reflexivity
        | right; right; eexists; split; [reflexivity|vm_compute; reflexivity] ].

Lemma cases_roaming_3_stay (far : bool) :
  Forall (fun entry => stays (snd (fst entry)) far (snd entry)) cases_roaming_3.
Proof.
  destruct far; unfold cases_roaming_3;
    repeat (constructor; [solve_stays|]); constructor.
Qed.

Lemma cases_roaming_2_stay (far regular : bool) :
  Forall (fun entry => stays (snd (fst entry)) far (snd entry))
    (cases_roaming_2 (if far then 16 else 0) regular).
Proof.
  destruct far, regular; unfold cases_roaming_2;
    repeat (constructor; [solve_stays|]); constructor.
Qed.

Lemma cases_episode_stay (far regular : bool) :
  Forall (fun entry => stays (snd (fst entry)) far (snd entry))
    (cases_episode (if far then 16 else 0) regular).
Proof.
  destruct far, regular; unfold cases_episode;
    repeat (constructor; [solve_stays|]); constructor.
Qed.

Lemma cases_type_id_stay (episode : Z) (far : bool) :
  Forall (fun entry => stays episode far (snd entry)) cases_type_id.
Proof.
  destruct far; unfold cases_type_id;
    repeat (constructor; [solve_stays|]); constructor.
Qed.

Lemma scale_test_of_flag (regular : bool) :
  scale_y_regular (if regular then 0.5%float else 1%float) = regular.
Proof. destruct regular; vm_compute; reflexivity. Qed.

Lemma cases_roaming_2_far (area_id : Z) (regular : bool) :
  cases_roaming_2 area_id regular
  = cases_roaming_2 (if 15 <? area_id then 16 else 0) regular.
Proof. unfold cases_roaming_2. destruct (15 <? area_id); reflexivity. Qed.

Lemma cases_episode_far (area_id : Z) (regular : bool) :
  cases_episode area_id regular
  = cases_episode (if 15 <? area_id then 16 else 0) regular.
Proof. unfold cases_episode. destruct (15 <? area_id); reflexivity. Qed.

Lemma cases_roaming_2_keys (area_id area_id' : Z) (regular regular' : bool) :
  map fst (cases_roaming_2 area_id regular) = map fst (cases_roaming_2 area_id' regular').
Proof. reflexivity. Qed.

Lemma cases_episode_keys (area_id area_id' : Z) (regular regular' : bool) :
  map fst (cases_episode area_id regular) = map fst (cases_episode area_id' regular').
Proof. reflexivity. Qed.

(** Either no case of get_npc_type matches the record, or the type it
    returns stays. *)
Lemma get_npc_type_stays (episode : Z) (npc : DatNpc.t) :
  let regular := scale_y_regular (Vec3.y (DatNpc.scale npc)) in
  (switch key3_eqb (DatNpc.type_id npc, Z.rem (DatNpc.roaming npc) 3, episode)
     cases_roaming_3 = None
   /\ switch key3_eqb (DatNpc.type_id npc, Z.rem (DatNpc.roaming npc) 2, episode)
        (cases_roaming_2 (DatNpc.area_id npc) regular) = None
   /\ switch key2_eqb (DatNpc.type_id npc, episode)
        (cases_episode (DatNpc.area_id npc) regular) = None
   /\ switch Z.eqb (DatNpc.type_id npc) cases_type_id = None
   /\ get_npc_type episode npc = Unknown)
  \/ stays episode (15 <? DatNpc.area_id npc) (get_npc_type episode npc).
Proof.
  intros regular. unfold get_npc_type. fold regular.
  destruct (switch key3_eqb _ cases_roaming_3) as [t|] eqn:E3.
  { right. apply switch_In in E3 as (k & Hk & Hin). apply key3_eqb_eq in Hk. subst k.
    pose proof (cases_roaming_3_stay (15 <? DatNpc.area_id npc)) as H.
    rewrite List.Forall_forall in H. apply (H _ Hin). }
  destruct (switch key3_eqb _ (cases_roaming_2 _ _)) as [t|] eqn:E2.
  { right. rewrite cases_roaming_2_far in E2.
    apply switch_In in E2 as (k & Hk & Hin). apply key3_eqb_eq in Hk. subst k.
    pose proof (cases_roaming_2_stay (15 <? DatNpc.area_id npc) regular) as H.
    rewrite List.Forall_forall in H. apply (H _ Hin). }
  destruct (switch key2_eqb _ (cases_episode _ _)) as [t|] eqn:E1.
  { right. rewrite cases_episode_far in E1.
    apply switch_In in E1 as (k & Hk & Hin). apply key2_eqb_eq in Hk. subst k.
    pose proof (cases_episode_stay (15 <? DatNpc.area_id npc) regular) as H.
    rewrite List.Forall_forall in H. apply (H _ Hin). }
  destruct (switch Z.eqb _ cases_type_id) as [t|] eqn:E0.
  { right. apply switch_In in E0 as (k & Hk & Hin).
    pose proof (cases_type_id_stay episode (15 <? DatNpc.area_id npc)) as H.
    rewrite List.Forall_forall in H. apply (H _ Hin). }
  left. auto.
Qed.

(** An NPC that is decoded, encoded and decoded again has the type it had
    after the first decoding, unless that type is NarLily or NarLily2,
    provided get_npc_type reads the vertical scale that was written as
    the regular flag that was encoded (as it does for a record with
    scale.y = 1). *)
Theorem decoded_type_survives (episode : Z) (npc dat_npc : DatNpc.t) :
  let type := get_npc_type episode npc in
  type <> NarLily -> type <> NarLily2 ->
  npcs_to_dat_data (parse_npc_data episode [npc]) = Ok [dat_npc] ->
  scale_y_regular (Vec3.y (DatNpc.scale dat_npc)) = encoded_regular type ->
  get_npc_type episode dat_npc = type.
Proof.
  intros type Hnar Hnar2 Hencode Hscale.
  unfold npcs_to_dat_data in Hencode.
  cbn [parse_npc_data map map_result] in Hencode. fold type in Hencode.
  unfold npc_to_dat_data, encoded_regular in *.
  cbn [QuestNpc.type QuestNpc.pso_type_id QuestNpc.roaming QuestNpc.scale
       QuestNpc.section_id QuestNpc.position QuestNpc.rotation QuestNpc.npc_id
       QuestNpc.script_label QuestNpc.area_id QuestNpc.unknown] in Hencode.
  destruct (get_npc_type_stays episode npc)
    as [(H3 & H2 & H1 & H0 & Hunknown)|[H|[H|(type_data & Htype_data & Hdecode)]]];
    try contradiction.
  - fold type in Hunknown. rewrite Hunknown in *.
    cbn [npc_type_to_dat_data rbind td_regular td_type_id td_roaming] in Hencode, Hscale.
    injection Hencode as <-. unfold get_npc_type.
    cbn [DatNpc.type_id DatNpc.roaming DatNpc.area_id DatNpc.scale Vec3.y] in *.
    rewrite H3.
    rewrite (switch_keys _ _ _ _ (cases_roaming_2_keys _ _ _ _) H2).
    rewrite (switch_keys _ _ _ _ (cases_episode_keys _ _ _ _) H1).
    rewrite H0. reflexivity.
  - fold type in Htype_data, Hdecode. rewrite Htype_data in *.
    cbn [rbind] in Hencode. injection Hencode as <-.
    etransitivity; [|exact Hdecode]. apply get_npc_type_keys.
    + reflexivity.
    + reflexivity.
    + unfold encoded_record, Examples.dat_npc. cbn [DatNpc.area_id].
      destruct (15 <? DatNpc.area_id npc); reflexivity.
    + cbn [DatNpc.scale Vec3.y] in Hscale.
      unfold encoded_record, Examples.dat_npc. cbn [DatNpc.scale Vec3.y].
      rewrite scale_test_of_flag. exact Hscale.
Qed.

Lemma decoded_type_survives_witness :
  exists dat_npc,
    npcs_to_dat_data (parse_npc_data 1 [Examples.dat_npc 0x043 0 1 1%float]) = Ok [dat_npc]
    /\ get_npc_type 1 (Examples.dat_npc 0x043 0 1 1%float) = BarbarousWolf
    /\ get_npc_type 1 dat_npc = BarbarousWolf.
Proof.
  eexists. split; [reflexivity|]. split; [reflexivity|].
  apply (decoded_type_survives 1 (Examples.dat_npc 0x043 0 1 1%float));
    [discriminate|discriminate|reflexivity|vm_compute; reflexivity].
Defined.

(** ** Episode and map designations of the object code *)

(** get_episode reads the first SET_EPISODE instruction of function 0 and
    no other: its first argument 1 gives Episode II, 2 gives Episode IV,
    and any other value gives Episode I; nothing is logged. *)
Theorem get_episode_reads_first (before after : list Instruction.t)
    (set_episode : Instruction.t) (arg : Arg.t) (args : list Arg.t) :
  Forall (fun inst => Instruction.opcode inst <> SET_EPISODE) before ->
  Instruction.opcode set_episode = SET_EPISODE ->
  Instruction.args set_episode = arg :: args ->
  get_episode (before ++ set_episode :: after)
  = Ok (match Arg.value arg with
        | 1 => Episode.II
        | 2 => Episode.IV
        | _ => Episode.I
        end, []).
Proof.
  intros Hbefore Hopcode Hargs. unfold get_episode.
  assert (List.find (fun instruction => Opcode_eqb (Instruction.opcode instruction) SET_EPISODE)
            (before ++ set_episode :: after) = Some set_episode) as ->.
  { induction Hbefore as [|inst before Hinst _ IH]; simpl.
    - rewrite Hopcode. reflexivity.
    - destruct (Opcode_eqb (Instruction.opcode inst) SET_EPISODE) eqn:E; [|exact IH].
      apply Opcode_eqb_eq in E. contradiction. }
  unfold arg_value. rewrite Hargs. cbn [nth_error rbind].
  destruct (Arg.value arg) as [|[p|p|]|p]; try reflexivity;
    destruct p; reflexivity.
Qed.

Lemma get_episode_reads_first_witness :
  get_episode
    [ Examples.ret;
      {| Instruction.opcode := SET_EPISODE;
         Instruction.args := [{| Arg.value := 2; Arg.size := 4 |}] |};
      {| Instruction.opcode := SET_EPISODE;
         Instruction.args := [{| Arg.value := 1; Arg.size := 4 |}] |} ]
  = Ok (Episode.IV, []).
Proof.
  apply (get_episode_reads_first [Examples.ret] _ _ {| Arg.value := 2; Arg.size := 4 |} []).
  - repeat constructor. discriminate.
  - reflexivity.
  - reflexivity.
Defined.

Lemma extract_map_designations_loop_app (insts insts' : list Instruction.t)
    (m : gmap Z Z) :
  extract_map_designations_loop (insts ++ insts') m
  = rbind (extract_map_designations_loop insts m)
      (fun m' => extract_map_designations_loop insts' m').
Proof.
  revert m. induction insts as [|inst insts IH]; intros m; simpl; [reflexivity|].
  destruct (Opcode_eqb (Instruction.opcode inst) BB_MAP_DESIGNATE); [|apply IH].
  destruct (arg_value inst 0); [|reflexivity]. cbn [rbind].
  destruct (arg_value inst 2); [|reflexivity]. cbn [rbind]. apply IH.
Qed.

Lemma extract_map_designations_loop_other (insts : list Instruction.t)
    (m m' : gmap Z Z) (area_id : Z) :
  Forall (designates_other area_id) insts ->
  extract_map_designations_loop insts m = Ok m' ->
  m' !! area_id = m !! area_id.
Proof.
  revert m. induction insts as [|inst insts IH]; intros m Hother; simpl.
  - intros [= <-]. reflexivity.
  - inversion Hother as [|? ? Hinst Hrest]; subst.
    destruct (Opcode_eqb (Instruction.opcode inst) BB_MAP_DESIGNATE) eqn:E;
      [|apply IH, Hrest].
    apply Opcode_eqb_eq in E. specialize (Hinst E).
    destruct (arg_value inst 0) as [k|]; [|discriminate]. cbn [rbind].
    destruct (arg_value inst 2) as [v|]; [|discriminate]. cbn [rbind].
    intros Hloop. rewrite (IH _ Hrest Hloop).
    apply lookup_insert_ne. congruence.
Qed.

(** extract_map_designations, on instructions whose BB_MAP_DESIGNATE have
    their arguments, gives a map in which an area that no instruction
    designates has no entry, and an area has the variation (the third
    argument) of the last instruction that designates it (by its first
    argument): a later designation replaces an earlier one. *)
Theorem map_designations_last_wins (insts : list Instruction.t) :
  Forall (fun inst => Instruction.opcode inst = BB_MAP_DESIGNATE ->
                      (3 <= length (Instruction.args inst))%nat) insts ->
  exists map_designations,
    extract_map_designations insts = Ok map_designations
    /\ (forall area_id : Z,
          Forall (designates_other area_id) insts ->
          map_designations !! area_id = None)
    /\ (forall (before after : list Instruction.t) (inst : Instruction.t)
               (area_id variation : Z),
          insts = before ++ inst :: after ->
          Instruction.opcode inst = BB_MAP_DESIGNATE ->
          arg_value inst 0 = Ok area_id ->
          arg_value inst 2 = Ok variation ->
          Forall (designates_other area_id) after ->
          map_designations !! area_id = Some variation).
Proof.
  intros Hwf. unfold extract_map_designations.
  destruct (extract_map_designations_loop_ok insts ∅ Hwf) as (m & Hloop).
  exists m. split; [exact Hloop|]. split.
  - intros area_id Hother.
    rewrite (extract_map_designations_loop_other insts ∅ m area_id Hother Hloop).
    apply lookup_empty.
  - intros before after inst area_id variation -> Hopcode Harea Hvariation Hother.
    rewrite extract_map_designations_loop_app in Hloop.
    destruct (extract_map_designations_loop before ∅) as [m1|]; [|discriminate].
    cbn [rbind extract_map_designations_loop] in Hloop.
    rewrite Hopcode in Hloop. cbn [Opcode_eqb] in Hloop.
    rewrite Harea, Hvariation in Hloop. cbn [rbind] in Hloop.
    rewrite (extract_map_designations_loop_other after _ m area_id Hother Hloop).
    apply lookup_insert_eq.
Qed.

Lemma map_designations_last_wins_witness :
  exists map_designations,
    extract_map_designations
      [ {| Instruction.opcode := BB_MAP_DESIGNATE;
           Instruction.args := map (fun v => {| Arg.value := v; Arg.size := 1 |}) [1; 2; 3; 4] |};
        {| Instruction.opcode := BB_MAP_DESIGNATE;
           Instruction.args := map (fun v => {| Arg.value := v; Arg.size := 1 |}) [1; 2; 5; 4] |};
        Examples.ret ]
    = Ok map_designations
    /\ map_designations !! 1 = Some 5
    /\ map_designations !! 2 = None.
Proof.
  destruct (map_designations_last_wins
              [ {| Instruction.opcode := BB_MAP_DESIGNATE;
                   Instruction.args :=
                     map (fun v => {| Arg.value := v; Arg.size := 1 |}) [1; 2; 3; 4] |};
                {| Instruction.opcode := BB_MAP_DESIGNATE;
                   Instruction.args :=
                     map (fun v => {| Arg.value := v; Arg.size := 1 |}) [1; 2; 5; 4] |};
                Examples.ret ])
    as (m & Hm & Hnone & Hlast).
  - repeat (constructor; [intros H; first [discriminate H|simpl; lia]|]). constructor.
  - exists m. split; [exact Hm|]. split.
    + apply (Hlast [_] [Examples.ret] _ 1 5 eq_refl eq_refl eq_refl eq_refl).
      repeat (constructor; [intros H; discriminate H|]). constructor.
    + apply Hnone.
      repeat (constructor; [intros H; first [discriminate H|simpl; discriminate]|]).
      constructor.
Defined.

(** ** Script entry points *)

Lemma same_value_zero_refl (x : float) : Js.same_value_zero x x = true.
Proof.
  unfold Js.same_value_zero, PrimFloat.is_nan.
  destruct (PrimFloat.eqb x x); reflexivity.
Qed.

Lemma set_add_has (s : list float) (v : float) : set_has (set_add s v) v = true.
Proof.
  unfold set_has, set_add. destruct (existsb (Js.same_value_zero v) s) eqn:E; [exact E|].
  rewrite existsb_app, E. cbn [existsb orb]. rewrite same_value_zero_refl. reflexivity.
Qed.

Lemma set_add_keeps (s : list float) (v w : float) :
  set_has s w = true -> set_has (set_add s v) w = true.
Proof.
  unfold set_has, set_add. intros H.
  destruct (existsb (Js.same_value_zero v) s); [exact H|].
  rewrite existsb_app, H. reflexivity.
Qed.

Lemma set_add_hd (s : list float) (v x : float) :
  hd_error s = Some x -> hd_error (set_add s v) = Some x.
Proof.
  unfold set_add. destruct (existsb (Js.same_value_zero v) s); [auto|].
  destruct s; [discriminate|auto].
Qed.

Lemma set_add_no_duplicates (s : list float) (v : float) :
  no_duplicates s -> no_duplicates (set_add s v).
Proof.
  unfold set_add. intros Hs.
  destruct (existsb (Js.same_value_zero v) s) eqn:E; [exact Hs|].
  intros i j x y Hlt Hi Hj.
  destruct (Nat.lt_ge_cases j (length s)) as [Hj'|Hj'].
  - rewrite lookup_app_l in Hi, Hj by lia. exact (Hs i j x y Hlt Hi Hj).
  - rewrite lookup_app_r in Hj by lia.
    destruct (j - length s)%nat eqn:Ej; [|destruct n; discriminate Hj].
    injection Hj as <-. rewrite lookup_app_l in Hi by lia.
    assert (In x s) as Hin by (apply list_elem_of_In, (list_elem_of_lookup_2 s i x Hi)).
    destruct (Js.same_value_zero v x) eqn:Ex; [|reflexivity].
    rewrite <- E. symmetry. apply existsb_exists. exists x. auto.
Qed.

Lemma extract_script_entry_points_loops (objects : list QuestObject.t)
    (npcs : list DatNpc.t) :
  extract_script_entry_points objects npcs
  = fold_left add_npc_entry_point npcs (fold_left add_object_entry_points objects [0%float]).
Proof. reflexivity. Qed.

Section entry_points_keep.
Variable P : list float -> Prop.
Hypothesis Hadd : forall s v, P s -> P (set_add s v).

Lemma add_object_entry_points_keep (s : list float) (obj : QuestObject.t) :
  P s -> P (add_object_entry_points s obj).
Proof.
  intros Hs. unfold add_object_entry_points.
  destruct (JsMap.get (QuestObject.properties obj) "script_label"),
           (JsMap.get (QuestObject.properties obj) "script_label_2"); auto.
Qed.

Lemma objects_entry_points_keep (objects : list QuestObject.t) (s : list float) :
  P s -> P (fold_left add_object_entry_points objects s).
Proof.
  revert s. induction objects as [|obj objects IH]; intros s Hs; simpl; [exact Hs|].
  apply IH, add_object_entry_points_keep, Hs.
Qed.

Lemma npcs_entry_points_keep (npcs : list DatNpc.t) (s : list float) :
  P s -> P (fold_left add_npc_entry_point npcs s).
Proof.
  revert s. induction npcs as [|npc npcs IH]; intros s Hs; simpl; [exact Hs|].
  apply IH, Hadd, Hs.
Qed.
End entry_points_keep.

(** extract_script_entry_points gives a list that starts with label 0,
    holds no value twice, and has the script_label and script_label_2
    properties of every object and the rounded script label of every
    NPC. *)
Theorem script_entry_points_complete (objects : list QuestObject.t)
    (npcs : list DatNpc.t) :
  let entry_points := extract_script_entry_points objects npcs in
  hd_error entry_points = Some 0%float
  /\ no_duplicates entry_points
  /\ (forall (object : QuestObject.t) (key : string) (label : float),
        In object objects ->
        key = "script_label" \/ key = "script_label_2" ->
        JsMap.get (QuestObject.properties object) key = Some label ->
        set_has entry_points label = true)
  /\ (forall npc : DatNpc.t,
        In npc npcs ->
        set_has entry_points (Js.Math_round (DatNpc.script_label npc)) = true).
Proof.
  intros entry_points. subst entry_points.
  rewrite extract_script_entry_points_loops.
  split; [|split; [|split]].
  - apply npcs_entry_points_keep; [intros s v; apply set_add_hd|].
    apply objects_entry_points_keep; [intros s v; apply set_add_hd|]. reflexivity.
  - apply npcs_entry_points_keep; [apply set_add_no_duplicates|].
    apply objects_entry_points_keep; [apply set_add_no_duplicates|].
    intros [|i] [|j] x y Hlt Hi Hj; try lia; discriminate Hj.
  - intros object key label Hin Hkey Hget.
    apply npcs_entry_points_keep; [intros s v; apply set_add_keeps|].
    apply in_split in Hin as (before & after & ->).
    rewrite fold_left_app. cbn [fold_left].
    apply objects_entry_points_keep; [intros s v; apply set_add_keeps|].
    unfold add_object_entry_points.
    destruct Hkey as [-> | ->]; rewrite Hget.
    + destruct (JsMap.get (QuestObject.properties object) "script_label_2");
        [apply set_add_keeps|]; apply set_add_has.
    + apply set_add_has.
  - intros npc Hin. apply in_split in Hin as (before & after & ->).
    rewrite fold_left_app. cbn [fold_left].
    apply npcs_entry_points_keep; [intros s v; apply set_add_keeps|].
    apply set_add_has.
Qed.

(** ** The files that parse_quest reads and write_quest_qst names *)

Lemma find_dat_and_bin_last {Payload : Type} (files : list (QstContainedFile.t Payload)) :
  find_dat_and_bin files
  = (last (filter (fun file => has_extension ".dat" file) files),
     last (filter (fun file => negb (has_extension ".dat" file)
                               && has_extension ".bin" file) files)).
Proof.
  unfold find_dat_and_bin.
  induction files as [|file files IH] using rev_ind; [reflexivity|].
  rewrite fold_left_app, IH, !filter_app. cbn [fold_left].
  rewrite !filter_cons, !filter_nil. unfold has_extension.
  destruct (Str.endsWith (Str.toLowerCase (Str.trim (QstContainedFile.name file))) ".dat").
  { cbn [negb andb]. rewrite decide_True by exact I. rewrite last_snoc.
    rewrite decide_False by (intros []). rewrite app_nil_r. reflexivity. }
  cbn [negb andb]. rewrite decide_False by (intros []). rewrite app_nil_r.
  destruct (Str.endsWith (Str.toLowerCase (Str.trim (QstContainedFile.name file))) ".bin").
  - rewrite decide_True by exact I. rewrite last_snoc. reflexivity.
  - rewrite decide_False by (intros []). rewrite app_nil_r. reflexivity.
Qed.

Lemma filter_none {A : Type} (p : A -> bool) (l : list A) :
  Forall (fun a => p a = false) l -> filter (fun a => p a) l = [].
Proof.
  induction 1 as [|a l Ha _ IH]; [reflexivity|].
  rewrite filter_cons, decide_False by (rewrite Ha; intros []). exact IH.
Qed.

Lemma last_filter_some {A : Type} (p : A -> bool) (l : list A) :
  Exists (fun a => p a = true) l -> exists a, last (filter (fun a => p a) l) = Some a.
Proof.
  intros H. apply List.Exists_exists in H as (a & Hin & Ha).
  destruct (filter (fun a => p a) l) as [|b l'] eqn:E using rev_ind.
  - exfalso. assert (a ∈ filter (fun a => p a) l) as Ha'
      by (apply list_elem_of_filter; split; [rewrite Ha; exact I|apply list_elem_of_In, Hin]).
    rewrite E in Ha'. inversion Ha'.
  - exists b. apply last_snoc.
Qed.

Lemma last_filter_holds {A : Type} (p : A -> bool) (l : list A) (a : A) :
  last (filter (fun a => p a) l) = Some a -> p a = true.
Proof.
  intros H. assert (a ∈ filter (fun a => p a) l) as Ha.
  { destruct (filter (fun a => p a) l) as [|b l'] using rev_ind; [discriminate|].
    rewrite last_snoc in H. injection H as ->. apply elem_of_app. right. left. }
  apply list_elem_of_filter in Ha as [Ha _]. destruct (p a); [reflexivity|destruct Ha].
Qed.

(** parse_quest does not fail on an archive without a DAT or a BIN file:
    when no file has a name that ends in ".dat" (trimmed, in any case) it
    returns nothing and logs "File contains no DAT file." as an error;
    when there is such a file but none that ends in ".bin", it returns
    nothing and logs "File contains no BIN file."  No file is decoded in
    either case. *)
Theorem parse_quest_missing_member {Archive Payload : Type}
    (C : Collaborators Archive Payload) (cursor : Archive) (lenient : bool)
    (files : list (QstContainedFile.t Payload)) :
  parse_qst C cursor = Some files ->
  (Forall (fun file => has_extension ".dat" file = false) files ->
   parse_quest C cursor lenient
   = Ok (None, [{| level := Err; message := "File contains no DAT file." |}]))
  /\ (Exists (fun file => has_extension ".dat" file = true) files ->
      Forall (fun file => has_extension ".bin" file = false) files ->
      parse_quest C cursor lenient
      = Ok (None, [{| level := Err; message := "File contains no BIN file." |}])).
Proof.
  intros Hqst. unfold parse_quest. rewrite Hqst, find_dat_and_bin_last. split.
  - intros Hdat. rewrite (filter_none (has_extension ".dat")) by exact Hdat. reflexivity.
  - intros Hdat Hbin.
    destruct (last_filter_some (has_extension ".dat") files Hdat) as (dat_file & ->).
    rewrite (filter_none (fun file => negb (has_extension ".dat" file)
                                      && has_extension ".bin" file)).
    + reflexivity.
    + eapply Forall_impl; [exact Hbin|]. cbv beta. intros file ->. apply andb_false_r.
Qed.

Lemma parse_quest_missing_member_witness :
  parse_quest Examples.transparent
    [ {| QstContainedFile.name := "QUEST.DAT  ";
         QstContainedFile.id := None;
         QstContainedFile.data := Examples.DatPayload Examples.empty_dat |} ] false
  = Ok (None, [{| level := Err; message := "File contains no BIN file." |}]).
Proof.
  refine (proj2 (parse_quest_missing_member Examples.transparent _ false _ eq_refl) _ _).
  - left. reflexivity.
  - repeat constructor.
Defined.

(** When an archive has several DAT or BIN files, parse_quest decodes the
    last DAT file and the last BIN file and ignores the others: the
    result is that of the archive with these two files alone. *)
Theorem parse_quest_reads_last_members {Archive Payload : Type}
    (C : Collaborators Archive Payload) (cursor : Archive) (lenient : bool)
    (files : list (QstContainedFile.t Payload))
    (dat_file bin_file : QstContainedFile.t Payload) :
  parse_qst C cursor = Some files ->
  last (filter (fun file => has_extension ".dat" file) files) = Some dat_file ->
  last (filter (fun file => negb (has_extension ".dat" file)
                            && has_extension ".bin" file) files) = Some bin_file ->
  parse_quest C cursor lenient
  = parse_quest (with_files C [dat_file; bin_file]) cursor lenient.
Proof.
  intros Hqst Hdat Hbin. unfold parse_quest at 1 2.
  rewrite Hqst. cbn [parse_qst with_files].
  rewrite !find_dat_and_bin_last, Hdat, Hbin.
  apply (last_filter_holds (has_extension ".dat")) in Hdat.
  apply (last_filter_holds (fun file => negb (has_extension ".dat" file)
                                        && has_extension ".bin" file)) in Hbin.
  apply andb_true_iff in Hbin as [Hnot Hbin]. apply negb_true_iff in Hnot.
  rewrite !filter_cons, !filter_nil, Hdat, Hnot, Hbin. cbn [negb andb].
  rewrite !decide_True by exact I. rewrite !decide_False by (intros []).
  reflexivity.
Qed.

Lemma parse_quest_reads_last_members_witness :
  let stale := {| QstContainedFile.name := "old.dat";
                  QstContainedFile.id := None;
                  QstContainedFile.data := Examples.DatPayload Examples.empty_dat |} in
  parse_quest Examples.transparent (stale :: Examples.archive_with_npcs) false
  = parse_quest Examples.transparent Examples.archive_with_npcs false.
Proof.
  intros stale.
  exact (parse_quest_reads_last_members Examples.transparent
           (stale :: Examples.archive_with_npcs) false
           (stale :: Examples.archive_with_npcs) _ _ eq_refl eq_refl eq_refl).
Defined.

(** ** The names write_quest_qst gives to the files of an archive *)

Lemma length_substring_0 (n : nat) (s : string) :
  String.length (String.substring 0 n s) = Nat.min n (String.length s).
Proof.
  revert n. induction s as [|c s IH]; intros [|n]; simpl; try reflexivity.
  rewrite IH. reflexivity.
Qed.

Lemma prefix_substring_0 (n : nat) (s : string) :
  String.prefix (String.substring 0 n s) s = true.
Proof.
  revert n. induction s as [|c s IH]; intros [|n]; simpl; try reflexivity.
  destruct (ascii_dec c c) as [_|Hne]; [apply IH|contradiction].
Qed.

Lemma substring_0_app (n : nat) (s t : string) :
  (n <= String.length s)%nat ->
  String.substring 0 n (s +:+ t) = String.substring 0 n s.
Proof.
  revert n. induction s as [|c s IH]; intros [|n] Hn; simpl in *;
    try lia; try (destruct t; reflexivity).
  rewrite IH by lia. reflexivity.
Qed.

Lemma substring_0_all (n : nat) (s : string) :
  (String.length s <= n)%nat -> String.substring 0 n s = s.
Proof.
  revert n. induction s as [|c s IH]; intros [|n] Hn; simpl in *; try lia; try reflexivity.
  rewrite IH by lia. reflexivity.
Qed.

Lemma lastIndexOf_from_without (c : ascii) (s : string) (i found : Z) :
  without_char c s = true -> Str.lastIndexOf_from c s i found = found.
Proof.
  revert i. induction s as [|c' s IH]; intros i; simpl; [reflexivity|].
  intros H. apply andb_true_iff in H as [Hc Hs]. apply negb_true_iff in Hc.
  rewrite Hc. apply IH, Hs.
Qed.

Lemma lastIndexOf_from_last (c : ascii) (s t : string) (i found : Z) :
  without_char c t = true ->
  Str.lastIndexOf_from c (s +:+ String c t) i found = i + Z.of_nat (String.length s).
Proof.
  revert i found. induction s as [|c' s IH]; intros i found Ht.
  - simpl. rewrite Ascii.eqb_refl.
    rewrite lastIndexOf_from_without by exact Ht. lia.
  - change (String c' s +:+ String c t) with (String c' (s +:+ String c t)).
    cbn [Str.lastIndexOf_from String.length]. rewrite IH by exact Ht. lia.
Qed.

(** write_quest_qst names the two files of the archive after the part of
    [file_name] in front of its last dot, cut to 11 characters: the names
    are that base with ".dat" and ".bin", at most 15 characters long.  A
    name without a dot is cut to 11 characters as a whole. *)
Theorem quest_file_names {Archive Payload : Type} (C : Collaborators Archive Payload)
    (quest : Quest.t) (file_name : string) (dat bin : Payload) :
  let base := base_file_name file_name in
  map QstContainedFile.name (qst_files C quest file_name dat bin)
  = [base +:+ ".dat"; base +:+ ".bin"]
  /\ Forall (fun file => (String.length (QstContainedFile.name file) <= 15)%nat)
       (qst_files C quest file_name dat bin)
  /\ String.prefix base file_name = true
  /\ (forall stem extension : string,
        file_name = stem +:+ String "." extension ->
        without_char "." extension = true ->
        base = String.substring 0 11 stem)
  /\ (without_char "." file_name = true -> base = String.substring 0 11 file_name).
Proof.
  intros base.
  assert (String.length base <= 11)%nat as Hlen.
  { subst base. unfold base_file_name, Str.slice0.
    destruct (Str.lastIndexOf file_name "." =? -1);
      rewrite length_substring_0; lia. }
  split; [reflexivity|]. split.
  { unfold qst_files. fold base.
    repeat (constructor; [cbn [QstContainedFile.name]; rewrite length_append; simpl; lia|]).
    constructor. }
  split.
  { subst base. unfold base_file_name, Str.slice0.
    destruct (Str.lastIndexOf file_name "." =? -1); apply prefix_substring_0. }
  split.
  - intros stem extension -> Hextension. subst base.
    unfold base_file_name, Str.lastIndexOf.
    rewrite lastIndexOf_from_last by exact Hextension.
    destruct (Z.eqb_spec (0 + Z.of_nat (String.length stem)) (-1)) as [E|_]; [lia|].
    unfold Str.slice0.
    destruct (Z.min_spec 11 (0 + Z.of_nat (String.length stem))) as [[Hlt ->]|[Hle ->]].
    + change (Z.to_nat 11) with 11%nat. apply substring_0_app. lia.
    + replace (Z.to_nat (0 + Z.of_nat (String.length stem))) with (String.length stem)
        by lia.
      rewrite substring_0_app by lia.
      rewrite !substring_0_all by lia. reflexivity.
  - intros Hnone. subst base. unfold base_file_name, Str.lastIndexOf.
    rewrite lastIndexOf_from_without by exact Hnone. reflexivity.
Qed.

(** ** Objects that are decoded and encoded again *)

(** objects_to_dat_data gives back the DAT objects that parse_obj_data
    decoded, with their properties in their order, when the object type
    table gives every type code back: each property gets a key of its
    own, so none is lost in the map of properties. *)
Theorem dat_objects_round_trip {Archive Payload : Type} (C : Collaborators Archive Payload)
    (objs : list DatObject.t) :
  Forall (fun obj =>
            object_data_pso_id C (pso_id_to_object_type C (DatObject.type_id obj))
            = DatObject.type_id obj) objs ->
  objects_to_dat_data C (parse_obj_data C objs) = objs.
Proof.
  induction 1 as [|obj objs Hobj _ IH]; [reflexivity|].
  unfold objects_to_dat_data, parse_obj_data in *. cbn [map]. rewrite IH. f_equal.
  cbn [QuestObject.type QuestObject.id QuestObject.group_id QuestObject.section_id
       QuestObject.position QuestObject.rotation QuestObject.properties
       QuestObject.area_id QuestObject.unknown].
  rewrite Hobj, properties_round_trip. destruct obj. reflexivity.
Qed.

Lemma dat_objects_round_trip_witness :
  objects_to_dat_data Examples.transparent
    (parse_obj_data Examples.transparent [Examples.support_object])
  = [Examples.support_object].
Proof.
  apply dat_objects_round_trip. repeat constructor.
Defined.

(** ** The names writeQst accepts *)

Lemma length_substring (n m : nat) (s : string) :
  String.length (String.substring n m s) = Nat.min m (String.length s - n).
Proof.
  revert n m. induction s as [|c s IH]; intros [|n] [|m]; simpl; try reflexivity.
  - rewrite IH. rewrite Nat.sub_0_r. reflexivity.
  - apply IH.
  - apply IH.
Qed.

Lemma lastIndexOf_from_range (c : ascii) (s : string) (i found : Z) :
  Str.lastIndexOf_from c s i found = found
  \/ i <= Str.lastIndexOf_from c s i found < i + Z.of_nat (String.length s).
Proof.
  revert i found. induction s as [|c' s IH]; intros i found; [left; reflexivity|].
  cbn [Str.lastIndexOf_from String.length].
  destruct (IH (i + 1) (if Ascii.eqb c c' then i else found)) as [->|H].
  - destruct (Ascii.eqb c c'); [right; lia|left; reflexivity].
  - right. lia.
Qed.

Lemma substring_app_r (s t : string) :
  String.substring (String.length s) (String.length (s +:+ t) - String.length s) (s +:+ t)
  = t.
Proof.
  rewrite length_append.
  replace (String.length s + String.length t - String.length s)%nat
    with (String.length t) by lia.
  apply substring_suffix.
Qed.

Lemma default_name2_length (name : string) :
  String.length (Qst.default_name2 name) = (String.length name + 2)%nat.
Proof.
  unfold Qst.default_name2, Str.lastIndexOf.
  destruct (lastIndexOf_from_range "." name 0 (-1)) as [->|H].
  - rewrite Z.eqb_refl, length_append. reflexivity.
  - destruct (Z.eqb_spec (Str.lastIndexOf_from "." name 0 (-1)) (-1)) as [E|_]; [lia|].
    rewrite !length_append, length_substring_0, length_substring. simpl. lia.
Qed.

(** When a file has no secondary name, writeFileHeaders makes one from
    its name: "_j" is put in front of the last dot, or at the end of a
    name without a dot.  The secondary name is two characters longer than
    the name, so it fits its 24-byte field whenever the name fits its
    16-byte field. *)
Theorem default_name2_shape (name : string) :
  String.length (Qst.default_name2 name) = (String.length name + 2)%nat
  /\ (forall stem extension : string,
        name = stem +:+ String "." extension ->
        without_char "." extension = true ->
        Qst.default_name2 name = stem +:+ "_j" +:+ String "." extension)
  /\ (without_char "." name = true -> Qst.default_name2 name = name +:+ "_j").
Proof.
  split; [|split].
  - apply default_name2_length.
  - intros stem extension -> Hextension.
    unfold Qst.default_name2, Str.lastIndexOf.
    rewrite lastIndexOf_from_last by exact Hextension.
    destruct (Z.eqb_spec (0 + Z.of_nat (String.length stem)) (-1)) as [E|_]; [lia|].
    replace (Z.to_nat (0 + Z.of_nat (String.length stem))) with (String.length stem) by lia.
    rewrite substring_0_app by lia. rewrite substring_all.
    rewrite substring_app_r. reflexivity.
  - intros Hnone. unfold Qst.default_name2, Str.lastIndexOf.
    rewrite lastIndexOf_from_without by exact Hnone. reflexivity.
Qed.

Lemma write_file_header_fits (heap : Qst.Heap) (cursor : BufferCursor.t)
    (file : Qst.SimpleFile) :
  names_fit file -> exists cursor', Qst.write_file_header heap cursor file = Ok cursor'.
Proof.
  intros [Hname Hname2]. unfold Qst.write_file_header.
  destruct (Nat.ltb_spec 16 (String.length (Qst.SimpleQstContainedFile.name file)));
    [lia|].
  fold (Header.fileName2 file).
  destruct (Nat.ltb_spec 24 (String.length (Header.fileName2 file))); [lia|].
  eauto.
Qed.

Lemma writeFileHeaders_app (heap : Qst.Heap) (cursor : BufferCursor.t)
    (files files' : list Qst.SimpleFile) :
  Qst.writeFileHeaders heap cursor (files ++ files')
  = rbind (Qst.writeFileHeaders heap cursor files)
      (fun cursor' => Qst.writeFileHeaders heap cursor' files').
Proof.
  revert cursor. induction files as [|file files IH]; intros cursor; simpl; [reflexivity|].
  destruct (Qst.write_file_header heap cursor file); [|reflexivity]. cbn [rbind]. apply IH.
Qed.

Lemma writeFileHeaders_fit (heap : Qst.Heap) (cursor : BufferCursor.t)
    (files : list Qst.SimpleFile) :
  Forall names_fit files ->
  exists cursor', Qst.writeFileHeaders heap cursor files = Ok cursor'.
Proof.
  intros H. revert cursor. induction H as [|file files Hfile _ IH]; intros cursor; simpl.
  - eauto.
  - destruct (write_file_header_fits heap cursor file Hfile) as (cursor' & ->).
    cbn [rbind]. apply IH.
Qed.

(** writeQst writes nothing when a name does not fit: for the first file
    whose name is longer than 16 characters, or whose secondary name
    (given or made from the name) is longer than 24 characters, it
    throws, naming that file; the name is checked before the secondary
    name. *)
Theorem writeQst_name_checks (heap : Qst.Heap) (before after : list Qst.SimpleFile)
    (file : Qst.SimpleFile) :
  Forall names_fit before ->
  ~ names_fit file ->
  Qst.writeQst heap (before ++ file :: after)
  = Throw (if (16 <? String.length (Qst.SimpleQstContainedFile.name file))%nat
           then NameTooLong (Qst.SimpleQstContainedFile.name file)
           else Name2TooLong (Qst.SimpleQstContainedFile.name file)
                  (Header.fileName2 file)).
Proof.
  intros Hbefore Hfile. unfold Qst.writeQst.
  destruct (map (Qst.predicted_size heap) (before ++ file :: after))
    as [|size_0 sizes] eqn:E.
  { destruct before; discriminate E. }
  rewrite writeFileHeaders_app.
  destruct (writeFileHeaders_fit heap (BufferCursor.create true) before Hbefore)
    as (cursor & ->).
  cbn [rbind Qst.writeFileHeaders]. unfold Qst.write_file_header.
  fold (Header.fileName2 file).
  destruct (Nat.ltb_spec 16 (String.length (Qst.SimpleQstContainedFile.name file)));
    [reflexivity|].
  destruct (Nat.ltb_spec 24 (String.length (Header.fileName2 file))); [reflexivity|].
  exfalso. apply Hfile. split; assumption.
Qed.

Lemma writeQst_name_checks_witness :
  Qst.writeQst (Examples.objects [["a"%byte]; ["b"%byte]])
    [ Examples.simple_file "quest.dat" 0%nat;
      Examples.simple_file "a_name_of_17.chrs" 1%nat ]
  = Throw (NameTooLong "a_name_of_17.chrs").
Proof.
  apply (writeQst_name_checks (Examples.objects [["a"%byte]; ["b"%byte]])
           [Examples.simple_file "quest.dat" 0%nat] []
           (Examples.simple_file "a_name_of_17.chrs" 1%nat)).
  - repeat constructor; vm_compute; lia.
  - intros [H _]. vm_compute in H. lia.
Defined.

(** ** What parseQst and parseFiles do with archives that are not well formed *)

(** parseQst reads only the Blue Burst format: an archive whose first
    byte is not 0x58 or whose third byte is not 0x44 is not parsed; an
    error that names the detected version is logged, nothing is returned
    and nothing is thrown. *)
Theorem parseQst_other_versions (versionA skipped versionB : byte) (rest : list byte)
    (little_endian : bool) :
  ~ (Z_of_byte versionA = 0x58 /\ Z_of_byte versionB = 0x44) ->
  Qst.parseQst
    (BufferCursor.of_bytes (versionA :: skipped :: versionB :: rest) little_endian)
  = Ok (None,
        [{| level := Err;
            message :=
              "Can't parse "
              +:+ (if Z_of_byte versionA =? 0x44 then "Dreamcast/GameCube"
                   else if Z_of_byte versionA =? 0xA6 then "Dreamcast download"
                   else "PC")
              +:+ " QST files." |}]).
Proof.
  intros Hversion. unfold Qst.parseQst.
  change (BufferCursor.of_bytes (versionA :: skipped :: versionB :: rest) little_endian)
    with (Chunk.inside [] [versionA; skipped; versionB] rest little_endian 0).
  unfold BufferCursor.u8.
  rewrite (u_inside [] [versionA; skipped; versionB] rest little_endian 0 1)
    by (simpl; lia).
  cbn [rbind]. change (0 + 1)%nat with 1%nat.
  rewrite (seek_inside [] [versionA; skipped; versionB] rest little_endian 1 1 2)
    by (simpl; lia).
  cbn [rbind].
  rewrite (u_inside [] [versionA; skipped; versionB] rest little_endian 2 1)
    by (simpl; lia).
  replace (le_value (if little_endian then take 1 (drop 0 [versionA; skipped; versionB])
                     else rev (take 1 (drop 0 [versionA; skipped; versionB]))))
    with (Z_of_byte versionA) by (destruct little_endian; simpl; lia).
  replace (le_value (if little_endian then take 1 (drop 2 [versionA; skipped; versionB])
                     else rev (take 1 (drop 2 [versionA; skipped; versionB]))))
    with (Z_of_byte versionB) by (destruct little_endian; simpl; lia).
  cbn [rbind]. unfold Qst.detect_version.
  destruct (Z.eqb_spec (Z_of_byte versionA) 0x44) as [EA|EA]; [reflexivity|].
  destruct (Z.eqb_spec (Z_of_byte versionA) 0x58) as [EA'|EA'].
  - destruct (Z.eqb_spec (Z_of_byte versionB) 0x44) as [EB|EB]; [tauto|].
    rewrite EA'. reflexivity.
  - destruct (Z.eqb_spec (Z_of_byte versionA) 0xA6); reflexivity.
Qed.

Lemma parseQst_other_versions_witness :
  Qst.parseQst (BufferCursor.of_bytes ["D"; "000"; "D"; "000"]%byte true)
  = Ok (None, [{| level := Err;
                  message := "Can't parse Dreamcast/GameCube QST files." |}]).
Proof.
  apply (parseQst_other_versions "D" "000" "D" ["000"%byte] true).
  intros [H _]. vm_compute in H. discriminate H.
Defined.

(** Every list of bytes is a sequence of whole 1056-byte records and a
    shorter rest. *)
Lemma split_records (n : nat) (bytes : list byte) :
  (length bytes < 1056 * S n)%nat ->
  exists (records : list (list byte)) (after : list byte),
    bytes = concat records ++ after
    /\ Forall (fun record => length record = 1056%nat) records
    /\ (length after < 1056)%nat.
Proof.
  revert bytes. induction n as [|n IH]; intros bytes Hlen.
  - exists [], bytes. split; [reflexivity|]. split; [constructor|lia].
  - destruct (Nat.lt_ge_cases (length bytes) 1056) as [Hshort|Hlong].
    + exists [], bytes. split; [reflexivity|]. split; [constructor|lia].
    + destruct (IH (drop 1056 bytes)) as (records & after & Hbytes & Hrecords & Hafter).
      { rewrite length_drop. lia. }
      exists (take 1056 bytes :: records), after. split; [|split].
      * cbn [concat]. rewrite <- app_assoc, <- Hbytes. symmetry. apply take_drop.
      * constructor; [|exact Hrecords]. rewrite length_take. lia.
      * exact Hafter.
Qed.

Lemma check_files_at_start (files : list Qst.File) :
  Forall (fun file => BufferCursor.position (Qst.QstContainedFile.data file) = 0%nat)
    (fst (Qst.check_files files)).
Proof.
  induction files as [|file files IH]; [constructor|].
  rewrite check_files_cons. cbn [fst]. constructor; [reflexivity|exact IH].
Qed.

(** parseFiles on a stream of records, with the bytes the cursor is left
    with. *)
Lemma parseFiles_stream_left (little_endian : bool) (expectedSizes : gmap string Z)
    (before : list byte) (records : list (list byte)) (after : list byte) :
  Forall (fun record => length record = 1056%nat) records ->
  (length after < 1056)%nat ->
  let stored := fold_left (Chunk.store little_endian expectedSizes) records ([], []) in
  exists cursor,
    Qst.parseFiles (Chunk.stream before records after little_endian) expectedSizes
    = Ok (fst (Qst.check_files (map snd (fst stored))),
          cursor,
          (snd stored
           ++ (if (length after =? 0)%nat then []
               else [Qst.warn (Qst.bytes_left_message (length after))]))
          ++ snd (Qst.check_files (map snd (fst stored))))
    /\ BufferCursor.bytes_left cursor = length after.
Proof.
  intros Hrecords Hafter stored. subst stored. unfold Qst.parseFiles.
  destruct (parse_chunks_records little_endian expectedSizes records after Hrecords Hafter
              (S (BufferCursor.bytes_left (Chunk.stream before records after little_endian)
                  / 1056))
              before [] []) as (cursor & Hrun & Hend).
  { rewrite stream_bytes_left by exact Hrecords.
    assert (length records
            <= (length records * 1056 + length after) / 1056)%nat; [|lia].
    apply Nat.div_le_lower_bound; lia. }
  rewrite Hrun. cbn [rbind]. cbv beta iota zeta. rewrite Hend.
  exists cursor. split; [|exact Hend].
  destruct (Qst.check_files _) as [files log'].
  cbn [fst snd]. destruct (length after =? 0)%nat.
  - rewrite app_nil_r. reflexivity.
  - reflexivity.
Qed.

(** parseFiles does not fail, whatever bytes it is given: from a cursor
    inside its bytes it reads all whole 1056-byte records, leaves fewer
    than 1056 bytes unread, and returns files whose data cursors stand at
    the start.  (The check of the bytes read per record never fires.) *)
Theorem parseFiles_total (cursor : BufferCursor.t) (expectedSizes : gmap string Z) :
  (BufferCursor.position cursor <= BufferCursor.size cursor)%nat ->
  exists (files : list Qst.File) (cursor' : BufferCursor.t) (log : Log),
    Qst.parseFiles cursor expectedSizes = Ok (files, cursor', log)
    /\ BufferCursor.bytes_left cursor' = (BufferCursor.bytes_left cursor mod 1056)%nat
    /\ Forall (fun file => BufferCursor.position (Qst.QstContainedFile.data file) = 0%nat)
         files.
Proof.
  intros Hposition. destruct cursor as [buffer position little_endian].
  unfold BufferCursor.size in Hposition. cbn [BufferCursor.buffer BufferCursor.position] in *.
  destruct (split_records (length (drop position buffer)) (drop position buffer))
    as (records & after & Hbytes & Hrecords & Hafter); [lia|].
  assert ({| BufferCursor.buffer := buffer;
             BufferCursor.position := position;
             BufferCursor.little_endian := little_endian |}
          = Chunk.stream (take position buffer) records after little_endian) as ->.
  { unfold Chunk.stream, Chunk.inside. rewrite <- Hbytes, take_drop, length_take.
    f_equal. lia. }
  destruct (parseFiles_stream_left little_endian expectedSizes (take position buffer)
              records after Hrecords Hafter) as (cursor' & Hparse & Hleft).
  eexists _, cursor', _. split; [exact Hparse|]. split.
  - rewrite Hleft, stream_bytes_left by exact Hrecords.
    rewrite Nat.add_comm, Nat.Div0.mod_add. symmetry. apply Nat.mod_small, Hafter.
  - apply check_files_at_start.
Qed.

Lemma parseFiles_total_witness :
  exists (files : list Qst.File) (cursor' : BufferCursor.t) (log : Log),
    Qst.parseFiles (BufferCursor.of_bytes (repeat "001"%byte 2000) true) ∅
    = Ok (files, cursor', log)
    /\ BufferCursor.bytes_left cursor' = 944%nat.
Proof.
  destruct (parseFiles_total (BufferCursor.of_bytes (repeat "001"%byte 2000) true) ∅)
    as (files & cursor' & log & Hparse & Hleft & _).
  - vm_compute. lia.
  - exists files, cursor', log. split; [exact Hparse|]. rewrite Hleft. reflexivity.
Defined.

Lemma store_log_keeps (little_endian : bool) (expectedSizes : gmap string Z)
    (records : list (list byte)) (state : Qst.FileMap * Log) (entry : LogEntry) :
  In entry (snd state) ->
  In entry (snd (fold_left (Chunk.store little_endian expectedSizes) records state)).
Proof.
  revert state. induction records as [|r records IH]; intros state H; [exact H|].
  cbn [fold_left]. apply IH. unfold Chunk.store. cbn [snd].
  apply in_or_app. left. exact H.
Qed.

Lemma store_log_at (little_endian : bool) (expectedSizes : gmap string Z)
    (earlier later : list (list byte)) (record : list byte) (entry : LogEntry) :
  In entry
    (Chunk.warnings little_endian expectedSizes
       (fold_left (Chunk.store_files little_endian expectedSizes) earlier []) record) ->
  In entry
    (snd (fold_left (Chunk.store little_endian expectedSizes)
            (earlier ++ record :: later) ([], []))).
Proof.
  intros H. rewrite fold_left_app. cbn [fold_left]. apply store_log_keeps.
  unfold Chunk.store at 1. cbn [snd]. apply in_or_app. right.
  rewrite fold_store_fst. exact H.
Qed.

(** After a sequence of records, the chunk index of every record is
    noted in its file. *)
Lemma stored_seen (little_endian : bool) (expectedSizes : gmap string Z)
    (records : list (list byte)) (record : list byte) :
  In record records ->
  exists file,
    Qst.files_get (fold_left (Chunk.store_files little_endian expectedSizes) records [])
      (Chunk.fileName record) = Some file
    /\ Chunk.chunkNo record ∈ Qst.QstContainedFile.chunkNos file.
Proof.
  induction records as [|r records IH] using rev_ind; [contradiction|].
  intros Hin. rewrite fold_left_app. cbn [fold_left].
  set (files := fold_left (Chunk.store_files little_endian expectedSizes) records []) in *.
  unfold Chunk.store_files. rewrite files_get_set.
  apply in_app_or in Hin as [Hin|[<-|[]]].
  - destruct (IH Hin) as (file & Hget & Hseen).
    destruct (String.eqb_spec (Chunk.fileName r) (Chunk.fileName record)) as [E|E].
    + eexists. split; [reflexivity|]. unfold Chunk.update.
      cbn [Qst.QstContainedFile.chunkNos]. rewrite chunkNos_update.
      unfold Chunk.file_of. rewrite E, Hget. cbn [default].
      apply elem_of_union. left. exact Hseen.
    + exists file. split; assumption.
  - rewrite String.eqb_refl. eexists. split; [reflexivity|].
    unfold Chunk.update. cbn [Qst.QstContainedFile.chunkNos]. rewrite chunkNos_update.
    apply elem_of_union. right. apply elem_of_singleton. reflexivity.
Qed.

Lemma check_files_log (files : list Qst.File) (file : Qst.File) (entry : LogEntry) :
  In file files -> In entry (snd (Qst.check_file file)) ->
  In entry (snd (Qst.check_files files)).
Proof.
  intros Hin Hentry. induction files as [|file0 files IH]; [contradiction|].
  rewrite check_files_cons. cbn [snd]. apply in_or_app.
  destruct Hin as [->|Hin]; [left; exact Hentry|right; apply IH, Hin].
Qed.

(** What parseFiles warns about, without failing: bytes behind the last
    whole record; a record whose size field is larger than 1024; a record
    whose file name and chunk number were seen in an earlier record; and
    a file whose assembled size is not the size its header expects. *)
Theorem parseFiles_warnings (little_endian : bool) (expectedSizes : gmap string Z)
    (before after : list byte) (records : list (list byte)) :
  Forall (fun record => length record = 1056%nat) records ->
  (length after < 1056)%nat ->
  exists files cursor log,
    Qst.parseFiles (Chunk.stream before records after little_endian) expectedSizes
    = Ok (files, cursor, log)
    /\ (after <> [] -> In (Qst.warn (Qst.bytes_left_message (length after))) log)
    /\ (forall record : list byte,
          In record records ->
          1024 < Chunk.declared_size little_endian record ->
          In (Qst.warn (Qst.size_too_large (Chunk.declared_size little_endian record)))
            log)
    /\ (forall (earlier later : list (list byte)) (record : list byte),
          records = earlier ++ record :: later ->
          Exists (fun record' => Chunk.key record' = Chunk.key record) earlier ->
          In (Qst.warn (Qst.already_encountered (Chunk.chunkNo record)
                          (Chunk.fileName record))) log)
    /\ (forall (file : Qst.File) (expectedSize : Z),
          In file files ->
          Qst.QstContainedFile.expectedSize file = Some expectedSize ->
          Z.of_nat (BufferCursor.size (Qst.QstContainedFile.data file)) <> expectedSize ->
          In (Qst.warn (Qst.wrong_size (Qst.QstContainedFile.name file)
                          (BufferCursor.size (Qst.QstContainedFile.data file))
                          expectedSize)) log).
Proof.
  intros Hrecords Hafter.
  destruct (parseFiles_stream little_endian expectedSizes before records after
              Hrecords Hafter) as (cursor & Hparse).
  eexists _, cursor, _. split; [exact Hparse|].
  split; [|split; [|split]].
  - intros Hne. apply in_or_app. left. apply in_or_app. right.
    destruct after; [contradiction|]. left. reflexivity.
  - intros record Hin Hsize. apply in_or_app. left. apply in_or_app. left.
    apply in_split in Hin as (earlier & later & ->).
    apply store_log_at. unfold Chunk.warnings. apply in_or_app. right.
    destruct (Z.ltb_spec 1024 (Chunk.declared_size little_endian record)); [|lia].
    left. reflexivity.
  - intros earlier later record -> Hseen. apply in_or_app. left. apply in_or_app. left.
    apply store_log_at. unfold Chunk.warnings. apply in_or_app. left.
    apply List.Exists_exists in Hseen as (record' & Hin & Hkey).
    destruct (stored_seen little_endian expectedSizes earlier record' Hin)
      as (file & Hget & Hno).
    injection Hkey as Hname HchunkNo. rewrite Hname, HchunkNo in *.
    unfold Chunk.file_of. rewrite Hget. cbn [default].
    rewrite bool_decide_eq_true_2 by exact Hno. left. reflexivity.
  - intros file' expectedSize Hin Hexpected Hsize. apply in_or_app. right.
    destruct (check_files_In _ _ Hin) as (file & Hfile & ->).
    apply (check_files_log _ file _ Hfile).
    unfold Qst.check_file in *.
    cbn [fst snd Qst.QstContainedFile.name Qst.QstContainedFile.data
         Qst.QstContainedFile.expectedSize] in *.
    apply in_or_app. left. rewrite Hexpected.
    destruct (Z.eqb_spec
                (Z.of_nat (BufferCursor.size
                             (BufferCursor.with_position (Qst.QstContainedFile.data file) 0)))
                expectedSize) as [E|_]; [contradiction|].
    left. reflexivity.
Qed.

Lemma parseFiles_warnings_witness :
  exists files cursor log,
    Qst.parseFiles
      (Chunk.stream [] [Examples.first_chunk_a; Examples.first_chunk_b] ["000"%byte] true) ∅
    = Ok (files, cursor, log)
    /\ In (Qst.warn (Qst.bytes_left_message 1)) log
    /\ In (Qst.warn (Qst.already_encountered 0 "quest.dat")) log.
Proof.
  destruct (parseFiles_warnings true ∅ [] ["000"%byte]
              [Examples.first_chunk_a; Examples.first_chunk_b])
    as (files & cursor & log & Hparse & Hleft & _ & Hseen & _).
  - repeat (constructor; [vm_compute; reflexivity|]). constructor.
  - simpl. lia.
  - exists files, cursor, log. split; [exact Hparse|]. split.
    + apply Hleft. discriminate.
    + apply (Hseen [Examples.first_chunk_a] [] Examples.first_chunk_b eq_refl).
      left. vm_compute. reflexivity.
Defined.

(** ** An archive that is written and parsed again *)

(** *** The records that writeFileChunks writes *)

Lemma take_min_length {A : Type} (n : nat) (l : list A) :
  take (Nat.min n (length l)) l = take n l.
Proof.
  destruct (Nat.le_gt_cases n (length l)) as [H|H].
  - rewrite Nat.min_l by exact H. reflexivity.
  - rewrite Nat.min_r by lia. rewrite !take_ge by lia. reflexivity.
Qed.

Lemma writeFileChunk_appended (cursor data : BufferCursor.t) (chunkNo : Z) (name : string) :
  BufferCursor.position cursor = BufferCursor.size cursor ->
  BufferCursor.little_endian cursor = true ->
  (BufferCursor.position data <= BufferCursor.size data)%nat ->
  let data' :=
    BufferCursor.with_position data
      (BufferCursor.position data + Nat.min 1024 (BufferCursor.bytes_left data)) in
  Qst.writeFileChunk cursor data chunkNo name
  = Ok (Header.appended cursor
          (chunk_bytes chunkNo name
             (take 1024 (drop (BufferCursor.position data) (BufferCursor.buffer data)))),
        data',
        negb (BufferCursor.bytes_left data' =? 0)%nat).
Proof.
  intros Hend Hle Hdata data'. unfold Qst.writeFileChunk.
  set (n := Nat.min 1024 (BufferCursor.bytes_left data)).
  assert (BufferCursor.position data + n <= BufferCursor.size data)%nat as Hn
    by (unfold BufferCursor.bytes_left in n; lia).
  unfold BufferCursor.take, BufferCursor.read.
  destruct (Nat.leb_spec (BufferCursor.position data + n) (BufferCursor.size data)); [|lia].
  cbn [rbind fst snd].
  unfold BufferCursor.write_u8_array, BufferCursor.write_u8,
    BufferCursor.write_string_ascii, BufferCursor.write_cursor, BufferCursor.write_u32.
  rewrite (write_bytes_appended cursor) by exact Hend.
  do 4 rewrite (write_bytes_appended (Header.appended _ _)) by apply appended_at_end.
  change (fun cursor0 : BufferCursor.t => BufferCursor.write_bytes cursor0 [byte_of_Z 0])
    with (fun cursor0 : BufferCursor.t => BufferCursor.write_u8 cursor0 0).
  rewrite write_zeros_appended by apply appended_at_end.
  do 2 rewrite (write_bytes_appended (Header.appended _ _)) by apply appended_at_end.
  rewrite !appended_appended.
  unfold BufferCursor.order. cbn [BufferCursor.little_endian Header.appended].
  rewrite Hle. cbn [BufferCursor.of_bytes BufferCursor.buffer].
  assert (take n (drop (BufferCursor.position data) (BufferCursor.buffer data))
          = take 1024 (drop (BufferCursor.position data) (BufferCursor.buffer data))) as ->.
  { subst n. unfold BufferCursor.bytes_left, BufferCursor.size.
    rewrite <- length_drop. apply take_min_length. }
  assert (n = length (take 1024 (drop (BufferCursor.position data)
                                   (BufferCursor.buffer data)))) as Hlen.
  { subst n. unfold BufferCursor.bytes_left, BufferCursor.size.
    rewrite length_take, length_drop. reflexivity. }
  unfold chunk_bytes. rewrite <- Hlen. reflexivity.
Qed.

Lemma bytes_left_next (data : BufferCursor.t) :
  (BufferCursor.position data <= BufferCursor.size data)%nat ->
  BufferCursor.bytes_left
    (BufferCursor.with_position data
       (BufferCursor.position data + Nat.min 1024 (BufferCursor.bytes_left data)))
  = (BufferCursor.bytes_left data - 1024)%nat.
Proof.
  intros H. unfold BufferCursor.bytes_left, BufferCursor.size, BufferCursor.with_position in *.
  cbn [BufferCursor.buffer BufferCursor.position]. lia.
Qed.

Lemma source_chunks_unfold (source : SourceState) :
  (BufferCursor.position (state_data source)
   <= BufferCursor.size (state_data source))%nat ->
  source_chunks source
  = first_chunk source
    :: (if (1024 <? BufferCursor.bytes_left (state_data source))%nat
        then source_chunks (next_source source) else []).
Proof.
  intros Hvalid. unfold source_chunks.
  assert (Header.chunks_written (state_data source)
          = S (if (1024 <? BufferCursor.bytes_left (state_data source))%nat
               then Header.chunks_written (state_data (next_source source))
               else 0)) as ->.
  { unfold Header.chunks_written, next_source. cbn [state_data].
    rewrite bytes_left_next by exact Hvalid.
    destruct (Nat.ltb_spec 1024 (BufferCursor.bytes_left (state_data source)))
      as [Hmore|Hlast].
    - destruct (Nat.eqb_spec (BufferCursor.bytes_left (state_data source)) 0); [lia|].
      destruct (Nat.eqb_spec (BufferCursor.bytes_left (state_data source) - 1024) 0);
        [lia|].
      replace (BufferCursor.bytes_left (state_data source) + 1023)%nat
        with (BufferCursor.bytes_left (state_data source) - 1024 + 1023 + 1 * 1024)%nat
        by lia.
      rewrite Nat.div_add by lia. lia.
    - destruct (Nat.eqb_spec (BufferCursor.bytes_left (state_data source)) 0);
        [reflexivity|].
      symmetry. apply (Nat.div_unique _ _ _
                         (BufferCursor.bytes_left (state_data source) - 1)); lia. }
  cbn [chunks_from]. fold (first_chunk source). f_equal.
  destruct (Nat.ltb_spec 1024 (BufferCursor.bytes_left (state_data source)))
    as [Hmore|Hlast]; [|reflexivity].
  unfold next_source at 2 3 4. cbn [state_chunkNo state_name].
  f_equal. unfold source_bytes, next_source.
  cbn [state_data BufferCursor.with_position BufferCursor.position BufferCursor.buffer].
  rewrite drop_drop. f_equal. lia.
Qed.

Lemma later_sources_valid (sources : list SourceState) :
  Forall (fun source => (BufferCursor.position (state_data source)
                         <= BufferCursor.size (state_data source))%nat) sources ->
  Forall (fun source => (BufferCursor.position (state_data source)
                         <= BufferCursor.size (state_data source))%nat)
    (later_sources sources).
Proof.
  induction 1 as [|source sources Hsource _ IH]; [constructor|].
  unfold later_sources. cbn [omap list_omap].
  destruct (Nat.ltb_spec 1024 (BufferCursor.bytes_left (state_data source)));
    [|exact IH].
  constructor; [|exact IH].
  unfold next_source, BufferCursor.bytes_left, BufferCursor.size in *.
  cbn [state_data BufferCursor.with_position BufferCursor.position BufferCursor.buffer].
  lia.
Qed.

Lemma later_sources_bound (sources : list SourceState) (bound : nat) :
  Forall (fun source => (BufferCursor.position (state_data source)
                         <= BufferCursor.size (state_data source))%nat) sources ->
  Forall (fun source => (BufferCursor.bytes_left (state_data source) < S bound)%nat)
    sources ->
  Forall (fun source => (BufferCursor.bytes_left (state_data source) < bound)%nat)
    (later_sources sources).
Proof.
  induction 1 as [|source sources Hsource _ IH]; [constructor|].
  intros Hbound. inversion Hbound as [|? ? Hb Hbs]; subst.
  unfold later_sources. cbn [omap list_omap].
  destruct (Nat.ltb_spec 1024 (BufferCursor.bytes_left (state_data source)));
    [|exact (IH Hbs)].
  constructor; [|exact (IH Hbs)].
  unfold next_source. cbn [state_data]. rewrite bytes_left_next by exact Hsource. lia.
Qed.

(** The chunks of a round and of the rounds after it are the chunks of
    the files, in another order. *)
Lemma round_permutation (sources : list SourceState) :
  Forall (fun source => (BufferCursor.position (state_data source)
                         <= BufferCursor.size (state_data source))%nat) sources ->
  Permutation
    (map first_chunk sources ++ concat (map source_chunks (later_sources sources)))
    (concat (map source_chunks sources)).
Proof.
  induction 1 as [|source sources Hsource _ IH]; [constructor|].
  cbn [map concat]. rewrite (source_chunks_unfold source Hsource).
  unfold later_sources. cbn [omap list_omap]. fold (later_sources sources).
  cbn [app]. constructor.
  destruct (Nat.ltb_spec 1024 (BufferCursor.bytes_left (state_data source))).
  - cbn [map concat]. rewrite Permutation_app_swap_app.
    apply Permutation_app_head, IH.
  - exact IH.
Qed.

(** One round, for entries that refer to different data cursors: it
    appends the next chunk of every entry, and the entries that stay are
    those with more than 1024 bytes left, with their data cursors moved
    on in the store. *)
Lemma write_round_records (sources : list Qst.ChunkSource) (heap : Qst.Heap)
    (cursor : BufferCursor.t) :
  BufferCursor.position cursor = BufferCursor.size cursor ->
  BufferCursor.little_endian cursor = true ->
  List.NoDup (map Qst.source_data sources) ->
  Forall (fun source => (BufferCursor.position (state_data source)
                         <= BufferCursor.size (state_data source))%nat)
    (map (state_of heap) sources) ->
  exists heap' sources',
    Qst.write_round heap cursor sources
    = Ok (Header.appended cursor (concat (map first_chunk (map (state_of heap) sources))),
          heap', sources')
    /\ map (state_of heap') sources' = later_sources (map (state_of heap) sources)
    /\ List.NoDup (map Qst.source_data sources')
    /\ (forall ref, In ref (map Qst.source_data sources') ->
                    In ref (map Qst.source_data sources))
    /\ (forall ref, ~ In ref (map Qst.source_data sources) -> heap' ref = heap ref).
Proof.
  revert heap cursor.
  induction sources as [|source sources IH]; intros heap cursor Hend Hle Hrefs Hsources.
  - exists heap, []. cbn [Qst.write_round map concat later_sources omap list_omap].
    rewrite appended_nil by exact Hend.
    split; [reflexivity|]. split; [reflexivity|]. split; [constructor|]. auto.
  - cbn [map] in Hrefs, Hsources.
    inversion Hrefs as [|? ? Hfresh Hrefs']; subst.
    inversion Hsources as [|? ? Hsource Hsources']; subst.
    cbn [state_of state_data] in Hsource.
    cbn [Qst.write_round].
    rewrite writeFileChunk_appended by assumption. cbn [rbind].
    set (data' := BufferCursor.with_position (heap (Qst.source_data source))
                    (BufferCursor.position (heap (Qst.source_data source))
                     + Nat.min 1024
                         (BufferCursor.bytes_left (heap (Qst.source_data source))))) in *.
    set (heap1 := Qst.heap_set heap (Qst.source_data source) data').
    assert (forall ref, ref <> Qst.source_data source -> heap1 ref = heap ref) as Hheap1.
    { intros ref Hne. unfold heap1, Qst.heap_set.
      destruct (Nat.eqb_spec ref (Qst.source_data source)); [contradiction|reflexivity]. }
    assert (map (state_of heap1) sources = map (state_of heap) sources) as Hstates.
    { apply map_ext_in. intros source' Hin. unfold state_of. rewrite Hheap1; [reflexivity|].
      intros E. apply Hfresh. rewrite <- E. apply in_map, Hin. }
    destruct (IH heap1
                (Header.appended cursor
                   (chunk_bytes (Qst.source_chunkNo source) (Qst.source_name source)
                      (take 1024
                         (drop (BufferCursor.position (heap (Qst.source_data source)))
                            (BufferCursor.buffer (heap (Qst.source_data source)))))))
                (appended_at_end _ _) Hle Hrefs')
      as (heap' & sources' & Hround & Hlater & Hrefs'' & Hsub & Hother).
    { rewrite Hstates. exact Hsources'. }
    rewrite Hround. cbn [rbind]. rewrite Hstates in Hlater.
    assert (heap' (Qst.source_data source) = data') as Hdata'.
    { rewrite Hother by exact Hfresh.
      unfold heap1, Qst.heap_set. rewrite Nat.eqb_refl. reflexivity. }
    eexists heap', _. split.
    { rewrite appended_appended, Hstates. reflexivity. }
    cbn [map]. unfold later_sources. cbn [omap list_omap]. fold (later_sources (map (state_of heap) sources)).
    cbn [state_of state_data].
    subst data'. rewrite bytes_left_next by exact Hsource.
    destruct (Nat.ltb_spec 1024 (BufferCursor.bytes_left (heap (Qst.source_data source))))
      as [Hmore|Hlast].
    + destruct (Nat.eqb_spec
                  (BufferCursor.bytes_left (heap (Qst.source_data source)) - 1024) 0);
        [lia|].
      cbn [negb map Qst.source_data]. split; [|split; [|split]].
      * f_equal; [|exact Hlater].
        unfold state_of, next_source.
        cbn [Qst.source_data Qst.source_chunkNo Qst.source_name state_data state_chunkNo
             state_name].
        rewrite Hdata'. reflexivity.
      * constructor; [|exact Hrefs'']. intros Hin. apply Hfresh, Hsub, Hin.
      * intros ref [<-|Hin]; [left; reflexivity|right; apply Hsub, Hin].
      * intros ref Hnot. rewrite Hother by (intros Hin; apply Hnot; right; exact Hin).
        apply Hheap1. intros ->. apply Hnot. left. reflexivity.
    + destruct (Nat.eqb_spec
                  (BufferCursor.bytes_left (heap (Qst.source_data source)) - 1024) 0);
        [|lia].
      cbn [negb]. split; [exact Hlater|]. split; [exact Hrefs''|]. split.
      * intros ref Hin. right. apply Hsub, Hin.
      * intros ref Hnot. rewrite Hother by (intros Hin; apply Hnot; right; exact Hin).
        apply Hheap1. intros ->. apply Hnot. left. reflexivity.
Qed.

(** All rounds, for entries that refer to different data cursors: the
    chunks that are appended are the chunks of the files, the first
    chunks of the files first. *)
Lemma write_rounds_records (rounds : nat) (sources : list Qst.ChunkSource)
    (heap : Qst.Heap) (cursor : BufferCursor.t) :
  BufferCursor.position cursor = BufferCursor.size cursor ->
  BufferCursor.little_endian cursor = true ->
  List.NoDup (map Qst.source_data sources) ->
  Forall (fun source => (BufferCursor.position (state_data source)
                         <= BufferCursor.size (state_data source))%nat)
    (map (state_of heap) sources) ->
  Forall (fun source => (BufferCursor.bytes_left (state_data source) < rounds)%nat)
    (map (state_of heap) sources) ->
  exists records heap',
    Qst.write_rounds rounds heap cursor sources
    = Ok (Header.appended cursor
            (concat (map first_chunk (map (state_of heap) sources) ++ records)),
          heap')
    /\ Permutation (map first_chunk (map (state_of heap) sources) ++ records)
         (concat (map source_chunks (map (state_of heap) sources))).
Proof.
  revert sources heap cursor.
  induction rounds as [|rounds IH]; intros sources heap cursor Hend Hle Hrefs Hvalid Hbound.
  - destruct sources as [|source sources]; [|inversion Hbound; subst; lia].
    exists [], heap. cbn. rewrite appended_nil by exact Hend.
    split; [reflexivity|constructor].
  - destruct sources as [|source sources].
    { exists [], heap. cbn. rewrite appended_nil by exact Hend.
      split; [reflexivity|constructor]. }
    cbn [Qst.write_rounds].
    destruct (write_round_records (source :: sources) heap cursor Hend Hle Hrefs Hvalid)
      as (heap1 & sources1 & -> & Hlater & Hrefs1 & _ & _).
    cbn [rbind].
    destruct (IH sources1 heap1
                (Header.appended cursor
                   (concat (map first_chunk (map (state_of heap) (source :: sources)))))
                (appended_at_end _ _) Hle Hrefs1)
      as (records & heap' & -> & Hperm).
    { rewrite Hlater. apply later_sources_valid, Hvalid. }
    { rewrite Hlater. apply later_sources_bound; assumption. }
    rewrite Hlater in *.
    exists (map first_chunk (later_sources (map (state_of heap) (source :: sources)))
            ++ records), heap'.
    split.
    + rewrite appended_appended, <- concat_app. reflexivity.
    + rewrite <- (round_permutation (map (state_of heap) (source :: sources)) Hvalid).
      apply Permutation_app_head, Hperm.
Qed.

(** *** What parseFiles and parseHeaders read from written records *)

Lemma Z_of_byte_of_Z (v : Z) : Z_of_byte (byte_of_Z v) = v mod 256.
Proof.
  unfold Z_of_byte, byte_of_Z.
  pose proof (Z.mod_pos_bound v 256 ltac:(lia)) as Hv.
  destruct (Byte.of_N (Z.to_N (v mod 256))) as [b|] eqn:E.
  - apply Byte.to_of_N in E. rewrite E. lia.
  - apply Byte.of_N_None_iff in E. lia.
Qed.

Lemma le_bytes_S (n : nat) (v : Z) :
  le_bytes (S n) v = byte_of_Z v :: le_bytes n (v / 256).
Proof.
  unfold le_bytes. cbn [seq map]. f_equal.
  - rewrite Z.pow_0_r, Z.div_1_r. reflexivity.
  - rewrite <- seq_shift, map_map. apply map_ext. intros i.
    rewrite Nat2Z.inj_succ, Z.pow_succ_r by lia.
    rewrite Z.div_div by lia. reflexivity.
Qed.

Lemma le_value_le_bytes (n : nat) (v : Z) :
  0 <= v < 256 ^ Z.of_nat n -> le_value (le_bytes n v) = v.
Proof.
  revert v. induction n as [|n IH]; intros v Hv.
  - simpl in *. lia.
  - rewrite le_bytes_S. cbn [le_value foldr]. fold (le_value (le_bytes n (v / 256))).
    rewrite Nat2Z.inj_succ, Z.pow_succ_r in Hv by lia.
    rewrite IH, Z_of_byte_of_Z.
    + pose proof (Z.div_mod v 256 ltac:(lia)). lia.
    + split; [apply Z.div_pos; lia|apply Z.div_lt_upper_bound; lia].
Qed.

Lemma until_nul_resize (n : nat) (bytes : list byte) :
  Forall (fun b => b <> "000"%byte) bytes ->
  (length bytes <= n)%nat ->
  until_nul (resize n "000"%byte bytes) = bytes.
Proof.
  intros Hbytes Hlen. rewrite resize_ge by exact Hlen.
  generalize (n - length bytes)%nat as k. intros k.
  induction Hbytes as [|b bytes Hb _ IH]; cbn [app until_nul].
  - destruct k; reflexivity.
  - destruct (Byte.eqb b "000") eqn:E.
    + apply Byte.byte_dec_bl in E. contradiction.
    + rewrite IH by (cbn [length] in Hlen; lia). reflexivity.
Qed.

Lemma length_list_byte_of_string (s : string) :
  length (list_byte_of_string s) = String.length s.
Proof.
  unfold list_byte_of_string. rewrite length_map.
  induction s as [|c s IH]; simpl; [reflexivity|]. rewrite IH. reflexivity.
Qed.

Lemma name_of_field (n : nat) (name : string) :
  without_nul name -> (String.length name <= n)%nat ->
  string_of_list_byte (until_nul (resize n "000"%byte (list_byte_of_string name))) = name.
Proof.
  intros Hnul Hlen. rewrite until_nul_resize.
  - apply string_of_list_byte_of_string.
  - exact Hnul.
  - rewrite length_list_byte_of_string. exact Hlen.
Qed.

(** The fields parseFiles reads from a record that writeFileChunk wrote. *)
Lemma chunk_bytes_fields (chunkNo : Z) (name : string) (payload : list byte) :
  (length payload <= 1024)%nat ->
  without_nul name -> (String.length name <= 16)%nat ->
  length (chunk_bytes chunkNo name payload) = 1056%nat
  /\ Chunk.chunkNo (chunk_bytes chunkNo name payload) = chunkNo mod 256
  /\ Chunk.fileName (chunk_bytes chunkNo name payload) = name
  /\ Chunk.declared_size true (chunk_bytes chunkNo name payload)
     = Z.of_nat (length payload)
  /\ Chunk.payload true (chunk_bytes chunkNo name payload) = payload.
Proof.
  intros Hpayload Hnul Hname.
  assert (Chunk.declared_size true (chunk_bytes chunkNo name payload)
          = Z.of_nat (length payload)) as Hsize.
  { unfold Chunk.declared_size, chunk_bytes.
    rewrite (take_drop_middle _
               (map byte_of_Z [28; 4; 19; 0] ++ [byte_of_Z chunkNo]
                ++ map byte_of_Z [0; 0; 0]
                ++ resize 16 "000"%byte (list_byte_of_string name)
                ++ payload ++ repeat "000"%byte (1024 - length payload))
               (le_bytes 4 (Z.of_nat (length payload))) (le_bytes 4 0)).
    - apply le_value_le_bytes. change (256 ^ Z.of_nat 4) with 4294967296. lia.
    - rewrite <- ?app_assoc. reflexivity.
    - rewrite !length_app, !length_map, length_resize, repeat_length. cbn [length]. lia.
    - apply length_le_bytes. }
  split; [|split; [|split; [|split]]].
  - unfold chunk_bytes.
    rewrite !length_app, !length_map, length_resize, repeat_length, !length_le_bytes.
    cbn [length]. lia.
  - unfold Chunk.chunkNo, chunk_bytes.
    rewrite (take_drop_middle _ (map byte_of_Z [28; 4; 19; 0]) [byte_of_Z chunkNo]
               (map byte_of_Z [0; 0; 0]
                ++ resize 16 "000"%byte (list_byte_of_string name)
                ++ payload ++ repeat "000"%byte (1024 - length payload)
                ++ le_bytes 4 (Z.of_nat (length payload)) ++ le_bytes 4 0));
      [|reflexivity|reflexivity|reflexivity].
    cbn [le_value foldr]. rewrite Z_of_byte_of_Z. lia.
  - unfold Chunk.fileName, chunk_bytes.
    rewrite (take_drop_middle _
               (map byte_of_Z [28; 4; 19; 0] ++ [byte_of_Z chunkNo]
                ++ map byte_of_Z [0; 0; 0])
               (resize 16 "000"%byte (list_byte_of_string name))
               (payload ++ repeat "000"%byte (1024 - length payload)
                ++ le_bytes 4 (Z.of_nat (length payload)) ++ le_bytes 4 0)).
    + apply name_of_field; assumption.
    + rewrite <- ?app_assoc. reflexivity.
    + reflexivity.
    + apply length_resize.
  - exact Hsize.
  - unfold Chunk.payload, Chunk.size. rewrite Hsize.
    destruct (Z.ltb_spec 1024 (Z.of_nat (length payload))); [lia|].
    rewrite Nat2Z.id. unfold chunk_bytes.
    apply (take_drop_middle _
             (map byte_of_Z [28; 4; 19; 0] ++ [byte_of_Z chunkNo]
              ++ map byte_of_Z [0; 0; 0]
              ++ resize 16 "000"%byte (list_byte_of_string name))
             payload
             (repeat "000"%byte (1024 - length payload)
              ++ le_bytes 4 (Z.of_nat (length payload)) ++ le_bytes 4 0)).
    + rewrite <- ?app_assoc. reflexivity.
    + rewrite !length_app, !length_map, length_resize. reflexivity.
    + reflexivity.
Qed.

(** *** The files that parseFiles assembles from the chunks of a file *)

Lemma contents_fields (file : Qst.File) (name : string) (name2 : option string)
    (questNo expectedSize : option Z) (buffer : list byte) (chunkNos : gset Z) :
  Chunk.contents file = (name, name2, questNo, expectedSize, buffer, chunkNos) ->
  Qst.QstContainedFile.name file = name
  /\ Qst.QstContainedFile.name2 file = name2
  /\ Qst.QstContainedFile.questNo file = questNo
  /\ Qst.QstContainedFile.expectedSize file = expectedSize
  /\ BufferCursor.buffer (Qst.QstContainedFile.data file) = buffer
  /\ Qst.QstContainedFile.chunkNos file = chunkNos.
Proof. unfold Chunk.contents. intros [= <- <- <- <- <- <-]. repeat split. Qed.

(** Storing the chunks of a file one after the other appends their
    payloads to the data of the file and leaves the other files alone. *)
Lemma store_chunks_from (expectedSizes : gmap string Z) (name : string) (count : nat) :
  without_nul name -> (String.length name <= 16)%nat ->
  forall (chunkNo : Z) (bytes : list byte) (files : Qst.FileMap) (file : Qst.File),
    0 <= chunkNo -> chunkNo + Z.of_nat (S count) <= 256 ->
    (1024 * count < length bytes <= 1024 * S count)%nat ->
    default (Chunk.new_file expectedSizes name) (Qst.files_get files name) = file ->
    length (BufferCursor.buffer (Qst.QstContainedFile.data file))
    = Z.to_nat (chunkNo * 1024) ->
    let files' :=
      fold_left (Chunk.store_files true expectedSizes)
        (chunks_from (S count) chunkNo name bytes) files in
    (forall name' : string, name' <> name ->
       Qst.files_get files' name' = Qst.files_get files name')
    /\ exists file',
         Qst.files_get files' name = Some file'
         /\ Chunk.contents file'
            = (Qst.QstContainedFile.name file,
               Qst.QstContainedFile.name2 file,
               Qst.QstContainedFile.questNo file,
               Qst.QstContainedFile.expectedSize file,
               BufferCursor.buffer (Qst.QstContainedFile.data file) ++ bytes,
               Qst.QstContainedFile.chunkNos file
               ∪ list_to_set (seqZ chunkNo (Z.of_nat (S count)))).
Proof.
  intros Hnul Hname.
  induction count as [|count IH]; intros chunkNo bytes files file Hno Hlast Hbytes Hfile Hbuffer;
    cbn zeta.
  all: change (chunks_from (S ?n) chunkNo name bytes)
         with (chunk_bytes chunkNo name (take 1024 bytes)
               :: chunks_from n (chunkNo + 1) name (drop 1024 bytes)).
  all: cbn [fold_left].
  all: destruct (chunk_bytes_fields chunkNo name (take 1024 bytes))
         as (Hlength & HchunkNo & HfileName & Hsize & Hpayload);
         [rewrite length_take; lia|exact Hnul|exact Hname|].
  all: rewrite Z.mod_small in HchunkNo by lia.
  all: set (record := chunk_bytes chunkNo name (take 1024 bytes)) in *.
  all: assert (Chunk.file_of expectedSizes files record = file) as Hfile_of
         by (unfold Chunk.file_of; rewrite HfileName; exact Hfile).
  all: assert (Chunk.contents (Chunk.update true record file)
               = (Qst.QstContainedFile.name file,
                  Qst.QstContainedFile.name2 file,
                  Qst.QstContainedFile.questNo file,
                  Qst.QstContainedFile.expectedSize file,
                  BufferCursor.buffer (Qst.QstContainedFile.data file) ++ take 1024 bytes,
                  Qst.QstContainedFile.chunkNos file ∪ {[chunkNo]})) as Hupdate
         by (rewrite contents_update, HchunkNo, Hpayload, <- Hbuffer, overlay_end;
             reflexivity).
  all: assert (Chunk.store_files true expectedSizes files record
               = Qst.files_set files name (Chunk.update true record file)) as ->
         by (unfold Chunk.store_files; rewrite Hfile_of, HfileName; reflexivity).
  - cbn [chunks_from fold_left]. split.
    + intros name' Hne. rewrite files_get_set.
      destruct (String.eqb_spec name name'); [congruence|reflexivity].
    + eexists. split; [rewrite files_get_set, String.eqb_refl; reflexivity|].
      rewrite Hupdate. rewrite take_ge by lia.
      change (Z.of_nat 1) with 1. rewrite seqZ_cons by lia.
      rewrite seqZ_nil by lia. rewrite list_to_set_cons, list_to_set_nil.
      rewrite (right_id_L ∅ (∪)). reflexivity.
  - destruct (contents_fields _ _ _ _ _ _ _ Hupdate)
      as (Hn & Hn2 & Hq & He & Hb & Hc).
    destruct (IH (chunkNo + 1) (drop 1024 bytes)
                (Qst.files_set files name (Chunk.update true record file))
                (Chunk.update true record file))
      as (Hothers & file' & Hget & Hcontents).
    + lia.
    + lia.
    + rewrite length_drop. lia.
    + rewrite files_get_set, String.eqb_refl. reflexivity.
    + rewrite Hb, length_app, Hbuffer, length_take. lia.
    + split.
      * intros name' Hne. rewrite (Hothers name' Hne), files_get_set.
        destruct (String.eqb_spec name name'); [congruence|reflexivity].
      * exists file'. split; [exact Hget|].
        rewrite Hcontents, Hn, Hn2, Hq, He, Hb, Hc.
        rewrite <- app_assoc, take_drop.
        rewrite (seqZ_cons chunkNo (Z.of_nat (S (S count)))) by lia.
        rewrite list_to_set_cons, (assoc_L (∪)).
        replace (Z.pred (Z.of_nat (S (S count)))) with (Z.of_nat (S count)) by lia.
        reflexivity.
Qed.

Lemma chunks_from_fields (name : string) (count : nat) (chunkNo : Z) (bytes : list byte) :
  without_nul name -> (String.length name <= 16)%nat ->
  0 <= chunkNo -> chunkNo + Z.of_nat count <= 256 ->
  Forall (fun record => length record = 1056%nat
                        /\ Chunk.fileName record = name
                        /\ Chunk.declared_size true record <= 1024)
    (chunks_from count chunkNo name bytes)
  /\ map Chunk.key (chunks_from count chunkNo name bytes)
     = map (fun chunkNo' => (name, chunkNo')) (seqZ chunkNo (Z.of_nat count)).
Proof.
  intros Hnul Hname. revert chunkNo bytes.
  induction count as [|count IH]; intros chunkNo bytes Hno Hlast.
  - split; [constructor|reflexivity].
  - destruct (IH (chunkNo + 1) (drop 1024 bytes)) as (Hfields & Hkeys); [lia|lia|].
    destruct (chunk_bytes_fields chunkNo name (take 1024 bytes))
      as (Hlength & HchunkNo & HfileName & Hsize & Hpayload);
      [rewrite length_take; lia|exact Hnul|exact Hname|].
    rewrite Z.mod_small in HchunkNo by lia.
    cbn [chunks_from]. split.
    + constructor; [|exact Hfields].
      split; [exact Hlength|]. split; [exact HfileName|].
      rewrite Hsize, length_take. lia.
    + rewrite seqZ_cons by lia. cbn [map]. rewrite Hkeys.
      unfold Chunk.key at 1. rewrite HfileName, HchunkNo.
      replace (Z.pred (Z.of_nat (S count))) with (Z.of_nat count) by lia.
      reflexivity.
Qed.

(** The number of chunks of a file with a payload, and the bytes they hold. *)
Lemma portable_chunks (heap : Qst.Heap) (file : Qst.SimpleFile) :
  portable heap file ->
  exists count : nat,
    Header.chunks_written (heap (Qst.SimpleQstContainedFile.data file)) = S count
    /\ Z.of_nat (S count)
       = Qst.chunk_count (Z.of_nat (BufferCursor.size (heap (Qst.SimpleQstContainedFile.data file))))
    /\ Z.of_nat (S count) <= 256
    /\ source_bytes (source_of heap file)
       = BufferCursor.buffer (heap (Qst.SimpleQstContainedFile.data file))
    /\ (1024 * count
        < length (BufferCursor.buffer (heap (Qst.SimpleQstContainedFile.data file)))
        <= 1024 * S count)%nat.
Proof.
  intros ((_ & _ & Hposition) & _ & _ & _ & Hsize).
  unfold Header.chunks_written, BufferCursor.bytes_left, source_bytes, source_of,
    Qst.chunk_count, BufferCursor.size in *.
  cbn [state_data]. rewrite Hposition, Nat.sub_0_r.
  set (size := length (BufferCursor.buffer (heap (Qst.SimpleQstContainedFile.data file)))) in *.
  destruct (Nat.eqb_spec size 0); [lia|].
  exists ((size + 1023) / 1024 - 1)%nat.
  pose proof (Nat.div_mod_eq (size + 1023) 1024) as Hdiv.
  pose proof (Nat.mod_upper_bound (size + 1023) 1024 ltac:(lia)) as Hmod.
  replace (S ((size + 1023) / 1024 - 1)) with ((size + 1023) / 1024)%nat by lia.
  split; [reflexivity|]. split.
  { rewrite Nat2Z.inj_div. rewrite Nat2Z.inj_add. reflexivity. }
  split; [lia|]. split; [reflexivity|]. lia.
Qed.

Lemma files_get_keys (files : Qst.FileMap) (k : string) :
  In k (map fst files) -> exists file, Qst.files_get files k = Some file.
Proof.
  induction files as [|[k0 f0] files IH]; simpl; [contradiction|].
  intros [->|Hin].
  - rewrite String.eqb_refl. eauto.
  - destruct (String.eqb k0 k); [eauto|exact (IH Hin)].
Qed.

Lemma files_set_keys (files : Qst.FileMap) (k : string) (f : Qst.File) :
  map fst (Qst.files_set files k f)
  = match Qst.files_get files k with
    | Some _ => map fst files
    | None => map fst files ++ [k]
    end.
Proof.
  induction files as [|[k0 f0] files IH]; simpl; [reflexivity|].
  destruct (String.eqb k0 k); simpl; [reflexivity|].
  rewrite IH. destruct (Qst.files_get files k); reflexivity.
Qed.

(** Records of files that are in the map already leave the order of its
    files as it is. *)
Lemma store_files_keys (little_endian : bool) (expectedSizes : gmap string Z)
    (records : list (list byte)) (files : Qst.FileMap) :
  Forall (fun record => In (Chunk.fileName record) (map fst files)) records ->
  map fst (fold_left (Chunk.store_files little_endian expectedSizes) records files)
  = map fst files.
Proof.
  revert files. induction records as [|r records IH]; intros files Hin; [reflexivity|].
  inversion Hin as [|? ? Hr Hrecords]; subst. cbn [fold_left].
  assert (map fst (Chunk.store_files little_endian expectedSizes files r) = map fst files)
    as Hkeys.
  { unfold Chunk.store_files. rewrite files_set_keys.
    destruct (files_get_keys files _ Hr) as (file & ->). reflexivity. }
  rewrite IH; [exact Hkeys|]. rewrite Hkeys. exact Hrecords.
Qed.

Lemma stored_little_endian (expectedSizes : gmap string Z) (records : list (list byte))
    (files : Qst.FileMap) :
  Forall (fun entry => BufferCursor.little_endian (Qst.QstContainedFile.data (snd entry))
                       = true) files ->
  Forall (fun entry => BufferCursor.little_endian (Qst.QstContainedFile.data (snd entry))
                       = true)
    (fold_left (Chunk.store_files true expectedSizes) records files).
Proof.
  revert files. induction records as [|r records IH]; intros files Hfiles; [exact Hfiles|].
  cbn [fold_left]. apply IH. unfold Chunk.store_files.
  assert (BufferCursor.little_endian
            (Qst.QstContainedFile.data
               (Chunk.update true r (Chunk.file_of expectedSizes files r))) = true) as Hle.
  { unfold Chunk.update, Chunk.write_payload, Chunk.file_of.
    cbn [Qst.QstContainedFile.data BufferCursor.write_bytes BufferCursor.little_endian
         BufferCursor.with_position BufferCursor.set_size BufferCursor.with_buffer].
    destruct (Qst.files_get files (Chunk.fileName r)) as [file|] eqn:Hget; [|reflexivity].
    cbn [default]. clear -Hfiles Hget.
    induction Hfiles as [|[k0 f0] files Hf _ IHfiles]; simpl in Hget; [discriminate|].
    destruct (String.eqb k0 (Chunk.fileName r)); [|exact (IHfiles Hget)].
    injection Hget as <-. exact Hf. }
  revert Hle. generalize (Chunk.update true r (Chunk.file_of expectedSizes files r)) as file.
  generalize (Chunk.fileName r) as k. intros k file Hle. clear IH.
  induction Hfiles as [|[k0 f0] files Hf Hfiles IH]; simpl.
  - constructor; [exact Hle|constructor].
  - destruct (String.eqb k0 k); constructor; assumption.
Qed.

(** No warning is logged for records with different keys whose size
    fields are at most 1024. *)
Lemma store_log_nil (little_endian : bool) (expectedSizes : gmap string Z)
    (records : list (list byte)) :
  List.NoDup (map Chunk.key records) ->
  Forall (fun record => Chunk.declared_size little_endian record <= 1024) records ->
  snd (fold_left (Chunk.store little_endian expectedSizes) records ([], [])) = [].
Proof.
  induction records as [|r records IH] using rev_ind; [reflexivity|].
  intros Hkeys Hsizes. rewrite map_app in Hkeys. cbn [map] in Hkeys.
  apply Forall_app in Hsizes as [Hsizes Hr]. inversion Hr as [|? ? Hsize _]; subst.
  rewrite fold_left_app. cbn [fold_left]. unfold Chunk.store at 1. cbn [snd].
  rewrite IH; [|apply NoDup_ListNoDup, NoDup_app in Hkeys as (Hkeys & _ & _);
                 apply NoDup_ListNoDup, Hkeys|exact Hsizes].
  rewrite fold_store_fst. cbn [fst app]. unfold Chunk.warnings.
  destruct (Z.ltb_spec 1024 (Chunk.declared_size little_endian r)); [lia|].
  rewrite app_nil_r.
  rewrite bool_decide_eq_false_2; [reflexivity|].
  intros Hseen. unfold Chunk.file_of in Hseen.
  destruct (Qst.files_get _ (Chunk.fileName r)) as [file|] eqn:Hget.
  - cbn [default] in Hseen.
    destruct (stored_chunkNos little_endian expectedSizes records _ file _ Hget Hseen)
      as (r' & Hin & Hkey).
    apply NoDup_ListNoDup, NoDup_app in Hkeys as (_ & Hfresh & _).
    apply (Hfresh (Chunk.key r')).
    + apply list_elem_of_In, in_map, Hin.
    + rewrite Hkey. left.
  - cbn [default Chunk.new_file Qst.QstContainedFile.chunkNos] in Hseen.
    apply elem_of_empty in Hseen. exact Hseen.
Qed.

Lemma omap_none {A B : Type} (f : A -> option B) (l : list A) :
  (forall a, a ∈ l -> f a = None) -> omap f l = [].
Proof.
  induction l as [|a l IH]; intros H; [reflexivity|].
  cbn [omap list_omap]. rewrite (H a) by left. apply IH. intros a' Ha'. apply H. right. exact Ha'.
Qed.

(** check_file finds nothing to warn about in a file that was assembled
    from all chunks of a written file, and moves its cursor to the start. *)
Lemma check_file_assembled (heap : Qst.Heap) (file : Qst.SimpleFile) (stored : Qst.File) :
  Chunk.contents stored = Chunk.contents (assembled heap file) ->
  BufferCursor.little_endian (Qst.QstContainedFile.data stored) = true ->
  Qst.check_file stored = (assembled heap file, []).
Proof.
  intros Hcontents Hle.
  destruct (contents_fields _ _ _ _ _ _ _ Hcontents) as (Hn & Hn2 & Hq & He & Hb & Hc).
  unfold Qst.check_file. rewrite Hn, Hn2, Hq, He, Hc.
  cbn [assembled Qst.QstContainedFile.name Qst.QstContainedFile.name2
       Qst.QstContainedFile.questNo Qst.QstContainedFile.expectedSize
       Qst.QstContainedFile.chunkNos Qst.QstContainedFile.data] in *.
  assert (BufferCursor.with_position (Qst.QstContainedFile.data stored) 0
          = BufferCursor.of_bytes (BufferCursor.buffer (heap (Qst.SimpleQstContainedFile.data file)))
              true) as ->.
  { unfold BufferCursor.with_position, BufferCursor.of_bytes. rewrite Hb, Hle.
    reflexivity. }
  f_equal.
  assert (BufferCursor.size
            (BufferCursor.of_bytes (BufferCursor.buffer (heap (Qst.SimpleQstContainedFile.data file)))
               true)
          = BufferCursor.size (heap (Qst.SimpleQstContainedFile.data file))) as -> by reflexivity.
  rewrite Z.eqb_refl. cbn [app default]. rewrite Z.max_id.
  apply omap_none. intros chunkNo Hin.
  rewrite decide_True; [reflexivity|]. apply elem_of_list_to_set. exact Hin.
Qed.

(** *** Two files *)

Section two_files.
Variable heap : Qst.Heap.
Variables file_0 file_1 : Qst.SimpleFile.
Hypothesis Hfile_0 : portable heap file_0.
Hypothesis Hfile_1 : portable heap file_1.
Hypothesis Hnames :
  Qst.SimpleQstContainedFile.name file_0 <> Qst.SimpleQstContainedFile.name file_1.
Variable expectedSizes : gmap string Z.
Hypothesis Hsize_0 :
  expectedSizes !! Qst.SimpleQstContainedFile.name file_0
  = Some (Z.of_nat (BufferCursor.size (heap (Qst.SimpleQstContainedFile.data file_0)))).
Hypothesis Hsize_1 :
  expectedSizes !! Qst.SimpleQstContainedFile.name file_1
  = Some (Z.of_nat (BufferCursor.size (heap (Qst.SimpleQstContainedFile.data file_1)))).

Lemma portable_name (file : Qst.SimpleFile) :
  portable heap file ->
  without_nul (Qst.SimpleQstContainedFile.name file)
  /\ (String.length (Qst.SimpleQstContainedFile.name file) <= 16)%nat.
Proof. intros ((Hname & _) & Hnul & _). auto. Qed.

Lemma source_chunks_fields (file : Qst.SimpleFile) :
  portable heap file ->
  Forall (fun record => length record = 1056%nat
                        /\ Chunk.fileName record = Qst.SimpleQstContainedFile.name file
                        /\ Chunk.declared_size true record <= 1024)
    (source_chunks (source_of heap file))
  /\ map Chunk.key (source_chunks (source_of heap file))
     = map (fun chunkNo => (Qst.SimpleQstContainedFile.name file, chunkNo))
         (seqZ 0 (Qst.chunk_count
                    (Z.of_nat (BufferCursor.size (heap (Qst.SimpleQstContainedFile.data file)))))).
Proof.
  intros Hfile. destruct (portable_name file Hfile) as (Hnul & Hname).
  destruct (portable_chunks heap file Hfile) as (count & Hcount & Hchunks & Hmost & _ & _).
  unfold source_chunks. cbn [source_of state_data state_chunkNo state_name].
  rewrite Hcount, <- Hchunks.
  apply chunks_from_fields; [exact Hnul|exact Hname|lia|lia].
Qed.

Lemma written_fields :
  Forall (fun record =>
            length record = 1056%nat
            /\ In (Chunk.fileName record)
                 [Qst.SimpleQstContainedFile.name file_0;
                  Qst.SimpleQstContainedFile.name file_1]
            /\ Chunk.declared_size true record <= 1024)
    (source_chunks (source_of heap file_0) ++ source_chunks (source_of heap file_1)).
Proof.
  apply Forall_app. split.
  - eapply Forall_impl; [exact (proj1 (source_chunks_fields file_0 Hfile_0))|].
    cbv beta. intros record (Hlength & Hname & Hsize). repeat split; auto. left. auto.
  - eapply Forall_impl; [exact (proj1 (source_chunks_fields file_1 Hfile_1))|].
    cbv beta. intros record (Hlength & Hname & Hsize). repeat split; auto. right. left. auto.
Qed.

Lemma written_keys :
  List.NoDup
    (map Chunk.key (source_chunks (source_of heap file_0) ++ source_chunks (source_of heap file_1))).
Proof.
  rewrite map_app.
  rewrite (proj2 (source_chunks_fields file_0 Hfile_0)),
    (proj2 (source_chunks_fields file_1 Hfile_1)).
  apply NoDup_ListNoDup, NoDup_app. split; [|split].
  - apply (NoDup_fmap_2 (fun chunkNo => (_, chunkNo))), NoDup_seqZ.
  - intros key Hin_0 Hin_1.
    apply list_elem_of_In, in_map_iff in Hin_0 as (c0 & <- & _).
    apply list_elem_of_In, in_map_iff in Hin_1 as (c1 & E & _).
    injection E as E _. exact (Hnames (eq_sym E)).
  - apply (NoDup_fmap_2 (fun chunkNo => (_, chunkNo))), NoDup_seqZ.
Qed.

(** The files after the chunks of the first file and then those of the
    second file are stored. *)
Lemma sequential_files (file : Qst.SimpleFile) :
  file = file_0 \/ file = file_1 ->
  exists stored,
    Qst.files_get
      (fold_left (Chunk.store_files true expectedSizes)
         (source_chunks (source_of heap file_0) ++ source_chunks (source_of heap file_1)) [])
      (Qst.SimpleQstContainedFile.name file) = Some stored
    /\ Chunk.contents stored = Chunk.contents (assembled heap file).
Proof.
  intros Hfile. rewrite fold_left_app.
  destruct (portable_name file_0 Hfile_0) as (Hnul_0 & Hname_0).
  destruct (portable_name file_1 Hfile_1) as (Hnul_1 & Hname_1).
  destruct (portable_chunks heap file_0 Hfile_0)
    as (count_0 & Hcount_0 & Hchunks_0 & Hmost_0 & Hbytes_0 & Hlength_0).
  destruct (portable_chunks heap file_1 Hfile_1)
    as (count_1 & Hcount_1 & Hchunks_1 & Hmost_1 & Hbytes_1 & Hlength_1).
  unfold source_chunks at 1 2.
  cbn [source_of state_data state_chunkNo state_name].
  fold (source_of heap file_0). fold (source_of heap file_1).
  rewrite Hcount_0, Hcount_1, Hbytes_0, Hbytes_1.
  destruct (store_chunks_from expectedSizes _ count_0 Hnul_0 Hname_0 0
              (BufferCursor.buffer (heap (Qst.SimpleQstContainedFile.data file_0))) []
              (Chunk.new_file expectedSizes (Qst.SimpleQstContainedFile.name file_0)))
    as (Hothers_0 & stored_0 & Hget_0 & Hcontents_0);
    [lia|lia|exact Hlength_0|reflexivity|reflexivity|].
  set (files_0 := fold_left (Chunk.store_files true expectedSizes)
                    (chunks_from (S count_0) 0 (Qst.SimpleQstContainedFile.name file_0)
                       (BufferCursor.buffer (heap (Qst.SimpleQstContainedFile.data file_0)))) [])
    in *.
  destruct (store_chunks_from expectedSizes _ count_1 Hnul_1 Hname_1 0
              (BufferCursor.buffer (heap (Qst.SimpleQstContainedFile.data file_1))) files_0
              (Chunk.new_file expectedSizes (Qst.SimpleQstContainedFile.name file_1)))
    as (Hothers_1 & stored_1 & Hget_1 & Hcontents_1);
    [lia|lia|exact Hlength_1| |reflexivity|].
  { rewrite (Hothers_0 _ (not_eq_sym Hnames)). reflexivity. }
  destruct Hfile as [-> | ->].
  - exists stored_0. split; [rewrite (Hothers_1 _ Hnames); exact Hget_0|].
    rewrite Hcontents_0. unfold Chunk.contents, assembled, Chunk.new_file.
    cbn [Qst.QstContainedFile.name Qst.QstContainedFile.name2 Qst.QstContainedFile.questNo
         Qst.QstContainedFile.expectedSize Qst.QstContainedFile.data
         Qst.QstContainedFile.chunkNos BufferCursor.create BufferCursor.of_bytes
         BufferCursor.buffer app].
    rewrite Hsize_0, Hchunks_0, (left_id_L ∅ (∪)). reflexivity.
  - exists stored_1. split; [exact Hget_1|].
    rewrite Hcontents_1. unfold Chunk.contents, assembled, Chunk.new_file.
    cbn [Qst.QstContainedFile.name Qst.QstContainedFile.name2 Qst.QstContainedFile.questNo
         Qst.QstContainedFile.expectedSize Qst.QstContainedFile.data
         Qst.QstContainedFile.chunkNos BufferCursor.create BufferCursor.of_bytes
         BufferCursor.buffer app].
    rewrite Hsize_1, Hchunks_1, (left_id_L ∅ (∪)). reflexivity.
Qed.
End two_files.

Section two_files_parsed.
Variable heap : Qst.Heap.
Variables file_0 file_1 : Qst.SimpleFile.
Hypothesis Hfile_0 : portable heap file_0.
Hypothesis Hfile_1 : portable heap file_1.
Hypothesis Hnames :
  Qst.SimpleQstContainedFile.name file_0 <> Qst.SimpleQstContainedFile.name file_1.
Variable expectedSizes : gmap string Z.
Hypothesis Hsize_0 :
  expectedSizes !! Qst.SimpleQstContainedFile.name file_0
  = Some (Z.of_nat (BufferCursor.size (heap (Qst.SimpleQstContainedFile.data file_0)))).
Hypothesis Hsize_1 :
  expectedSizes !! Qst.SimpleQstContainedFile.name file_1
  = Some (Z.of_nat (BufferCursor.size (heap (Qst.SimpleQstContainedFile.data file_1)))).

Lemma first_chunk_name (file : Qst.SimpleFile) :
  portable heap file ->
  Chunk.fileName (first_chunk (source_of heap file)) = Qst.SimpleQstContainedFile.name file.
Proof.
  intros Hfile. destruct (portable_name heap file Hfile) as (Hnul & Hname).
  unfold first_chunk. cbn [source_of state_chunkNo state_name].
  apply chunk_bytes_fields; [rewrite length_take; lia|exact Hnul|exact Hname].
Qed.

(** parseFiles assembles the two files from their chunks, in whatever
    order the chunks that follow the two first chunks arrive, and logs
    nothing. *)
Lemma parseFiles_written (before : list byte) (records : list (list byte)) :
  Permutation
    (first_chunk (source_of heap file_0) :: first_chunk (source_of heap file_1) :: records)
    (source_chunks (source_of heap file_0) ++ source_chunks (source_of heap file_1)) ->
  exists cursor,
    Qst.parseFiles
      (Chunk.stream before
         (first_chunk (source_of heap file_0) :: first_chunk (source_of heap file_1) :: records)
         [] true)
      expectedSizes
    = Ok ([assembled heap file_0; assembled heap file_1], cursor, []).
Proof.
  intros Hperm.
  set (all := first_chunk (source_of heap file_0) :: first_chunk (source_of heap file_1) :: records)
    in *.
  pose proof (Permutation_Forall (Permutation_sym Hperm)
                (written_fields heap file_0 file_1 Hfile_0 Hfile_1)) as Hfields.
  assert (List.NoDup (map Chunk.key all)) as Hkeys.
  { eapply Permutation_NoDup; [apply Permutation_map, Permutation_sym, Hperm|].
    apply written_keys; assumption. }
  destruct (parseFiles_stream true expectedSizes before all [])
    as (cursor & Hparse).
  { eapply Forall_impl; [exact Hfields|]. cbv beta. intros record (H & _). exact H. }
  { simpl. lia. }
  exists cursor. rewrite Hparse. clear Hparse.
  rewrite store_log_nil;
    [|exact Hkeys
     |eapply Forall_impl; [exact Hfields|]; cbv beta; intros record (_ & _ & H); exact H].
  rewrite fold_store_fst. cbn [fst length Nat.eqb app].
  pose proof (fold_store_files_permutation true expectedSizes all _ Hperm Hkeys [] []
                (same_contents_refl [])) as Hsame.
  pose proof (stored_little_endian expectedSizes all [] ltac:(constructor)) as Hle.
  assert (map fst (fold_left (Chunk.store_files true expectedSizes) all [])
          = [Qst.SimpleQstContainedFile.name file_0;
             Qst.SimpleQstContainedFile.name file_1]) as Horder.
  { subst all. cbn [fold_left].
    assert (map fst
              (Chunk.store_files true expectedSizes
                 (Chunk.store_files true expectedSizes [] (first_chunk (source_of heap file_0)))
                 (first_chunk (source_of heap file_1)))
            = [Qst.SimpleQstContainedFile.name file_0;
               Qst.SimpleQstContainedFile.name file_1]) as Htwo.
    { unfold Chunk.store_files.
      rewrite !first_chunk_name by assumption.
      cbn [Qst.files_set].
      destruct (String.eqb_spec (Qst.SimpleQstContainedFile.name file_0)
                  (Qst.SimpleQstContainedFile.name file_1)); [contradiction|].
      reflexivity. }
    rewrite store_files_keys; [exact Htwo|]. rewrite Htwo.
    inversion Hfields as [|? ? _ Hrest]; subst.
    inversion Hrest as [|? ? _ Hrecords]; subst.
    eapply Forall_impl; [exact Hrecords|]. cbv beta. intros record (_ & H & _). exact H. }
  destruct (sequential_files heap file_0 file_1 Hfile_0 Hfile_1 Hnames expectedSizes
              Hsize_0 Hsize_1 file_0 (or_introl eq_refl)) as (stored_0 & Hget_0 & Hcontents_0).
  destruct (sequential_files heap file_0 file_1 Hfile_0 Hfile_1 Hnames expectedSizes
              Hsize_0 Hsize_1 file_1 (or_intror eq_refl)) as (stored_1 & Hget_1 & Hcontents_1).
  pose proof (Hsame (Qst.SimpleQstContainedFile.name file_0)) as Hsame_0.
  pose proof (Hsame (Qst.SimpleQstContainedFile.name file_1)) as Hsame_1.
  rewrite Hget_0 in Hsame_0. rewrite Hget_1 in Hsame_1.
  destruct (fold_left (Chunk.store_files true expectedSizes) all [])
    as [|[k0 G0] [|[k1 G1] [|]]]; try discriminate Horder.
  injection Horder as -> ->.
  cbn [Qst.files_get] in Hsame_0, Hsame_1.
  rewrite String.eqb_refl in Hsame_0.
  destruct (String.eqb_spec (Qst.SimpleQstContainedFile.name file_0)
              (Qst.SimpleQstContainedFile.name file_1)); [contradiction|].
  rewrite String.eqb_refl in Hsame_1.
  cbn [option_map] in Hsame_0, Hsame_1.
  assert (Chunk.contents G0 = Chunk.contents (assembled heap file_0)) as Hcontents_0'
    by (rewrite <- Hcontents_0; congruence).
  assert (Chunk.contents G1 = Chunk.contents (assembled heap file_1)) as Hcontents_1'
    by (rewrite <- Hcontents_1; congruence).
  inversion Hle as [|? ? Hle_0 Hle']; subst. inversion Hle' as [|? ? Hle_1 _]; subst.
  cbn [snd] in Hle_0, Hle_1.
  cbn [map snd]. rewrite !check_files_cons.
  rewrite (check_file_assembled heap file_0 G0) by assumption.
  rewrite (check_file_assembled heap file_1 G1) by assumption.
  reflexivity.
Qed.
End two_files_parsed.

(** *** The headers *)

Lemma length_record_of (heap : Qst.Heap) (file : Qst.SimpleFile) : length (Header.record_of heap file) = 88%nat.
Proof.
  unfold Header.record_of.
  rewrite !length_app, !length_le_bytes, !length_resize, repeat_length. reflexivity.
Qed.

(** parseHeaders reads from the record of a file what writeFileHeaders
    wrote into it. *)
Lemma record_of_decode (heap : Qst.Heap) (file : Qst.SimpleFile) :
  portable heap file ->
  Header.decode true (Header.record_of heap file)
  = {| Qst.QstHeader.questNo := default 0 (Qst.SimpleQstContainedFile.questNo file);
       Qst.QstHeader.fileName := Qst.SimpleQstContainedFile.name file;
       Qst.QstHeader.fileName2 := Header.fileName2 file;
       Qst.QstHeader.size :=
         Z.of_nat (BufferCursor.size (heap (Qst.SimpleQstContainedFile.data file))) |}.
Proof.
  intros ((Hname & Hname2 & _) & Hnul & Hnul2 & HquestNo & Hsize).
  unfold Header.decode, Header.ordered. f_equal.
  - unfold Header.record_of.
    erewrite (take_drop_middle _ (le_bytes 2 88 ++ le_bytes 2 0x44)
               (le_bytes 2 (default 0 (Qst.SimpleQstContainedFile.questNo file))) _);
      [|rewrite <- ?app_assoc; reflexivity
       |rewrite length_app, !length_le_bytes; reflexivity
       |apply length_le_bytes].
    apply le_value_le_bytes. change (256 ^ Z.of_nat 2) with 65536. exact HquestNo.
  - unfold Header.record_of.
    erewrite (take_drop_middle _
               (le_bytes 2 88 ++ le_bytes 2 0x44
                ++ le_bytes 2 (default 0 (Qst.SimpleQstContainedFile.questNo file))
                ++ repeat "000"%byte 38)
               (resize 16 "000"%byte
                  (list_byte_of_string (Qst.SimpleQstContainedFile.name file))) _);
      [|rewrite <- ?app_assoc; reflexivity
       |rewrite !length_app, !length_le_bytes, repeat_length; reflexivity
       |apply length_resize].
    apply name_of_field; assumption.
  - unfold Header.record_of.
    erewrite (take_drop_middle _
               (le_bytes 2 88 ++ le_bytes 2 0x44
                ++ le_bytes 2 (default 0 (Qst.SimpleQstContainedFile.questNo file))
                ++ repeat "000"%byte 38
                ++ resize 16 "000"%byte
                     (list_byte_of_string (Qst.SimpleQstContainedFile.name file))
                ++ le_bytes 4
                     (Z.of_nat (BufferCursor.size (heap (Qst.SimpleQstContainedFile.data file)))))
               (resize 24 "000"%byte (list_byte_of_string (Header.fileName2 file))) []);
      [|rewrite <- ?app_assoc, app_nil_r; reflexivity
       |rewrite !length_app, !length_le_bytes, repeat_length, length_resize; reflexivity
       |apply length_resize].
    apply name_of_field; assumption.
  - unfold Header.record_of.
    erewrite (take_drop_middle _
               (le_bytes 2 88 ++ le_bytes 2 0x44
                ++ le_bytes 2 (default 0 (Qst.SimpleQstContainedFile.questNo file))
                ++ repeat "000"%byte 38
                ++ resize 16 "000"%byte
                     (list_byte_of_string (Qst.SimpleQstContainedFile.name file)))
               (le_bytes 4
                  (Z.of_nat (BufferCursor.size (heap (Qst.SimpleQstContainedFile.data file))))) _);
      [|rewrite <- ?app_assoc; reflexivity
       |rewrite !length_app, !length_le_bytes, repeat_length, length_resize; reflexivity
       |apply length_le_bytes].
    apply le_value_le_bytes. change (256 ^ Z.of_nat 4) with 4294967296. lia.
Qed.

(** The archive of two files starts with the marks of the Blue Burst
    format. *)
Lemma records_start (heap : Qst.Heap) (file_0 : Qst.SimpleFile) (header_1 : list byte) :
  take 1 (drop 0 (Header.record_of heap file_0 ++ header_1)) = ["X"%byte]
  /\ take 1 (drop 2 (Header.record_of heap file_0 ++ header_1)) = ["D"%byte].
Proof.
  unfold Header.record_of.
  change (le_bytes 2 88) with ["X"; "000"]%byte.
  change (le_bytes 2 0x44) with ["D"; "000"]%byte.
  split; reflexivity.
Qed.

Lemma predicted_size_chunks (heap : Qst.Heap) (file : Qst.SimpleFile) :
  portable heap file ->
  Qst.predicted_size heap file
  = (88 + Header.chunks_written (heap (Qst.SimpleQstContainedFile.data file)) * 1056)%nat.
Proof.
  intros ((_ & _ & Hposition) & _ & _ & _ & Hsize).
  unfold Qst.predicted_size, Header.chunks_written, BufferCursor.bytes_left.
  rewrite Hposition, Nat.sub_0_r.
  destruct (Nat.eqb_spec (BufferCursor.size (heap (Qst.SimpleQstContainedFile.data file))) 0);
    [lia|reflexivity].
Qed.

(** *** The round trip *)

(** An archive of two files that writeQst wrote is parsed by parseQst to
    the same two files, in their order: each with its name, its payload
    bytes, its secondary name, its quest number (0 when it had none) and
    all its chunk numbers, and nothing is logged.  The files have
    different names without zero bytes and different data cursors, and
    each payload has between 1 byte and 256 chunks (the chunk number is
    one byte of the record). *)
Theorem qst_round_trip (heap : Qst.Heap) (file_0 file_1 : Qst.SimpleFile) :
  portable heap file_0 -> portable heap file_1 ->
  Qst.SimpleQstContainedFile.name file_0 <> Qst.SimpleQstContainedFile.name file_1 ->
  Qst.SimpleQstContainedFile.data file_0 <> Qst.SimpleQstContainedFile.data file_1 ->
  exists cursor heap',
    Qst.writeQst heap [file_0; file_1] = Ok (cursor, heap')
    /\ Qst.parseQst cursor
       = Ok (Some {| Qst.ParseQstResult.version := "Blue Burst";
                     Qst.ParseQstResult.files := [parsed heap file_0; parsed heap file_1] |},
             []).
Proof.
  intros Hfile_0 Hfile_1 Hnames Hrefs.
  pose proof Hfile_0 as ((Hname_0 & Hname2_0 & Hposition_0) & _).
  pose proof Hfile_1 as ((Hname_1 & Hname2_1 & Hposition_1) & _).
  set (header_0 := Header.record_of heap file_0).
  set (header_1 := Header.record_of heap file_1).
  (* the archive *)
  destruct (write_rounds_records
              (S (list_max (map (fun file => BufferCursor.bytes_left
                                               (heap (Qst.SimpleQstContainedFile.data file)))
                              [file_0; file_1])))
              (map (fun file => {| Qst.source_data := Qst.SimpleQstContainedFile.data file;
                                   Qst.source_chunkNo := 0;
                                   Qst.source_name := Qst.SimpleQstContainedFile.name file |})
                 [file_0; file_1])
              heap
              (Header.appended (BufferCursor.create true) (header_0 ++ header_1)))
    as (records & heap' & Hrounds & Hperm).
  { apply appended_at_end. }
  { reflexivity. }
  { cbn [map Qst.source_data]. constructor; [|constructor; [|constructor]].
    - intros [E|[]]. exact (Hrefs (eq_sym E)).
    - intros []. }
  { repeat (constructor; [cbn [state_of state_data Qst.source_data]; lia|]). constructor. }
  { unfold list_max. cbn [map fold_right].
    repeat (constructor; [cbn [state_of state_data Qst.source_data]; lia|]). constructor. }
  assert (Qst.writeFileChunks heap
            (Header.appended (BufferCursor.create true) (header_0 ++ header_1))
            [file_0; file_1]
          = Ok (Header.appended
                  (Header.appended (BufferCursor.create true) (header_0 ++ header_1))
                  (concat (first_chunk (source_of heap file_0)
                           :: first_chunk (source_of heap file_1) :: records)),
                heap')) as Hchunks
    by exact Hrounds.
  change (map (state_of heap)
            (map (fun file => {| Qst.source_data := Qst.SimpleQstContainedFile.data file;
                                 Qst.source_chunkNo := 0;
                                 Qst.source_name := Qst.SimpleQstContainedFile.name file |})
               [file_0; file_1]))
    with [source_of heap file_0; source_of heap file_1] in Hperm.
  clear Hrounds.
  cbn [map] in Hperm. cbn [concat app] in Hperm. rewrite app_nil_r in Hperm.
  set (all := first_chunk (source_of heap file_0) :: first_chunk (source_of heap file_1) :: records)
    in *.
  assert (Forall (fun record => length record = 1056%nat) all) as Hlengths.
  { pose proof (Permutation_Forall (Permutation_sym Hperm)
                  (written_fields heap file_0 file_1 Hfile_0 Hfile_1)) as Hfields.
    eapply Forall_impl; [exact Hfields|]. cbv beta. intros record (H & _). exact H. }
  assert (length (concat all)
          = ((Header.chunks_written (heap (Qst.SimpleQstContainedFile.data file_0))
              + Header.chunks_written (heap (Qst.SimpleQstContainedFile.data file_1))) * 1056)%nat)
    as Hlength.
  { assert (length (concat all) = (length all * 1056)%nat) as ->.
    { clear -Hlengths. induction Hlengths as [|r rs Hr _ IH]; [reflexivity|].
      cbn [concat length]. rewrite length_app, Hr, IH. lia. }
    rewrite (Permutation_length Hperm), length_app.
    unfold source_chunks.
    assert (forall count chunkNo name bytes,
              length (chunks_from count chunkNo name bytes) = count) as Hcount.
    { induction count as [|count IH]; intros; [reflexivity|].
      cbn [chunks_from length]. rewrite IH. reflexivity. }
    rewrite !Hcount. reflexivity. }
  exists {| BufferCursor.buffer := (header_0 ++ header_1) ++ concat all;
            BufferCursor.position := 0;
            BufferCursor.little_endian := true |}, heap'.
  split.
  { unfold Qst.writeQst. cbn [map fold_left Qst.writeFileHeaders].
    rewrite write_file_header_appended by (reflexivity || assumption). cbn [rbind].
    rewrite write_file_header_appended
      by (apply appended_at_end || reflexivity || assumption).
    cbn [rbind]. rewrite appended_appended. fold header_0 header_1.
    rewrite Hchunks. cbn [rbind]. cbv beta iota. rewrite appended_appended.
    assert (BufferCursor.size
              (Header.appended (BufferCursor.create true)
                 ((header_0 ++ header_1) ++ concat all))
            = (Qst.predicted_size heap file_0 + Qst.predicted_size heap file_1)%nat) as Hsize.
    { rewrite size_appended, length_app, length_app, Hlength.
      subst header_0 header_1. rewrite !length_record_of.
      rewrite !predicted_size_chunks by assumption.
      unfold BufferCursor.size, BufferCursor.create. cbn [BufferCursor.buffer length].
      lia. }
    rewrite Hsize, Nat.eqb_refl. cbn [negb].
    unfold BufferCursor.seek_start. rewrite Hsize.
    destruct (Z.ltb_spec 0 0); [lia|].
    destruct (Z.ltb_spec (Z.of_nat (Qst.predicted_size heap file_0 + Qst.predicted_size heap file_1)) 0);
      [lia|].
    reflexivity. }
  (* the version *)
  change {| BufferCursor.buffer := (header_0 ++ header_1) ++ concat all;
            BufferCursor.position := 0;
            BufferCursor.little_endian := true |}
    with (Chunk.inside [] (header_0 ++ header_1) (concat all) true 0).
  assert (length (header_0 ++ header_1) = 176%nat) as Hheaders
    by (subst header_0 header_1; rewrite length_app, !length_record_of; reflexivity).
  destruct (records_start heap file_0 header_1) as (HversionA & HversionB).
  fold header_0 in HversionA, HversionB.
  unfold Qst.parseQst, BufferCursor.u8.
  rewrite (u_inside [] (header_0 ++ header_1) (concat all) true 0 1) by lia.
  cbn [rbind]. change (0 + 1)%nat with 1%nat.
  rewrite (seek_inside [] (header_0 ++ header_1) (concat all) true 1 1 2) by lia.
  cbn [rbind].
  rewrite (u_inside [] (header_0 ++ header_1) (concat all) true 2 1) by lia.
  cbn [rbind]. rewrite HversionA, HversionB.
  change (Qst.detect_version (le_value ["X"%byte]) (le_value ["D"%byte])) with "Blue Burst".
  cbn [String.eqb Ascii.eqb Bool.eqb].
  (* the headers *)
  assert (BufferCursor.seek_start
            (Chunk.inside [] (header_0 ++ header_1) (concat all) true (2 + 1)) 0
          = Ok (Chunk.inside [] (header_0 ++ header_1) (concat all) true 0)) as ->.
  { unfold BufferCursor.seek_start.
    destruct (Z.ltb_spec 0 0); [lia|].
    destruct (Z.ltb_spec (Z.of_nat (BufferCursor.size
                (Chunk.inside [] (header_0 ++ header_1) (concat all) true (2 + 1)))) 0);
      [lia|].
    reflexivity. }
  cbn [rbind].
  rewrite parseHeaders_inside by apply length_record_of.
  cbn [rbind]. subst header_0 header_1.
  rewrite !record_of_decode by assumption.
  cbn [fold_left Qst.QstHeader.fileName Qst.QstHeader.size].
  (* the files *)
  assert (Chunk.inside [] (Header.record_of heap file_0 ++ Header.record_of heap file_1)
            (concat all) true 176
          = Chunk.stream (Header.record_of heap file_0 ++ Header.record_of heap file_1) all [] true)
    as ->.
  { unfold Chunk.stream, Chunk.inside. rewrite Hheaders, app_nil_r. reflexivity. }
  destruct (parseFiles_written heap file_0 file_1 Hfile_0 Hfile_1 Hnames
              (<[Qst.SimpleQstContainedFile.name file_1 :=
                   Z.of_nat (BufferCursor.size (heap (Qst.SimpleQstContainedFile.data file_1)))]>
                 (<[Qst.SimpleQstContainedFile.name file_0 :=
                      Z.of_nat (BufferCursor.size
                                  (heap (Qst.SimpleQstContainedFile.data file_0)))]> ∅))
              ltac:(rewrite lookup_insert_ne by (apply not_eq_sym, Hnames);
                    apply lookup_insert_eq)
              ltac:(apply lookup_insert_eq)
              (Header.record_of heap file_0 ++ Header.record_of heap file_1) records Hperm)
    as (cursor & Hparse).
  fold all in Hparse. rewrite Hparse. cbn [rbind map].
  cbn [List.find Qst.QstHeader.fileName assembled Qst.QstContainedFile.name].
  rewrite String.eqb_refl.
  destruct (String.eqb_spec (Qst.SimpleQstContainedFile.name file_0)
              (Qst.SimpleQstContainedFile.name file_1)); [contradiction|].
  rewrite String.eqb_refl. reflexivity.
Qed.

Lemma simple_file_portable (heap : Qst.Heap) (name : string) (data : Qst.Ref) :
  (String.length name <= 16)%nat -> without_nul name ->
  without_nul (Qst.default_name2 name) ->
  BufferCursor.position (heap data) = 0%nat ->
  (0 < BufferCursor.size (heap data) <= 256 * 1024)%nat ->
  portable heap (Examples.simple_file name data).
Proof.
  intros Hname Hnul Hnul2 Hposition Hpayload.
  unfold portable, Header.writable, Header.fileName2.
  cbn [Examples.simple_file Qst.SimpleQstContainedFile.name Qst.SimpleQstContainedFile.name2
       Qst.SimpleQstContainedFile.questNo Qst.SimpleQstContainedFile.data default].
  pose proof (default_name2_length name) as Hlength. unfold id.
  repeat split; try assumption; try lia.
Qed.

Lemma qst_round_trip_witness :
  let heap := Examples.objects [["a"; "b"]%byte; ["c"%byte]] in
  exists cursor heap',
    Qst.writeQst heap [ Examples.simple_file "quest.dat" 0%nat;
                        Examples.simple_file "quest.bin" 1%nat ]
    = Ok (cursor, heap')
    /\ Qst.parseQst cursor
       = Ok (Some {| Qst.ParseQstResult.version := "Blue Burst";
                     Qst.ParseQstResult.files :=
                       [ parsed heap (Examples.simple_file "quest.dat" 0%nat);
                         parsed heap (Examples.simple_file "quest.bin" 1%nat) ] |},
             []).
Proof.
  intros heap. apply qst_round_trip; subst heap.
  - apply simple_file_portable;
      [cbn [String.length]; lia
      |repeat (constructor; [discriminate|]); constructor
      |repeat (constructor; [discriminate|]); constructor
      |reflexivity
      |unfold BufferCursor.size;
       cbn [Examples.objects nth BufferCursor.of_bytes BufferCursor.buffer length]; lia].
  - apply simple_file_portable;
      [cbn [String.length]; lia
      |repeat (constructor; [discriminate|]); constructor
      |repeat (constructor; [discriminate|]); constructor
      |reflexivity
      |unfold BufferCursor.size;
       cbn [Examples.objects nth BufferCursor.of_bytes BufferCursor.buffer length]; lia].
  - discriminate.
  - discriminate.
Defined.

(** *** The layout of a chunk record *)

(** writeFileChunk appends one 1056-byte record to the archive: the chunk
    number in the byte at offset 4, the file name in 16 bytes at offset
    8, up to 1024 bytes of the data at offset 24, filled with zero bytes,
    and the number of data bytes in 4 bytes at offset 1048; it moves the
    data cursor past the bytes it took.  parseFiles reads the file name,
    the size and the payload back from these offsets, and the chunk
    number modulo 256. *)
Theorem chunk_record_layout (cursor data : BufferCursor.t) (chunkNo : Z) (name : string) :
  BufferCursor.position cursor = BufferCursor.size cursor ->
  BufferCursor.little_endian cursor = true ->
  (BufferCursor.position data <= BufferCursor.size data)%nat ->
  without_nul name -> (String.length name <= 16)%nat ->
  let payload :=
    take 1024 (drop (BufferCursor.position data) (BufferCursor.buffer data)) in
  exists record,
    Qst.writeFileChunk cursor data chunkNo name
    = Ok (Header.appended cursor record,
          BufferCursor.with_position data (BufferCursor.position data + length payload),
          (1024 <? BufferCursor.bytes_left data)%nat)
    /\ length record = 1056%nat
    /\ take 1 (drop 4 record) = [byte_of_Z chunkNo]
    /\ take 16 (drop 8 record) = resize 16 "000"%byte (list_byte_of_string name)
    /\ take 1024 (drop 24 record) = payload ++ repeat "000"%byte (1024 - length payload)
    /\ take 4 (drop 1048 record) = le_bytes 4 (Z.of_nat (length payload))
    /\ Chunk.chunkNo record = chunkNo mod 256
    /\ Chunk.fileName record = name
    /\ Chunk.declared_size true record = Z.of_nat (length payload)
    /\ Chunk.payload true record = payload.
Proof.
  intros Hend Hle Hdata Hnul Hname payload.
  assert (length payload = Nat.min 1024 (BufferCursor.bytes_left data)) as Hlen
    by (subst payload; unfold BufferCursor.bytes_left, BufferCursor.size;
        rewrite length_take, length_drop; reflexivity).
  assert (length payload <= 1024)%nat as Hpayload by lia.
  destruct (chunk_bytes_fields chunkNo name payload Hpayload Hnul Hname)
    as (Hlength & HchunkNo & HfileName & Hsize & Hread).
  exists (chunk_bytes chunkNo name payload). split.
  { rewrite writeFileChunk_appended by assumption. fold payload.
    rewrite bytes_left_next by exact Hdata. rewrite Hlen.
    destruct (Nat.ltb_spec 1024 (BufferCursor.bytes_left data));
      destruct (Nat.eqb_spec (BufferCursor.bytes_left data - 1024) 0);
      try lia; reflexivity. }
  split; [exact Hlength|].
  split.
  { apply (take_drop_middle _ (map byte_of_Z [28; 4; 19; 0]) _
             (map byte_of_Z [0; 0; 0]
              ++ resize 16 "000"%byte (list_byte_of_string name)
              ++ payload ++ repeat "000"%byte (1024 - length payload)
              ++ le_bytes 4 (Z.of_nat (length payload)) ++ le_bytes 4 0));
      reflexivity. }
  split.
  { apply (take_drop_middle _
             (map byte_of_Z [28; 4; 19; 0] ++ [byte_of_Z chunkNo]
              ++ map byte_of_Z [0; 0; 0]) _
             (payload ++ repeat "000"%byte (1024 - length payload)
              ++ le_bytes 4 (Z.of_nat (length payload)) ++ le_bytes 4 0));
      [unfold chunk_bytes; rewrite <- ?app_assoc; reflexivity|reflexivity
      |apply length_resize]. }
  split.
  { apply (take_drop_middle _
             (map byte_of_Z [28; 4; 19; 0] ++ [byte_of_Z chunkNo]
              ++ map byte_of_Z [0; 0; 0]
              ++ resize 16 "000"%byte (list_byte_of_string name)) _
             (le_bytes 4 (Z.of_nat (length payload)) ++ le_bytes 4 0));
      [unfold chunk_bytes; rewrite <- ?app_assoc; reflexivity
      |rewrite !length_app, !length_map, length_resize; reflexivity
      |rewrite length_app, repeat_length; lia]. }
  split.
  { apply (take_drop_middle _
             (map byte_of_Z [28; 4; 19; 0] ++ [byte_of_Z chunkNo]
              ++ map byte_of_Z [0; 0; 0]
              ++ resize 16 "000"%byte (list_byte_of_string name)
              ++ payload ++ repeat "000"%byte (1024 - length payload)) _
             (le_bytes 4 0));
      [unfold chunk_bytes; rewrite <- ?app_assoc; reflexivity
      |rewrite !length_app, !length_map, length_resize, repeat_length; cbn [length]; lia
      |apply length_le_bytes]. }
  auto.
Qed.

Lemma chunk_record_layout_witness :
  exists record,
    Qst.writeFileChunk (BufferCursor.create true)
      (BufferCursor.of_bytes ["a"; "b"; "c"]%byte true) 257 "quest.dat"
    = Ok (Header.appended (BufferCursor.create true) record,
          BufferCursor.with_position (BufferCursor.of_bytes ["a"; "b"; "c"]%byte true) 3,
          false)
    /\ Chunk.chunkNo record = 1
    /\ Chunk.fileName record = "quest.dat"
    /\ Chunk.payload true record = ["a"; "b"; "c"]%byte.
Proof.
  destruct (chunk_record_layout (BufferCursor.create true)
              (BufferCursor.of_bytes ["a"; "b"; "c"]%byte true) 257 "quest.dat")
    as (record & Hwrite & _ & _ & _ & _ & _ & HchunkNo & HfileName & _ & Hpayload).
  - reflexivity.
  - reflexivity.
  - unfold BufferCursor.size. cbn [BufferCursor.of_bytes BufferCursor.position
                                    BufferCursor.buffer length]. lia.
  - repeat (constructor; [discriminate|]). constructor.
  - cbn [String.length]. lia.
  - exists record. split; [exact Hwrite|].
    split; [exact HchunkNo|split; [exact HfileName|exact Hpayload]].
Defined.
(** ** The size of an archive whose files have a payload *)

Lemma length_chunk_bytes (chunkNo : Z) (name : string) (payload : list byte) :
  (length payload <= 1024)%nat -> length (chunk_bytes chunkNo name payload) = 1056%nat.
Proof.
  intros Hpayload. unfold chunk_bytes.
  rewrite !length_app, !length_map, length_resize, repeat_length, !length_le_bytes.
  cbn [length]. lia.
Qed.

Lemma chunks_from_lengths (count : nat) (chunkNo : Z) (name : string) (bytes : list byte) :
  length (chunks_from count chunkNo name bytes) = count
  /\ Forall (fun record => length record = 1056%nat) (chunks_from count chunkNo name bytes).
Proof.
  revert chunkNo bytes. induction count as [|count IH]; intros chunkNo bytes.
  - split; [reflexivity|constructor].
  - destruct (IH (chunkNo + 1) (drop 1024 bytes)) as (Hcount & Hlengths).
    cbn [chunks_from length]. split; [rewrite Hcount; reflexivity|].
    constructor; [|exact Hlengths].
    apply length_chunk_bytes. rewrite length_take. lia.
Qed.

Lemma length_concat_records (n : nat) (records : list (list byte)) :
  Forall (fun record => length record = n) records ->
  length (concat records) = (length records * n)%nat.
Proof.
  induction 1 as [|record records Hrecord _ IH]; [reflexivity|].
  cbn [concat length]. rewrite length_app, Hrecord, IH. lia.
Qed.

(** The chunks of the files are as many as writeQst predicts when the
    data cursors stand at the start of payloads that are not empty. *)
Lemma source_chunks_predicted (heap : Qst.Heap) (files : list Qst.SimpleFile) :
  Forall (Header.writable heap) files ->
  Forall (fun file =>
            (0 < BufferCursor.size (heap (Qst.SimpleQstContainedFile.data file)))%nat)
    files ->
  Forall (fun record => length record = 1056%nat)
    (concat (map source_chunks (map (source_of heap) files)))
  /\ (length files * 88
      + length (concat (map source_chunks (map (source_of heap) files))) * 1056
      = list_sum (map (Qst.predicted_size heap) files))%nat.
Proof.
  intros Hfiles Hpayload.
  induction Hfiles as [|file files (_ & _ & Hposition) _ IH]; [split; [constructor|reflexivity]|].
  inversion Hpayload as [|? ? Hsize Hpayload']; subst.
  destruct (IH Hpayload') as (Hlengths & Hsum).
  cbn [map concat length list_sum]. unfold source_chunks at 1 3.
  cbn [source_of state_data state_chunkNo state_name].
  destruct (chunks_from_lengths
              (Header.chunks_written (heap (Qst.SimpleQstContainedFile.data file))) 0
              (Qst.SimpleQstContainedFile.name file)
              (source_bytes (source_of heap file))) as (Hcount & Hfirst).
  split; [apply Forall_app; split; assumption|].
  rewrite length_app, Hcount.
  unfold Qst.predicted_size at 1. unfold Header.chunks_written, BufferCursor.bytes_left.
  rewrite Hposition, Nat.sub_0_r.
  destruct (Nat.eqb_spec (BufferCursor.size (heap (Qst.SimpleQstContainedFile.data file))) 0);
    [lia|].
  unfold list_sum in *. cbn [fold_right]. lia.
Qed.

(** For files that have different data cursors, which stand at the start
    of payloads that are not empty, and whose names fit, writeQst
    succeeds: the chunks written are as many as the chunks predicted, and
    the archive has the predicted size. *)
Lemma writeQst_size (heap : Qst.Heap) (files : list Qst.SimpleFile) :
  files <> [] ->
  List.NoDup (map Qst.SimpleQstContainedFile.data files) ->
  Forall (Header.writable heap) files ->
  Forall (fun file =>
            (0 < BufferCursor.size (heap (Qst.SimpleQstContainedFile.data file)))%nat)
    files ->
  exists cursor heap',
    Qst.writeQst heap files = Ok (cursor, heap')
    /\ BufferCursor.size cursor = list_sum (map (Qst.predicted_size heap) files)
    /\ BufferCursor.position cursor = 0%nat.
Proof.
  intros Hne Hrefs Hfiles Hpayload. unfold Qst.writeQst.
  destruct (map (Qst.predicted_size heap) files) as [|size_0 sizes] eqn:Esizes.
  { destruct files; [contradiction|discriminate]. }
  rewrite writeFileHeaders_appended;
    [|reflexivity|reflexivity
     |eapply Forall_impl; [exact Hfiles|]; intros file (Hname & Hname2 & _); split; assumption].
  cbn [rbind]. unfold Qst.writeFileChunks.
  set (sources := map (fun file => {| Qst.source_data := Qst.SimpleQstContainedFile.data file;
                                      Qst.source_chunkNo := 0;
                                      Qst.source_name := Qst.SimpleQstContainedFile.name file |})
                    files).
  assert (map (state_of heap) sources = map (source_of heap) files) as Hstates
    by (subst sources; rewrite map_map; reflexivity).
  set (cursor1 := Header.appended (BufferCursor.create true)
                    (concat (map (Header.record_of heap) files))).
  destruct (write_rounds_records
              (S (list_max (map (fun file =>
                                   BufferCursor.bytes_left
                                     (heap (Qst.SimpleQstContainedFile.data file))) files)))
              sources heap cursor1)
    as (records & heap' & -> & Hperm).
  { apply appended_at_end. }
  { reflexivity. }
  { subst sources. rewrite map_map. exact Hrefs. }
  { rewrite Hstates. apply Forall_map. eapply Forall_impl; [exact Hfiles|].
    intros file (_ & _ & Hposition). cbn [source_of state_data]. lia. }
  { rewrite Hstates. apply Forall_map. apply List.Forall_forall. intros file Hin.
    cbn [source_of state_data].
    pose proof (proj1 (list_max_le
                         (map (fun file =>
                                 BufferCursor.bytes_left
                                   (heap (Qst.SimpleQstContainedFile.data file))) files)
                         _) (Nat.le_refl _)) as Hmax.
    rewrite List.Forall_forall in Hmax.
    specialize (Hmax _ (in_map (fun file =>
                                  BufferCursor.bytes_left
                                    (heap (Qst.SimpleQstContainedFile.data file)))
                          files file Hin)).
    cbv beta in Hmax. lia. }
  cbn [rbind]. cbv beta iota. rewrite Hstates in Hperm |- *.
  destruct (source_chunks_predicted heap files Hfiles Hpayload) as (Hlengths & Hsum).
  set (cursor2 := Header.appended cursor1
                    (concat (map first_chunk (map (source_of heap) files) ++ records))).
  assert (BufferCursor.size cursor2 = list_sum (map (Qst.predicted_size heap) files))
    as Htotal.
  { subst cursor2 cursor1. rewrite !size_appended.
    rewrite (length_concat_records 88 (map (Header.record_of heap) files)).
    2:{ apply Forall_map, List.Forall_forall. intros file _. apply length_record_of. }
    rewrite (length_concat_records 1056
               (map first_chunk (map (source_of heap) files) ++ records)).
    2:{ apply (Permutation_Forall (Permutation_sym Hperm)), Hlengths. }
    rewrite (Permutation_length Hperm), length_map, <- Hsum.
    unfold BufferCursor.size, BufferCursor.create. cbn [BufferCursor.buffer length]. lia. }
  rewrite fold_left_add.
  assert (size_0 + list_sum sizes = BufferCursor.size cursor2)%nat as ->
    by (rewrite Htotal, Esizes; reflexivity).
  rewrite Nat.eqb_refl. cbn [negb].
  unfold BufferCursor.seek_start.
  destruct (Z.ltb_spec 0 0); [lia|].
  destruct (Z.ltb_spec (Z.of_nat (BufferCursor.size cursor2)) 0); [lia|].
  cbn [orb rbind]. eexists _, _. split; [reflexivity|]. split; [|reflexivity].
  rewrite <- Esizes. exact Htotal.
Qed.

Lemma writeQst_size_witness :
  let heap := Examples.objects [repeat "a"%byte 1025; ["b"%byte]] in
  exists cursor heap',
    Qst.writeQst heap [ Examples.simple_file "quest.dat" 0%nat;
                        Examples.simple_file "quest.bin" 1%nat ]
    = Ok (cursor, heap')
    /\ BufferCursor.size cursor = (88 + 2 * 1056 + (88 + 1056))%nat
    /\ BufferCursor.position cursor = 0%nat.
Proof.
  intros heap.
  destruct (writeQst_size heap [ Examples.simple_file "quest.dat" 0%nat;
                                 Examples.simple_file "quest.bin" 1%nat ])
    as (cursor & heap' & Hwrite & Hsize & Hposition).
  - discriminate.
  - repeat (constructor; [cbn; intuition discriminate|]). constructor.
  - repeat (constructor; [repeat split; vm_compute; lia|]). constructor.
  - repeat (constructor; [vm_compute; lia|]). constructor.
  - exists cursor, heap'. split; [exact Hwrite|]. split; [|exact Hposition].
    rewrite Hsize. vm_compute. reflexivity.
Defined.

Lemma write_rounds_nil (rounds : nat) (heap : Qst.Heap) (cursor : BufferCursor.t) :
  Qst.write_rounds rounds heap cursor [] = Ok (cursor, heap).
Proof. destruct rounds; reflexivity. Qed.

(** Two files that share one data cursor of more than one and at most
    two chunks: in the first round the first file takes 1024 bytes and
    stays, and the second file takes the rest and is removed; in the
    second round the first file writes a chunk without bytes.  Three
    chunks are written where four are predicted, and writeQst throws. *)
Lemma writeQst_shared_cursor (heap : Qst.Heap) (file_0 file_1 : Qst.SimpleFile) :
  names_fit file_0 -> names_fit file_1 ->
  Qst.SimpleQstContainedFile.data file_1 = Qst.SimpleQstContainedFile.data file_0 ->
  BufferCursor.position (heap (Qst.SimpleQstContainedFile.data file_0)) = 0%nat ->
  (1024 < BufferCursor.size (heap (Qst.SimpleQstContainedFile.data file_0)) <= 2048)%nat ->
  Qst.writeQst heap [file_0; file_1] = Throw (SizeMismatch 4400 3344).
Proof.
  intros Hfit_0 Hfit_1 Hshared Hposition Hsize. unfold Qst.writeQst.
  set (ref := Qst.SimpleQstContainedFile.data file_0) in *.
  assert (forall file, Qst.SimpleQstContainedFile.data file = ref ->
                       Qst.predicted_size heap file = 2200%nat) as Hpredicted.
  { intros file Hfile. unfold Qst.predicted_size. rewrite Hfile.
    assert ((BufferCursor.size (heap ref) + 1023) / 1024 = 2)%nat as ->; [|reflexivity].
    symmetry. apply (Nat.div_unique _ _ _ (BufferCursor.size (heap ref) - 1025)); lia. }
  cbn [map]. rewrite (Hpredicted file_0 eq_refl), (Hpredicted file_1 Hshared).
  cbn [fold_left].
  rewrite writeFileHeaders_appended;
    [|reflexivity|reflexivity
     |constructor; [exact Hfit_0|constructor; [exact Hfit_1|constructor]]].
  cbn [rbind]. unfold Qst.writeFileChunks. cbn [map]. fold ref. rewrite Hshared.
  assert (BufferCursor.bytes_left (heap ref) = BufferCursor.size (heap ref)) as Hleft
    by (unfold BufferCursor.bytes_left; rewrite Hposition; lia).
  assert (list_max [BufferCursor.bytes_left (heap ref); BufferCursor.bytes_left (heap ref)]
          = S (BufferCursor.size (heap ref) - 1)) as ->
    by (unfold list_max; cbn [fold_right]; lia).
  set (cursor1 := Header.appended (BufferCursor.create true)
                    (concat (map (Header.record_of heap) [file_0; file_1]))).
  (* the first round *)
  cbn [Qst.write_rounds Qst.write_round Qst.source_data Qst.source_chunkNo
       Qst.source_name].
  rewrite writeFileChunk_appended by (apply appended_at_end || reflexivity || lia).
  cbn [rbind].
  set (data1 := BufferCursor.with_position (heap ref)
                  (BufferCursor.position (heap ref)
                   + Nat.min 1024 (BufferCursor.bytes_left (heap ref)))).
  assert (BufferCursor.bytes_left data1 = (BufferCursor.size (heap ref) - 1024)%nat
          /\ (BufferCursor.position data1 <= BufferCursor.size data1)%nat) as (Hleft1 & Hvalid1).
  { subst data1. rewrite bytes_left_next by lia.
    unfold BufferCursor.size, BufferCursor.with_position in *.
    cbn [BufferCursor.buffer BufferCursor.position]. lia. }
  assert (Qst.heap_set heap ref data1 ref = data1) as ->
    by (unfold Qst.heap_set; rewrite Nat.eqb_refl; reflexivity).
  rewrite writeFileChunk_appended by (apply appended_at_end || reflexivity || exact Hvalid1).
  cbn [rbind].
  set (data2 := BufferCursor.with_position data1
                  (BufferCursor.position data1
                   + Nat.min 1024 (BufferCursor.bytes_left data1))).
  assert (BufferCursor.bytes_left data2 = 0%nat
          /\ (BufferCursor.position data2 <= BufferCursor.size data2)%nat) as (Hleft2 & Hvalid2).
  { subst data2. rewrite bytes_left_next by exact Hvalid1.
    unfold BufferCursor.bytes_left, BufferCursor.size, BufferCursor.with_position in *.
    cbn [BufferCursor.buffer BufferCursor.position] in *. lia. }
  rewrite Hleft1, Hleft2.
  destruct (Nat.eqb_spec (BufferCursor.size (heap ref) - 1024) 0) as [E|_]; [lia|].
  cbn [Nat.eqb negb Qst.source_data Qst.source_chunkNo Qst.source_name].
  (* the second round *)
  cbn [Qst.write_rounds Qst.write_round Qst.source_data Qst.source_chunkNo
       Qst.source_name].
  assert (Qst.heap_set (Qst.heap_set heap ref data1) ref data2 ref = data2) as ->
    by (unfold Qst.heap_set; rewrite Nat.eqb_refl; reflexivity).
  rewrite writeFileChunk_appended by (apply appended_at_end || reflexivity || exact Hvalid2).
  cbn [rbind]. rewrite bytes_left_next by exact Hvalid2. rewrite Hleft2.
  cbn [Nat.sub Nat.eqb negb]. rewrite write_rounds_nil. cbn [rbind]. cbv beta iota.
  (* the size *)
  rewrite !size_appended.
  rewrite !length_chunk_bytes by (rewrite length_take; lia).
  cbn [map concat]. rewrite !length_app, !length_record_of.
  reflexivity.
Qed.

(** *** The loop of writeFileChunks ends *)

Lemma writeFileChunk_takes (cursor data : BufferCursor.t) (chunkNo : Z) (name : string) :
  (BufferCursor.position data <= BufferCursor.size data)%nat ->
  exists cursor' data',
    Qst.writeFileChunk cursor data chunkNo name
    = Ok (cursor', data', negb (BufferCursor.bytes_left data' =? 0)%nat)
    /\ (BufferCursor.position data' <= BufferCursor.size data')%nat
    /\ BufferCursor.bytes_left data' = (BufferCursor.bytes_left data - 1024)%nat.
Proof.
  intros Hdata. unfold Qst.writeFileChunk.
  set (n := Nat.min 1024 (BufferCursor.bytes_left data)).
  assert (BufferCursor.position data + n <= BufferCursor.size data)%nat as Hn
    by (unfold BufferCursor.bytes_left in n; lia).
  unfold BufferCursor.take, BufferCursor.read.
  destruct (Nat.leb_spec (BufferCursor.position data + n) (BufferCursor.size data)); [|lia].
  cbn [rbind fst snd]. eexists _, _. split; [reflexivity|].
  unfold BufferCursor.bytes_left, BufferCursor.size, BufferCursor.with_position in *.
  cbn [BufferCursor.buffer BufferCursor.position]. lia.
Qed.

(** A round returns, whether or not entries share a data cursor; no
    data cursor has more bytes left after it, and the data cursors of the
    entries that stay have fewer. *)
Lemma write_round_returns (sources : list Qst.ChunkSource) (heap : Qst.Heap)
    (cursor : BufferCursor.t) :
  (forall ref, (BufferCursor.position (heap ref) <= BufferCursor.size (heap ref))%nat) ->
  exists cursor' heap' sources',
    Qst.write_round heap cursor sources = Ok (cursor', heap', sources')
    /\ (forall ref,
          (BufferCursor.position (heap' ref) <= BufferCursor.size (heap' ref))%nat)
    /\ (forall ref,
          (BufferCursor.bytes_left (heap' ref) <= BufferCursor.bytes_left (heap ref))%nat)
    /\ (forall bound : nat,
          Forall (fun source =>
                    (BufferCursor.bytes_left (heap (Qst.source_data source)) < S bound)%nat)
            sources ->
          Forall (fun source =>
                    (BufferCursor.bytes_left (heap' (Qst.source_data source)) < bound)%nat)
            sources').
Proof.
  revert heap cursor. induction sources as [|source sources IH]; intros heap cursor Hvalid.
  - exists cursor, heap, []. split; [reflexivity|]. split; [exact Hvalid|].
    split; [intros ref; lia|]. intros bound _. constructor.
  - cbn [Qst.write_round].
    destruct (writeFileChunk_takes cursor (heap (Qst.source_data source))
                (Qst.source_chunkNo source) (Qst.source_name source)
                (Hvalid (Qst.source_data source)))
      as (cursor1 & data1 & -> & Hvalid1 & Hleft1).
    cbn [rbind].
    set (heap1 := Qst.heap_set heap (Qst.source_data source) data1).
    assert (forall ref,
              (BufferCursor.position (heap1 ref) <= BufferCursor.size (heap1 ref))%nat)
      as Hvalid_heap1.
    { intros ref. unfold heap1, Qst.heap_set.
      destruct (Nat.eqb ref (Qst.source_data source)); [exact Hvalid1|apply Hvalid]. }
    assert (forall ref,
              (BufferCursor.bytes_left (heap1 ref) <= BufferCursor.bytes_left (heap ref))%nat)
      as Hless1.
    { intros ref. unfold heap1, Qst.heap_set.
      destruct (Nat.eqb_spec ref (Qst.source_data source)) as [->|_]; lia. }
    destruct (IH heap1 cursor1 Hvalid_heap1)
      as (cursor2 & heap2 & sources2 & -> & Hvalid2 & Hless2 & Hbound2).
    cbn [rbind]. eexists _, _, _. split; [reflexivity|]. split; [exact Hvalid2|].
    split; [intros ref; specialize (Hless1 ref); specialize (Hless2 ref); lia|].
    intros bound Hbound. inversion Hbound as [|? ? Hsource Hsources]; subst.
    assert (Forall (fun source' =>
                      (BufferCursor.bytes_left (heap2 (Qst.source_data source')) < bound)%nat)
              sources2) as Hrest.
    { apply Hbound2. eapply Forall_impl; [exact Hsources|]. cbv beta.
      intros source' H. specialize (Hless1 (Qst.source_data source')). lia. }
    destruct (Nat.eqb_spec (BufferCursor.bytes_left data1) 0) as [E|E]; cbn [negb];
      [exact Hrest|].
    constructor; [|exact Hrest]. cbn [Qst.source_data].
    specialize (Hless2 (Qst.source_data source)).
    assert (heap1 (Qst.source_data source) = data1) as Hdata1
      by (unfold heap1, Qst.heap_set; rewrite Nat.eqb_refl; reflexivity).
    rewrite Hdata1 in Hless2. lia.
Qed.

Lemma write_rounds_returns (rounds : nat) (sources : list Qst.ChunkSource)
    (heap : Qst.Heap) (cursor : BufferCursor.t) :
  (forall ref, (BufferCursor.position (heap ref) <= BufferCursor.size (heap ref))%nat) ->
  Forall (fun source =>
            (BufferCursor.bytes_left (heap (Qst.source_data source)) < rounds)%nat)
    sources ->
  exists cursor' heap', Qst.write_rounds rounds heap cursor sources = Ok (cursor', heap').
Proof.
  revert sources heap cursor.
  induction rounds as [|rounds IH]; intros sources heap cursor Hvalid Hbound.
  - destruct sources as [|source sources]; [|inversion Hbound; subst; lia].
    exists cursor, heap. reflexivity.
  - destruct sources as [|source sources]; [exists cursor, heap; reflexivity|].
    cbn [Qst.write_rounds].
    destruct (write_round_returns (source :: sources) heap cursor Hvalid)
      as (cursor1 & heap1 & sources1 & -> & Hvalid1 & _ & Hbound1).
    cbn [rbind]. apply IH; [exact Hvalid1|]. apply Hbound1, Hbound.
Qed.

(** writeFileChunks returns for every list of files whose data cursors
    stand inside their bytes, whether or not files share a data cursor:
    the bound on the rounds of the loop is never reached. *)
Lemma writeFileChunks_returns (heap : Qst.Heap) (cursor : BufferCursor.t)
    (files : list Qst.SimpleFile) :
  (forall ref, (BufferCursor.position (heap ref) <= BufferCursor.size (heap ref))%nat) ->
  exists cursor' heap', Qst.writeFileChunks heap cursor files = Ok (cursor', heap').
Proof.
  intros Hvalid. unfold Qst.writeFileChunks.
  apply write_rounds_returns; [exact Hvalid|].
  apply Forall_map, List.Forall_forall. intros file Hin. cbn [Qst.source_data].
  pose proof (proj1 (list_max_le
                       (map (fun file =>
                               BufferCursor.bytes_left
                                 (heap (Qst.SimpleQstContainedFile.data file))) files)
                       _) (Nat.le_refl _)) as Hmax.
  rewrite List.Forall_forall in Hmax.
  specialize (Hmax _ (in_map (fun file =>
                                BufferCursor.bytes_left
                                  (heap (Qst.SimpleQstContainedFile.data file)))
                        files file Hin)).
  cbv beta in Hmax. lia.
Qed.

(** ** The files that parseFiles returns *)

Lemma files_get_none_keys (files : Qst.FileMap) (k : string) :
  Qst.files_get files k = None -> k ∉ map fst files.
Proof.
  induction files as [|[k0 f0] files IH]; simpl; intros Hget Hin.
  - inversion Hin.
  - destruct (String.eqb_spec k0 k) as [->|Hne]; [discriminate|].
    inversion Hin; subst; [contradiction|]. exact (IH Hget ltac:(assumption)).
Qed.

Lemma files_get_some_keys (files : Qst.FileMap) (k : string) (f : Qst.File) :
  Qst.files_get files k = Some f -> k ∈ map fst files.
Proof.
  induction files as [|[k0 f0] files IH]; simpl; [discriminate|].
  destruct (String.eqb_spec k0 k) as [->|Hne]; [intros _; left|].
  intros Hget. right. exact (IH Hget).
Qed.

(** The files of the map are in the order in which their names occur
    first among the records. *)
Lemma stored_order (little_endian : bool) (expectedSizes : gmap string Z)
    (records : list (list byte)) (files : Qst.FileMap) :
  map fst (fold_left (Chunk.store_files little_endian expectedSizes) records files)
  = map fst files
    ++ filter (fun name => name ∉ map fst files)
         (first_occurrences (map Chunk.fileName records)).
Proof.
  revert files. induction records as [|r records IH]; intros files.
  - cbn. rewrite app_nil_r. reflexivity.
  - cbn [fold_left map first_occurrences]. rewrite IH.
    assert (map fst (Chunk.store_files little_endian expectedSizes files r)
            = match Qst.files_get files (Chunk.fileName r) with
              | Some _ => map fst files
              | None => map fst files ++ [Chunk.fileName r]
              end) as ->
      by (unfold Chunk.store_files; apply files_set_keys).
    destruct (Qst.files_get files (Chunk.fileName r)) as [f|] eqn:Hget.
    + apply files_get_some_keys in Hget.
      rewrite filter_cons_False by (intros H; exact (H Hget)).
      rewrite list_filter_filter. f_equal. apply list_filter_iff.
      intros name. split; [|tauto]. intros H. split; [exact H|].
      intros ->. exact (H Hget).
    + apply files_get_none_keys in Hget.
      rewrite filter_cons_True by exact Hget.
      rewrite <- app_assoc. cbn [app]. do 2 f_equal.
      rewrite list_filter_filter. apply list_filter_iff.
      intros name. rewrite elem_of_app, list_elem_of_singleton. tauto.
Qed.

Lemma first_occurrences_NoDup (names : list string) : NoDup (first_occurrences names).
Proof.
  induction names as [|name names IH]; cbn [first_occurrences]; [constructor|].
  constructor.
  - intros Hin. apply list_elem_of_filter in Hin as [Hne _]. exact (Hne eq_refl).
  - apply NoDup_filter, IH.
Qed.

Lemma first_occurrences_elem_of (names : list string) (name : string) :
  name ∈ first_occurrences names <-> name ∈ names.
Proof.
  induction names as [|name0 names IH]; cbn [first_occurrences]; [reflexivity|].
  rewrite !elem_of_cons, list_elem_of_filter, IH.
  destruct (decide (name = name0)); tauto.
Qed.

Lemma stored_names (little_endian : bool) (expectedSizes : gmap string Z)
    (records : list (list byte)) :
  map fst (fold_left (Chunk.store_files little_endian expectedSizes) records [])
  = first_occurrences (map Chunk.fileName records).
Proof.
  rewrite stored_order. cbn [map app].
  induction (first_occurrences (map Chunk.fileName records)) as [|name names IH];
    [reflexivity|].
  rewrite filter_cons_True by (intros Hin; inversion Hin). f_equal. exact IH.
Qed.

Lemma files_get_entry (files : Qst.FileMap) (k : string) (f : Qst.File) :
  NoDup (map fst files) -> In (k, f) files -> Qst.files_get files k = Some f.
Proof.
  induction files as [|[k0 f0] files IH]; [contradiction|].
  cbn [map fst]. intros Hkeys Hin. apply NoDup_cons in Hkeys as [Hk0 Hkeys]. simpl.
  destruct Hin as [E|Hin].
  - injection E as -> ->. rewrite String.eqb_refl. reflexivity.
  - destruct (String.eqb_spec k0 k) as [->|_]; [|exact (IH Hkeys Hin)].
    exfalso. apply Hk0. apply list_elem_of_In, in_map_iff. exists (k, f). split; [reflexivity|exact Hin].
Qed.

Lemma size_write_payload (data : BufferCursor.t) (chunkNo : Z) (payload : list byte) :
  0 <= chunkNo ->
  Z.of_nat (BufferCursor.size (Chunk.write_payload data chunkNo payload))
  = Z.max (chunkNo * 1024 + Z.of_nat (length payload)) (Z.of_nat (BufferCursor.size data)).
Proof.
  intros H. unfold BufferCursor.size at 1. rewrite buffer_write_payload by exact H.
  rewrite length_overlay. unfold BufferCursor.size. lia.
Qed.

(** What the map of files holds for a name after a sequence of whole
    records. *)
Lemma stored_file (little_endian : bool) (expectedSizes : gmap string Z)
    (records : list (list byte)) (name : string) (file : Qst.File) :
  Forall (fun record => length record = 1056%nat) records ->
  Qst.files_get (fold_left (Chunk.store_files little_endian expectedSizes) records []) name
  = Some file ->
  Qst.QstContainedFile.name file = name
  /\ Qst.QstContainedFile.name2 file = None
  /\ Qst.QstContainedFile.questNo file = None
  /\ Qst.QstContainedFile.expectedSize file = expectedSizes !! name
  /\ (forall chunkNo : Z,
        chunkNo ∈ Qst.QstContainedFile.chunkNos file
        <-> exists record, In record records /\ Chunk.key record = (name, chunkNo))
  /\ (forall record,
        In record records -> Chunk.fileName record = name ->
        Chunk.chunkNo record * 1024 + Chunk.size little_endian record
        <= Z.of_nat (BufferCursor.size (Qst.QstContainedFile.data file)))
  /\ (exists record,
        In record records /\ Chunk.fileName record = name
        /\ Z.of_nat (BufferCursor.size (Qst.QstContainedFile.data file))
           = Chunk.chunkNo record * 1024 + Chunk.size little_endian record).
Proof.
  revert file. induction records as [|r records IH] using rev_ind; intros file Hrecords;
    [discriminate|].
  apply Forall_app in Hrecords as [Hrecords Hr]. apply Forall_cons in Hr as [Hr _].
  rewrite fold_left_app. cbn [fold_left].
  set (files := fold_left (Chunk.store_files little_endian expectedSizes) records []) in *.
  unfold Chunk.store_files. rewrite files_get_set.
  pose proof (chunkNo_nonneg r) as HchunkNo.
  pose proof (chunk_size_range little_endian r) as Hsize.
  pose proof (chunk_payload_length little_endian r Hr) as Hpayload.
  destruct (String.eqb_spec (Chunk.fileName r) name) as [E|E].
  - intros Hfile. injection Hfile as <-. unfold Chunk.update, Chunk.file_of.
    cbn [Qst.QstContainedFile.name Qst.QstContainedFile.name2 Qst.QstContainedFile.questNo
         Qst.QstContainedFile.expectedSize Qst.QstContainedFile.data
         Qst.QstContainedFile.chunkNos].
    rewrite chunkNos_update, size_write_payload, Hpayload by exact HchunkNo.
    rewrite E. destruct (Qst.files_get files name) as [file0|] eqn:Hget;
      cbn [default]; unfold id.
    + destruct (IH file0 Hrecords eq_refl)
        as (Hname & Hname2 & HquestNo & Hexpected & HchunkNos & Hbound & Hmax).
      split; [exact Hname|]. split; [exact Hname2|]. split; [exact HquestNo|].
      split; [exact Hexpected|]. split; [|split].
      * intros chunkNo. rewrite elem_of_union, elem_of_singleton, HchunkNos. split.
        -- intros [(record & Hin & Hkey)| ->].
           ++ exists record. split; [apply in_or_app; left; exact Hin|exact Hkey].
           ++ exists r. split; [apply in_or_app; right; left; reflexivity|].
              unfold Chunk.key. rewrite E. reflexivity.
        -- intros (record & Hin & Hkey). apply in_app_or in Hin as [Hin|[<-|[]]].
           ++ left. exists record. split; assumption.
           ++ right. injection Hkey as _ <-. reflexivity.
      * intros record Hin Hrecord. apply in_app_or in Hin as [Hin|[<-|[]]].
        -- specialize (Hbound record Hin Hrecord). lia.
        -- lia.
      * destruct Hmax as (record & Hin & Hrecord & Hmax).
        destruct (Z.le_gt_cases
                    (Chunk.chunkNo r * 1024 + Chunk.size little_endian r)
                    (Z.of_nat (BufferCursor.size (Qst.QstContainedFile.data file0)))).
        -- exists record. split; [apply in_or_app; left; exact Hin|].
           split; [exact Hrecord|]. lia.
        -- exists r. split; [apply in_or_app; right; left; reflexivity|].
           split; [exact E|]. lia.
    + assert (forall record, In record records -> Chunk.fileName record = name -> False)
        as Hfresh.
      { intros record Hin Hrecord.
        destruct (stored_seen little_endian expectedSizes records record Hin)
          as (file' & Hget' & _).
        fold files in Hget'. congruence. }
      unfold Chunk.new_file.
      cbn [Qst.QstContainedFile.name Qst.QstContainedFile.name2 Qst.QstContainedFile.questNo
           Qst.QstContainedFile.expectedSize Qst.QstContainedFile.data
           Qst.QstContainedFile.chunkNos].
      do 4 (split; [reflexivity|]). split; [|split].
      * intros chunkNo. rewrite elem_of_union, elem_of_singleton. split.
        -- intros [Hin| ->]; [apply elem_of_empty in Hin; contradiction|].
           exists r. split; [apply in_or_app; right; left; reflexivity|].
           unfold Chunk.key. rewrite E. reflexivity.
        -- intros (record & Hin & Hkey). apply in_app_or in Hin as [Hin|[<-|[]]].
           ++ injection Hkey as Hrecord _. destruct (Hfresh record Hin Hrecord).
           ++ right. injection Hkey as _ <-. reflexivity.
      * intros record Hin Hrecord. apply in_app_or in Hin as [Hin|[<-|[]]].
        -- destruct (Hfresh record Hin Hrecord).
        -- unfold BufferCursor.size, BufferCursor.create. cbn [BufferCursor.buffer length].
           lia.
      * exists r. split; [apply in_or_app; right; left; reflexivity|].
        split; [exact E|].
        unfold BufferCursor.size, BufferCursor.create. cbn [BufferCursor.buffer length].
        lia.
  - intros Hget.
    destruct (IH file Hrecords Hget)
      as (Hname & Hname2 & HquestNo & Hexpected & HchunkNos & Hbound & Hmax).
    do 4 (split; [assumption|]). split; [|split].
    + intros chunkNo. rewrite HchunkNos. split.
      * intros (record & Hin & Hkey). exists record.
        split; [apply in_or_app; left; exact Hin|exact Hkey].
      * intros (record & Hin & Hkey). apply in_app_or in Hin as [Hin|[<-|[]]].
        -- exists record. split; assumption.
        -- injection Hkey as Hrecord _. contradiction.
    + intros record Hin Hrecord. apply in_app_or in Hin as [Hin|[<-|[]]].
      * exact (Hbound record Hin Hrecord).
      * contradiction.
    + destruct Hmax as (record & Hin & Hrecord & Hmax). exists record.
      split; [apply in_or_app; left; exact Hin|]. split; assumption.
Qed.

(** parseFiles returns one file for every name that occurs in the chunk
    records, in the order in which the names occur first.  A file has no
    second name and no quest number, its expected size is what the map of
    the headers' sizes holds for its name, its chunk numbers are those of
    the records with its name, and its size is the largest end
    [chunkNo * 1024 + size] of a record with its name. *)
Theorem parseFiles_files (little_endian : bool) (expectedSizes : gmap string Z)
    (before after : list byte) (records : list (list byte)) :
  Forall (fun record => length record = 1056%nat) records ->
  (length after < 1056)%nat ->
  exists files cursor log,
    Qst.parseFiles (Chunk.stream before records after little_endian) expectedSizes
    = Ok (files, cursor, log)
    /\ map Qst.QstContainedFile.name files
       = first_occurrences (map Chunk.fileName records)
    /\ Forall
         (fun file =>
            Qst.QstContainedFile.name2 file = None
            /\ Qst.QstContainedFile.questNo file = None
            /\ Qst.QstContainedFile.expectedSize file
               = expectedSizes !! Qst.QstContainedFile.name file
            /\ (forall chunkNo : Z,
                  chunkNo ∈ Qst.QstContainedFile.chunkNos file
                  <-> exists record,
                        In record records
                        /\ Chunk.key record = (Qst.QstContainedFile.name file, chunkNo))
            /\ (forall record,
                  In record records ->
                  Chunk.fileName record = Qst.QstContainedFile.name file ->
                  Chunk.chunkNo record * 1024 + Chunk.size little_endian record
                  <= Z.of_nat (BufferCursor.size (Qst.QstContainedFile.data file)))
            /\ (exists record,
                  In record records
                  /\ Chunk.fileName record = Qst.QstContainedFile.name file
                  /\ Z.of_nat (BufferCursor.size (Qst.QstContainedFile.data file))
                     = Chunk.chunkNo record * 1024 + Chunk.size little_endian record))
         files.
Proof.
  intros Hrecords Hafter.
  destruct (parseFiles_stream little_endian expectedSizes before records after
              Hrecords Hafter) as (cursor & Hparse).
  rewrite fold_store_fst in Hparse. cbn [fst] in Hparse.
  set (files := fold_left (Chunk.store_files little_endian expectedSizes) records [])
    in Hparse.
  eexists _, cursor, _. split; [exact Hparse|].
  assert (Chunk.keyed files) as Hkeyed by (apply keyed_fold; constructor).
  pose proof (stored_names little_endian expectedSizes records) as Hnames.
  fold files in Hnames. split.
  - rewrite <- Hnames. clear Hparse Hnames. unfold Chunk.keyed in Hkeyed.
    induction Hkeyed as [|[k f] files' Hk _ IH]; [reflexivity|].
    cbn [map snd fst]. rewrite check_files_cons. cbn [fst map]. f_equal; [exact Hk|exact IH].
  - apply List.Forall_forall. intros file' Hin.
    destruct (check_files_In _ _ Hin) as (file & Hfile & ->).
    apply in_map_iff in Hfile as ([k f] & <- & Hentry). cbn [snd].
    assert (Qst.files_get files k = Some f) as Hget.
    { apply files_get_entry; [|exact Hentry].
      rewrite Hnames. apply first_occurrences_NoDup. }
    destruct (stored_file little_endian expectedSizes records k f Hrecords Hget)
      as (Hname & Hname2 & HquestNo & Hexpected & HchunkNos & Hbound & Hmax).
    unfold Qst.check_file.
    cbn [fst Qst.QstContainedFile.name Qst.QstContainedFile.name2
         Qst.QstContainedFile.questNo Qst.QstContainedFile.expectedSize
         Qst.QstContainedFile.data Qst.QstContainedFile.chunkNos].
    change (BufferCursor.size (BufferCursor.with_position (Qst.QstContainedFile.data f) 0))
      with (BufferCursor.size (Qst.QstContainedFile.data f)).
    rewrite Hname. repeat split; try assumption.
    + apply HchunkNos.
    + apply HchunkNos.
Qed.

Lemma parseFiles_files_witness :
  exists files cursor log,
    Qst.parseFiles
      (Chunk.stream []
         [Examples.chunk_record 1 "quest.bin" ["x"%byte]; Examples.first_chunk_a;
          Examples.chunk_record 0 "quest.bin" ["y"%byte]] [] true) ∅
    = Ok (files, cursor, log)
    /\ map Qst.QstContainedFile.name files = ["quest.bin"; "quest.dat"].
Proof.
  destruct (parseFiles_files true ∅ [] []
              [Examples.chunk_record 1 "quest.bin" ["x"%byte]; Examples.first_chunk_a;
               Examples.chunk_record 0 "quest.bin" ["y"%byte]])
    as (files & cursor & log & Hparse & Hnames & _).
  - repeat (constructor; [vm_compute; reflexivity|]). constructor.
  - simpl. lia.
  - exists files, cursor, log. split; [exact Hparse|]. rewrite Hnames.
    vm_compute. reflexivity.
Defined.
